(* ===== verification/_CoqProject ===== *)
-Q . S2P
Prelude.v
GoFloat.v
Srates.v
Protocol.v
Status.v
GoText.v
GoTime.v
Algo.v
Accounting.v
Sha256.v
Auth.v
GoNet.v
GoConn.v
GoUrl.v
GoUtf8.v
GoJson.v
GoQuote.v
GoScan.v
GoFlag.v
Server.v
Session.v
Upstream.v
Downstream.v
Run.v
Concurrency.v
Live.v
Http.v
HttpConc.v
Echo.v
Metrics.v
Ops.v
Serve.v
