(* ===== verification/Prelude.v ===== *)
(** * diagd: a verification development

    diagd is a network test server for broadband CPE diagnostics.  It serves
    three protocols and an operational endpoint:

    - TR-471 (internal/udpst): a control server on one UDP socket admits test
      setups; each accepted setup gets a session with its own socket and
      goroutine, which waits for a Test Activation and then either receives
      the client's load stream and steers its rate by status messages
      (upstream), or generates a load stream and adjusts it from the client's
      status messages (downstream);
    - TR-143 HTTP (internal/tr143/http.go, live.go): generated downloads by
      size or duration, uploads that are counted and discarded, with a limit
      on concurrent transfers and a registry of transfers in progress;
    - TR-143 UDP Echo Plus (internal/tr143/echo.go): a stamping echo responder;
    - the command (cmd/diagd): flags, start-up, allow list, /live, /healthz,
      /metrics.

    ** How the code is modelled

    Integers are [Z] with the wrap-around of their Go type written out ([u8],
    [u16], [u32], [u64], [i32], [i64]); byte slices are [list Z]; a run-time
    panic is the value [Panic] of the type [go]; a returned error is [Err] of
    the type [result].  Mutable state is a record that each operation takes
    and returns.  What the code reads from outside is an argument: readings of
    the clock, received datagrams, outcomes of writes and of socket options,
    random draws.  Endless loops take the list of their inputs and say whether
    they have left by their own condition.  The loops of a session are also
    run against their socket ([up_conn], [dn_conn]): the outcome of a read and
    the clock after it come from the deadline the code sets and from what
    arrives, so that the end of a silent test is a consequence of the
    deadline.  A counter bounds a loop only where
    the source or the data give the bound (the 20 catch-up bursts, the rows of
    the rate table, the length of a buffer, the digits of a number), and the
    theorems on the result show that the bound is enough.

    ** Files

    - Prelude: results, integers, byte slices and big-endian fields, the
      tactics and the hint database [diagd], shared lemmas.
    - GoFloat, GoText, GoTime, GoNet, GoConn: what the program uses of float64
      (binary64 by Stdlib's SpecFloat), of strconv and strings (decimal
      numbers, lines), of package time (wall and monotonic readings,
      saturating differences), of net/netip (addresses, prefixes and their
      parsers) and of reads with a deadline.
    - GoUrl, GoUtf8, GoJson, GoQuote, GoScan, GoFlag: query strings, UTF-8,
      the JSON encoder, the verb %q, Sscanf with TrimSpace and the log
      levels, the flag package; each with its reference writer or reader and
      the round trip between the two.
    - Srates (srates.go): the row codec, the nominal rate of a row and
      BuildRateTable.  The table has exactly maxSendingRates rows; row n of
      the first region sends exactly n Mbps; rates never decrease.
    - Protocol, Status (protocol.go): the encoders and decoders of the Setup,
      Null, Test Activation, Load and Status PDUs, current and legacy layouts.
      Decoders never panic and return well-typed PDUs; PDUs round-trip;
      accepted datagrams are canonical up to reserved bytes.
    - Algo (algo.go): the rate search, both algorithms, over the interface
      [SearchTable].  The index stays in the table, moves in the right
      direction and converges.
    - Accounting (accounting.go): loss, reordering and duplicates with the
      32-entry window (refining a receiver that remembers everything), delay
      and round-trip tracking, sub-intervals (which tile the test and lose
      no datagram) and the status PDU.
    - Sha256, Auth (auth.go): the KDF and the PDU digests over the interface
      [MAC], of which HMAC-SHA-256 is the instance.  The derived keys are those
      of the counter-mode KDF of SP 800-108, stated apart from the code.
    - Server (server.go): configuration, admission, port allocation and the
      whole setup handler.  Every datagram is ignored, rejected or accepted,
      with the exact state change of each; with keys configured every session
      is authenticated.
    - Session (session.go, to line 303): the policing of parameters and the
      activation exchange, over the interface [SendTable].  Both ends agree
      on the parameters, but for the CE threshold when the socket refuses the
      traffic class; a legacy-size activation panics an authenticated
      session.
    - Upstream (runUpstream): the status cadence, the feedback loop, the
      counts, and the watchdog, at which the read deadline ends the test of a
      silent client.
    - Downstream (runDownstream, sendLoop, sleepUntil): numbering, sizes and
      pacing of the load stream; the receiver of status messages.
    - Run (session.run): a session from its setup datagram to its end, with
      the two variables its downstream goroutines share: no panic but that
      of a legacy-size activation, traffic only to the client that set it up,
      resources given back; and that only the client or its silence ends a
      test.
    - Concurrency (server.go and session.run): the critical sections of the
      server's mutex and its wait group as a step relation; the accounting of
      bandwidth and sessions in every interleaving; the sequential handler
      refines it; what Close waits for.
    - Live, Http (tr143): the registry and its grace window; request parsing,
      admission, transfer loops and completion records.
    - HttpConc (http.go, live.go): the same handler as goroutines that
      interleave at their atomic operations, with arrivals and snapshots: the
      slots, the byte totals and the registry agree in every reachable state,
      and the sequential handler refines the steps.
    - Echo (echo.go, echo_linux.go, echo_other.go): the numbered, stamped
      replies, over the interface [RxPlatform] of which the two build variants
      are the values.
    - Metrics, Ops (cmd/diagd/ops.go): the bytes of /metrics, /live and
      /healthz and what a Prometheus or JSON reader gets from them; from the
      reference in the URL of a test to the report of /live.
    - Serve (cmd/diagd/serve.go, main.go): from the arguments to the exit code:
      the flags and their defaults, the allow list, the port range, the
      configuration of the servers, the order of start and stop, the exit code
      of every end.  Each flag sets the field it names and has its documented
      default; the key is enforced on the wire and the allow list on every
      test server, from their texts on.

    ** Names

    A Go method T.m is T_m or m; a field keeps its name, with a prefix of its
    type where several types share it (Su_, Ta_, Lo_, St_ for the PDUs, ss_
    for a session at setup, se_ when activated, up_ and dn_ for the engines).
    A block of a long function that has a name of its own here is named after
    the function (setup_check, police_subMs, up_status).

    ** Outside the model

    Logging (but for the completion records of the HTTP tests, the reasons of
    setup rejections and the level and format of the logger) and the texts of
    error messages, the sockets themselves (resolving and binding an address,
    options and buffers appear as the outcomes of the calls; of a read with a
    deadline GoConn models when it returns), the
    random contents of download payloads, the redirection of paths that are
    not clean by net/http.  Parameters stand for what is not code of the
    repository: the Unicode table of printable characters (GoQuote) and the
    splitting of a control buffer into messages (Echo).  The iteration order
    of the map of live transfers is that of [map_to_list]; the theorems on
    snapshots speak of membership and of the list as it is.  A Setup datagram
    is what fits the 512-byte buffer of Serve; the decoder accepts one length
    only.  int is 64 bits wide. *)

From stdpp Require Export base list option numbers.
From Stdlib Require Export ZArith Lia.

Declare Scope go_scope.
Delimit Scope go_scope with go.
Global Open Scope Z_scope.

(** ** Results of Go code that may panic

    [Ret a] is a normal return, [Panic] a run-time panic (index or slice
    bounds out of range), which in diagd no handler recovers: a panic in any
    goroutine ends the process. *)
Inductive go (A : Type) : Type :=
| Ret (a : A)
| Panic.
Arguments Ret {A} a.
Arguments Panic {A}.

#[global] Instance go_ret : MRet go := fun A a => Ret a.
#[global] Instance go_bind : MBind go := fun A B f m =>
  match m with Ret a => f a | Panic => Panic end.

(** ** Go's fixed-width integers

    A value of an unsigned w-bit type is a [Z] in [0, 2^w); a conversion or
    an arithmetic operation reduces modulo 2^w.  Signed types wrap around in
    two's complement. *)
Definition u8 (z : Z) : Z := z mod 2 ^ 8.
Definition u16 (z : Z) : Z := z mod 2 ^ 16.
Definition u32 (z : Z) : Z := z mod 2 ^ 32.
Definition u64 (z : Z) : Z := z mod 2 ^ 64.
Definition i32 (z : Z) : Z := (z + 2 ^ 31) mod 2 ^ 32 - 2 ^ 31.
Definition i64 (z : Z) : Z := (z + 2 ^ 63) mod 2 ^ 64 - 2 ^ 63.

Definition is_u8 (z : Z) : Prop := 0 <= z < 2 ^ 8.
Definition is_u16 (z : Z) : Prop := 0 <= z < 2 ^ 16.
Definition is_u32 (z : Z) : Prop := 0 <= z < 2 ^ 32.
Definition is_u64 (z : Z) : Prop := 0 <= z < 2 ^ 64.
Definition is_i64 (z : Z) : Prop := - 2 ^ 63 <= z < 2 ^ 63.

(** ** Byte slices

    A []byte is the list of its bytes.  Reads and writes outside the length
    panic.  [slice b lo hi] is b[lo:hi]; every slice expression of the
    program stays within the length of its operand, so the capacity plays no
    part. *)
Definition bytes_ok (b : list Z) : Prop := Forall is_u8 b.

Definition make_bytes (n : nat) : list Z := replicate n 0.

Definition idx (b : list Z) (i : nat) : go Z :=
  match b !! i with Some v => Ret v | None => Panic end.

Definition set_idx (b : list Z) (i : nat) (v : Z) : go (list Z) :=
  if (i <? length b)%nat then Ret (<[i:=v]> b) else Panic.

Definition slice (b : list Z) (lo hi : nat) : go (list Z) :=
  if ((lo <=? hi) && (hi <=? length b))%nat then Ret (take (hi - lo) (drop lo b)) else Panic.

(** The bytes of [b] from [off] replaced by [bs] (both in range). *)
Definition splice (b : list Z) (off : nat) (bs : list Z) : list Z :=
  take off b ++ bs ++ drop (off + length bs) b.

(** copy(b[off:off+len(bs)], bs) on a destination that has the room. *)
Definition put_bytes (b : list Z) (off : nat) (bs : list Z) : go (list Z) :=
  if (off + length bs <=? length b)%nat then Ret (splice b off bs) else Panic.

(** f(b[lo:hi]) for a function that writes through the slice it is given:
    the sub-slice aliases [b], so its new contents are those of [b] there. *)
Definition on_slice (b : list Z) (lo hi : nat) (f : list Z -> go (list Z)) : go (list Z) :=
  s ← slice b lo hi; s' ← f s; Ret (take lo b ++ s' ++ drop hi b).

(** ** encoding/binary, big endian *)
Fixpoint be_encode (n : nat) (v : Z) : list Z :=
  match n with
  | O => []
  | S m => Z.land (Z.shiftr v (8 * Z.of_nat m)) 255 :: be_encode m v
  end.

Definition be_decode (bs : list Z) : Z :=
  fold_left (fun acc x => Z.lor (Z.shiftl acc 8) x) bs 0.

Definition PutUint16 (b : list Z) (off : nat) (v : Z) : go (list Z) := put_bytes b off (be_encode 2 v).
Definition PutUint32 (b : list Z) (off : nat) (v : Z) : go (list Z) := put_bytes b off (be_encode 4 v).
Definition PutUint64 (b : list Z) (off : nat) (v : Z) : go (list Z) := put_bytes b off (be_encode 8 v).

Definition get_be (n : nat) (b : list Z) (off : nat) : go Z :=
  s ← slice b off (off + n); Ret (be_decode s).
Definition Uint16 (b : list Z) (off : nat) : go Z := get_be 2 b off.
Definition Uint32 (b : list Z) (off : nat) : go Z := get_be 4 b off.
Definition Uint64 (b : list Z) (off : nat) : go Z := get_be 8 b off.

Arguments idx _ _%_nat.
Arguments set_idx _ _%_nat _.
Arguments slice _ _%_nat _%_nat.
Arguments splice _ _%_nat _.
Arguments put_bytes _ _%_nat _.
Arguments on_slice _ _%_nat _%_nat _.
Arguments PutUint16 _ _%_nat _.
Arguments PutUint32 _ _%_nat _.
Arguments PutUint64 _ _%_nat _.
Arguments Uint16 _ _%_nat.
Arguments Uint32 _ _%_nat.
Arguments Uint64 _ _%_nat.

(** boolByte of session.go. *)
Definition boolByte (b : bool) : Z := if b then 1 else 0.

(** ** Tactics and hint databases *)
Create HintDb diagd.

(** Turn the boolean tests of the code into propositions. *)
Ltac b2p :=
  repeat match goal with
  | H : (_ && _) = true |- _ => apply andb_true_iff in H as [? ?]
  | H : (_ && _) = false |- _ => apply andb_false_iff in H
  | H : (_ || _) = true |- _ => apply orb_true_iff in H
  | H : (_ || _) = false |- _ => apply orb_false_iff in H as [? ?]
  | H : negb _ = true |- _ => apply negb_true_iff in H
  | H : negb _ = false |- _ => apply negb_false_iff in H
  | H : (_ <? _)%Z = true |- _ => apply Z.ltb_lt in H
  | H : (_ <? _)%Z = false |- _ => apply Z.ltb_ge in H
  | H : (_ <=? _)%Z = true |- _ => apply Z.leb_le in H
  | H : (_ <=? _)%Z = false |- _ => apply Z.leb_gt in H
  | H : (_ =? _)%Z = true |- _ => apply Z.eqb_eq in H
  | H : (_ =? _)%Z = false |- _ => apply Z.eqb_neq in H
  | H : (_ <? _)%nat = true |- _ => apply Nat.ltb_lt in H
  | H : (_ <? _)%nat = false |- _ => apply Nat.ltb_ge in H
  | H : (_ <=? _)%nat = true |- _ => apply Nat.leb_le in H
  | H : (_ <=? _)%nat = false |- _ => apply Nat.leb_gt in H
  | H : (_ =? _)%nat = true |- _ => apply Nat.eqb_eq in H
  | H : (_ =? _)%nat = false |- _ => apply Nat.eqb_neq in H
  end.

(** Split on every conditional of the goal, keeping the tests as
    propositions. *)
Ltac split_ifs :=
  repeat match goal with
  | |- context [if ?c then _ else _] =>
      lazymatch c with
      | context [if _ then _ else _] => fail
      | _ => let E := fresh "E" in destruct c eqn:E
      end
  end; b2p.

(** Unfold the width predicates for [lia]. *)
Ltac widths :=
  unfold is_u8, is_u16, is_u32, is_u64, is_i64 in *;
  change (2 ^ 8) with 256 in *; change (2 ^ 16) with 65536 in *;
  change (2 ^ 32) with 4294967296 in *; change (2 ^ 31) with 2147483648 in *;
  change (2 ^ 64) with 18446744073709551616 in *;
  change (2 ^ 63) with 9223372036854775808 in *.
Ltac width_lia := widths; lia.

(** Replace a list of known length by the list of its elements. *)
Ltac explode l H :=
  repeat (destruct l as [|? l]; simpl in H; [discriminate H|]; apply eq_add_S in H);
  destruct l; [clear H|discriminate H].

(** ** Lemmas on the monad and the widths *)
Lemma go_bind_Ret {A B} (a : A) (f : A -> go B) : (Ret a ≫= f) = f a.
Proof. reflexivity. Qed.

Lemma u8_range z : is_u8 (u8 z).
Proof. apply Z.mod_pos_bound. lia. Qed.
Lemma u16_range z : is_u16 (u16 z).
Proof. apply Z.mod_pos_bound. lia. Qed.
Lemma u32_range z : is_u32 (u32 z).
Proof. apply Z.mod_pos_bound. lia. Qed.
Lemma u64_range z : is_u64 (u64 z).
Proof. apply Z.mod_pos_bound. lia. Qed.
Lemma i64_range z : is_i64 (i64 z).
Proof.
  unfold i64, is_i64. pose proof (Z.mod_pos_bound (z + 2 ^ 63) (2 ^ 64)). lia.
Qed.
#[export] Hint Resolve u8_range u16_range u32_range u64_range i64_range : diagd.

Lemma u8_id z : is_u8 z -> u8 z = z.
Proof. intros. by apply Z.mod_small. Qed.
Lemma u16_id z : is_u16 z -> u16 z = z.
Proof. intros. by apply Z.mod_small. Qed.
Lemma u32_id z : is_u32 z -> u32 z = z.
Proof. intros. by apply Z.mod_small. Qed.
Lemma u64_id z : is_u64 z -> u64 z = z.
Proof. intros. by apply Z.mod_small. Qed.
Lemma i64_id z : is_i64 z -> i64 z = z.
Proof. unfold i64, is_i64. intros. rewrite Z.mod_small; lia. Qed.
Lemma i32_id z : - 2 ^ 31 <= z < 2 ^ 31 -> i32 z = z.
Proof. unfold i32. intros. rewrite Z.mod_small; lia. Qed.

(** Increments of a wrapping counter compose. *)
Lemma u32_add_l x y : u32 (u32 x + y) = u32 (x + y).
Proof. unfold u32. by rewrite Zplus_mod_idemp_l. Qed.
Lemma u64_add_l x y : u64 (u64 x + y) = u64 (x + y).
Proof. unfold u64. by rewrite Zplus_mod_idemp_l. Qed.

Lemma boolByte_range b : is_u8 (boolByte b).
Proof. destruct b; unfold is_u8, boolByte; lia. Qed.
#[export] Hint Resolve boolByte_range : diagd.

(** ** Lemmas on byte slices *)
Lemma make_bytes_length n : length (make_bytes n) = n.
Proof. apply length_replicate. Qed.

Lemma make_bytes_ok n : bytes_ok (make_bytes n).
Proof. apply Forall_replicate. unfold is_u8. lia. Qed.
#[export] Hint Resolve make_bytes_ok : diagd.

Lemma idx_Ret b i : (i < length b)%nat -> exists v, idx b i = Ret v /\ b !! i = Some v.
Proof.
  intros H. unfold idx. destruct (lookup_lt_is_Some_2 b i H) as [v Hv].
  exists v. by rewrite Hv.
Qed.

Lemma slice_Ret b lo hi : (lo <= hi)%nat -> (hi <= length b)%nat -> slice b lo hi = Ret (take (hi - lo) (drop lo b)).
Proof.
  intros H1 H2. unfold slice. apply Nat.leb_le in H1, H2. by rewrite H1, H2.
Qed.

Lemma splice_length b off bs : (off + length bs <= length b)%nat -> length (splice b off bs) = length b.
Proof. intros H. unfold splice. rewrite !length_app, length_take, length_drop. lia. Qed.

Lemma put_bytes_Ret b off bs : (off + length bs <= length b)%nat -> put_bytes b off bs = Ret (splice b off bs).
Proof. intros H. unfold put_bytes. apply Nat.leb_le in H. by rewrite H. Qed.

Lemma splice_ok b off bs : bytes_ok b -> bytes_ok bs -> bytes_ok (splice b off bs).
Proof.
  intros Hb Hs. unfold splice, bytes_ok. rewrite !Forall_app. split_and!;
  eauto using Forall_take, Forall_drop.
Qed.
#[export] Hint Resolve splice_ok : diagd.

(** ** Big-endian round trips *)
Lemma be_encode_length n v : length (be_encode n v) = n.
Proof. induction n; simpl; congruence. Qed.

Lemma land_255 v : Z.land v 255 = v mod 256.
Proof. change 255 with (Z.ones 8). by rewrite Z.land_ones. Qed.

Lemma be_encode_ok n v : bytes_ok (be_encode n v).
Proof.
  induction n; constructor; [|done].
  rewrite land_255. apply Z.mod_pos_bound. lia.
Qed.
#[export] Hint Resolve be_encode_ok : diagd.

Lemma lor_byte a x : is_u8 x -> Z.lor (Z.shiftl a 8) x = a * 256 + x.
Proof.
  intros Hx.
  assert (Hland : Z.land (Z.shiftl a 8) x = 0).
  { apply Z.bits_inj'. intros n Hn. rewrite Z.land_spec, Z.bits_0.
    destruct (Z.ltb_spec n 8).
    - by rewrite Z.shiftl_spec_low by lia.
    - rewrite <- (Z.mod_small x (2 ^ 8)) by done.
      rewrite Z.mod_pow2_bits_high by lia. apply andb_false_r. }
  rewrite <- Z.lxor_lor, <- Z.add_nocarry_lxor by done.
  rewrite Z.shiftl_mul_pow2; lia.
Qed.

Lemma be_decode_acc bs acc : bytes_ok bs ->
  fold_left (fun acc x => Z.lor (Z.shiftl acc 8) x) bs acc = acc * 256 ^ Z.of_nat (length bs) + be_decode bs.
Proof.
  unfold be_decode. intros Hok. revert acc.
  induction Hok as [|x bs Hx Hok IH]; intros acc; cbn [fold_left length].
  - rewrite Z.pow_0_r. lia.
  - rewrite IH, (IH (Z.lor (Z.shiftl 0 8) x)), !lor_byte by done.
    rewrite Nat2Z.inj_succ, Z.pow_succ_r by lia. lia.
Qed.

Lemma be_decode_cons x bs : is_u8 x -> bytes_ok bs -> be_decode (x :: bs) = x * 256 ^ Z.of_nat (length bs) + be_decode bs.
Proof.
  intros Hx Hok. unfold be_decode at 1. cbn [fold_left].
  rewrite be_decode_acc, lor_byte by done. lia.
Qed.

Lemma be_decode_range bs : bytes_ok bs -> 0 <= be_decode bs < 256 ^ Z.of_nat (length bs).
Proof.
  induction 1 as [|x bs Hx Hok IH]; [done|].
  rewrite be_decode_cons by done. cbn [length].
  rewrite Nat2Z.inj_succ, Z.pow_succ_r by lia. unfold is_u8 in Hx. nia.
Qed.

Lemma be_encode_S n v : be_encode (S n) v = (v / 256 ^ Z.of_nat n) mod 256 :: be_encode n v.
Proof.
  cbn [be_encode]. rewrite land_255, Z.shiftr_div_pow2, Z.pow_mul_r by lia. done.
Qed.

Lemma be_decode_encode n v : be_decode (be_encode n v) = v mod 256 ^ Z.of_nat n.
Proof.
  induction n as [|n IH]; [by rewrite Z.mod_1_r|].
  rewrite be_encode_S, be_decode_cons.
  - rewrite IH, be_encode_length, Nat2Z.inj_succ, Z.pow_succ_r by lia.
    rewrite (Z.mul_comm 256), Z.rem_mul_r by lia. lia.
  - apply Z.mod_pos_bound. lia.
  - apply be_encode_ok.
Qed.

Lemma be_decode_encode_id n v : 0 <= v < 256 ^ Z.of_nat n -> be_decode (be_encode n v) = v.
Proof. intros. rewrite be_decode_encode. by apply Z.mod_small. Qed.

Lemma be_encode_mod n v : be_encode n (v mod 256 ^ Z.of_nat n) = be_encode n v.
Proof.
  assert (H : forall m, (m <= n)%nat -> be_encode m (v mod 256 ^ Z.of_nat n) = be_encode m v).
  { induction m as [|m IH]; intros Hm; [done|]. rewrite !be_encode_S, IH by lia. f_equal.
    replace (Z.of_nat n) with (Z.of_nat m + (1 + (Z.of_nat n - Z.of_nat m - 1))) by lia.
    rewrite Z.pow_add_r, Z.rem_mul_r by lia.
    rewrite Z.mul_comm, Z.div_add, Z.div_small by (lia || apply Z.mod_pos_bound; lia).
    rewrite Z.pow_add_r, Z.pow_1_r, Z.rem_mul_r by lia. 
    rewrite Z.add_0_l, (Z.mul_comm 256 (_ mod _)), Z.mod_add by lia. by rewrite Z.mod_mod by lia. }
  by apply H.
Qed.

Lemma be_encode_decode bs : bytes_ok bs -> be_encode (length bs) (be_decode bs) = bs.
Proof.
  induction 1 as [|x bs Hx Hok IH]; [done|].
  cbn [length]. rewrite be_encode_S, be_decode_cons by done.
  pose proof (be_decode_range bs Hok) as Hr.
  rewrite Z.add_comm, Z.div_add, Z.div_small, Z.add_0_l, Z.mod_small by (done || lia).
  f_equal. by rewrite <- be_encode_mod, Z.mod_add, be_encode_mod by lia.
Qed.

(** Reads of the bytes that [be_encode] lays out, in the form the evaluated
    encoders and decoders leave them. *)
Lemma be2_id v : is_u16 v -> be_decode [Z.land (Z.shiftr v 8) 255; Z.land (Z.shiftr v 0) 255] = v.
Proof. exact (be_decode_encode_id 2 v). Qed.
Lemma be4_id v : is_u32 v ->
  be_decode [Z.land (Z.shiftr v 24) 255; Z.land (Z.shiftr v 16) 255;
             Z.land (Z.shiftr v 8) 255; Z.land (Z.shiftr v 0) 255] = v.
Proof. exact (be_decode_encode_id 4 v). Qed.
Lemma be8_id v : is_u64 v ->
  be_decode [Z.land (Z.shiftr v 56) 255; Z.land (Z.shiftr v 48) 255;
             Z.land (Z.shiftr v 40) 255; Z.land (Z.shiftr v 32) 255;
             Z.land (Z.shiftr v 24) 255; Z.land (Z.shiftr v 16) 255;
             Z.land (Z.shiftr v 8) 255; Z.land (Z.shiftr v 0) 255] = v.
Proof. exact (be_decode_encode_id 8 v). Qed.

(** A read inside the slice returns, and returns a value of its width. *)
Lemma get_be_Ret n b off : (off + n <= length b)%nat -> get_be n b off = Ret (be_decode (take n (drop off b))).
Proof.
  intros H. unfold get_be. rewrite slice_Ret by lia.
  replace (off + n - off)%nat with n by lia. reflexivity.
Qed.

Lemma get_be_range n b off v : bytes_ok b -> get_be n b off = Ret v -> 0 <= v < 256 ^ Z.of_nat n.
Proof.
  unfold get_be, slice. intros Hok H.
  destruct ((off <=? off + n) && (off + n <=? length b))%nat eqn:E; [|done]. b2p.
  injection H as <-.
  assert (Hl : length (take (off + n - off) (drop off b)) = n)
    by (rewrite length_take, length_drop; lia).
  rewrite <- Hl at 3. apply be_decode_range. apply Forall_take, Forall_drop, Hok.
Qed.

(** ** Computations that do not panic *)
Definition returns {A} (m : go A) : Prop := exists a, m = Ret a.

Lemma returns_Ret {A} (a : A) : returns (Ret a).
Proof. by exists a. Qed.

Lemma returns_bind {A B} (m : go A) (f : A -> go B) : returns m -> (forall a, m = Ret a -> returns (f a)) -> returns (m ≫= f).
Proof. intros [a ->] H. by apply H. Qed.

Lemma idx_returns b i : (i < length b)%nat -> returns (idx b i).
Proof. intros H. destruct (idx_Ret b i H) as (v & Hv & _). by exists v. Qed.

Lemma get_be_returns n b off : (off + n <= length b)%nat -> returns (get_be n b off).
Proof. intros. rewrite get_be_Ret by done. apply returns_Ret. Qed.
Lemma Uint16_returns b off : (off + 2 <= length b)%nat -> returns (Uint16 b off).
Proof. apply get_be_returns. Qed.
Lemma Uint32_returns b off : (off + 4 <= length b)%nat -> returns (Uint32 b off).
Proof. apply get_be_returns. Qed.
Lemma Uint64_returns b off : (off + 8 <= length b)%nat -> returns (Uint64 b off).
Proof. apply get_be_returns. Qed.

Lemma slice_returns b lo hi : (lo <= hi)%nat -> (hi <= length b)%nat -> returns (slice b lo hi).
Proof. intros. rewrite slice_Ret by done. apply returns_Ret. Qed.

Lemma slice_inv b lo hi s : slice b lo hi = Ret s -> (lo <= hi <= length b)%nat /\ s = take (hi - lo) (drop lo b) /\ length s = (hi - lo)%nat.
Proof.
  unfold slice. intros H. destruct ((lo <=? hi) && (hi <=? length b))%nat eqn:E; [|done].
  injection H as <-. b2p. rewrite length_take, length_drop. split_and!; (done || lia).
Qed.

Lemma slice_ok b lo hi s : bytes_ok b -> slice b lo hi = Ret s -> bytes_ok s.
Proof. intros Hb H. apply slice_inv in H as (_ & -> & _). by apply Forall_take, Forall_drop. Qed.

Lemma put_bytes_returns b off bs : (off + length bs <= length b)%nat -> returns (put_bytes b off bs).
Proof. intros. rewrite put_bytes_Ret by done. apply returns_Ret. Qed.

Lemma put_bytes_inv b off bs b' : put_bytes b off bs = Ret b' -> b' = splice b off bs /\ length b' = length b.
Proof.
  unfold put_bytes. intros H. destruct (off + length bs <=? length b)%nat eqn:E; [|done].
  injection H as <-. b2p. split; [done|]. by apply splice_length.
Qed.

Lemma idx_ok b i v : bytes_ok b -> idx b i = Ret v -> is_u8 v.
Proof.
  unfold idx. intros Hb H. destruct (b !! i) eqn:E; [|done]. injection H as <-.
  by eapply Forall_lookup_1.
Qed.
Lemma Uint16_ok b off v : bytes_ok b -> Uint16 b off = Ret v -> is_u16 v.
Proof. apply (get_be_range 2). Qed.
Lemma Uint32_ok b off v : bytes_ok b -> Uint32 b off = Ret v -> is_u32 v.
Proof. apply (get_be_range 4). Qed.
Lemma Uint64_ok b off v : bytes_ok b -> Uint64 b off = Ret v -> is_u64 v.
Proof. apply (get_be_range 8). Qed.

Lemma PutUint32_returns b off v : (off + 4 <= length b)%nat -> returns (PutUint32 b off v).
Proof. intros. apply put_bytes_returns. by rewrite be_encode_length. Qed.
Lemma PutUint32_length b off v b' : PutUint32 b off v = Ret b' -> length b' = length b.
Proof. intros H. by apply put_bytes_inv in H as [_ H]. Qed.

(** Bounds of a value that was read: find the read. *)
Ltac bytes_found :=
  first
  [ assumption
  | match goal with H : slice _ _ _ = Ret ?b |- bytes_ok ?b => eapply slice_ok; [|exact H]; bytes_found end ].
Ltac read_ok :=
  match goal with
  | H : idx _ _ = Ret ?v |- is_u8 ?v => eapply idx_ok; [|exact H]; bytes_found
  | H : Uint16 _ _ = Ret ?v |- is_u16 ?v => eapply Uint16_ok; [|exact H]; bytes_found
  | H : Uint32 _ _ = Ret ?v |- is_u32 ?v => eapply Uint32_ok; [|exact H]; bytes_found
  | H : Uint64 _ _ = Ret ?v |- is_u64 ?v => eapply Uint64_ok; [|exact H]; bytes_found
  | |- is_u8 0 => split; [discriminate|reflexivity]
  | |- is_u16 0 => split; [discriminate|reflexivity]
  | |- is_u32 0 => split; [discriminate|reflexivity]
  end.

(** Prove that a chain of reads returns: each read is in bounds by the length
    facts in context; the length of a sub-slice is recorded as it is taken. *)
Ltac go_read :=
  lazymatch goal with
  | |- returns (idx _ _) => apply idx_returns
  | |- returns (Uint16 _ _) => apply Uint16_returns
  | |- returns (Uint32 _ _) => apply Uint32_returns
  | |- returns (Uint64 _ _) => apply Uint64_returns
  | |- returns (slice _ _ _) => apply slice_returns
  | |- returns (put_bytes _ _ _) => apply put_bytes_returns
  | |- returns (PutUint32 _ _ _) => apply PutUint32_returns
  | |- returns (Ret _) => apply returns_Ret
  end.
Ltac go_returns_step tac :=
  lazymatch goal with
  | |- returns (Ret _) => apply returns_Ret
  | |- returns (if ?c then _ else _) => let E := fresh "E" in destruct c eqn:E; b2p
  | |- returns (_ ≫= _) =>
      let a := fresh "a" in let H := fresh "H" in
      apply returns_bind;
      [ first [go_read; lia | tac]
      | intros a H;
        lazymatch type of H with
        | slice _ _ _ = Ret _ => apply slice_inv in H as (_ & _ & H)
        | put_bytes _ _ _ = Ret _ => apply put_bytes_inv in H as [_ H]
        | PutUint32 _ _ _ = Ret _ => apply PutUint32_length in H
        | _ => clear H
        end; cbv beta ]
  end.

(** The inverse: name every intermediate value of a chain that returned. *)
Lemma bind_Ret_inv {A B} (m : go A) (f : A -> go B) b : (m ≫= f) = Ret b -> exists a, m = Ret a /\ f a = Ret b.
Proof. destruct m as [a|]; [|done]. intros H. by exists a. Qed.

Ltac go_inv H :=
  repeat lazymatch type of H with
  | (_ ≫= _) = Ret _ =>
      let a := fresh "x" in let E := fresh "E" in
      apply bind_Ret_inv in H as (a & E & H); cbv beta in H
  end.

(** Re-encoding what was decoded gives the bytes back: the form the
    evaluated decoder-then-encoder leaves. *)
Lemma be2_bytes x y : is_u8 x -> is_u8 y ->
  Z.land (Z.shiftr (be_decode [x; y]) 8) 255 = x /\ Z.land (Z.shiftr (be_decode [x; y]) 0) 255 = y.
Proof.
  intros Hx Hy. assert (Hok : bytes_ok [x; y]) by (repeat constructor; apply Hx || apply Hy).
  pose proof (be_encode_decode [x; y] Hok) as H. by injection H.
Qed.

Lemma be4_bytes x y z w : is_u8 x -> is_u8 y -> is_u8 z -> is_u8 w ->
  let v := be_decode [x; y; z; w] in
  Z.land (Z.shiftr v 24) 255 = x /\ Z.land (Z.shiftr v 16) 255 = y /\
  Z.land (Z.shiftr v 8) 255 = z /\ Z.land (Z.shiftr v 0) 255 = w.
Proof.
  intros Hx Hy Hz Hw v.
  assert (Hok : bytes_ok [x; y; z; w]) by (repeat constructor; apply Hx || apply Hy || apply Hz || apply Hw).
  pose proof (be_encode_decode _ Hok) as H. by injection H.
Qed.

Lemma be2_inv x y v : is_u8 x -> is_u8 y -> be_decode [x; y] = v ->
  x = Z.land (Z.shiftr v 8) 255 /\ y = Z.land (Z.shiftr v 0) 255.
Proof. intros Hx Hy <-. destruct (be2_bytes x y Hx Hy) as [H1 H2]. by rewrite H1, H2. Qed.

(** Reads below [n] do not see the bytes from [n] on. *)
Lemma slice_take n b lo hi : (hi <= n)%nat -> (n <= length b)%nat -> slice (take n b) lo hi = slice b lo hi.
Proof.
  intros Hhi Hn. unfold slice. rewrite length_take.
  destruct (lo <=? hi)%nat eqn:E; [|done]. b2p. cbn.
  rewrite !(proj2 (Nat.leb_le _ _)) by lia.
  rewrite skipn_firstn_comm, take_take. do 2 f_equal. lia.
Qed.
Lemma idx_take n b i : (i < n)%nat -> idx (take n b) i = idx b i.
Proof. intros. unfold idx. by rewrite lookup_take_lt. Qed.
Lemma Uint16_take n b off : (off + 2 <= n)%nat -> (n <= length b)%nat -> Uint16 (take n b) off = Uint16 b off.
Proof. intros. unfold Uint16, get_be. by rewrite slice_take. Qed.
Lemma Uint32_take n b off : (off + 4 <= n)%nat -> (n <= length b)%nat -> Uint32 (take n b) off = Uint32 b off.
Proof. intros. unfold Uint32, get_be. by rewrite slice_take. Qed.

(** ** Sums over lists *)
Definition zsum {A} (f : A -> Z) (l : list A) : Z := foldr (fun x n => f x + n) 0 l.

Lemma zsum_app {A} (f : A -> Z) l1 l2 : zsum f (l1 ++ l2) = zsum f l1 + zsum f l2.
Proof. unfold zsum. induction l1 as [|x l1 IH]; cbn; lia. Qed.

Lemma zsum_nonneg {A} (f : A -> Z) l : (forall x, 0 <= f x) -> 0 <= zsum f l.
Proof. intros H. unfold zsum. induction l as [|x l IH]; cbn; [lia|]. specialize (H x). lia. Qed.
