(* ===== verification/GoFloat.v ===== *)
(** * Go's float64

    IEEE 754 binary64 arithmetic, round to nearest even, as the executable
    specification [SpecFloat] of the standard library gives it: the float64
    conversions, sums, products, quotients and comparisons that srates.go and
    session.go use. *)

From Stdlib Require Import SpecFloat.
From S2P Require Import Prelude.

Definition float64 : Type := spec_float.

#[global] Instance float64_eq_dec : EqDecision float64.
Proof. unfold float64. solve_decision. Defined.

(** float64(z) for an integer z. *)
Definition f64_of_Z (z : Z) : float64 := binary_normalize 53 1024 z 0 false.
Definition f64_zero : float64 := S754_zero false.
Definition f64_add (x y : float64) : float64 := SFadd 53 1024 x y.
Definition f64_mul (x y : float64) : float64 := SFmul 53 1024 x y.
Definition f64_div (x y : float64) : float64 := SFdiv 53 1024 x y.
Definition f64_gtb (x y : float64) : bool := SFltb y x.
Definition f64_leb (x y : float64) : bool := SFleb x y.

(** int(x): truncation toward zero of a finite value in range. *)
Definition f64_trunc (x : float64) : Z :=
  match x with
  | S754_finite s m e =>
      let v := if 0 <=? e then Z.pos m * 2 ^ e else Z.pos m / 2 ^ (- e) in
      if s then - v else v
  | _ => 0
  end.

Example f64_of_Z_1e6 : f64_trunc (f64_of_Z 1000000) = 1000000.
Proof. reflexivity. Qed.
Example f64_mul_exact : f64_mul (f64_of_Z 10000) (f64_of_Z 1250) = f64_of_Z 12500000.
Proof. reflexivity. Qed.
