(* ===== verification/Srates.v ===== *)
(** * The sending rate table (internal/udpst/srates.go)

    The rows [Rate] of the table, their wire form, their nominal IP-layer
    rate, and the construction [BuildRateTable] with its three loops.  The
    theorems give the shape of the table for the four settings, the bounds
    every row satisfies, the exact nominal rate of every row up to 1 Gbps and
    the monotonicity of the whole table. *)

From S2P Require Import Prelude GoFloat.

(** ** Constants *)
Definition loadHdrSize : Z := 32.
Definition maxSendingRates : Z := 1153.
Definition baseSendTimer1 : Z := 100.
Definition baseSendTimer2 : Z := 1000.
Definition maxL3Packet : Z := 1250.
Definition maxJL3Packet : Z := 9000.
Definition maxTL3Packet : Z := 1500.
Definition l3Overhead : Z := 28.
Definition ipv6AddSize : Z := 20.
Definition maxBurstSize : Z := 100.
Definition maxPayloadSize : Z := maxL3Packet - l3Overhead.
Definition maxJPayloadSize : Z := maxJL3Packet - l3Overhead.
Definition maxTPayloadSize : Z := maxTL3Packet - l3Overhead.
Definition minPayloadSize : Z := loadHdrSize + ipv6AddSize.
Definition rateRandBit : Z := 0x80000000.

(** ** Rows *)
Record Rate := mkRate {
  TxInterval1 : Z;
  UDPPayload1 : Z;
  BurstSize1 : Z;
  TxInterval2 : Z;
  UDPPayload2 : Z;
  BurstSize2 : Z;
  UDPAddon2 : Z
}.

(** Rate{} *)
Definition zeroRate : Rate := mkRate 0 0 0 0 0 0 0.

#[global] Instance Rate_eq_dec : EqDecision Rate.
Proof. solve_decision. Defined.

Definition Rate_marshal (r : Rate) (b : list Z) : go (list Z) :=
  b ← PutUint32 b 0 (TxInterval1 r);
  b ← PutUint32 b 4 (UDPPayload1 r);
  b ← PutUint32 b 8 (BurstSize1 r);
  b ← PutUint32 b 12 (TxInterval2 r);
  b ← PutUint32 b 16 (UDPPayload2 r);
  b ← PutUint32 b 20 (BurstSize2 r);
  PutUint32 b 24 (UDPAddon2 r).

Definition parseRate (b : list Z) : go Rate :=
  t1 ← Uint32 b 0;
  p1 ← Uint32 b 4;
  b1 ← Uint32 b 8;
  t2 ← Uint32 b 12;
  p2 ← Uint32 b 16;
  b2 ← Uint32 b 20;
  a2 ← Uint32 b 24;
  Ret (mkRate t1 p1 b1 t2 p2 b2 a2).

(** The closure [sized] of BitsPerSecond: the L3 size of a payload field. *)
Definition sized (ipAdd v : Z) : float64 :=
  let payload := Z.ldiff v rateRandBit - ipAdd in
  let payload :=
    if negb (Z.land v rateRandBit =? 0)
    then Z.quot (minPayloadSize - ipAdd + payload) 2 else payload in
  f64_of_Z (payload + l3Overhead + ipAdd).

(** The quotient 1e6/interval is an integer division on uint32. *)
Definition BitsPerSecond (r : Rate) (ipv6 : bool) : float64 :=
  let ipAdd := if ipv6 then ipv6AddSize else 0 in
  let bytesPerSec := f64_zero in
  let bytesPerSec :=
    if (0 <? BurstSize1 r) && (0 <? TxInterval1 r)
    then f64_add bytesPerSec
           (f64_mul (f64_mul (f64_of_Z (1000000 / TxInterval1 r)) (f64_of_Z (BurstSize1 r)))
              (sized ipAdd (UDPPayload1 r)))
    else bytesPerSec in
  let bytesPerSec :=
    if (0 <? BurstSize2 r) && (0 <? TxInterval2 r)
    then f64_add bytesPerSec
           (f64_mul (f64_mul (f64_of_Z (1000000 / TxInterval2 r)) (f64_of_Z (BurstSize2 r)))
              (sized ipAdd (UDPPayload2 r)))
    else bytesPerSec in
  let bytesPerSec :=
    if (0 <? UDPAddon2 r) && (0 <? TxInterval2 r)
    then f64_add bytesPerSec
           (f64_mul (f64_of_Z (1000000 / TxInterval2 r)) (sized ipAdd (UDPAddon2 r)))
    else bytesPerSec in
  f64_mul bytesPerSec (f64_of_Z 8).

Record RateTable := mkRateTable {
  Rows : list Rate;
  HighSpeedThresh : Z
}.

(** ** BuildRateTable *)

(** The inner loop: one row per add-on size; [true] when the 1 Gbps row has
    been reached ([stop] set and the loop left). *)
Fixpoint region1_addons (js : list Z) (sr : Rate) (rows : list Rate) : list Rate * bool :=
  match js with
  | [] => (rows, false)
  | j :: js =>
      let add := mkRate (TxInterval1 sr) (UDPPayload1 sr) (BurstSize1 sr)
                   baseSendTimer2 (UDPPayload2 sr) (BurstSize2 sr)
                   (u32 (Z.quot (j * 1000) 8 - l3Overhead)) in
      let rows := rows ++ [add] in
      if 1000 <? Z.of_nat (length rows) then (rows, true) else region1_addons js sr rows
  end.

(** The loop over transmitter 2's burst size. *)
Fixpoint region1_bursts (traditionalMTU : bool) (jmax kmax payload k : Z) (is2 : list Z) (rows : list Rate) : list Rate * bool :=
  match is2 with
  | [] => (rows, false)
  | i :: is2 =>
      let t1 := if 0 <? k then (baseSendTimer1, payload, u32 k) else (0, 0, 0) in
      let t2 := if 0 <? i then (baseSendTimer2, payload, u32 i) else (0, 0, 0) in
      let sr := mkRate t1.1.1 t1.1.2 t1.2 t2.1.1 t2.1.2 t2.2 0 in
      if (k =? 0) && (i =? 0) then
        let sr := mkRate (TxInterval1 sr) (UDPPayload1 sr) (BurstSize1 sr)
                    50000 (UDPPayload2 sr) (BurstSize2 sr) (Z.lor payload rateRandBit) in
        let '(rows, stop) := region1_addons (seqZ 1 jmax) sr (rows ++ [sr]) in
        if stop then (rows, true)
        else region1_bursts traditionalMTU jmax kmax payload k is2 rows
      else if negb traditionalMTU && (k =? kmax) then (rows ++ [sr], true)
      else
        let '(rows, stop) := region1_addons (seqZ 1 jmax) sr (rows ++ [sr]) in
        if stop then (rows, true)
        else region1_bursts traditionalMTU jmax kmax payload k is2 rows
  end.

(** The loop over transmitter 1's burst size. *)
Fixpoint region1 (traditionalMTU : bool) (jmax kmax payload : Z) (ks : list Z) (rows : list Rate) : list Rate :=
  match ks with
  | [] => rows
  | k :: ks =>
      let '(rows, stop) := region1_bursts traditionalMTU jmax kmax payload k (seqZ 0 10) rows in
      if stop then rows else region1 traditionalMTU jmax kmax payload ks rows
  end.

(** The jumbo ramp: for l3 := ...; l3 <= maxJL3Packet; l3 += 125. *)
Fixpoint jumbo_ramp (fuel : nat) (l3 : Z) (rows : list Rate) : list Rate :=
  match fuel with
  | O => rows
  | S fuel =>
      if l3 <=? maxJL3Packet
      then jumbo_ramp fuel (l3 + 125) (rows ++ [mkRate baseSendTimer1 (u32 (l3 - l3Overhead)) 10 0 0 0 0])
      else rows
  end.

(** The last loop: for j := jmax; len(t.Rows) < maxSendingRates; j++. *)
Fixpoint region2_bursts (fuel : nat) (payload j : Z) (rows : list Rate) : list Rate :=
  match fuel with
  | O => rows
  | S fuel =>
      if Z.of_nat (length rows) <? maxSendingRates
      then
        let burst := if maxBurstSize <=? j then maxBurstSize else u32 j in
        region2_bursts fuel payload (j + 1) (rows ++ [mkRate baseSendTimer1 payload burst 0 0 0 0])
      else rows
  end.

Definition BuildRateTable (jumbo traditionalMTU : bool) : RateTable :=
  let '(jmax, kmax, payload) :=
    if traditionalMTU then (11, 8, maxTPayloadSize) else (9, 10, maxPayloadSize) in
  let rows := region1 traditionalMTU jmax kmax payload (seqZ 0 (kmax + 1)) [] in
  let thresh := Z.of_nat (length rows) - 1 in
  let fuel := Z.to_nat maxSendingRates in
  let '(rows, jmax, payload) :=
    if jumbo then (jumbo_ramp fuel (maxL3Packet + 125) rows, 11, maxJPayloadSize)
    else if traditionalMTU then (rows, 9, maxTPayloadSize)
    else (rows, 11, maxPayloadSize) in
  mkRateTable (region2_bursts fuel payload jmax rows) thresh.

(** ** Predicates of the specification *)

(** The size bits of a payload field. *)
Definition payload_size (v : Z) : Z := Z.ldiff v rateRandBit.

(** The largest IP packet of a setting. *)
Definition max_l3 (jumbo traditionalMTU : bool) : Z :=
  if jumbo then maxJL3Packet else if traditionalMTU then maxTL3Packet else maxL3Packet.

(** What the transmitters require of a row: something to send, at an
    interval the tables use, in bursts that fit the batch, with payloads that
    fit the largest packet of the setting. *)
Definition row_okb (l3max : Z) (r : Rate) : bool :=
  ((TxInterval1 r =? 0) || (TxInterval1 r =? baseSendTimer1)) &&
  ((TxInterval2 r =? 0) || (TxInterval2 r =? baseSendTimer2) || (TxInterval2 r =? 50000)) &&
  ((0 <? TxInterval1 r) && (0 <? BurstSize1 r) ||
   (0 <? TxInterval2 r) && ((0 <? BurstSize2 r) || (0 <? UDPAddon2 r))) &&
  ((0 <=? BurstSize1 r) && (BurstSize1 r <=? maxBurstSize)) &&
  ((0 <=? BurstSize2 r) && (BurstSize2 r <=? 9)) &&
  ((0 <=? UDPPayload1 r) && (UDPPayload1 r + l3Overhead <=? l3max)) &&
  ((0 <=? UDPPayload2 r) && (UDPPayload2 r + l3Overhead <=? l3max)) &&
  ((0 <=? UDPAddon2 r) && (UDPAddon2 r <? 2 ^ 32) && (payload_size (UDPAddon2 r) + l3Overhead <=? l3max)).

Definition row_ok (l3max : Z) (r : Rate) : Prop := row_okb l3max r = true.

(** Adjacent rows never decrease in nominal rate. *)
Fixpoint rates_monotoneb (ipv6 : bool) (rows : list Rate) : bool :=
  match rows with
  | r :: (r' :: _) as rest => f64_leb (BitsPerSecond r ipv6) (BitsPerSecond r' ipv6) && rates_monotoneb ipv6 rest
  | _ => true
  end.

Definition rate_wf (r : Rate) : Prop :=
  is_u32 (TxInterval1 r) /\ is_u32 (UDPPayload1 r) /\ is_u32 (BurstSize1 r) /\
  is_u32 (TxInterval2 r) /\ is_u32 (UDPPayload2 r) /\ is_u32 (BurstSize2 r) /\
  is_u32 (UDPAddon2 r).

(** ** Tactics *)

(** Evaluate encoders and decoders on a slice of known length, leaving the
    byte expressions and their recombination in place. *)
Ltac wire_eval := lazy -[be_decode Z.land Z.shiftr is_u8 is_u16 is_u32 is_u64 Z.le Z.lt Z.pow bytes_ok].
Ltac wire_ids := rewrite ?be2_id, ?be4_id, ?be8_id by assumption.

(** The lookup of a position below 1153 in a list of that length, as a
    finite check. *)
Definition forall_rows (t : RateTable) (f : Z -> Rate -> bool) : bool :=
  forallb (fun '(n, r) => f (Z.of_nat n) r) (imap pair (Rows t)).

Lemma forall_rows_lookup t f n r : forall_rows t f = true -> Rows t !! n = Some r -> f (Z.of_nat n) r = true.
Proof.
  unfold forall_rows. intros H Hn. rewrite forallb_forall in H.
  apply (H (n, r)). apply list_elem_of_In, list_elem_of_lookup.
  exists n. by rewrite list_lookup_imap, Hn.
Qed.

(** Monotonicity of adjacent rows extends to any two rows: [f64_leb] on the
    rates of a table whose rates are integers. *)
Definition rate_bps (r : Rate) (ipv6 : bool) : Z := f64_trunc (BitsPerSecond r ipv6).

Fixpoint nondecreasingb (l : list Z) : bool :=
  match l with
  | x :: (y :: _) as rest => (x <=? y) && nondecreasingb rest
  | _ => true
  end.

Lemma nondecreasingb_head x l : nondecreasingb (x :: l) = true -> Forall (Z.le x) l.
Proof.
  revert x. induction l as [|y l IH]; intros x H; [constructor|].
  cbn in H. apply andb_true_iff in H as [Hxy H]. apply Z.leb_le in Hxy.
  constructor; [done|]. eapply Forall_impl; [|exact (IH y H)]. intros; lia.
Qed.

Lemma nondecreasingb_lookup l i j x y : nondecreasingb l = true -> (i <= j)%nat -> l !! i = Some x -> l !! j = Some y -> x <= y.
Proof.
  revert i j. induction l as [|z l IH]; intros i j H Hij Hi Hj; [done|].
  pose proof (nondecreasingb_head z l H) as Hz.
  assert (Hl : nondecreasingb l = true).
  { destruct l; [done|]. cbn in H. by apply andb_true_iff in H as [_ H]. }
  destruct i as [|i], j as [|j]; cbn in *; simplify_eq; [lia| |lia|].
  - by eapply (Forall_lookup_1 _ _ j).
  - eapply (IH i j); eauto. lia.
Qed.

(** ** Theorems *)

Lemma build_rows_length jumbo trad : Z.of_nat (length (Rows (BuildRateTable jumbo trad))) = maxSendingRates.
Proof. destruct jumbo, trad; vm_compute; reflexivity. Qed.

Lemma build_thresh jumbo trad : HighSpeedThresh (BuildRateTable jumbo trad) = 1000.
Proof. destruct jumbo, trad; vm_compute; reflexivity. Qed.

(** The construction ends with exactly [maxSendingRates] rows and the
    high-speed threshold at index 1000, for each of the four settings: the
    row-filling loop leaves by its condition, and both ends of a test agree
    on the size of the table whatever the flags. *)
Theorem BuildRateTable_shape jumbo trad :
  Z.of_nat (length (Rows (BuildRateTable jumbo trad))) = maxSendingRates /\
  HighSpeedThresh (BuildRateTable jumbo trad) = 1000.
Proof. split; [apply build_rows_length|apply build_thresh]. Qed.

Lemma build_rows_ok jumbo trad n r : Rows (BuildRateTable jumbo trad) !! n = Some r -> row_ok (max_l3 jumbo trad) r.
Proof.
  apply (forall_rows_lookup _ (fun _ => row_okb (max_l3 jumbo trad))).
  destruct jumbo, trad; vm_compute; reflexivity.
Qed.

(** Every row of every table can be sent: it has an active transmitter
    at one of the three intervals, bursts of at most [maxBurstSize] (and 9 on
    the second transmitter), and packets no larger than the setting's MTU
    bound. *)
Theorem BuildRateTable_rows_ok jumbo trad :
  Forall (row_ok (max_l3 jumbo trad)) (Rows (BuildRateTable jumbo trad)).
Proof. apply Forall_lookup. intros n r. apply build_rows_ok. Qed.

(** C20: row n of the first region sends at exactly n Mbps at the IP layer,
    for every n from 1 to 1000, every setting and both IP versions: the
    randomised row 0 aside, an index of the region is a rate in Mbps. *)
Theorem BuildRateTable_row_rate jumbo trad ipv6 n r :
  (1 <= n <= 1000)%nat ->
  Rows (BuildRateTable jumbo trad) !! n = Some r ->
  BitsPerSecond r ipv6 = f64_of_Z (Z.of_nat n * 1000000).
Proof.
  intros Hn Hr.
  pose (f := fun k r => (k <? 1) || (1000 <? k) ||
    bool_decide (BitsPerSecond r ipv6 = f64_of_Z (k * 1000000))).
  assert (H : f (Z.of_nat n) r = true).
  { apply (forall_rows_lookup (BuildRateTable jumbo trad)); [|done].
    destruct jumbo, trad, ipv6; vm_compute; reflexivity. }
  unfold f in H. apply orb_true_iff in H as [H|H].
  - apply orb_true_iff in H. b2p. destruct H; b2p; lia.
  - by apply bool_decide_eq_true in H.
Qed.

(** The first 1 Mbps row and the 1 Gbps row of the default table. *)
Lemma BuildRateTable_row_rate_witness :
  BitsPerSecond (mkRate 0 0 0 1000 0 0 97) false = f64_of_Z (Z.of_nat 1 * 1000000) /\
  BitsPerSecond (mkRate 100 1222 10 0 0 0 0) true = f64_of_Z (Z.of_nat 1000 * 1000000).
Proof.
  split.
  - apply (BuildRateTable_row_rate true false false 1); [lia|vm_compute; reflexivity].
  - apply (BuildRateTable_row_rate true false true 1000); [lia|vm_compute; reflexivity].
Defined.

(** The nominal rates never decrease along the table, over both regions,
    so raising the index never lowers the sending rate. *)
Theorem BuildRateTable_monotone jumbo trad ipv6 i j r r' :
  (i <= j)%nat ->
  Rows (BuildRateTable jumbo trad) !! i = Some r ->
  Rows (BuildRateTable jumbo trad) !! j = Some r' ->
  rate_bps r ipv6 <= rate_bps r' ipv6.
Proof.
  intros Hij Hi Hj.
  apply (nondecreasingb_lookup ((fun r => rate_bps r ipv6) <$> Rows (BuildRateTable jumbo trad)) i j).
  - destruct jumbo, trad, ipv6; vm_compute; reflexivity.
  - done.
  - by rewrite list_lookup_fmap, Hi.
  - by rewrite list_lookup_fmap, Hj.
Qed.

(** The last row of region 1 against the last row of the default table:
    1 Gbps against 72 Gbps. *)
Lemma BuildRateTable_monotone_witness :
  rate_bps (mkRate 100 1222 10 0 0 0 0) false <= rate_bps (mkRate 100 8972 100 0 0 0 0) false.
Proof.
  apply (BuildRateTable_monotone true false false 1000 1152); [lia|vm_compute; reflexivity..].
Defined.

(** Writing a row into its 28 bytes and reading it back gives the row. *)
Theorem Rate_roundtrip r b :
  rate_wf r -> length b = 28%nat ->
  exists b', Rate_marshal r b = Ret b' /\ length b' = 28%nat /\ parseRate b' = Ret r.
Proof.
  destruct r as [a1 a2 a3 a4 a5 a6 a7]. intros (? & ? & ? & ? & ? & ? & ?) Hb. cbn in *.
  explode b Hb. eexists. split; [wire_eval; reflexivity|].
  split; [reflexivity|]. wire_eval. by wire_ids.
Qed.

Lemma Rate_roundtrip_witness :
  exists b', Rate_marshal (mkRate 100 8972 10 1000 1222 5 97) (make_bytes 28) = Ret b' /\
             length b' = 28%nat /\ parseRate b' = Ret (mkRate 100 8972 10 1000 1222 5 97).
Proof.
  apply (Rate_roundtrip (mkRate 100 8972 10 1000 1222 5 97)); [|reflexivity].
  unfold rate_wf, is_u32; cbn; lia.
Defined.
