(* ===== verification/Protocol.v ===== *)
(** * The OB-UDPST wire format (internal/udpst/protocol.go)

    The PDUs of the control and the data connection as records, one encoder
    and one decoder each, with the offsets of the source.  An encoder or a
    decoder returns in [go], so an access outside the datagram is a panic; a
    decoder returns the source's error as a value of [perr].  The theorems:
    no datagram makes a decoder panic, what an encoder writes a decoder reads
    back (the current and the legacy layouts), and a decoded PDU re-encodes to
    the datagram it came from up to the bytes the format reserves. *)

From S2P Require Import Prelude Srates.

(** ** Constants *)
Definition ProtocolVer : Z := 20.
Definition ProtocolMin : Z := 11.

Definition pduIDSetup : Z := 0xACE1.
Definition pduIDTestAct : Z := 0xACE2.
Definition pduIDNull : Z := 0xDEAD.
Definition pduIDLoad : Z := 0xBEEF.
Definition pduIDStatus : Z := 0xFEED.

Definition setupSize : nat := 56.
Definition nullSize : nat := 48.
Definition testActSize : nat := 104.
Definition testActMinSize : nat := 60.
Definition loadHdrLen : nat := 32.
Definition statusSize : nat := 204.
Definition statusLegacySize : nat := 168.

Definition cmdSetupRequest : Z := 1.
Definition cmdSetupResponse : Z := 2.
Definition cmdTestActUpstream : Z := 1.
Definition cmdTestActDownstream : Z := 2.

Definition SetupRespNone : Z := 0.
Definition SetupRespACKOK : Z := 1.
Definition SetupRespBadVersion : Z := 2.
Definition SetupRespBadJumbo : Z := 3.
Definition SetupRespAuthNC : Z := 4.
Definition SetupRespAuthReq : Z := 5.
Definition SetupRespAuthInv : Z := 6.
Definition SetupRespAuthFail : Z := 7.
Definition SetupRespAuthTime : Z := 8.
Definition SetupRespNoMaxBW : Z := 9.
Definition SetupRespCapExc : Z := 10.
Definition SetupRespBadTMTU : Z := 11.
Definition SetupRespMCInvPar : Z := 12.
Definition SetupRespConnFail : Z := 13.

Definition TestActRespNone : Z := 0.
Definition TestActRespACKOK : Z := 1.
Definition TestActRespBadParam : Z := 2.

Definition testActionTest : Z := 0.
Definition testActionStop1 : Z := 1.
Definition testActionStop2 : Z := 2.

Definition modJumbo : Z := 0x01.
Definition modTraditionalMTU : Z := 0x02.
Definition bwUpstreamBit : Z := 0x8000.

Definition taModStartIndex : Z := 0x01.
Definition taModRandomPayload : Z := 0x02.
Definition srIndexAuto : Z := 0xFFFF.

Definition setupAuthDigestOff : nat := 20.
Definition nullAuthDigestOff : nat := 12.
Definition testActAuthDigestOff : nat := 68.

Definition statusNoDelay : Z := 0xFFFFFFFF.

(** ** Errors of the decoders *)
Inductive perr : Type :=
| ESetupSize (n : nat)
| ESetupID (id : Z)
| ESetupCmd (cmd : Z)
| ETestActSize (n : nat)
| ETestActID (id : Z)
| ETestActCmd (cmd : Z)
| ELoadSize (n : nat)
| ELoadID (id : Z)
| ELoadFields
| EStatusSize (n : nat)
| EStatusID (id : Z)
| EStatusFields.

Inductive result (A : Type) : Type :=
| Ok (a : A)
| Err (e : perr).
Arguments Ok {A} a.
Arguments Err {A} e.

(** b[off:] *)
Definition slice_from (b : list Z) (off : nat) : go (list Z) := slice b off (length b).
Arguments slice_from _ _%_nat.

(** ** The authentication trailer *)
Record authTrailer := mkAuth {
  AuthMode : Z;
  AuthUnixTime : Z;
  AuthDigest : list Z;
  KeyID : Z
}.

(** authTrailer{}: the digest is an array of 32 zero bytes. *)
Definition zeroAuth : authTrailer := mkAuth 0 0 (make_bytes 32) 0.

Definition authTrailer_marshal (a : authTrailer) (b : list Z) : go (list Z) :=
  b ← set_idx b 0 (AuthMode a);
  b ← PutUint32 b 1 (AuthUnixTime a);
  b ← put_bytes b 5 (AuthDigest a);
  b ← set_idx b 37 (KeyID a);
  set_idx b 38 0.

Definition authTrailer_parse (b : list Z) : go authTrailer :=
  mode ← idx b 0;
  time ← Uint32 b 1;
  digest ← slice b 5 37;
  key ← idx b 37;
  Ret (mkAuth mode time digest key).

(** ** Setup Request / Response *)
Record SetupPDU := mkSetup {
  Su_ProtocolVer : Z;
  Su_MCIndex : Z;
  Su_MCCount : Z;
  Su_MCIdent : Z;
  Su_CmdRequest : Z;
  Su_CmdResponse : Z;
  Su_MaxBandwidth : Z;
  Su_TestPort : Z;
  Su_Modifiers : Z;
  Su_Auth : authTrailer
}.

Definition parseSetup (b : list Z) : go (result SetupPDU) :=
  if negb (length b =? setupSize)%nat then Ret (Err (ESetupSize (length b))) else
  id ← Uint16 b 0;
  if negb (id =? pduIDSetup) then Ret (Err (ESetupID id)) else
  ver ← Uint16 b 2;
  mcIndex ← idx b 4;
  mcCount ← idx b 5;
  mcIdent ← Uint16 b 6;
  cmdRequest ← idx b 8;
  cmdResponse ← idx b 9;
  maxBandwidth ← Uint16 b 10;
  testPort ← Uint16 b 12;
  modifiers ← idx b 14;
  if negb (cmdRequest =? cmdSetupRequest) && negb (cmdRequest =? cmdSetupResponse)
  then Ret (Err (ESetupCmd cmdRequest)) else
  tail ← slice_from b 15;
  auth ← authTrailer_parse tail;
  Ret (Ok (mkSetup ver mcIndex mcCount mcIdent cmdRequest cmdResponse
             maxBandwidth testPort modifiers auth)).

Definition SetupPDU_marshal (p : SetupPDU) : go (list Z) :=
  let b := make_bytes setupSize in
  b ← PutUint16 b 0 pduIDSetup;
  b ← PutUint16 b 2 (Su_ProtocolVer p);
  b ← set_idx b 4 (Su_MCIndex p);
  b ← set_idx b 5 (Su_MCCount p);
  b ← PutUint16 b 6 (Su_MCIdent p);
  b ← set_idx b 8 (Su_CmdRequest p);
  b ← set_idx b 9 (Su_CmdResponse p);
  b ← PutUint16 b 10 (Su_MaxBandwidth p);
  b ← PutUint16 b 12 (Su_TestPort p);
  b ← set_idx b 14 (Su_Modifiers p);
  on_slice b 15 (length b) (authTrailer_marshal (Su_Auth p)).

(** ** Null Request *)
Record NullPDU := mkNull {
  Nu_ProtocolVer : Z;
  Nu_Auth : authTrailer
}.

Definition NullPDU_marshal (p : NullPDU) : go (list Z) :=
  let b := make_bytes nullSize in
  b ← PutUint16 b 0 pduIDNull;
  b ← PutUint16 b 2 (Nu_ProtocolVer p);
  b ← set_idx b 4 1;
  b ← set_idx b 5 0;
  b ← set_idx b 6 0;
  on_slice b 7 (length b) (authTrailer_marshal (Nu_Auth p)).

(** ** Test Activation Request / Response *)
Record TestActPDU := mkTestAct {
  Ta_ProtocolVer : Z;
  Ta_CmdRequest : Z;
  Ta_CmdResponse : Z;
  Ta_LowThresh : Z;
  Ta_UpperThresh : Z;
  Ta_TrialInt : Z;
  Ta_TestIntTime : Z;
  Ta_LegacySubIntSec : Z;
  Ta_DSCPECN : Z;
  Ta_SRIndexConf : Z;
  Ta_UseOwDelVar : Z;
  Ta_HighSpeedDelta : Z;
  Ta_SlowAdjThresh : Z;
  Ta_SeqErrThresh : Z;
  Ta_IgnoreOooDup : Z;
  Ta_Modifiers : Z;
  Ta_RateAdjAlgo : Z;
  Ta_ECNCEThresh : Z;
  Ta_SR : Rate;
  Ta_SubIntPeriod : Z;
  Ta_SRAdjSuppCount : Z;
  Ta_Auth : authTrailer;
  Ta_legacy : bool
}.

Definition parseTestAct (b : list Z) : go (result TestActPDU) :=
  if ((length b <? testActMinSize) || (testActSize <? length b))%nat
  then Ret (Err (ETestActSize (length b))) else
  id ← Uint16 b 0;
  if negb (id =? pduIDTestAct) then Ret (Err (ETestActID id)) else
  ver ← Uint16 b 2;
  cmdRequest ← idx b 4;
  cmdResponse ← idx b 5;
  lowThresh ← Uint16 b 6;
  upperThresh ← Uint16 b 8;
  trialInt ← Uint16 b 10;
  testIntTime ← Uint16 b 12;
  legacySubIntSec ← idx b 14;
  dscpEcn ← idx b 15;
  srIndexConf ← Uint16 b 16;
  useOwDelVar ← idx b 18;
  highSpeedDelta ← idx b 19;
  slowAdjThresh ← Uint16 b 20;
  seqErrThresh ← Uint16 b 22;
  ignoreOooDup ← idx b 24;
  modifiers ← idx b 25;
  rateAdjAlgo ← idx b 26;
  ecnCEThresh ← idx b 27;
  srb ← slice b 28 56;
  sr ← parseRate srb;
  subIntPeriod ← Uint16 b 56;
  let legacy := (length b <? testActSize)%nat in
  let p := mkTestAct ver cmdRequest cmdResponse lowThresh upperThresh trialInt
             testIntTime legacySubIntSec dscpEcn srIndexConf useOwDelVar
             highSpeedDelta slowAdjThresh seqErrThresh ignoreOooDup modifiers
             rateAdjAlgo ecnCEThresh sr subIntPeriod in
  if negb (cmdRequest =? cmdTestActUpstream) && negb (cmdRequest =? cmdTestActDownstream)
  then Ret (Err (ETestActCmd cmdRequest)) else
  if negb legacy then
    supp ← Uint16 b 60;
    tail ← slice_from b 63;
    auth ← authTrailer_parse tail;
    Ret (Ok (p supp auth legacy))
  else Ret (Ok (p 0 zeroAuth legacy)).

Definition TestActPDU_marshal (p : TestActPDU) : go (list Z) :=
  let size := if Ta_legacy p then testActMinSize else testActSize in
  let b := make_bytes size in
  b ← PutUint16 b 0 pduIDTestAct;
  b ← PutUint16 b 2 (Ta_ProtocolVer p);
  b ← set_idx b 4 (Ta_CmdRequest p);
  b ← set_idx b 5 (Ta_CmdResponse p);
  b ← PutUint16 b 6 (Ta_LowThresh p);
  b ← PutUint16 b 8 (Ta_UpperThresh p);
  b ← PutUint16 b 10 (Ta_TrialInt p);
  b ← PutUint16 b 12 (Ta_TestIntTime p);
  b ← set_idx b 14 (Ta_LegacySubIntSec p);
  b ← set_idx b 15 (Ta_DSCPECN p);
  b ← PutUint16 b 16 (Ta_SRIndexConf p);
  b ← set_idx b 18 (Ta_UseOwDelVar p);
  b ← set_idx b 19 (Ta_HighSpeedDelta p);
  b ← PutUint16 b 20 (Ta_SlowAdjThresh p);
  b ← PutUint16 b 22 (Ta_SeqErrThresh p);
  b ← set_idx b 24 (Ta_IgnoreOooDup p);
  b ← set_idx b 25 (Ta_Modifiers p);
  b ← set_idx b 26 (Ta_RateAdjAlgo p);
  b ← set_idx b 27 (Ta_ECNCEThresh p);
  b ← on_slice b 28 56 (Rate_marshal (Ta_SR p));
  b ← PutUint16 b 56 (Ta_SubIntPeriod p);
  if negb (Ta_legacy p) then
    b ← PutUint16 b 60 (Ta_SRAdjSuppCount p);
    on_slice b 63 (length b) (authTrailer_marshal (Ta_Auth p))
  else Ret b.

(** ** Load PDU *)
Record LoadPDU := mkLoad {
  Lo_TestAction : Z;
  Lo_RxStopped : Z;
  Lo_SeqNo : Z;
  Lo_UDPPayload : Z;
  Lo_SPDUSeqErr : Z;
  Lo_SPDUTimeSec : Z;
  Lo_SPDUTimeNsec : Z;
  Lo_TimeSec : Z;
  Lo_TimeNsec : Z;
  Lo_RTTRespDelay : Z
}.

Definition parseLoadHdr (b : list Z) : go (result LoadPDU) :=
  if (length b <? loadHdrLen)%nat then Ret (Err (ELoadSize (length b))) else
  id ← Uint16 b 0;
  if negb (id =? pduIDLoad) then Ret (Err (ELoadID id)) else
  testAction ← idx b 2;
  rxStopped ← idx b 3;
  seqNo ← Uint32 b 4;
  udpPayload ← Uint16 b 8;
  spduSeqErr ← Uint16 b 10;
  spduTimeSec ← Uint32 b 12;
  spduTimeNsec ← Uint32 b 16;
  timeSec ← Uint32 b 20;
  timeNsec ← Uint32 b 24;
  rttRespDelay ← Uint16 b 28;
  if (testActionStop2 <? testAction) || (1 <? rxStopped) then Ret (Err ELoadFields) else
  Ret (Ok (mkLoad testAction rxStopped seqNo udpPayload spduSeqErr spduTimeSec
             spduTimeNsec timeSec timeNsec rttRespDelay)).

Definition LoadPDU_marshalInto (p : LoadPDU) (b : list Z) : go (list Z) :=
  b ← PutUint16 b 0 pduIDLoad;
  b ← set_idx b 2 (Lo_TestAction p);
  b ← set_idx b 3 (Lo_RxStopped p);
  b ← PutUint32 b 4 (Lo_SeqNo p);
  b ← PutUint16 b 8 (Lo_UDPPayload p);
  b ← PutUint16 b 10 (Lo_SPDUSeqErr p);
  b ← PutUint32 b 12 (Lo_SPDUTimeSec p);
  b ← PutUint32 b 16 (Lo_SPDUTimeNsec p);
  b ← PutUint32 b 20 (Lo_TimeSec p);
  b ← PutUint32 b 24 (Lo_TimeNsec p);
  b ← PutUint16 b 28 (Lo_RTTRespDelay p);
  PutUint16 b 30 0.

(** ** Well-formed PDUs *)
Definition auth_wf (a : authTrailer) : Prop :=
  is_u8 (AuthMode a) /\ is_u32 (AuthUnixTime a) /\
  length (AuthDigest a) = 32%nat /\ bytes_ok (AuthDigest a) /\ is_u8 (KeyID a).

Definition setup_wf (p : SetupPDU) : Prop :=
  is_u16 (Su_ProtocolVer p) /\ is_u8 (Su_MCIndex p) /\ is_u8 (Su_MCCount p) /\
  is_u16 (Su_MCIdent p) /\ is_u8 (Su_CmdRequest p) /\ is_u8 (Su_CmdResponse p) /\
  is_u16 (Su_MaxBandwidth p) /\ is_u16 (Su_TestPort p) /\ is_u8 (Su_Modifiers p) /\
  auth_wf (Su_Auth p).

Definition testact_wf (p : TestActPDU) : Prop :=
  (is_u16 (Ta_ProtocolVer p) /\ is_u8 (Ta_CmdRequest p) /\ is_u8 (Ta_CmdResponse p) /\
   is_u16 (Ta_LowThresh p) /\ is_u16 (Ta_UpperThresh p) /\ is_u16 (Ta_TrialInt p) /\
   is_u16 (Ta_TestIntTime p) /\ is_u8 (Ta_LegacySubIntSec p) /\ is_u8 (Ta_DSCPECN p) /\
   is_u16 (Ta_SRIndexConf p)) /\
  (is_u8 (Ta_UseOwDelVar p) /\ is_u8 (Ta_HighSpeedDelta p) /\ is_u16 (Ta_SlowAdjThresh p) /\
   is_u16 (Ta_SeqErrThresh p) /\ is_u8 (Ta_IgnoreOooDup p) /\ is_u8 (Ta_Modifiers p) /\
   is_u8 (Ta_RateAdjAlgo p) /\ is_u8 (Ta_ECNCEThresh p) /\ rate_wf (Ta_SR p) /\
   is_u16 (Ta_SubIntPeriod p)) /\
  is_u16 (Ta_SRAdjSuppCount p) /\ auth_wf (Ta_Auth p).

(** What a legacy-size Test Activation does not carry. *)
Definition testact_legacy_ok (p : TestActPDU) : Prop :=
  Ta_legacy p = true -> Ta_SRAdjSuppCount p = 0 /\ Ta_Auth p = zeroAuth.

Definition load_wf (p : LoadPDU) : Prop :=
  is_u8 (Lo_TestAction p) /\ is_u8 (Lo_RxStopped p) /\ is_u32 (Lo_SeqNo p) /\
  is_u16 (Lo_UDPPayload p) /\ is_u16 (Lo_SPDUSeqErr p) /\ is_u32 (Lo_SPDUTimeSec p) /\
  is_u32 (Lo_SPDUTimeNsec p) /\ is_u32 (Lo_TimeSec p) /\ is_u32 (Lo_TimeNsec p) /\
  is_u16 (Lo_RTTRespDelay p).

(** ** Tactics for the wire format *)

(** Decide comparisons between numerals left by [wire_eval]. *)
Ltac ground_eqb :=
  repeat match goal with
  | |- context [Z.eqb ?a ?b] => first [change (Z.eqb a b) with true | change (Z.eqb a b) with false]
  | |- context [Z.ltb ?a ?b] => first [change (Z.ltb a b) with true | change (Z.ltb a b) with false]
  end.
Ltac wire_eval' :=
  lazy -[be_decode Z.land Z.shiftr Z.eqb Z.ltb is_u8 is_u16 is_u32 is_u64 Z.le Z.lt Z.pow bytes_ok].
Ltac wire_eval_in H :=
  lazy -[be_decode Z.land Z.shiftr Z.eqb Z.ltb is_u8 is_u16 is_u32 is_u64 Z.le Z.lt Z.pow bytes_ok] in H.
Ltac wire_width := first [assumption | rewrite be4_id by assumption; assumption | split; [discriminate | reflexivity]].
Ltac wire_step :=
  wire_eval'; repeat (first [rewrite be2_id by wire_width | rewrite be4_id by wire_width | rewrite be8_id by wire_width]);
  ground_eqb; cbn [negb andb orb].

(** ** No datagram makes a decoder panic *)
Lemma authTrailer_parse_returns b : (38 <= length b)%nat -> returns (authTrailer_parse b).
Proof. intros H. unfold authTrailer_parse. repeat go_returns_step fail. Qed.

Lemma parseRate_returns b : (28 <= length b)%nat -> returns (parseRate b).
Proof. intros H. unfold parseRate. repeat go_returns_step fail. Qed.

Ltac wire_read := first [apply authTrailer_parse_returns; lia | apply parseRate_returns; lia].

Lemma parseSetup_returns b : returns (parseSetup b).
Proof.
  unfold parseSetup, slice_from, setupSize. repeat go_returns_step wire_read.
Qed.

Lemma parseTestAct_returns b : returns (parseTestAct b).
Proof.
  unfold parseTestAct, slice_from, testActMinSize, testActSize. repeat go_returns_step wire_read.
Qed.

Lemma parseLoadHdr_returns b : returns (parseLoadHdr b).
Proof. unfold parseLoadHdr, loadHdrLen. repeat go_returns_step wire_read. Qed.

(** ** Decoded PDUs are well-formed *)
Lemma authTrailer_parse_wf b a : bytes_ok b -> authTrailer_parse b = Ret a -> auth_wf a.
Proof.
  intros Hb H. unfold authTrailer_parse in H. go_inv H. injection H as <-.
  unfold auth_wf. cbn. apply slice_inv in E1 as Hs. destruct Hs as (_ & _ & Hs).
  split_and!; [read_ok|read_ok|done|bytes_found|read_ok].
Qed.

Lemma parseRate_wf b r : bytes_ok b -> parseRate b = Ret r -> rate_wf r.
Proof.
  intros Hb H. unfold parseRate in H. go_inv H. injection H as <-.
  unfold rate_wf. cbn. split_and!; read_ok.
Qed.

Lemma zeroAuth_wf : auth_wf zeroAuth.
Proof. unfold auth_wf, zeroAuth. cbn. split_and!; try (done || unfold is_u8, is_u32; lia). exact (make_bytes_ok 32). Qed.

(** Name the reads of an accepted datagram: guards first, then values. *)
Ltac parse_inv H :=
  repeat (go_inv H;
    lazymatch type of H with
    | (if ?c then _ else _) = Ret _ => let E := fresh "G" in destruct c eqn:E; [try discriminate H|try discriminate H]; b2p
    | Ret _ = Ret _ => injection H as H
    end).

(** Bounds of a field, a row or a trailer that was decoded. *)
Ltac field_ok :=
  first
  [ read_ok
  | match goal with
    | H : parseRate _ = Ret ?r |- rate_wf ?r => eapply parseRate_wf; [|exact H]; bytes_found
    | H : authTrailer_parse _ = Ret ?a |- auth_wf ?a => eapply authTrailer_parse_wf; [|exact H]; bytes_found
    | |- auth_wf zeroAuth => exact zeroAuth_wf
    end ].

Lemma parseSetup_wf b p : bytes_ok b -> parseSetup b = Ret (Ok p) ->
  setup_wf p /\ length b = setupSize /\ (Su_CmdRequest p = cmdSetupRequest \/ Su_CmdRequest p = cmdSetupResponse).
Proof.
  intros Hb H. unfold parseSetup, slice_from in H. parse_inv H. subst p. cbn.
  split_and!; [unfold setup_wf; cbn; split_and!; field_ok|done|].
  destruct G1 as [G1|G1]; b2p; auto.
Qed.

Lemma parseTestAct_wf b p : bytes_ok b -> parseTestAct b = Ret (Ok p) ->
  testact_wf p /\ testact_legacy_ok p /\ Ta_legacy p = (length b <? testActSize)%nat /\
  (testActMinSize <= length b <= testActSize)%nat /\
  (Ta_CmdRequest p = cmdTestActUpstream \/ Ta_CmdRequest p = cmdTestActDownstream).
Proof.
  intros Hb H. unfold parseTestAct, slice_from in H. parse_inv H; subst p; cbn;
  (split_and!; [unfold testact_wf; cbn; split_and!; field_ok| | |lia|lia|destruct G0; b2p; auto]).
  all: unfold testact_legacy_ok, testActSize in *; cbn; auto.
  intros Hl. apply Nat.leb_le in Hl. lia.
Qed.

Lemma parseLoadHdr_wf b p : bytes_ok b -> parseLoadHdr b = Ret (Ok p) ->
  load_wf p /\ Lo_TestAction p <= testActionStop2 /\ Lo_RxStopped p <= 1.
Proof.
  intros Hb H. unfold parseLoadHdr in H. parse_inv H. subst p. cbn.
  split_and!; [unfold load_wf; cbn; split_and!; field_ok|lia..].
Qed.

(** ** Round trips *)
Ltac auth_explode a :=
  let m := fresh "am" in let t := fresh "at" in let d := fresh "ad" in let k := fresh "ak" in
  let Hd := fresh "Hd" in
  destruct a as [m t d k];
  repeat match goal with H : auth_wf _ |- _ => destruct H as (? & ? & Hd & ? & ?) end;
  cbn [AuthMode AuthUnixTime AuthDigest KeyID] in *; explode d Hd.

Lemma SetupPDU_encode_decode p :
  setup_wf p -> Su_CmdRequest p = cmdSetupRequest \/ Su_CmdRequest p = cmdSetupResponse ->
  exists b, SetupPDU_marshal p = Ret b /\ length b = setupSize /\ parseSetup b = Ret (Ok p).
Proof.
  destruct p as [ver mi mc mid creq cresp bw port mods au].
  intros (? & ? & ? & ? & ? & ? & ? & ? & ? & ?) Hcmd. cbn in *. auth_explode au.
  eexists. split; [wire_eval'; reflexivity|]. split; [reflexivity|].
  destruct Hcmd as [-> | ->]; by wire_step.
Qed.

Lemma TestActPDU_encode_decode p :
  testact_wf p -> testact_legacy_ok p ->
  Ta_CmdRequest p = cmdTestActUpstream \/ Ta_CmdRequest p = cmdTestActDownstream ->
  exists b, TestActPDU_marshal p = Ret b /\
            length b = (if Ta_legacy p then testActMinSize else testActSize) /\
            parseTestAct b = Ret (Ok p).
Proof.
  destruct p as [p1 p2 p3 p4 p5 p6 p7 p8 p9 p10 p11 p12 p13 p14 p15 p16 p17 p18 [r1 r2 r3 r4 r5 r6 r7] p20 p21 au leg].
  intros ((? & ? & ? & ? & ? & ? & ? & ? & ? & ?) & (? & ? & ? & ? & ? & ? & ? & ? & (? & ? & ? & ? & ? & ? & ?) & ?) & ? & ?) Hleg Hcmd.
  cbn in *. unfold testact_legacy_ok in Hleg. cbn in Hleg. destruct leg.
  - destruct (Hleg eq_refl) as [-> ->]. eexists. split; [wire_eval'; reflexivity|].
    split; [reflexivity|]. destruct Hcmd as [-> | ->]; by wire_step.
  - clear Hleg. auth_explode au. eexists. split; [wire_eval'; reflexivity|].
    split; [reflexivity|]. destruct Hcmd as [-> | ->]; by wire_step.
Qed.

Lemma LoadPDU_encode_decode p b :
  load_wf p -> Lo_TestAction p <= testActionStop2 -> Lo_RxStopped p <= 1 -> (loadHdrLen <= length b)%nat ->
  exists b', LoadPDU_marshalInto p b = Ret b' /\ length b' = length b /\
             drop loadHdrLen b' = drop loadHdrLen b /\ parseLoadHdr b' = Ret (Ok p).
Proof.
  destruct p as [act rx p3 p4 p5 p6 p7 p8 p9 p10].
  intros (? & ? & ? & ? & ? & ? & ? & ? & ? & ?) Hact Hrx Hb. cbn in *. unfold loadHdrLen in Hb.
  do 32 (destruct b as [|? b]; [cbn in Hb; lia|]).
  eexists. split; [wire_eval'; reflexivity|]. split; [reflexivity|]. split; [reflexivity|].
  wire_step. apply Z.ltb_ge in Hact, Hrx. unfold testActionStop2 in Hact. by rewrite Hact, Hrx.
Qed.

(** Split a byte string into bytes with their bounds. *)
Ltac bytes_explode H := unfold bytes_ok in H; repeat (apply Forall_cons_1 in H as [? H]); clear H.

Ltac wire_bytes :=
  repeat match goal with
  | |- context [Z.land (Z.shiftr (be_decode [?x; ?y]) _) 255] =>
      destruct (be2_bytes x y ltac:(assumption) ltac:(assumption)) as [-> ->]
  | |- context [Z.land (Z.shiftr (be_decode [?x; ?y; ?z; ?w]) _) 255] =>
      destruct (be4_bytes x y z w ltac:(assumption) ltac:(assumption) ltac:(assumption) ltac:(assumption))
        as (-> & -> & -> & ->)
  end.

(** Case on the PDU identifier test; an accepted identifier fixes its two
    bytes. *)
Ltac wire_id v H :=
  lazymatch type of H with
  | context [be_decode [?x; ?y] =? v] =>
      let Hid := fresh in let Hx := fresh in let Hy := fresh in
      destruct (be_decode [x; y] =? v) eqn:Hid; [|discriminate H];
      apply Z.eqb_eq in Hid;
      destruct (be2_inv x y v ltac:(assumption) ltac:(assumption) Hid) as [Hx Hy];
      clear Hid; subst x y
  end.
Ltac wire_cmd H :=
  lazymatch type of H with
  | context [?c =? 1] => destruct (c =? 1); [|destruct (c =? 2); [|discriminate H]]
  end.

Lemma SetupPDU_decode_encode b p :
  bytes_ok b -> parseSetup b = Ret (Ok p) -> SetupPDU_marshal p = Ret (take 53 b ++ [0; 0; 0]).
Proof.
  intros Hb H. destruct (parseSetup_wf b p Hb H) as (_ & Hlen & _).
  unfold setupSize in Hlen. explode b Hlen. bytes_explode Hb.
  wire_eval_in H. wire_id 44257 H. wire_cmd H.
  all: injection H as <-; wire_eval'; by wire_bytes.
Qed.

(** The bytes of a Test Activation that the format reserves, cleared. *)
Definition testact_canonical (b : list Z) : list Z :=
  if (length b <? testActSize)%nat then take 58 b ++ [0; 0]
  else take 58 b ++ [0; 0] ++ take 2 (drop 60 b) ++ [0] ++ take 38 (drop 63 b) ++ [0; 0; 0].

Lemma TestActPDU_decode_encode_full b p :
  bytes_ok b -> length b = testActSize -> parseTestAct b = Ret (Ok p) ->
  TestActPDU_marshal p = Ret (testact_canonical b).
Proof.
  intros Hb Hlen H. unfold testActSize in Hlen. explode b Hlen. bytes_explode Hb.
  wire_eval_in H. wire_id 44258 H. wire_cmd H.
  all: injection H as <-; wire_eval'; by wire_bytes.
Qed.

(** A legacy-size Test Activation is read from its first 60 bytes. *)
Lemma parseTestAct_take b :
  (testActMinSize <= length b < testActSize)%nat -> parseTestAct (take testActMinSize b) = parseTestAct b.
Proof.
  unfold parseTestAct, testActMinSize, testActSize. intros Hlen.
  rewrite length_take, (Nat.min_l 60 _) by lia.
  rewrite !(proj2 (Nat.ltb_lt _ 104)), !(proj2 (Nat.ltb_ge _ 60)), !(proj2 (Nat.ltb_ge 104 _)) by lia.
  cbn [negb orb]. by rewrite !Uint16_take, !idx_take, !slice_take by lia.
Qed.

Lemma TestActPDU_decode_encode_legacy b p :
  bytes_ok b -> (testActMinSize <= length b < testActSize)%nat -> parseTestAct b = Ret (Ok p) ->
  TestActPDU_marshal p = Ret (testact_canonical b).
Proof.
  intros Hb Hlen H. rewrite <- parseTestAct_take in H by done.
  unfold testact_canonical. rewrite (proj2 (Nat.ltb_lt _ _)) by (unfold testActMinSize, testActSize in *; lia).
  assert (H58 : take 58 b = take 58 (take testActMinSize b)) by (by rewrite take_take).
  assert (Hl : length (take testActMinSize b) = testActMinSize) by (rewrite length_take; lia).
  rewrite H58. assert (Hb' : bytes_ok (take testActMinSize b)) by by apply Forall_take.
  clear Hb H58 Hlen. generalize dependent (take testActMinSize b). intros c H Hl Hc.
  unfold testActMinSize in Hl. explode c Hl. bytes_explode Hc.
  wire_eval_in H. wire_id 44258 H. wire_cmd H.
  all: injection H as <-; wire_eval'; by wire_bytes.
Qed.

(** Overwriting the digest field of an encoded Setup PDU is encoding the PDU
    with that digest. *)
Definition setup_digest (p : SetupPDU) (d : list Z) : SetupPDU :=
  let a := Su_Auth p in
  mkSetup (Su_ProtocolVer p) (Su_MCIndex p) (Su_MCCount p) (Su_MCIdent p) (Su_CmdRequest p)
    (Su_CmdResponse p) (Su_MaxBandwidth p) (Su_TestPort p) (Su_Modifiers p)
    (mkAuth (AuthMode a) (AuthUnixTime a) d (KeyID a)).

Lemma SetupPDU_marshal_digest p d : length (AuthDigest (Su_Auth p)) = 32%nat -> length d = 32%nat ->
  exists b, SetupPDU_marshal p = Ret b /\ length b = setupSize /\
            SetupPDU_marshal (setup_digest p d) = Ret (splice b setupAuthDigestOff d).
Proof.
  destruct p as [p1 p2 p3 p4 p5 p6 p7 p8 p9 [am at_ ad ak]]. cbn. intros Hp Hd.
  explode ad Hp. explode d Hd. eexists. split; [wire_eval'; reflexivity|]. split; wire_eval'; reflexivity.
Qed.

Lemma NullPDU_marshal_length p : length (AuthDigest (Nu_Auth p)) = 32%nat ->
  exists b, NullPDU_marshal p = Ret b /\ length b = nullSize.
Proof.
  destruct p as [p1 [am at_ ad ak]]. cbn. intros Hp. explode ad Hp.
  eexists. split; [wire_eval'; reflexivity|]. reflexivity.
Qed.

Definition testact_digest (p : TestActPDU) (d : list Z) : TestActPDU :=
  let a := Ta_Auth p in
  mkTestAct (Ta_ProtocolVer p) (Ta_CmdRequest p) (Ta_CmdResponse p) (Ta_LowThresh p) (Ta_UpperThresh p)
    (Ta_TrialInt p) (Ta_TestIntTime p) (Ta_LegacySubIntSec p) (Ta_DSCPECN p) (Ta_SRIndexConf p)
    (Ta_UseOwDelVar p) (Ta_HighSpeedDelta p) (Ta_SlowAdjThresh p) (Ta_SeqErrThresh p) (Ta_IgnoreOooDup p)
    (Ta_Modifiers p) (Ta_RateAdjAlgo p) (Ta_ECNCEThresh p) (Ta_SR p) (Ta_SubIntPeriod p)
    (Ta_SRAdjSuppCount p) (mkAuth (AuthMode a) (AuthUnixTime a) d (KeyID a)) (Ta_legacy p).

Lemma TestActPDU_marshal_digest p d : Ta_legacy p = false ->
  length (AuthDigest (Ta_Auth p)) = 32%nat -> length d = 32%nat ->
  exists b, TestActPDU_marshal p = Ret b /\ length b = testActSize /\
            TestActPDU_marshal (testact_digest p d) = Ret (splice b testActAuthDigestOff d).
Proof.
  destruct p as [p1 p2 p3 p4 p5 p6 p7 p8 p9 p10 p11 p12 p13 p14 p15 p16 p17 p18 [r1 r2 r3 r4 r5 r6 r7] p20 p21 [am at_ ad ak] leg].
  cbn. intros -> Hp Hd. explode ad Hp. explode d Hd.
  eexists. split; [wire_eval'; reflexivity|]. split; wire_eval'; reflexivity.
Qed.

(** ** Theorems *)

(** A well-formed Setup PDU is encoded into 56 bytes without a panic,
    and decoding those bytes gives the PDU back. *)
Theorem Setup_roundtrip p :
  setup_wf p -> Su_CmdRequest p = cmdSetupRequest \/ Su_CmdRequest p = cmdSetupResponse ->
  exists b, SetupPDU_marshal p = Ret b /\ length b = setupSize /\ parseSetup b = Ret (Ok p).
Proof. apply SetupPDU_encode_decode. Qed.

Definition setup_example : SetupPDU :=
  mkSetup 20 0 1 7 cmdSetupRequest 0 (bwUpstreamBit + 100) 0 modJumbo
    (mkAuth 1 1712345678 (make_bytes 32) 0).

Lemma setup_example_wf : setup_wf setup_example.
Proof.
  unfold setup_wf, auth_wf, setup_example, bwUpstreamBit, modJumbo. cbn -[make_bytes].
  unfold is_u8, is_u16, is_u32. split_and!; try (done || lia). apply make_bytes_ok.
Qed.

Lemma Setup_roundtrip_witness :
  exists b, SetupPDU_marshal setup_example = Ret b /\ length b = setupSize /\
            parseSetup b = Ret (Ok setup_example).
Proof. apply (Setup_roundtrip setup_example); [apply setup_example_wf|left; reflexivity]. Defined.

(** C22: an accepted Setup datagram re-encodes to itself with the reserved
    and checksum bytes cleared: the decoder loses nothing else, so the
    response the server derives from a request differs from it only where
    the server writes. *)
Theorem Setup_canonical b p :
  bytes_ok b -> parseSetup b = Ret (Ok p) -> SetupPDU_marshal p = Ret (take 53 b ++ [0; 0; 0]).
Proof. apply SetupPDU_decode_encode. Qed.

Definition setup_example_bytes : list Z :=
  be_encode 2 pduIDSetup ++ be_encode 2 20 ++ [0; 1] ++ be_encode 2 7 ++ [1; 0] ++
  be_encode 2 33 ++ be_encode 2 0 ++ [1; 1] ++ be_encode 4 1712345678 ++ make_bytes 32 ++ [0; 9; 8; 7].

Lemma Setup_canonical_witness :
  exists p, parseSetup setup_example_bytes = Ret (Ok p) /\
            SetupPDU_marshal p = Ret (take 53 setup_example_bytes ++ [0; 0; 0]).
Proof.
  eexists. split; [vm_compute; reflexivity|].
  apply (Setup_canonical setup_example_bytes); [|vm_compute; reflexivity].
  unfold setup_example_bytes, bytes_ok. rewrite !Forall_app.
  split_and!; try apply be_encode_ok; try apply make_bytes_ok; repeat constructor; discriminate.
Defined.

(** A Test Activation round-trips in its 104-byte layout and, without
    the suppression count and the authentication trailer that layout lacks,
    in the 60-byte legacy layout. *)
Theorem TestAct_roundtrip p :
  testact_wf p -> testact_legacy_ok p ->
  Ta_CmdRequest p = cmdTestActUpstream \/ Ta_CmdRequest p = cmdTestActDownstream ->
  exists b, TestActPDU_marshal p = Ret b /\
            length b = (if Ta_legacy p then testActMinSize else testActSize) /\
            parseTestAct b = Ret (Ok p).
Proof. apply TestActPDU_encode_decode. Qed.

Definition testact_example (legacy : bool) : TestActPDU :=
  mkTestAct 20 cmdTestActDownstream 0 30 90 50 10 1 0 srIndexAuto 1 10 3 0 0 0 0 0
    zeroRate 1000 0 zeroAuth legacy.

Lemma testact_example_wf legacy : testact_wf (testact_example legacy).
Proof.
  unfold testact_wf, rate_wf, testact_example. cbn -[zeroAuth].
  unfold is_u8, is_u16, is_u32. split_and!; try (done || lia); apply zeroAuth_wf.
Qed.

Lemma TestAct_roundtrip_witness :
  exists b, TestActPDU_marshal (testact_example true) = Ret b /\ length b = testActMinSize /\
            parseTestAct b = Ret (Ok (testact_example true)).
Proof.
  apply (TestAct_roundtrip (testact_example true)); [apply testact_example_wf| |right; reflexivity].
  intros _. split; reflexivity.
Defined.

(** An accepted Test Activation of any size from 60 to 104 bytes
    re-encodes to the datagram with its reserved bytes cleared, cut to 60
    bytes when it was shorter than the current layout: the server answers
    legacy clients in kind. *)
Theorem TestAct_canonical b p :
  bytes_ok b -> parseTestAct b = Ret (Ok p) -> TestActPDU_marshal p = Ret (testact_canonical b).
Proof.
  intros Hb H. destruct (parseTestAct_wf b p Hb H) as (_ & _ & _ & Hlen & _).
  destruct (Nat.eq_dec (length b) testActSize) as [He|Hne].
  - by apply TestActPDU_decode_encode_full.
  - apply TestActPDU_decode_encode_legacy; [done|lia|done].
Qed.

Definition testact_example_bytes : list Z :=
  be_encode 2 pduIDTestAct ++ be_encode 2 11 ++ [1; 0] ++ make_bytes 57.

Lemma TestAct_canonical_witness :
  exists p, parseTestAct testact_example_bytes = Ret (Ok p) /\
            TestActPDU_marshal p = Ret (take 60 testact_example_bytes).
Proof.
  eexists. split; [vm_compute; reflexivity|].
  apply (TestAct_canonical testact_example_bytes); [|vm_compute; reflexivity].
  unfold testact_example_bytes, bytes_ok. rewrite !Forall_app.
  split_and!; try apply be_encode_ok; try apply make_bytes_ok; repeat constructor; discriminate.
Defined.

(** A load header written over the first 32 bytes of a datagram buffer
    is read back by the receiver, and the rest of the buffer is untouched. *)
Theorem Load_roundtrip p b :
  load_wf p -> Lo_TestAction p <= testActionStop2 -> Lo_RxStopped p <= 1 -> (loadHdrLen <= length b)%nat ->
  exists b', LoadPDU_marshalInto p b = Ret b' /\ length b' = length b /\
             drop loadHdrLen b' = drop loadHdrLen b /\ parseLoadHdr b' = Ret (Ok p).
Proof. apply LoadPDU_encode_decode. Qed.

Definition load_example : LoadPDU := mkLoad 0 0 1 1222 0 0 0 1712345678 5000 0.

Lemma Load_roundtrip_witness :
  exists b', LoadPDU_marshalInto load_example (make_bytes 52) = Ret b' /\ length b' = 52%nat /\
             drop loadHdrLen b' = make_bytes 20 /\ parseLoadHdr b' = Ret (Ok load_example).
Proof.
  apply (Load_roundtrip load_example (make_bytes 52)); cbn; try (unfold testActionStop2, loadHdrLen; lia).
  unfold load_wf, is_u8, is_u16, is_u32, load_example; cbn; lia.
Defined.
