(* ===== verification/Status.v ===== *)
(** * Status PDUs (internal/udpst/protocol.go, SubIntStats and StatusPDU)

    The status feedback message with its embedded sub-interval statistics, in
    the packed layout of protocol version 20 and the padded layout of versions
    11 to 19. *)

From S2P Require Import Prelude Srates Protocol.

Record SubIntStats := mkSub {
  Si_RxDatagrams : Z;
  Si_RxBytes : Z;
  Si_DeltaTime : Z;
  Si_SeqErrLoss : Z;
  Si_SeqErrOoo : Z;
  Si_SeqErrDup : Z;
  Si_DelayVarMin : Z;
  Si_DelayVarMax : Z;
  Si_DelayVarSum : Z;
  Si_DelayVarCnt : Z;
  Si_RTTVarMin : Z;
  Si_RTTVarMax : Z;
  Si_AccumTime : Z
}.

Definition zeroSub : SubIntStats := mkSub 0 0 0 0 0 0 0 0 0 0 0 0 0.

Definition SubIntStats_marshal (s : SubIntStats) (b : list Z) : go (list Z) :=
  b ← PutUint32 b 0 (Si_RxDatagrams s);
  b ← PutUint64 b 4 (Si_RxBytes s);
  b ← PutUint32 b 12 (Si_DeltaTime s);
  b ← PutUint32 b 16 (Si_SeqErrLoss s);
  b ← PutUint32 b 20 (Si_SeqErrOoo s);
  b ← PutUint32 b 24 (Si_SeqErrDup s);
  b ← PutUint32 b 28 (Si_DelayVarMin s);
  b ← PutUint32 b 32 (Si_DelayVarMax s);
  b ← PutUint32 b 36 (Si_DelayVarSum s);
  b ← PutUint32 b 40 (Si_DelayVarCnt s);
  b ← PutUint32 b 44 (Si_RTTVarMin s);
  b ← PutUint32 b 48 (Si_RTTVarMax s);
  PutUint32 b 52 (Si_AccumTime s).

Definition parseSubIntStats (b : list Z) : go SubIntStats :=
  rxDatagrams ← Uint32 b 0;
  rxBytes ← Uint64 b 4;
  deltaTime ← Uint32 b 12;
  seqErrLoss ← Uint32 b 16;
  seqErrOoo ← Uint32 b 20;
  seqErrDup ← Uint32 b 24;
  delayVarMin ← Uint32 b 28;
  delayVarMax ← Uint32 b 32;
  delayVarSum ← Uint32 b 36;
  delayVarCnt ← Uint32 b 40;
  rttVarMin ← Uint32 b 44;
  rttVarMax ← Uint32 b 48;
  accumTime ← Uint32 b 52;
  Ret (mkSub rxDatagrams rxBytes deltaTime seqErrLoss seqErrOoo seqErrDup
         delayVarMin delayVarMax delayVarSum delayVarCnt rttVarMin rttVarMax accumTime).

Record StatusPDU := mkStatus {
  St_TestAction : Z;
  St_RxStopped : Z;
  St_SeqNo : Z;
  St_SR : Rate;
  St_SubIntSeqNo : Z;
  St_SubIntSaved : SubIntStats;
  St_SeqErrLoss : Z;
  St_SeqErrOoo : Z;
  St_SeqErrDup : Z;
  St_ClockDeltaMin : Z;
  St_DelayVarMin : Z;
  St_DelayVarMax : Z;
  St_DelayVarSum : Z;
  St_DelayVarCnt : Z;
  St_RTTMinimum : Z;
  St_RTTVarSample : Z;
  St_DelayMinUpd : Z;
  St_TIDeltaTime : Z;
  St_TIRxDatagrams : Z;
  St_TIRxBytes : Z;
  St_TimeSec : Z;
  St_TimeNsec : Z;
  St_AuthMode : Z;
  St_TIRxCECount : Z;
  St_SavedCECount : Z;
  St_Modifiers : Z;
  St_legacy : bool
}.

(** The loop of marshalLegacy: consecutive 32-bit fields. *)
Fixpoint put_u32s (b : list Z) (off : nat) (vs : list Z) : go (list Z) :=
  match vs with
  | [] => Ret b
  | v :: vs => b ← PutUint32 b off v; put_u32s b (off + 4) vs
  end.

Definition StatusPDU_marshalLegacy (p : StatusPDU) : go (list Z) :=
  let b := make_bytes statusLegacySize in
  b ← PutUint16 b 0 pduIDStatus;
  b ← set_idx b 2 (St_TestAction p);
  b ← set_idx b 3 (St_RxStopped p);
  b ← PutUint32 b 4 (St_SeqNo p);
  b ← on_slice b 8 36 (Rate_marshal (St_SR p));
  b ← PutUint32 b 36 (St_SubIntSeqNo p);
  b ← PutUint32 b 40 (Si_RxDatagrams (St_SubIntSaved p));
  tmp ← SubIntStats_marshal (St_SubIntSaved p) (make_bytes 56);
  tmp' ← slice tmp 4 56;
  b ← put_bytes b 48 tmp';
  b ← put_u32s b 104
        [St_SeqErrLoss p; St_SeqErrOoo p; St_SeqErrDup p; St_ClockDeltaMin p;
         St_DelayVarMin p; St_DelayVarMax p; St_DelayVarSum p; St_DelayVarCnt p;
         St_RTTMinimum p; St_RTTVarSample p];
  b ← set_idx b 144 (St_DelayMinUpd p);
  b ← PutUint32 b 148 (St_TIDeltaTime p);
  b ← PutUint32 b 152 (St_TIRxDatagrams p);
  b ← PutUint32 b 156 (St_TIRxBytes p);
  b ← PutUint32 b 160 (St_TimeSec p);
  PutUint32 b 164 (St_TimeNsec p).

Definition StatusPDU_marshal (p : StatusPDU) : go (list Z) :=
  if St_legacy p then StatusPDU_marshalLegacy p else
  let b := make_bytes statusSize in
  b ← PutUint16 b 0 pduIDStatus;
  b ← set_idx b 2 (St_TestAction p);
  b ← set_idx b 3 (St_RxStopped p);
  b ← PutUint32 b 4 (St_SeqNo p);
  b ← on_slice b 8 36 (Rate_marshal (St_SR p));
  b ← PutUint32 b 36 (St_SubIntSeqNo p);
  b ← on_slice b 40 96 (SubIntStats_marshal (St_SubIntSaved p));
  b ← PutUint32 b 96 (St_SeqErrLoss p);
  b ← PutUint32 b 100 (St_SeqErrOoo p);
  b ← PutUint32 b 104 (St_SeqErrDup p);
  b ← PutUint32 b 108 (St_ClockDeltaMin p);
  b ← PutUint32 b 112 (St_DelayVarMin p);
  b ← PutUint32 b 116 (St_DelayVarMax p);
  b ← PutUint32 b 120 (St_DelayVarSum p);
  b ← PutUint32 b 124 (St_DelayVarCnt p);
  b ← PutUint32 b 128 (St_RTTMinimum p);
  b ← PutUint32 b 132 (St_RTTVarSample p);
  b ← set_idx b 136 (St_DelayMinUpd p);
  b ← PutUint32 b 140 (St_TIDeltaTime p);
  b ← PutUint32 b 144 (St_TIRxDatagrams p);
  b ← PutUint32 b 148 (St_TIRxBytes p);
  b ← PutUint32 b 152 (St_TimeSec p);
  b ← PutUint32 b 156 (St_TimeNsec p);
  b ← set_idx b 163 (St_AuthMode p);
  b ← PutUint32 b 176 (St_TIRxCECount p);
  b ← PutUint32 b 180 (St_SavedCECount p);
  set_idx b 185 (St_Modifiers p).

Definition parseStatus (b : list Z) : go (result StatusPDU) :=
  if negb (length b =? statusSize)%nat && negb (length b =? statusLegacySize)%nat
  then Ret (Err (EStatusSize (length b))) else
  id ← Uint16 b 0;
  if negb (id =? pduIDStatus) then Ret (Err (EStatusID id)) else
  testAction ← idx b 2;
  rxStopped ← idx b 3;
  seqNo ← Uint32 b 4;
  srb ← slice b 8 36;
  sr ← parseRate srb;
  subIntSeqNo ← Uint32 b 36;
  let legacy := (length b =? statusLegacySize)%nat in
  if (testActionStop2 <? testAction) || (1 <? rxStopped) then Ret (Err EStatusFields) else
  if legacy then
    rxDatagrams ← Uint32 b 40;
    tmp ← PutUint32 (make_bytes 56) 0 rxDatagrams;
    sub ← slice b 48 100;
    tmp ← put_bytes tmp 4 sub;
    st ← parseSubIntStats tmp;
    seqErrLoss ← Uint32 b 104;
    seqErrOoo ← Uint32 b 108;
    seqErrDup ← Uint32 b 112;
    clockDeltaMin ← Uint32 b 116;
    delayVarMin ← Uint32 b 120;
    delayVarMax ← Uint32 b 124;
    delayVarSum ← Uint32 b 128;
    delayVarCnt ← Uint32 b 132;
    rttMinimum ← Uint32 b 136;
    rttVarSample ← Uint32 b 140;
    delayMinUpd ← idx b 144;
    tiDeltaTime ← Uint32 b 148;
    tiRxDatagrams ← Uint32 b 152;
    tiRxBytes ← Uint32 b 156;
    timeSec ← Uint32 b 160;
    timeNsec ← Uint32 b 164;
    Ret (Ok (mkStatus testAction rxStopped seqNo sr subIntSeqNo st
               seqErrLoss seqErrOoo seqErrDup clockDeltaMin delayVarMin delayVarMax
               delayVarSum delayVarCnt rttMinimum rttVarSample delayMinUpd tiDeltaTime
               tiRxDatagrams tiRxBytes timeSec timeNsec 0 0 0 0 legacy))
  else
    subb ← slice b 40 96;
    st ← parseSubIntStats subb;
    seqErrLoss ← Uint32 b 96;
    seqErrOoo ← Uint32 b 100;
    seqErrDup ← Uint32 b 104;
    clockDeltaMin ← Uint32 b 108;
    delayVarMin ← Uint32 b 112;
    delayVarMax ← Uint32 b 116;
    delayVarSum ← Uint32 b 120;
    delayVarCnt ← Uint32 b 124;
    rttMinimum ← Uint32 b 128;
    rttVarSample ← Uint32 b 132;
    delayMinUpd ← idx b 136;
    tiDeltaTime ← Uint32 b 140;
    tiRxDatagrams ← Uint32 b 144;
    tiRxBytes ← Uint32 b 148;
    timeSec ← Uint32 b 152;
    timeNsec ← Uint32 b 156;
    authMode ← idx b 163;
    tiRxCECount ← Uint32 b 176;
    savedCECount ← Uint32 b 180;
    modifiers ← idx b 185;
    Ret (Ok (mkStatus testAction rxStopped seqNo sr subIntSeqNo st
               seqErrLoss seqErrOoo seqErrDup clockDeltaMin delayVarMin delayVarMax
               delayVarSum delayVarCnt rttMinimum rttVarSample delayMinUpd tiDeltaTime
               tiRxDatagrams tiRxBytes timeSec timeNsec authMode tiRxCECount savedCECount
               modifiers legacy)).

(** ** Well-formed status PDUs *)
Definition sub_wf (s : SubIntStats) : Prop :=
  is_u32 (Si_RxDatagrams s) /\ is_u64 (Si_RxBytes s) /\ is_u32 (Si_DeltaTime s) /\
  is_u32 (Si_SeqErrLoss s) /\ is_u32 (Si_SeqErrOoo s) /\ is_u32 (Si_SeqErrDup s) /\
  is_u32 (Si_DelayVarMin s) /\ is_u32 (Si_DelayVarMax s) /\ is_u32 (Si_DelayVarSum s) /\
  is_u32 (Si_DelayVarCnt s) /\ is_u32 (Si_RTTVarMin s) /\ is_u32 (Si_RTTVarMax s) /\
  is_u32 (Si_AccumTime s).

Definition status_wf (p : StatusPDU) : Prop :=
  (is_u8 (St_TestAction p) /\ is_u8 (St_RxStopped p) /\ is_u32 (St_SeqNo p) /\ rate_wf (St_SR p) /\
   is_u32 (St_SubIntSeqNo p) /\ sub_wf (St_SubIntSaved p)) /\
  (is_u32 (St_SeqErrLoss p) /\ is_u32 (St_SeqErrOoo p) /\ is_u32 (St_SeqErrDup p) /\
   is_u32 (St_ClockDeltaMin p) /\ is_u32 (St_DelayVarMin p) /\ is_u32 (St_DelayVarMax p) /\
   is_u32 (St_DelayVarSum p) /\ is_u32 (St_DelayVarCnt p) /\ is_u32 (St_RTTMinimum p) /\
   is_u32 (St_RTTVarSample p)) /\
  (is_u8 (St_DelayMinUpd p) /\ is_u32 (St_TIDeltaTime p) /\ is_u32 (St_TIRxDatagrams p) /\
   is_u32 (St_TIRxBytes p) /\ is_u32 (St_TimeSec p) /\ is_u32 (St_TimeNsec p)) /\
  (is_u8 (St_AuthMode p) /\ is_u32 (St_TIRxCECount p) /\ is_u32 (St_SavedCECount p) /\
   is_u8 (St_Modifiers p)).

(** What the legacy layout does not carry. *)
Definition status_legacy_ok (p : StatusPDU) : Prop :=
  St_legacy p = true ->
  St_AuthMode p = 0 /\ St_TIRxCECount p = 0 /\ St_SavedCECount p = 0 /\ St_Modifiers p = 0.

(** ** Lemmas *)
Lemma parseSubIntStats_returns b : (56 <= length b)%nat -> returns (parseSubIntStats b).
Proof. intros H. unfold parseSubIntStats. repeat go_returns_step fail. Qed.

Lemma parseStatus_returns b : returns (parseStatus b).
Proof.
  unfold parseStatus, statusSize, statusLegacySize.
  pose proof (make_bytes_length 56) as Htmp.
  destruct (length b =? 204)%nat eqn:E1, (length b =? 168)%nat eqn:E2; b2p; cbn [negb andb].
  all: try lia.
  all:  repeat go_returns_step ltac:(first [wire_read | apply parseSubIntStats_returns; lia]).
Qed.

Lemma parseSubIntStats_wf b s : bytes_ok b -> parseSubIntStats b = Ret s -> sub_wf s.
Proof.
  intros Hb H. unfold parseSubIntStats in H. go_inv H. injection H as <-.
  unfold sub_wf. cbn. split_and!; read_ok.
Qed.

Lemma status_tmp_ok b v off sub tmp tmp' : bytes_ok b ->
  PutUint32 (make_bytes 56) off v = Ret tmp -> slice b 48 100 = Ret sub -> put_bytes tmp 4 sub = Ret tmp' -> bytes_ok tmp'.
Proof.
  intros Hb H1 H2 H3. apply put_bytes_inv in H1 as [-> _], H3 as [-> _].
  apply splice_ok; [apply splice_ok; [apply make_bytes_ok|apply be_encode_ok]|by eapply slice_ok].
Qed.

Lemma parseStatus_wf b p : bytes_ok b -> parseStatus b = Ret (Ok p) ->
  status_wf p /\ status_legacy_ok p /\ St_TestAction p <= testActionStop2 /\ St_RxStopped p <= 1.
Proof.
  intros Hb H. unfold parseStatus in H. parse_inv H; subst p; cbn;
  (split_and!; [|unfold status_legacy_ok; cbn; auto; congruence|lia|lia]).
  all: unfold status_wf; cbn; split_and!; try field_ok.
  all: eapply parseSubIntStats_wf; [|eassumption]; first [bytes_found|by eapply status_tmp_ok].
Qed.

Lemma Status_encode_decode p :
  status_wf p -> status_legacy_ok p -> St_TestAction p <= testActionStop2 -> St_RxStopped p <= 1 ->
  exists b, StatusPDU_marshal p = Ret b /\
            length b = (if St_legacy p then statusLegacySize else statusSize) /\
            parseStatus b = Ret (Ok p).
Proof.
  destruct p as [act rx p3 [r1 r2 r3 r4 r5 r6 r7] p5 [s1 s2 s3 s4 s5 s6 s7 s8 s9 s10 s11 s12 s13]
    p7 p8 p9 p10 p11 p12 p13 p14 p15 p16 p17 p18 p19 p20 p21 p22 p23 p24 p25 p26 leg].
  intros ((? & ? & ? & (? & ? & ? & ? & ? & ? & ?) & ? & (? & ? & ? & ? & ? & ? & ? & ? & ? & ? & ? & ? & ?)) &
    (? & ? & ? & ? & ? & ? & ? & ? & ? & ?) & (? & ? & ? & ? & ? & ?) & (? & ? & ? & ?)) Hleg Hact Hrx.
  cbn in *. unfold testActionStop2 in Hact. apply Z.ltb_ge in Hact, Hrx.
  unfold status_legacy_ok in Hleg; cbn in Hleg. destruct leg.
  - destruct (Hleg eq_refl) as (-> & -> & -> & ->). eexists. split; [wire_eval'; reflexivity|].
    split; [reflexivity|]. wire_step. by rewrite Hact, Hrx.
  - eexists. split; [wire_eval'; reflexivity|]. split; [reflexivity|].
    wire_step. by rewrite Hact, Hrx.
Qed.

(** ** Theorems *)

(** A decoder returns, with a value of the described kind or an error. *)
Definition decodes {A} (r : go (result A)) (P : A -> Prop) : Prop :=
  exists x, r = Ret x /\ match x with Ok p => P p | Err _ => True end.

Lemma decodes_intro {A} (r : go (result A)) (P : A -> Prop) :
  returns r -> (forall p, r = Ret (Ok p) -> P p) -> decodes r P.
Proof. intros [[p|e] Hr] HP; [exists (Ok p)|exists (Err e)]; auto. Qed.

(** C21: no datagram, whatever its length and contents, makes one of the
    four decoders panic, and a PDU that a decoder returns is well-typed: every
    field is within the width of its wire type, the commands and actions are
    the ones the protocol defines, and a PDU of a legacy layout carries none of the
    fields that layout lacks. *)
Theorem decoders_typed b :
  bytes_ok b ->
  decodes (parseSetup b) (fun p => setup_wf p /\ (Su_CmdRequest p = cmdSetupRequest \/ Su_CmdRequest p = cmdSetupResponse)) /\
  decodes (parseTestAct b) (fun p => testact_wf p /\ testact_legacy_ok p /\
    (Ta_CmdRequest p = cmdTestActUpstream \/ Ta_CmdRequest p = cmdTestActDownstream)) /\
  decodes (parseLoadHdr b) (fun p => load_wf p /\ Lo_TestAction p <= testActionStop2 /\ Lo_RxStopped p <= 1) /\
  decodes (parseStatus b) (fun p => status_wf p /\ status_legacy_ok p /\
    St_TestAction p <= testActionStop2 /\ St_RxStopped p <= 1).
Proof.
  intros Hb. split_and!; apply decodes_intro;
    auto using parseSetup_returns, parseTestAct_returns, parseLoadHdr_returns, parseStatus_returns.
  - intros p Hp. by destruct (parseSetup_wf b p Hb Hp) as (? & _ & ?).
  - intros p Hp. by destruct (parseTestAct_wf b p Hb Hp) as (? & ? & _ & _ & ?).
  - intros p Hp. by apply (parseLoadHdr_wf b).
  - intros p Hp. by apply (parseStatus_wf b).
Qed.

Lemma decoders_typed_witness :
  exists p, parseSetup setup_example_bytes = Ret (Ok p) /\ setup_wf p.
Proof.
  destruct (decoders_typed setup_example_bytes) as [(x & Hx & Hp) _];
    [repeat (constructor; [split; [discriminate|reflexivity]|]); constructor|].
  destruct x as [p|e]; [exists p; split; [exact Hx|apply Hp]|vm_compute in Hx; discriminate Hx].
Defined.

(** C23: a status PDU round-trips in the packed 204-byte layout and, without
    the fields that layout lacks, in the padded 168-byte layout of versions
    11 to 19. *)
Theorem Status_roundtrip p :
  status_wf p -> status_legacy_ok p -> St_TestAction p <= testActionStop2 -> St_RxStopped p <= 1 ->
  exists b, StatusPDU_marshal p = Ret b /\
            length b = (if St_legacy p then statusLegacySize else statusSize) /\
            parseStatus b = Ret (Ok p).
Proof. apply Status_encode_decode. Qed.

Definition status_example (legacy : bool) : StatusPDU :=
  mkStatus 0 0 1 (mkRate 0 0 0 1000 0 0 97) 3
    (mkSub 10 12220 1000000 1 0 0 0 4 7 10 0 2 3000)
    1 0 0 5 0 4 7 10 12 0 1 50000 10 12220 1712345678 999 0 0 0 0 legacy.

Lemma status_example_wf legacy : status_wf (status_example legacy).
Proof.
  unfold status_wf, rate_wf, sub_wf, status_example. cbn.
  unfold is_u8, is_u32, is_u64. split_and!; lia.
Qed.

Lemma Status_roundtrip_witness :
  exists b, StatusPDU_marshal (status_example true) = Ret b /\ length b = statusLegacySize /\
            parseStatus b = Ret (Ok (status_example true)).
Proof.
  apply (Status_roundtrip (status_example true)); [apply status_example_wf| |discriminate..].
  intros _. split_and!; reflexivity.
Defined.
