(* ===== verification/GoText.v ===== *)
(** * Text (packages strconv and strings, verbs of fmt)

    ASCII text as bytes: decimal formatting and parsing, with the lemma that
    a number reads back from what is written. *)

From stdpp Require Import strings.
From S2P Require Import Prelude.

(** The bytes of a string literal. *)
Definition str (s : string) : list Z := map (fun c => Z.of_N (Ascii.N_of_ascii c)) (String.list_ascii_of_string s).

Definition is_digit (c : Z) : bool := (48 <=? c) && (c <=? 57).

(** strconv.FormatUint(v, 10) as bytes; twenty digits hold any uint64. *)
Fixpoint decimal_digits (fuel : nat) (v : Z) (acc : list Z) : list Z :=
  match fuel with
  | O => acc
  | S fuel =>
      let acc := (48 + v mod 10) :: acc in
      if v / 10 =? 0 then acc else decimal_digits fuel (v / 10) acc
  end.

Definition FormatUint10 (v : Z) : list Z := decimal_digits 20 v [].

(** The verb %d of a signed integer. *)
Definition FormatInt10 (v : Z) : list Z := if v <? 0 then 45 :: FormatUint10 (- v) else FormatUint10 v.

(** Text of newline-terminated lines, and its lines. *)
Definition unlines (ls : list (list Z)) : list Z := concat (map (fun l => l ++ [10]) ls).

Fixpoint lines_from (cur s : list Z) : list (list Z) :=
  match s with
  | [] => match cur with [] => [] | _ => [rev cur] end
  | c :: s => if c =? 10 then rev cur :: lines_from [] s else lines_from (c :: cur) s
  end.
Definition lines (s : list Z) : list (list Z) := lines_from [] s.

Definition digits_value (ds : list Z) : Z := fold_left (fun v d => v * 10 + (d - 48)) ds 0.

(** strconv.ParseInt(s, 10, 64) and strconv.Atoi on a 64-bit platform: an
    optional sign, then digits; [None] is an error. *)
Definition ParseInt (s : list Z) : option Z :=
  let '(neg, ds) :=
    match s with
    | 43 :: ds => (false, ds)
    | 45 :: ds => (true, ds)
    | _ => (false, s)
    end in
  match ds with
  | [] => None
  | _ =>
      if forallb is_digit ds then
        let v := digits_value ds in
        if neg then (if v <=? 2 ^ 63 then Some (- v) else None)
        else (if v <? 2 ^ 63 then Some v else None)
      else None
  end.

(** strconv.ParseUint(s, 10, w) for a width with the greatest value [max]. *)
Definition ParseUint (s : list Z) (max : Z) : option Z :=
  match s with
  | [] => None
  | _ => if forallb is_digit s && (digits_value s <=? max) then Some (digits_value s) else None
  end.

(** A decimal number of any size. *)
Definition parse_number (s : list Z) : option Z :=
  let '(neg, ds) := match s with 45 :: ds => (true, ds) | _ => (false, s) end in
  match ds with
  | [] => None
  | _ => if forallb is_digit ds then Some (if neg then - digits_value ds else digits_value ds) else None
  end.

(** ** Lemmas *)
Lemma digits_value_cons d ds : digits_value (d :: ds) = (d - 48) * 10 ^ Z.of_nat (length ds) + digits_value ds.
Proof.
  unfold digits_value. cbn [fold_left]. replace (0 * 10 + (d - 48)) with (d - 48) by lia. generalize (d - 48). clear d.
  induction ds as [|e ds IH]; intros v; [cbn; lia|].
  cbn [fold_left length]. rewrite IH, (IH (0 * 10 + (e - 48))), Nat2Z.inj_succ, Z.pow_succ_r by lia. lia.
Qed.

Definition all_digits (ds : list Z) : Prop := Forall (fun c => is_digit c = true) ds.

(** The decimal representation is made of digits and reads back. *)
Lemma decimal_digits_spec fuel v acc : 0 <= v < 10 ^ Z.of_nat fuel -> all_digits acc -> (0 < fuel)%nat ->
  all_digits (decimal_digits fuel v acc) /\ decimal_digits fuel v acc <> [] /\
  digits_value (decimal_digits fuel v acc) = v * 10 ^ Z.of_nat (length acc) + digits_value acc.
Proof.
  revert v acc. induction fuel as [|fuel IH]; intros v acc Hv Hacc Hf; [lia|].
  cbn [decimal_digits]. cbv zeta.
  pose proof (Z.mod_pos_bound v 10 ltac:(lia)) as Hm. pose proof (Z.div_mod v 10 ltac:(lia)) as Hdm.
  assert (Hd : all_digits ((48 + v mod 10) :: acc)).
  { constructor; [|done]. unfold is_digit. apply andb_true_iff. rewrite !Z.leb_le. lia. }
  assert (Hval : digits_value ((48 + v mod 10) :: acc) = (v mod 10) * 10 ^ Z.of_nat (length acc) + digits_value acc).
  { rewrite digits_value_cons. f_equal. f_equal. lia. }
  destruct (v / 10 =? 0) eqn:E; b2p.
  - split_and!; [done|done|]. rewrite Hval. by replace (v mod 10) with v by lia.
  - assert (Hfuel : (0 < fuel)%nat).
    { destruct fuel; [|lia]. cbn in Hv. assert (v / 10 = 0) by (apply Z.div_small; lia). lia. }
    rewrite Nat2Z.inj_succ, Z.pow_succ_r in Hv by lia.
    destruct (IH (v / 10) ((48 + v mod 10) :: acc)) as (H1 & H2 & H3); [|done|done|].
    { split; [apply Z.div_pos; lia|apply Z.div_lt_upper_bound; lia]. }
    split_and!; [done|done|]. rewrite H3, Hval. cbn [length]. rewrite Nat2Z.inj_succ, Z.pow_succ_r by lia.
    rewrite Hdm at 3. lia.
Qed.

Lemma FormatUint10_spec v : 0 <= v < 2 ^ 64 ->
  all_digits (FormatUint10 v) /\ FormatUint10 v <> [] /\ digits_value (FormatUint10 v) = v.
Proof.
  intros Hv. unfold FormatUint10. destruct (decimal_digits_spec 20 v []) as (H1 & H2 & H3).
  - change (10 ^ Z.of_nat 20) with 100000000000000000000. width_lia.
  - constructor.
  - lia.
  - split_and!; [done|done|]. rewrite H3. cbn. lia.
Qed.

Lemma decimal_head fuel v acc : 0 < v < 10 ^ Z.of_nat fuel -> head (decimal_digits fuel v acc) <> Some 48.
Proof.
  revert v acc. induction fuel as [|fuel IH]; intros v acc Hv; [cbn in Hv; lia|]. cbn [decimal_digits]. cbv zeta.
  destruct (v / 10 =? 0) eqn:E; b2p.
  - cbn. intros [= H]. assert (v mod 10 = 0) by lia. pose proof (Z.div_mod v 10). lia.
  - apply IH. rewrite Nat2Z.inj_succ, Z.pow_succ_r in Hv by lia.
    split; [pose proof (Z.div_pos v 10); lia|apply Z.div_lt_upper_bound; lia].
Qed.

Lemma FormatUint10_head v : 0 < v < 2 ^ 64 -> head (FormatUint10 v) <> Some 48.
Proof. intros Hv. apply decimal_head. change (10 ^ Z.of_nat 20) with 100000000000000000000. width_lia. Qed.

(** The decimal text of a number: digits, with no zero in front. *)
Definition is_decimal (ds : list Z) (v : Z) : Prop :=
  all_digits ds /\ ds <> [] /\ digits_value ds = v /\ (head ds = Some 48 -> ds = [48]).

Lemma FormatUint10_decimal v : 0 <= v < 2 ^ 64 -> is_decimal (FormatUint10 v) v.
Proof.
  intros Hv. destruct (FormatUint10_spec v Hv) as (H1 & H2 & H3). split_and!; [done..|].
  destruct (Z.eq_dec v 0) as [->|]; [done|]. intros Hh. by apply FormatUint10_head in Hh; [|lia].
Qed.

Lemma digit_not_sign c : is_digit c = true -> c <> 43 /\ c <> 45.
Proof. unfold is_digit. intros H. b2p. lia. Qed.

Lemma ParseInt_digits ds : all_digits ds -> ds <> [] -> digits_value ds < 2 ^ 63 -> ParseInt ds = Some (digits_value ds).
Proof.
  intros Hd Hne Hlt. unfold ParseInt. destruct ds as [|c ds]; [done|].
  inversion Hd as [|? ? Hc Hd']; subst. destruct (digit_not_sign c Hc).
  assert (Hs : (match c :: ds with 43 :: l => (false, l) | 45 :: l => (true, l) | _ => (false, c :: ds) end) = (false, c :: ds)).
  { destruct c as [|p|p]; try done. do 6 (destruct p as [p|p|]; try done; try lia). }
  rewrite Hs. assert (Hall : forallb is_digit (c :: ds) = true).
  { apply forallb_forall. intros x Hx. exact (proj1 (Forall_forall _ _) Hd x Hx). }
  by rewrite Hall, (proj2 (Z.ltb_lt _ _) Hlt).
Qed.

Lemma all_digits_forallb ds : all_digits ds -> forallb is_digit ds = true.
Proof. induction 1 as [|d ds Hd _ IH]; cbn; [done|]. by rewrite Hd, IH. Qed.

Lemma parse_number_digits ds : all_digits ds -> ds <> [] -> parse_number ds = Some (digits_value ds).
Proof.
  intros Hd Hne. unfold parse_number. destruct ds as [|c ds]; [done|].
  inversion Hd as [|? ? Hc _]; subst. destruct (digit_not_sign c Hc) as [_ Hm].
  replace (match c with 45 => _ | _ => _ end) with (false, c :: ds)
    by (destruct c as [|p|p]; try done; do 6 (destruct p as [p|p|]; try done; try lia)).
  by rewrite all_digits_forallb.
Qed.

(** A formatted integer reads back. *)
Lemma parse_FormatInt10 v : - 2 ^ 64 < v < 2 ^ 64 -> parse_number (FormatInt10 v) = Some v.
Proof.
  intros Hv. unfold FormatInt10. destruct (v <? 0) eqn:E; b2p.
  - destruct (FormatUint10_spec (- v)) as (H1 & H2 & H3); [lia|]. unfold parse_number.
    destruct (FormatUint10 (- v)) as [|d ds] eqn:Ef; [done|]. rewrite all_digits_forallb by done. f_equal. lia.
  - destruct (FormatUint10_spec v) as (H1 & H2 & H3); [lia|]. by rewrite parse_number_digits, H3.
Qed.

Lemma FormatInt10_chars v c : - 2 ^ 64 < v < 2 ^ 64 -> c ∈ FormatInt10 v -> is_digit c = true \/ c = 45.
Proof.
  intros Hv. unfold FormatInt10. destruct (v <? 0) eqn:E; b2p.
  - destruct (FormatUint10_spec (- v)) as (H1 & _); [lia|]. intros [->|Hc]%elem_of_cons; [by right|].
    left. by apply (proj1 (Forall_forall _ _) H1), list_elem_of_In.
  - destruct (FormatUint10_spec v) as (H1 & _); [lia|]. intros Hc. left. by apply (proj1 (Forall_forall _ _) H1), list_elem_of_In.
Qed.

Lemma lines_from_line l : forall cur s, 10 ∉ l -> lines_from cur (l ++ 10 :: s) = (rev cur ++ l) :: lines_from [] s.
Proof.
  induction l as [|c l IH]; intros cur s Hl; cbn [app lines_from].
  - by rewrite Z.eqb_refl, app_nil_r.
  - apply not_elem_of_cons in Hl as [Hc Hl]. rewrite (proj2 (Z.eqb_neq c 10)) by congruence.
    rewrite IH by done. cbn [rev]. by rewrite <- app_assoc.
Qed.

(** The lines of newline-terminated lines. *)
Lemma lines_unlines ls : Forall (fun l => 10 ∉ l) ls -> lines (unlines ls) = ls.
Proof.
  unfold lines, unlines. induction 1 as [|l ls Hl _ IH]; [done|]. cbn [map concat].
  rewrite <- app_assoc. cbn [app]. rewrite lines_from_line by done. by rewrite IH.
Qed.
