(* ===== verification/GoTime.v ===== *)
(** * Go's package time

    An instant has a wall clock reading (nanoseconds since the Unix epoch)
    and, when it comes from time.Now, a monotonic reading.  Sub, Before and
    After use the monotonic readings when both instants have one, as package
    time does; Durations are int64 nanoseconds, saturated by Sub and
    truncated toward zero by the unit conversions.  The time of every read of
    the clock is an argument of the model. *)

From S2P Require Import Prelude.

Record Time := mkTime {
  wall : Z;
  mono : option Z
}.

Definition Nanosecond : Z := 1.
Definition Microsecond : Z := 1000.
Definition Millisecond : Z := 1000000.
Definition Second : Z := 1000000000.

Definition saturate (d : Z) : Z := Z.max (- 2 ^ 63) (Z.min d (2 ^ 63 - 1)).

Definition time_Sub (t u : Time) : Z :=
  match mono t, mono u with
  | Some a, Some b => saturate (a - b)
  | _, _ => saturate (wall t - wall u)
  end.

Definition time_Add (t : Time) (d : Z) : Time := mkTime (wall t + d) ((fun m => m + d) <$> mono t).

Definition time_After (t u : Time) : bool :=
  match mono t, mono u with
  | Some a, Some b => b <? a
  | _, _ => wall u <? wall t
  end.

Definition time_Before (t u : Time) : bool := time_After u t.

(** time.Unix(sec, nsec) and the readings back. *)
Definition time_Unix (sec nsec : Z) : Time := mkTime (sec * Second + nsec) None.
Definition Unix (t : Time) : Z := wall t / Second.
Definition NanosecondOf (t : Time) : Z := wall t mod Second.

(** t.Round(0) strips the monotonic reading. *)
Definition strip_mono (t : Time) : Time := mkTime (wall t) None.

(** The zero Time: January 1, year 1. *)
Definition zeroTime : Time := mkTime (- 62135596800 * Second) None.
Definition IsZero (t : Time) : bool := wall t =? wall zeroTime.

Definition Milliseconds (d : Z) : Z := Z.quot d Millisecond.
Definition Microseconds (d : Z) : Z := Z.quot d Microsecond.

(** wallNow of session.go. *)
Definition wallNow (now : Time) : Z * Z := (u32 (Unix now), u32 (NanosecondOf now)).

(** wallDiffMs of session.go: the difference of the truncated seconds is taken
    as a signed 32-bit value; the nanosecond part truncates toward zero. *)
Definition wallDiffMs (t : Time) (sec nsec : Z) : Z :=
  let ds := i32 (u32 (u32 (Unix t) - sec)) in
  ds * 1000 + Z.quot (NanosecondOf t - nsec) 1000000.

(** ** Lemmas *)
Lemma saturate_id d : is_i64 d -> saturate d = d.
Proof. unfold is_i64, saturate. lia. Qed.

Lemma saturate_range d : is_i64 (saturate d).
Proof. unfold is_i64, saturate. lia. Qed.

Lemma saturate_mono d e : d <= e -> saturate d <= saturate e.
Proof. unfold saturate. lia. Qed.

(** Instants that both carry a monotonic reading order as integers. *)
Definition has_mono (t : Time) : Prop := is_Some (mono t).
Definition mono_ns (t : Time) : Z := default 0 (mono t).

Lemma time_After_mono t u : has_mono t -> has_mono u -> time_After t u = (mono_ns u <? mono_ns t).
Proof. intros [a Ha] [b Hb]. unfold time_After, mono_ns. by rewrite Ha, Hb. Qed.

Lemma time_Before_irrefl t : time_Before t t = false.
Proof. unfold time_Before, time_After. destruct (mono t); apply Z.ltb_irrefl. Qed.

Lemma time_Sub_mono t u : has_mono t -> has_mono u -> time_Sub t u = saturate (mono_ns t - mono_ns u).
Proof. intros [a Ha] [b Hb]. unfold time_Sub, mono_ns. by rewrite Ha, Hb. Qed.

Lemma has_mono_Add t d : has_mono t -> has_mono (time_Add t d).
Proof. intros [a Ha]. unfold has_mono, time_Add. cbn. rewrite Ha. by eexists. Qed.

Lemma mono_ns_Add t d : has_mono t -> mono_ns (time_Add t d) = mono_ns t + d.
Proof. intros [a Ha]. unfold mono_ns, time_Add. cbn. by rewrite Ha. Qed.

Lemma NanosecondOf_range t : 0 <= NanosecondOf t < Second.
Proof. apply Z.mod_pos_bound. reflexivity. Qed.

Lemma wallNow_range now : is_u32 (wallNow now).1 /\ is_u32 (wallNow now).2.
Proof. split; apply u32_range. Qed.

(** The difference of a 32-bit second counter recovers the true difference
    when it is less than 2^31 seconds. *)
Lemma i32_u32_diff a b : - 2 ^ 31 <= a - b < 2 ^ 31 -> i32 (u32 (u32 a - u32 b)) = a - b.
Proof.
  intros H. unfold i32, u32. rewrite Zminus_mod_idemp_l, Zminus_mod_idemp_r.
  rewrite Zplus_mod_idemp_l, Z.mod_small; lia.
Qed.

Lemma time_Add_0 t : time_Add t 0 = t.
Proof. destruct t as [w [m|]]; unfold time_Add; cbn; by rewrite ?Z.add_0_r. Qed.

Lemma time_Add_Add t d e : time_Add (time_Add t d) e = time_Add t (d + e).
Proof. destruct t as [w [m|]]; unfold time_Add; cbn; by rewrite ?Z.add_assoc. Qed.
