(* ===== verification/Algo.v ===== *)
(** * The sending rate search (internal/udpst/algo.go)

    The rate controller of algorithms B and C and its one operation, adjust,
    with the 32-bit arithmetic of its measurements.  The theorems: the index
    stays in the table, it moves in the direction the measurements ask for,
    it converges to the ends of the table, and the averaging is exact exactly
    as long as its uint32 product does not wrap. *)

From S2P Require Import Prelude GoFloat Srates Protocol.

Record rateController := mkRC {
  rc_table : RateTable;
  rc_algo : Z;
  rc_index : Z;
  rc_srIndexConf : Z;
  rc_indexIsStart : bool;
  rc_highSpeedDelta : Z;
  rc_slowAdjThresh : Z;
  rc_seqErrThresh : Z;
  rc_lowThresh : Z;
  rc_upperThresh : Z;
  rc_useOwDelVar : bool;
  rc_ignoreOooDup : bool;
  rc_ecnCEThresh : Z;
  rc_srAdjSupp : Z;
  rc_slowAdjCount : Z;
  rc_retryCount : Z;
  rc_retryThresh : Z;
  rc_update : bool
}.

(** Assignment of the search state; the configuration is never written. *)
Definition rc_set (rc : rateController) (index slow retry thresh : Z) (update : bool) : rateController :=
  mkRC (rc_table rc) (rc_algo rc) index (rc_srIndexConf rc) (rc_indexIsStart rc)
    (rc_highSpeedDelta rc) (rc_slowAdjThresh rc) (rc_seqErrThresh rc) (rc_lowThresh rc)
    (rc_upperThresh rc) (rc_useOwDelVar rc) (rc_ignoreOooDup rc) (rc_ecnCEThresh rc)
    (rc_srAdjSupp rc) slow retry thresh update.

Definition rc_set_index (rc : rateController) (index : Z) : rateController :=
  rc_set rc index (rc_slowAdjCount rc) (rc_retryCount rc) (rc_retryThresh rc) (rc_update rc).

Record trialInput := mkTrial {
  ti_seqErrLoss : Z;
  ti_seqErrOoo : Z;
  ti_seqErrDup : Z;
  ti_delayVarSum : Z;
  ti_delayVarCnt : Z;
  ti_rttVarSample : Z;
  ti_rxDatagrams : Z;
  ti_ceCount : Z;
  ti_subIntSeqNo : Z
}.

Definition trial_seqerr (rc : rateController) (tin : trialInput) : Z :=
  if rc_ignoreOooDup rc then ti_seqErrLoss tin
  else ti_seqErrLoss tin + u32 (ti_seqErrOoo tin + ti_seqErrDup tin).

(** uint32 arithmetic: the product by ten wraps. *)
Definition trial_delay (rc : rateController) (tin : trialInput) : Z :=
  if rc_useOwDelVar rc then
    if 0 <? ti_delayVarCnt tin
    then u32 (u32 (ti_delayVarSum tin * 10) / ti_delayVarCnt tin + 5) / 10
    else rc_lowThresh rc
  else if negb (ti_rttVarSample tin =? statusNoDelay) then ti_rttVarSample tin
  else rc_lowThresh rc.

Definition trial_cethresh (rc : rateController) (tin : trialInput) : bool :=
  if (0 <? rc_ecnCEThresh rc) && (0 <? ti_ceCount tin) then
    let need := u32 (u32 (u32 (u32 (rc_ecnCEThresh rc - 1) * ti_rxDatagrams tin) * 10) / 255 + 5) / 10 in
    need <? ti_ceCount tin
  else false.

Definition trial_good (rc : rateController) (tin : trialInput) : bool :=
  (trial_seqerr rc tin <=? rc_seqErrThresh rc) && (trial_delay rc tin <? rc_lowThresh rc) &&
  negb (trial_cethresh rc tin).

Definition trial_bad (rc : rateController) (tin : trialInput) : bool :=
  (rc_seqErrThresh rc <? trial_seqerr rc tin) || (rc_upperThresh rc <? trial_delay rc tin) ||
  trial_cethresh rc tin.

Definition adjustAlgoC (rc : rateController) (good bad : bool) (hst maxIdx : Z) : rateController :=
  let thresh := if rc_retryThresh rc =? 0 then 5 else rc_retryThresh rc in
  let index := rc_index rc in
  let slow := rc_slowAdjCount rc in
  let retry := rc_retryCount rc in
  let update := rc_update rc in
  if good then
    if (index <? hst) && (slow <? rc_slowAdjThresh rc) then
      if hst <? index * 2 then rc_set rc hst 0 retry thresh update
      else
        let index := if index =? 0 then index + 1 else index in
        if update then rc_set rc (index * 2) 0 retry thresh false
        else rc_set rc index 0 retry thresh true
    else
      let '(index, retry) := if index <? maxIdx then (index + 1, retry + 1) else (index, retry) in
      if thresh <=? retry then rc_set rc index 0 0 (thresh + 5) update
      else rc_set rc index slow retry thresh update
  else if bad then
    let slow := slow + 1 in
    if (index <? hst) && (slow =? rc_slowAdjThresh rc) then
      if rc_highSpeedDelta rc * 3 <? index
      then rc_set rc (index - rc_highSpeedDelta rc * 3) slow retry thresh update
      else rc_set rc 0 slow retry thresh update
    else if 0 <? index then
      let index := index - 1 in
      let retry := retry + 1 in
      if thresh <=? retry then rc_set rc index 0 0 thresh update
      else rc_set rc index slow retry thresh update
    else rc_set rc index slow retry thresh update
  else rc_set rc index slow retry thresh update.

(** The switch of adjust for algorithm B. *)
Definition adjustAlgoB (rc : rateController) (good bad : bool) (hst maxIdx : Z) : rateController :=
  let index := rc_index rc in
  let slow := rc_slowAdjCount rc in
  let set i s := rc_set rc i s (rc_retryCount rc) (rc_retryThresh rc) (rc_update rc) in
  if good then
    if (index <? hst) && (slow <? rc_slowAdjThresh rc) then
      if hst <? index + rc_highSpeedDelta rc then set hst 0
      else set (index + rc_highSpeedDelta rc) 0
    else if index <? maxIdx then set (index + 1) slow
    else rc
  else if bad then
    let slow := slow + 1 in
    if (index <? hst) && (slow =? rc_slowAdjThresh rc) then
      if rc_highSpeedDelta rc * 3 <? index then set (index - rc_highSpeedDelta rc * 3) slow
      else set 0 slow
    else if 0 <? index then set (index - 1) slow
    else set index slow
  else rc.

Definition adjust (rc : rateController) (tin : trialInput) : rateController :=
  let hst := HighSpeedThresh (rc_table rc) in
  let maxIdx := Z.of_nat (length (Rows (rc_table rc))) - 1 in
  if (0 <? rc_srAdjSupp rc) && (ti_subIntSeqNo tin <? rc_srAdjSupp rc) then
    if (0 <=? rc_srIndexConf rc) && negb (rc_indexIsStart rc) then rc_set_index rc 0 else rc
  else if (0 <=? rc_srIndexConf rc) && negb (rc_indexIsStart rc) then
    rc_set_index rc (rc_srIndexConf rc)
  else
    let good := trial_good rc tin in
    let bad := trial_bad rc tin in
    if rc_algo rc =? 1 then adjustAlgoC rc good bad hst maxIdx
    else adjustAlgoB rc good bad hst maxIdx.

Definition adjust_all (rc : rateController) (tins : list trialInput) : rateController :=
  fold_left adjust tins rc.

(** ** The interface of a rate table

    What the search needs of a table: a threshold inside it, and not below the
    index 2 that algorithm C may reach from row 0 in one trial.  The tables of
    [BuildRateTable] are instances. *)
Class SearchTable (t : RateTable) : Prop := {
  st_thresh_min : 2 <= HighSpeedThresh t;
  st_thresh_inside : HighSpeedThresh t < Z.of_nat (length (Rows t))
}.

#[export] Instance BuildRateTable_search jumbo trad : SearchTable (BuildRateTable jumbo trad).
Proof.
  split; rewrite build_thresh; [lia|]. rewrite build_rows_length. reflexivity.
Qed.

Definition max_index (t : RateTable) : Z := Z.of_nat (length (Rows t)) - 1.

(** The invariant of the controller. *)
Record rc_inv (rc : rateController) : Prop := {
  rci_index : 0 <= rc_index rc <= max_index (rc_table rc);
  rci_conf : rc_srIndexConf rc <= max_index (rc_table rc);
  rci_delta : 1 <= rc_highSpeedDelta rc
}.

(** The configuration of a controller: everything but the search state. *)
Definition same_config (rc rc' : rateController) : Prop :=
  rc' = rc_set rc (rc_index rc') (rc_slowAdjCount rc') (rc_retryCount rc') (rc_retryThresh rc') (rc_update rc').

(** The search is on: neither suppressed nor pinned to a fixed row. *)
Definition searching (rc : rateController) (tin : trialInput) : Prop :=
  ~ (0 < rc_srAdjSupp rc /\ ti_subIntSeqNo tin < rc_srAdjSupp rc) /\
  (rc_srIndexConf rc < 0 \/ rc_indexIsStart rc = true).

(** ** Lemmas *)
Lemma same_config_set rc i s r t u : same_config rc (rc_set rc i s r t u).
Proof. reflexivity. Qed.

Lemma same_config_refl rc : same_config rc rc.
Proof. by destruct rc. Qed.

Lemma adjust_config rc tin : same_config rc (adjust rc tin).
Proof.
  unfold adjust, adjustAlgoB, adjustAlgoC, rc_set_index.
  destruct (if rc_index rc <? _ then (_, _) else _) as [i r] eqn:Ep.
  repeat case_match; try apply same_config_set; apply same_config_refl.
Qed.

Lemma same_config_fields rc rc' : same_config rc rc' ->
  rc_table rc' = rc_table rc /\ rc_srIndexConf rc' = rc_srIndexConf rc /\
  rc_highSpeedDelta rc' = rc_highSpeedDelta rc.
Proof. unfold same_config. intros ->. done. Qed.

(** Split every test of an unfolded [adjust] and simplify the projections. *)
Ltac adjust_cases :=
  cbv beta zeta;
  repeat match goal with
  | |- context [if ?c then _ else _] =>
      lazymatch c with
      | context [if _ then _ else _] => fail
      | _ => let E := fresh "E" in destruct c eqn:E; cbn [rc_index rc_slowAdjCount rc_retryCount rc_retryThresh rc_update rc_set rc_set_index]
      end
  end; b2p.

Lemma adjustAlgoB_range rc good bad hst maxIdx :
  2 <= hst <= maxIdx -> 1 <= rc_highSpeedDelta rc -> 0 <= rc_index rc <= maxIdx ->
  0 <= rc_index (adjustAlgoB rc good bad hst maxIdx) <= maxIdx.
Proof. intros. unfold adjustAlgoB. adjust_cases; lia. Qed.

Lemma adjustAlgoC_range rc good bad hst maxIdx :
  2 <= hst <= maxIdx -> 1 <= rc_highSpeedDelta rc -> 0 <= rc_index rc <= maxIdx ->
  0 <= rc_index (adjustAlgoC rc good bad hst maxIdx) <= maxIdx.
Proof.
  intros. unfold adjustAlgoC. cbv zeta.
  destruct (rc_index rc =? 0) eqn:E0; adjust_cases; lia.
Qed.

Lemma adjust_inv rc tin : SearchTable (rc_table rc) -> rc_inv rc -> rc_inv (adjust rc tin).
Proof.
  intros [Hh0 Hh1] [Hi Hc Hd].
  destruct (same_config_fields _ _ (adjust_config rc tin)) as (Ht & Hconf & Hdelta).
  split; rewrite ?Ht, ?Hconf, ?Hdelta; [|done..].
  unfold max_index in *. unfold adjust.
  destruct ((0 <=? rc_srIndexConf rc) && negb (rc_indexIsStart rc)) eqn:E2; b2p;
  (destruct (_ && (_ <? _)); [cbn; lia|]); [cbn; lia|].
  destruct (rc_algo rc =? 1); [apply adjustAlgoC_range|apply adjustAlgoB_range]; lia.
Qed.

Lemma adjust_table rc tin : rc_table (adjust rc tin) = rc_table rc.
Proof. apply (same_config_fields _ _ (adjust_config rc tin)). Qed.

Lemma adjust_all_table rc tins : rc_table (adjust_all rc tins) = rc_table rc.
Proof.
  revert rc. induction tins as [|tin tins IH]; intros rc; [done|].
  change (rc_table (adjust_all (adjust rc tin) tins) = rc_table rc). by rewrite IH, adjust_table.
Qed.

Lemma adjust_all_inv rc tins : SearchTable (rc_table rc) -> rc_inv rc -> rc_inv (adjust_all rc tins).
Proof.
  revert rc. induction tins as [|tin tins IH]; intros rc Ht Hinv; [done|].
  change (rc_inv (adjust_all (adjust rc tin) tins)).
  apply IH; [by rewrite adjust_table|by apply adjust_inv].
Qed.

Lemma rc_inv_lookup rc : rc_inv rc -> is_Some (Rows (rc_table rc) !! Z.to_nat (rc_index rc)).
Proof. intros [Hi _ _]. unfold max_index in Hi. apply lookup_lt_is_Some_2. lia. Qed.

Lemma searching_adjust rc tin : searching rc tin ->
  adjust rc tin =
    if rc_algo rc =? 1
    then adjustAlgoC rc (trial_good rc tin) (trial_bad rc tin) (HighSpeedThresh (rc_table rc)) (max_index (rc_table rc))
    else adjustAlgoB rc (trial_good rc tin) (trial_bad rc tin) (HighSpeedThresh (rc_table rc)) (max_index (rc_table rc)).
Proof.
  intros [Hs Hf]. unfold adjust.
  destruct ((0 <? rc_srAdjSupp rc) && (ti_subIntSeqNo tin <? rc_srAdjSupp rc)) eqn:E1.
  { b2p. destruct Hs. lia. }
  destruct ((0 <=? rc_srIndexConf rc) && negb (rc_indexIsStart rc)) eqn:E2; [|done].
  b2p. destruct Hf as [Hf|Hf]; [lia|congruence].
Qed.

Lemma good_not_bad rc tin : rc_lowThresh rc <= rc_upperThresh rc -> trial_good rc tin = true -> trial_bad rc tin = false.
Proof.
  unfold trial_good, trial_bad. intros Hle H. b2p.
  rewrite !orb_false_iff, !Z.ltb_ge. split_and!; [done|lia|done].
Qed.

(** ** Progress of the search *)

(** The distance to the top of the table, counting the pending half step of
    algorithm C. *)
Definition climb (rc : rateController) : Z :=
  2 * (max_index (rc_table rc) - rc_index rc) + (if rc_update rc then 0 else 1).

Lemma adjustAlgoB_good rc bad hst maxIdx :
  2 <= hst <= maxIdx -> 1 <= rc_highSpeedDelta rc -> 0 <= rc_index rc <= maxIdx ->
  let rc' := adjustAlgoB rc true bad hst maxIdx in
  rc_update rc' = rc_update rc /\ (rc_index rc < rc_index rc' \/ rc_index rc = maxIdx /\ rc_index rc' = maxIdx).
Proof. intros. subst rc'. unfold adjustAlgoB. adjust_cases; (split; [done|lia]). Qed.

Lemma adjustAlgoC_good rc bad hst maxIdx :
  2 <= hst <= maxIdx -> 0 <= rc_index rc <= maxIdx ->
  let rc' := adjustAlgoC rc true bad hst maxIdx in
  rc_index rc < rc_index rc' \/
  (rc_index rc = rc_index rc' /\ rc_update rc = false /\ rc_update rc' = true) \/
  (rc_index rc = maxIdx /\ rc_index rc' = maxIdx).
Proof.
  intros. subst rc'. unfold adjustAlgoC. cbv zeta.
  destruct (rc_index rc =? 0) eqn:E0; adjust_cases; try lia; auto.
Qed.

Lemma adjust_bad_step rc tin :
  SearchTable (rc_table rc) -> rc_inv rc -> searching rc tin -> trial_good rc tin = false -> trial_bad rc tin = true ->
  rc_index (adjust rc tin) < rc_index rc \/ rc_index (adjust rc tin) = 0.
Proof.
  intros [Hh0 Hh1] [Hi _ Hd] Hs Hg Hb. unfold max_index in Hi. rewrite searching_adjust by done. rewrite Hg, Hb.
  destruct (rc_algo rc =? 1); unfold adjustAlgoB, adjustAlgoC; cbv zeta; adjust_cases; lia.
Qed.

Lemma adjust_good_step rc tin :
  SearchTable (rc_table rc) -> rc_inv rc -> searching rc tin -> trial_good rc tin = true ->
  climb (adjust rc tin) < climb rc \/ (rc_index rc = max_index (rc_table rc) /\ rc_index (adjust rc tin) = max_index (rc_table rc)).
Proof.
  intros [Hh0 Hh1] [Hi _ Hd] Hs Hg.
  unfold climb. rewrite adjust_table. rewrite searching_adjust by done. rewrite Hg.
  assert (Hhst : 2 <= HighSpeedThresh (rc_table rc) <= max_index (rc_table rc)) by (unfold max_index; lia).
  destruct (rc_algo rc =? 1).
  - destruct (adjustAlgoC_good rc (trial_bad rc tin) _ _ Hhst Hi) as [H|[(H1 & H2 & H3)|H]]; [| |auto].
    + left. destruct (rc_update _), (rc_update rc); lia.
    + rewrite H2, H3, <- H1. left. lia.
  - destruct (adjustAlgoB_good rc (trial_bad rc tin) _ _ Hhst Hd Hi) as [Hu [H|H]]; [|auto].
    left. rewrite Hu. lia.
Qed.

(** The tests of a trial and the search mode depend on the configuration
    only. *)
Lemma same_config_trial rc rc' tin : same_config rc rc' ->
  trial_good rc' tin = trial_good rc tin /\ trial_bad rc' tin = trial_bad rc tin /\
  (searching rc tin -> searching rc' tin).
Proof. unfold same_config. intros ->. done. Qed.

Lemma climb_all rc tins :
  SearchTable (rc_table rc) -> rc_inv rc ->
  Forall (fun tin => searching rc tin /\ trial_good rc tin = true) tins ->
  climb (adjust_all rc tins) <= Z.max 1 (climb rc - Z.of_nat (length tins)) \/
  rc_index (adjust_all rc tins) = max_index (rc_table rc).
Proof.
  intros Ht Hinv H. revert rc Ht Hinv H. induction tins as [|tin tins IH]; intros rc Ht Hinv H.
  { left. cbn. lia. }
  apply Forall_cons_1 in H as [[Hs Hg] H].
  change (adjust_all rc (tin :: tins)) with (adjust_all (adjust rc tin) tins).
  assert (H' : Forall (fun t => searching (adjust rc tin) t /\ trial_good (adjust rc tin) t = true) tins).
  { eapply Forall_impl; [|exact H]. intros t [Hs' Hg']. 
    destruct (same_config_trial _ _ t (adjust_config rc tin)) as (-> & _ & Hsr). auto. }
  assert (Htab : SearchTable (rc_table (adjust rc tin))) by by rewrite adjust_table.
  destruct (IH (adjust rc tin) Htab (adjust_inv _ _ Ht Hinv) H') as [IH1|IH1].
  - destruct (adjust_good_step rc tin Ht Hinv Hs Hg) as [Hc|[_ Hc]].
    + left. cbn [length]. lia.
    + left. unfold climb in IH1 at 2. rewrite Hc, adjust_table in IH1.
      destruct (rc_update (adjust rc tin)); lia.
  - right. by rewrite IH1, adjust_table.
Qed.

Lemma climb_top rc : rc_inv rc -> climb rc <= 1 -> rc_index rc = max_index (rc_table rc).
Proof. intros [Hi _ _]. unfold climb. destruct (rc_update rc); lia. Qed.

Lemma descend_all rc tins :
  SearchTable (rc_table rc) -> rc_inv rc ->
  Forall (fun tin => searching rc tin /\ trial_good rc tin = false /\ trial_bad rc tin = true) tins ->
  rc_index (adjust_all rc tins) <= Z.max 0 (rc_index rc - Z.of_nat (length tins)).
Proof.
  intros Ht Hinv H. revert rc Ht Hinv H. induction tins as [|tin tins IH]; intros rc Ht Hinv H.
  { cbn. lia. }
  apply Forall_cons_1 in H as [(Hs & Hg & Hb) H].
  change (adjust_all rc (tin :: tins)) with (adjust_all (adjust rc tin) tins).
  assert (H' : Forall (fun t => searching (adjust rc tin) t /\ trial_good (adjust rc tin) t = false /\ trial_bad (adjust rc tin) t = true) tins).
  { eapply Forall_impl; [|exact H]. intros t (Hs' & Hg' & Hb').
    destruct (same_config_trial _ _ t (adjust_config rc tin)) as (-> & -> & Hsr). auto. }
  assert (Htab : SearchTable (rc_table (adjust rc tin))) by by rewrite adjust_table.
  pose proof (IH (adjust rc tin) Htab (adjust_inv _ _ Ht Hinv) H') as IH1.
  pose proof (adjust_bad_step rc tin Ht Hinv Hs Hg Hb). cbn [length]. lia.
Qed.

(** ** Theorems *)

(** A controller as the session starts it: automatic search from row 0 of
    the default table with the default parameters. *)
Definition rc_example (algo : Z) (owd : bool) : rateController :=
  mkRC (BuildRateTable true false) algo 0 (-1) false 10 3 0 30 90 owd false 0 0 0 0 0 false.

Lemma rc_example_inv algo owd : rc_inv (rc_example algo owd).
Proof.
  split; cbn -[BuildRateTable]; unfold max_index; try lia; rewrite build_rows_length; unfold maxSendingRates; lia.
Qed.

(** C7: over any sequence of trials, under either algorithm and any
    measurements, the index stays inside the table, so the lookup of the
    current row never panics. *)
Theorem adjust_index_in_table rc tins :
  SearchTable (rc_table rc) -> rc_inv rc ->
  rc_inv (adjust_all rc tins) /\
  is_Some (Rows (rc_table rc) !! Z.to_nat (rc_index (adjust_all rc tins))).
Proof.
  intros Ht Hinv. pose proof (adjust_all_inv rc tins Ht Hinv) as H.
  split; [done|]. rewrite <- (adjust_all_table rc tins). by apply rc_inv_lookup.
Qed.

Definition trial_congested : trialInput := mkTrial 5 0 0 0 0 statusNoDelay 100 0 1.
Definition trial_clear : trialInput := mkTrial 0 0 0 0 0 0 100 0 1.

Lemma adjust_index_in_table_witness :
  rc_inv (adjust_all (rc_example 1 false) [trial_clear; trial_clear; trial_congested]) /\
  is_Some (Rows (BuildRateTable true false) !!
    Z.to_nat (rc_index (adjust_all (rc_example 1 false) [trial_clear; trial_clear; trial_congested]))).
Proof.
  apply (adjust_index_in_table (rc_example 1 false)); [exact (BuildRateTable_search true false)|apply rc_example_inv].
Defined.

(** C9: while the search is on, a good trial never lowers the index, a bad
    one never raises it, and one between the thresholds leaves it; with the
    search suppressed or pinned the measurements have no effect at all. *)
Theorem adjust_direction rc tin :
  SearchTable (rc_table rc) -> rc_inv rc -> rc_lowThresh rc <= rc_upperThresh rc ->
  (searching rc tin ->
   (trial_good rc tin = true -> rc_index rc <= rc_index (adjust rc tin)) /\
   (trial_bad rc tin = true -> rc_index (adjust rc tin) <= rc_index rc) /\
   (trial_good rc tin = false -> trial_bad rc tin = false -> rc_index (adjust rc tin) = rc_index rc)) /\
  (~ searching rc tin -> forall tin', ti_subIntSeqNo tin' = ti_subIntSeqNo tin -> adjust rc tin' = adjust rc tin).
Proof.
  intros Ht Hinv Hle. split.
  - intros Hs. pose proof Ht as [Hh0 Hh1]. pose proof Hinv as [Hi _ Hd]. unfold max_index in Hi. split_and!.
    + intros Hg. destruct (adjust_good_step rc tin Ht Hinv Hs Hg) as [Hc|Hc]; [|lia].
      unfold climb in Hc. rewrite adjust_table in Hc. destruct (rc_update _), (rc_update rc); lia.
    + intros Hb. assert (Hg : trial_good rc tin = false).
      { destruct (trial_good rc tin) eqn:Hg; [|done]. apply (good_not_bad rc tin Hle) in Hg. congruence. }
      pose proof (adjust_bad_step rc tin Ht Hinv Hs Hg Hb). lia.
    + intros Hg Hb. rewrite searching_adjust by done. rewrite Hg, Hb.
      destruct (rc_algo rc =? 1); reflexivity.
  - intros Hns tin' Heq. unfold adjust. rewrite Heq.
    destruct ((0 <? rc_srAdjSupp rc) && _) eqn:E1; [done|].
    destruct ((0 <=? rc_srIndexConf rc) && _) eqn:E2; [done|]. exfalso. apply Hns. split.
    + intros [H1 H2]. apply Z.ltb_lt in H1, H2. rewrite H1, H2 in E1. done.
    + destruct (rc_indexIsStart rc); [by right|]. left. b2p. destruct E2; b2p; [lia|done].
Qed.

Lemma adjust_direction_witness :
  rc_index (rc_example 0 false) <= rc_index (adjust (rc_example 0 false) trial_clear).
Proof.
  apply (adjust_direction (rc_example 0 false) trial_clear).
  - exact (BuildRateTable_search true false).
  - apply rc_example_inv.
  - discriminate.
  - split; [intros [H _]; discriminate H|left; reflexivity].
  - reflexivity.
Defined.

(** C8: the search converges: after 2 * (top index) + 1 consecutive good
    trials the index is at the top of the table, and after as many bad trials
    as the index it is at row 0, whichever algorithm runs and whatever its
    counters were. *)
Theorem adjust_converges rc tins :
  SearchTable (rc_table rc) -> rc_inv rc -> rc_lowThresh rc <= rc_upperThresh rc ->
  Forall (searching rc) tins ->
  (Forall (fun tin => trial_good rc tin = true) tins ->
   2 * max_index (rc_table rc) + 1 <= Z.of_nat (length tins) ->
   rc_index (adjust_all rc tins) = max_index (rc_table rc)) /\
  (Forall (fun tin => trial_bad rc tin = true) tins ->
   rc_index rc <= Z.of_nat (length tins) ->
   rc_index (adjust_all rc tins) = 0).
Proof.
  intros Ht Hinv Hle Hs. pose proof (adjust_all_inv rc tins Ht Hinv) as Hinv'. split; intros Hall Hlen.
  - assert (H : Forall (fun tin => searching rc tin /\ trial_good rc tin = true) tins)
      by (apply Forall_and; done).
    destruct (climb_all rc tins Ht Hinv H) as [Hc|Hc]; [|done].
    rewrite <- (adjust_all_table rc tins). apply climb_top; [done|].
    destruct Hinv as [Hi _ _]. unfold climb in Hc at 2. destruct (rc_update rc); lia.
  - assert (H : Forall (fun tin => searching rc tin /\ trial_good rc tin = false /\ trial_bad rc tin = true) tins).
    { apply Forall_lookup. intros i t Hi. rewrite Forall_lookup in Hall, Hs.
      split_and!; [by eapply Hs| |by eapply Hall].
      destruct (trial_good rc t) eqn:Hg; [|done]. apply (good_not_bad rc t Hle) in Hg.
      rewrite (Hall _ _ Hi) in Hg. done. }
    pose proof (descend_all rc tins Ht Hinv H). destruct Hinv' as [Hi _ _]. lia.
Qed.

(** Row 0 of algorithm B is at the top after 2305 clear trials. *)
Lemma adjust_converges_witness :
  rc_index (adjust_all (rc_example 0 false) (replicate 2305 trial_clear)) = 1152.
Proof.
  assert (Hmax : max_index (rc_table (rc_example 0 false)) = 1152)
    by (unfold max_index; cbn -[BuildRateTable]; rewrite build_rows_length; reflexivity).
  rewrite <- Hmax.
  apply (adjust_converges (rc_example 0 false) (replicate 2305 trial_clear)).
  - exact (BuildRateTable_search true false).
  - apply rc_example_inv.
  - discriminate.
  - apply Forall_replicate. split; [intros [H _]; discriminate H|left; reflexivity].
  - apply Forall_replicate. reflexivity.
  - rewrite Hmax, length_replicate. lia.
Defined.

(** As long as ten times the delay sum fits in 32 bits, the delay the
    search uses is the average one-way delay variation rounded to the nearest
    millisecond, to within the tenth lost by the inner division. *)
Theorem trial_delay_rounds rc tin :
  rc_useOwDelVar rc = true -> 0 < ti_delayVarCnt tin ->
  0 <= ti_delayVarSum tin -> ti_delayVarSum tin * 10 < 2 ^ 32 - 10 ->
  let d := trial_delay rc tin in
  let sum := ti_delayVarSum tin in
  let cnt := ti_delayVarCnt tin in
  0 <= d /\ 10 * cnt * d <= 10 * sum + 5 * cnt /\ 10 * sum < 10 * cnt * d + 6 * cnt.
Proof.
  intros Ho Hc H0 Hs. cbv zeta. unfold trial_delay. rewrite Ho.
  apply Z.ltb_lt in Hc as Hcb. rewrite Hcb.
  set (sum := ti_delayVarSum tin) in *. set (cnt := ti_delayVarCnt tin) in *.
  assert (Hq : 0 <= sum * 10 / cnt <= sum * 10).
  { split; [apply Z.div_pos; lia|]. apply Z.div_le_upper_bound; nia. }
  rewrite (u32_id (sum * 10)) by width_lia. rewrite u32_id by width_lia.
  pose proof (Z.div_mod (sum * 10) cnt ltac:(lia)) as H1.
  pose proof (Z.mod_pos_bound (sum * 10) cnt Hc) as H2.
  pose proof (Z.div_mod (sum * 10 / cnt + 5) 10 ltac:(lia)) as H3.
  pose proof (Z.mod_pos_bound (sum * 10 / cnt + 5) 10 ltac:(lia)) as H4.
  set (q := sum * 10 / cnt) in *. set (d := (q + 5) / 10) in *. nia.
Qed.

(** 7 ms over 2 datagrams rounds to 4 ms. *)
Lemma trial_delay_rounds_witness :
  trial_delay (rc_example 0 true) (mkTrial 0 0 0 7 2 0 2 0 1) = 4 /\ 10 * 2 * 4 <= 10 * 7 + 5 * 2.
Proof.
  split; [reflexivity|].
  apply (trial_delay_rounds (rc_example 0 true) (mkTrial 0 0 0 7 2 0 2 0 1)); (reflexivity || discriminate).
Defined.

(** Beyond that the uint32 product wraps and the search can raise the
    rate on a congested path: 429496 datagrams delayed by a second on average,
    far above the upper threshold of 90 ms, are read as no delay at all. *)
Theorem trial_delay_wraps :
  let tin := mkTrial 0 0 0 429496730 429496 statusNoDelay 429496 0 1 in
  let rc := rc_example 0 true in
  1000 <= ti_delayVarSum tin / ti_delayVarCnt tin /\
  rc_upperThresh rc = 90 /\ trial_delay rc tin = 0 /\
  rc_index rc = 0 /\ rc_index (adjust rc tin) = 10.
Proof. vm_compute. split_and!; (reflexivity || discriminate). Qed.
