(* ===== verification/Accounting.v ===== *)
(** * Receiver-side accounting (internal/udpst/accounting.go)

    The state of [rxAccounting], grouped as the source's comments group it
    (sequence tracking, delays, trial counters, sub-interval counters), and
    its operations: recordLoad with recordSeq and the history ring,
    trialInput, maybeRoll, buildStatus and resetTrial.  The abstract receiver
    [spec_run] classifies sequence numbers against the list of those already
    accepted; the ring of 32 entries refines it, and without stale duplicates
    its loss count is the number of sequence numbers missing below the
    highest one. *)

From stdpp Require Import gmap.
From Stdlib Require Import ZifyNat.
From S2P Require Import Prelude GoFloat Srates Protocol Status GoTime Algo.

Definition loadHistorySize : nat := 32.

Record seqState := mkSeq {
  rx_seq : Z;
  rx_history : list Z;
  rx_histIdx : Z
}.

Record delayState := mkDelay {
  rx_clockDeltaMin : Z;
  rx_haveClockDelta : bool;
  rx_rttMin : Z;
  rx_rttVarSample : Z;
  rx_lastEchoSec : Z;
  rx_lastEchoNsec : Z;
  rx_delayMinUpd : bool
}.

Record trialState := mkTrialState {
  rx_tRxDatagrams : Z;
  rx_tRxBytes : Z;
  rx_tLoss : Z;
  rx_tOoo : Z;
  rx_tDup : Z;
  rx_tDvMin : Z;
  rx_tDvMax : Z;
  rx_tDvSum : Z;
  rx_tDvCnt : Z;
  rx_tCE : Z
}.

Record subState := mkSubState {
  rx_sub : SubIntStats;
  rx_subCE : Z;
  rx_subStart : Time;
  rx_accumMs : Z;
  rx_saved : SubIntStats;
  rx_savedCE : Z;
  rx_subIntSeq : Z;
  rx_rolled : bool
}.

Record rxAccounting := mkRx {
  rx_s : seqState;
  rx_d : delayState;
  rx_t : trialState;
  rx_b : subState
}.

(** SubIntStats{DelayVarMin: statusNoDelay, RTTVarMin: statusNoDelay} *)
Definition freshSub : SubIntStats := mkSub 0 0 0 0 0 0 statusNoDelay 0 0 0 statusNoDelay 0 0.

(** The trial counters as newRxAccounting and resetTrial leave them. *)
Definition freshTrial : trialState := mkTrialState 0 0 0 0 0 statusNoDelay 0 0 0 0.

Definition newRxAccounting (now : Time) : rxAccounting :=
  mkRx (mkSeq 0 (replicate loadHistorySize 0) 0)
       (mkDelay 0 false statusNoDelay statusNoDelay 0 0 false)
       freshTrial
       (mkSubState freshSub 0 now 0 zeroSub 0 0 false).

Definition pushHistory (s : seqState) (seq : Z) : go seqState :=
  h ← set_idx (rx_history s) (Z.to_nat (rx_histIdx s)) seq;
  Ret (mkSeq (rx_seq s) h (Z.rem (rx_histIdx s + 1) (Z.of_nat loadHistorySize))).

Definition inHistory (s : seqState) (seq : Z) : bool := existsb (fun x => x =? seq) (rx_history s).

(** Updates of the loss, reordering and duplicate counters of the trial and
    of the active sub-interval. *)
Definition trial_errs (t : trialState) (loss ooo dup : Z) : trialState :=
  mkTrialState (rx_tRxDatagrams t) (rx_tRxBytes t) loss ooo dup (rx_tDvMin t) (rx_tDvMax t)
    (rx_tDvSum t) (rx_tDvCnt t) (rx_tCE t).

Definition sub_errs (s : SubIntStats) (loss ooo dup : Z) : SubIntStats :=
  mkSub (Si_RxDatagrams s) (Si_RxBytes s) (Si_DeltaTime s) loss ooo dup
    (Si_DelayVarMin s) (Si_DelayVarMax s) (Si_DelayVarSum s) (Si_DelayVarCnt s)
    (Si_RTTVarMin s) (Si_RTTVarMax s) (Si_AccumTime s).

Definition set_sub (b : subState) (s : SubIntStats) : subState :=
  mkSubState s (rx_subCE b) (rx_subStart b) (rx_accumMs b) (rx_saved b) (rx_savedCE b)
    (rx_subIntSeq b) (rx_rolled b).

Definition recordSeq (a : rxAccounting) (seq : Z) : go (rxAccounting * bool) :=
  let s := rx_s a in
  let t := rx_t a in
  let sub := rx_sub (rx_b a) in
  if u32 (rx_seq s + 1) <=? seq then
    let gap := u32 (seq - rx_seq s - 1) in
    let t := trial_errs t (u32 (rx_tLoss t + gap)) (rx_tOoo t) (rx_tDup t) in
    let sub := sub_errs sub (u32 (Si_SeqErrLoss sub + gap)) (Si_SeqErrOoo sub) (Si_SeqErrDup sub) in
    s ← pushHistory (mkSeq seq (rx_history s) (rx_histIdx s)) seq;
    Ret (mkRx s (rx_d a) t (set_sub (rx_b a) sub), true)
  else if inHistory s seq then
    let t := trial_errs t (rx_tLoss t) (rx_tOoo t) (u32 (rx_tDup t + 1)) in
    let sub := sub_errs sub (Si_SeqErrLoss sub) (Si_SeqErrOoo sub) (u32 (Si_SeqErrDup sub + 1)) in
    Ret (mkRx s (rx_d a) t (set_sub (rx_b a) sub), false)
  else
    let loss := if 0 <? rx_tLoss t then rx_tLoss t - 1 else rx_tLoss t in
    let sloss := if 0 <? Si_SeqErrLoss sub then Si_SeqErrLoss sub - 1 else Si_SeqErrLoss sub in
    let t := trial_errs t loss (u32 (rx_tOoo t + 1)) (rx_tDup t) in
    let sub := sub_errs sub sloss (u32 (Si_SeqErrOoo sub + 1)) (Si_SeqErrDup sub) in
    s ← pushHistory s seq;
    Ret (mkRx s (rx_d a) t (set_sub (rx_b a) sub), false).

(** The counters at the head of recordLoad. *)
Definition countLoad (a : rxAccounting) (hdr : LoadPDU) : rxAccounting :=
  let t := rx_t a in
  let sub := rx_sub (rx_b a) in
  mkRx (rx_s a) (rx_d a)
    (mkTrialState (u32 (rx_tRxDatagrams t + 1)) (u32 (rx_tRxBytes t + Lo_UDPPayload hdr))
       (rx_tLoss t) (rx_tOoo t) (rx_tDup t) (rx_tDvMin t) (rx_tDvMax t) (rx_tDvSum t)
       (rx_tDvCnt t) (rx_tCE t))
    (set_sub (rx_b a)
       (mkSub (u32 (Si_RxDatagrams sub + 1)) (u64 (Si_RxBytes sub + Lo_UDPPayload hdr))
          (Si_DeltaTime sub) (Si_SeqErrLoss sub) (Si_SeqErrOoo sub) (Si_SeqErrDup sub)
          (Si_DelayVarMin sub) (Si_DelayVarMax sub) (Si_DelayVarSum sub) (Si_DelayVarCnt sub)
          (Si_RTTVarMin sub) (Si_RTTVarMax sub) (Si_AccumTime sub))).

(** The minimum of a field that [statusNoDelay] marks as empty. *)
Definition min_or_none (cur v : Z) : Z := if (cur =? statusNoDelay) || (v <? cur) then v else cur.
Definition max_of (cur v : Z) : Z := if cur <? v then v else cur.

(** The one-way delay part of recordLoad. *)
Definition recordDelay (a : rxAccounting) (rxTime : Time) (hdr : LoadPDU) : rxAccounting :=
  let d := rx_d a in
  let t := rx_t a in
  let sub := rx_sub (rx_b a) in
  let delta := wallDiffMs rxTime (Lo_TimeSec hdr) (Lo_TimeNsec hdr) in
  let d :=
    if negb (rx_haveClockDelta d) || (delta <? rx_clockDeltaMin d)
    then mkDelay delta true (rx_rttMin d) (rx_rttVarSample d) (rx_lastEchoSec d) (rx_lastEchoNsec d) true
    else d in
  let dv := u32 (delta - rx_clockDeltaMin d) in
  let t := mkTrialState (rx_tRxDatagrams t) (rx_tRxBytes t) (rx_tLoss t) (rx_tOoo t) (rx_tDup t)
             (min_or_none (rx_tDvMin t) dv) (max_of (rx_tDvMax t) dv)
             (u32 (rx_tDvSum t + dv)) (u32 (rx_tDvCnt t + 1)) (rx_tCE t) in
  let sub := mkSub (Si_RxDatagrams sub) (Si_RxBytes sub) (Si_DeltaTime sub) (Si_SeqErrLoss sub)
               (Si_SeqErrOoo sub) (Si_SeqErrDup sub)
               (min_or_none (Si_DelayVarMin sub) dv) (max_of (Si_DelayVarMax sub) dv)
               (u32 (Si_DelayVarSum sub + dv)) (u32 (Si_DelayVarCnt sub + 1))
               (Si_RTTVarMin sub) (Si_RTTVarMax sub) (Si_AccumTime sub) in
  mkRx (rx_s a) d t (set_sub (rx_b a) sub).

(** The sampled RTT part of recordLoad. *)
Definition recordRTT (a : rxAccounting) (rxTime : Time) (hdr : LoadPDU) : rxAccounting :=
  let d := rx_d a in
  let sub := rx_sub (rx_b a) in
  if (negb (Lo_SPDUTimeSec hdr =? 0) || negb (Lo_SPDUTimeNsec hdr =? 0)) &&
     (negb (Lo_SPDUTimeSec hdr =? rx_lastEchoSec d) || negb (Lo_SPDUTimeNsec hdr =? rx_lastEchoNsec d))
  then
    let rtt := wallDiffMs rxTime (Lo_SPDUTimeSec hdr) (Lo_SPDUTimeNsec hdr) - Lo_RTTRespDelay hdr in
    let rtt := if rtt <? 0 then 0 else rtt in
    let r := u32 rtt in
    let rttMin := min_or_none (rx_rttMin d) r in
    let sample := u32 (r - rttMin) in
    let d := mkDelay (rx_clockDeltaMin d) (rx_haveClockDelta d) rttMin sample
               (Lo_SPDUTimeSec hdr) (Lo_SPDUTimeNsec hdr) (rx_delayMinUpd d) in
    let sub := mkSub (Si_RxDatagrams sub) (Si_RxBytes sub) (Si_DeltaTime sub) (Si_SeqErrLoss sub)
                 (Si_SeqErrOoo sub) (Si_SeqErrDup sub) (Si_DelayVarMin sub) (Si_DelayVarMax sub)
                 (Si_DelayVarSum sub) (Si_DelayVarCnt sub)
                 (min_or_none (Si_RTTVarMin sub) sample) (max_of (Si_RTTVarMax sub) sample)
                 (Si_AccumTime sub) in
    mkRx (rx_s a) d (rx_t a) (set_sub (rx_b a) sub)
  else a.

Definition recordLoad (a : rxAccounting) (rxTime : Time) (hdr : LoadPDU) : go rxAccounting :=
  let a := countLoad a hdr in
  r ← recordSeq a (Lo_SeqNo hdr);
  let '(a, advances) := (r : rxAccounting * bool) in
  if negb advances then Ret a
  else Ret (recordRTT (recordDelay a rxTime hdr) rxTime hdr).

Definition trialInput_of (a : rxAccounting) : trialInput :=
  mkTrial (rx_tLoss (rx_t a)) (rx_tOoo (rx_t a)) (rx_tDup (rx_t a)) (rx_tDvSum (rx_t a))
    (rx_tDvCnt (rx_t a)) (rx_rttVarSample (rx_d a)) (rx_tRxDatagrams (rx_t a))
    (rx_tCE (rx_t a)) (rx_subIntSeq (rx_b a)).

Definition maybeRoll (a : rxAccounting) (now : Time) (subInt trialInt : Z) : rxAccounting :=
  let b := rx_b a in
  let sub := rx_sub b in
  let elapsed := time_Sub now (rx_subStart b) in
  if (0 <? subInt) && (elapsed <=? subInt - Z.quot trialInt 2) then a
  else if (Si_RxDatagrams sub =? 0) && (subInt =? 0) then a
  else
    let accumMs := u32 (rx_accumMs b + u32 (Milliseconds elapsed)) in
    let sub := mkSub (Si_RxDatagrams sub) (Si_RxBytes sub) (u32 (Microseconds elapsed))
                 (Si_SeqErrLoss sub) (Si_SeqErrOoo sub) (Si_SeqErrDup sub) (Si_DelayVarMin sub)
                 (Si_DelayVarMax sub) (Si_DelayVarSum sub) (Si_DelayVarCnt sub) (Si_RTTVarMin sub)
                 (Si_RTTVarMax sub) accumMs in
    mkRx (rx_s a) (rx_d a) (rx_t a)
      (mkSubState freshSub 0 now accumMs sub (rx_subCE b) (u32 (rx_subIntSeq b + 1)) true).

(** The caller sets the action, the stop flag, the sequence number, the row,
    the authentication mode and the legacy flag. *)
Definition buildStatus (a : rxAccounting) (now lastStatus wnow : Time) : StatusPDU :=
  let t := rx_t a in
  let d := rx_d a in
  let b := rx_b a in
  mkStatus 0 0 0 zeroRate (rx_subIntSeq b) (rx_saved b) (rx_tLoss t) (rx_tOoo t) (rx_tDup t)
    (u32 (i32 (rx_clockDeltaMin d))) (rx_tDvMin t) (rx_tDvMax t) (rx_tDvSum t) (rx_tDvCnt t)
    (rx_rttMin d) (rx_rttVarSample d) (boolByte (rx_delayMinUpd d))
    (u32 (Microseconds (time_Sub now lastStatus))) (rx_tRxDatagrams t) (rx_tRxBytes t)
    (wallNow wnow).1 (wallNow wnow).2 0 (rx_tCE t) (rx_savedCE b) 0 false.

Definition resetTrial (a : rxAccounting) : rxAccounting :=
  let d := rx_d a in
  mkRx (rx_s a)
    (mkDelay (rx_clockDeltaMin d) (rx_haveClockDelta d) (rx_rttMin d) (rx_rttVarSample d)
       (rx_lastEchoSec d) (rx_lastEchoNsec d) false)
    freshTrial (rx_b a).

(** ** The abstract receiver

    [sp_got]: the sequence numbers accepted so far (first arrivals), newest
    first; a late number among the last 32 of them is a duplicate, any other
    late number is reordering and takes back one counted loss. *)
Record specState := mkSpec {
  sp_high : Z;
  sp_got : list Z;
  sp_loss : Z;
  sp_ooo : Z;
  sp_dup : Z
}.

Definition spec_init : specState := mkSpec 0 [] 0 0 0.

Definition spec_step (s : specState) (seq : Z) : specState :=
  if sp_high s <? seq then
    mkSpec seq (seq :: sp_got s) (sp_loss s + (seq - sp_high s - 1)) (sp_ooo s) (sp_dup s)
  else if bool_decide (seq ∈ take loadHistorySize (sp_got s)) then
    mkSpec (sp_high s) (sp_got s) (sp_loss s) (sp_ooo s) (sp_dup s + 1)
  else
    mkSpec (sp_high s) (seq :: sp_got s) (Z.max 0 (sp_loss s - 1)) (sp_ooo s + 1) (sp_dup s).

Definition spec_run (seqs : list Z) : specState := fold_left spec_step seqs spec_init.

(** The concrete receiver over the same numbers. *)
Fixpoint record_seqs (a : rxAccounting) (seqs : list Z) : go rxAccounting :=
  match seqs with
  | [] => Ret a
  | seq :: seqs => r ← recordSeq a seq; record_seqs (r : rxAccounting * bool).1 seqs
  end.

(** The ring holds the last 32 accepted numbers, zeros before that: entry k
    back from the write position is the k-th of [got]. *)
Definition ring_repr (s : seqState) (got : list Z) : Prop :=
  length (rx_history s) = loadHistorySize /\
  rx_histIdx s = Z.of_nat (length got mod loadHistorySize) /\
  forall k, (k < loadHistorySize)%nat ->
    rx_history s !! ((length got + 31 - k) mod loadHistorySize)%nat = Some (default 0 (got !! k)).

(** Every number seen before is still in the window when it comes again. *)
Fixpoint window_okb (s : specState) (seqs : list Z) : bool :=
  match seqs with
  | [] => true
  | q :: qs =>
      (bool_decide (q ∉ sp_got s) || bool_decide (q ∈ take loadHistorySize (sp_got s))) &&
      window_okb (spec_step s q) qs
  end.

(** Sequence numbers that a sender starting at 1 uses, short of the wrap. *)
Definition seq_ok (q : Z) : Prop := 1 <= q < 2 ^ 32 - 1.

(** ** The ring *)

(** [lia] with division and remainder by constants. *)
Ltac mod_lia := zify; Z.to_euclidean_division_equations; lia.

Lemma ring_init : ring_repr (mkSeq 0 (replicate loadHistorySize 0) 0) [].
Proof.
  split_and!; [done..|]. intros k Hk. cbn [length]. rewrite lookup_nil. cbn [default].
  apply lookup_replicate_2. apply Nat.mod_upper_bound. done.
Qed.

Lemma pushHistory_ring s got high q : ring_repr s got ->
  exists s', pushHistory (mkSeq high (rx_history s) (rx_histIdx s)) q = Ret s' /\
             rx_seq s' = high /\ ring_repr s' (q :: got).
Proof.
  intros (Hlen & Hidx & Hk). unfold pushHistory, set_idx. cbn [rx_history rx_histIdx rx_seq].
  rewrite Hidx, Nat2Z.id, Hlen.
  assert (Hlt : (length got mod loadHistorySize < loadHistorySize)%nat) by (apply Nat.mod_upper_bound; done).
  rewrite (proj2 (Nat.ltb_lt _ _)) by done. rewrite go_bind_Ret.
  eexists. split; [reflexivity|]. split; [reflexivity|]. unfold ring_repr, loadHistorySize in *.
  split_and!; cbn [rx_history rx_histIdx length].
  - by rewrite length_insert.
  - mod_lia.
  - intros k Hk'. destruct k as [|k].
    + replace ((S (length got) + 31 - 0) mod 32)%nat with (length got mod 32)%nat by mod_lia.
      rewrite list_lookup_insert_eq by lia. done.
    + replace ((S (length got) + 31 - S k) mod 32)%nat with ((length got + 31 - k) mod 32)%nat by mod_lia.
      rewrite list_lookup_insert_ne by mod_lia. rewrite Hk by lia. done.
Qed.

Lemma inHistory_ring s got q : ring_repr s got -> q <> 0 ->
  inHistory s q = bool_decide (q ∈ take loadHistorySize got).
Proof.
  intros (Hlen & Hidx & Hk) Hq. unfold inHistory.
  apply Bool.eq_iff_eq_true. rewrite existsb_exists, bool_decide_eq_true. unfold loadHistorySize in *. split.
  - intros (x & Hx & Hxq). apply Z.eqb_eq in Hxq as ->.
    apply list_elem_of_In, list_elem_of_lookup in Hx as [j Hj].
    assert (Hjl : (j < 32)%nat) by (rewrite <- Hlen; by eapply lookup_lt_Some).
    specialize (Hk ((length got + 31 - j) mod 32)%nat ltac:(mod_lia)).
    replace ((length got + 31 - (length got + 31 - j) mod 32) mod 32)%nat with j in Hk by mod_lia.
    rewrite Hj in Hk. injection Hk as Hk.
    destruct (got !! _) as [v|] eqn:Hg; cbn in Hk; [subst v|done].
    apply list_elem_of_lookup. eexists. rewrite lookup_take_lt; [exact Hg|mod_lia].
  - intros Hin. apply list_elem_of_lookup in Hin as [k Hg].
    assert (Hkl : (k < 32)%nat) by (apply lookup_lt_Some in Hg; rewrite length_take in Hg; lia).
    rewrite lookup_take_lt in Hg by done. specialize (Hk k Hkl). rewrite Hg in Hk. cbn in Hk.
    exists q. split; [|apply Z.eqb_refl]. apply list_elem_of_In, list_elem_of_lookup. eauto.
Qed.

(** ** Refinement of the abstract receiver *)

(** The trial and the sub-interval counters of [a] agree with [s], whose
    counters are small enough not to wrap. *)
Record seq_sim (n : Z) (a : rxAccounting) (s : specState) : Prop := {
  sim_high : rx_seq (rx_s a) = sp_high s;
  sim_bound : 0 <= sp_high s < 2 ^ 32 - 1;
  sim_ring : ring_repr (rx_s a) (sp_got s);
  sim_loss : rx_tLoss (rx_t a) = sp_loss s /\ Si_SeqErrLoss (rx_sub (rx_b a)) = sp_loss s;
  sim_ooo : rx_tOoo (rx_t a) = sp_ooo s /\ Si_SeqErrOoo (rx_sub (rx_b a)) = sp_ooo s;
  sim_dup : rx_tDup (rx_t a) = sp_dup s /\ Si_SeqErrDup (rx_sub (rx_b a)) = sp_dup s;
  sim_small : 0 <= sp_loss s <= sp_high s /\ 0 <= sp_ooo s <= n /\ 0 <= sp_dup s <= n
}.

Lemma recordSeq_sim n a s q : seq_sim n a s -> seq_ok q -> 0 <= n < 2 ^ 32 - 1 ->
  exists a' adv, recordSeq a q = Ret (a', adv) /\ seq_sim (n + 1) a' (spec_step s q).
Proof.
  intros [Hhigh Hb Hring [Hl1 Hl2] [Ho1 Ho2] [Hd1 Hd2] (Hs1 & Hs2 & Hs3)] Hq Hn.
  unfold recordSeq, spec_step, seq_ok in *. rewrite Hhigh, (u32_id (_ + 1)) by width_lia.
  replace (sp_high s + 1 <=? q) with (sp_high s <? q) by lia.
  destruct (sp_high s <? q) eqn:E1; b2p.
  - destruct (pushHistory_ring _ _ q q Hring) as (s' & Hp & Hseq & Hr). rewrite Hp, go_bind_Ret.
    do 2 eexists. split; [reflexivity|]. rewrite (u32_id (q - _ - 1)), Hl1, Hl2, !u32_id by width_lia.
    split; cbn; (done || lia).
  - rewrite (inHistory_ring _ _ _ Hring) by lia. destruct (bool_decide _) eqn:E2.
    + do 2 eexists. split; [reflexivity|]. rewrite Hd1, Hd2, !u32_id by width_lia.
      split; cbn; (done || lia).
    + destruct (pushHistory_ring _ _ (rx_seq (rx_s a)) q Hring) as (s' & Hp & Hseq & Hr).
      replace (mkSeq (rx_seq (rx_s a)) (rx_history (rx_s a)) (rx_histIdx (rx_s a))) with (rx_s a) in Hp by by destruct (rx_s a).
      rewrite Hp, go_bind_Ret. do 2 eexists. split; [reflexivity|].
      rewrite Hl1, Hl2, Ho1, Ho2, !u32_id by width_lia.
      assert (Hm : (if 0 <? sp_loss s then sp_loss s - 1 else sp_loss s) = Z.max 0 (sp_loss s - 1))
        by (destruct (Z.ltb_spec 0 (sp_loss s)); lia).
      rewrite !Hm. split; cbn; (done || lia || congruence).
Qed.

Lemma record_seqs_sim n a s qs : seq_sim n a s -> Forall seq_ok qs -> 0 <= n -> n + Z.of_nat (length qs) < 2 ^ 32 - 1 ->
  exists a', record_seqs a qs = Ret a' /\ seq_sim (n + Z.of_nat (length qs)) a' (fold_left spec_step qs s).
Proof.
  intros Hsim Hq. revert n a s Hsim. induction Hq as [|q qs Hq Hqs IH]; intros n a s Hsim H0 Hn; cbn [record_seqs fold_left length] in *.
  - exists a. split; [done|]. by rewrite Z.add_0_r.
  - destruct (recordSeq_sim n a s q Hsim Hq ltac:(lia)) as (a1 & adv & H1 & Hsim1). rewrite H1, go_bind_Ret. cbn [fst].
    destruct (IH (n + 1) a1 _ Hsim1 ltac:(lia) ltac:(lia)) as (a2 & H2 & Hsim2).
    exists a2. split; [done|]. by replace (n + Z.of_nat (S (length qs))) with (n + 1 + Z.of_nat (length qs)) by lia.
Qed.

Lemma seq_sim_init now : seq_sim 0 (newRxAccounting now) spec_init.
Proof. split; cbn; try (done || lia). apply ring_init. Qed.

(** ** Exact loss *)
Lemma distinct_bound (l : list Z) n : 0 <= n -> NoDup l -> Forall (fun x => 1 <= x <= n) l -> Z.of_nat (length l) <= n.
Proof.
  intros Hn Hnd Hall.
  assert (Hsub : l ⊆+ seqZ 1 n).
  { apply NoDup_submseteq; [done|]. intros x Hx. rewrite Forall_forall in Hall.
    apply list_elem_of_In in Hx as Hin. apply Hall in Hin. apply elem_of_seqZ. lia. }
  apply submseteq_length in Hsub. rewrite length_seqZ in Hsub. lia.
Qed.

(** Without stale duplicates the accepted numbers are the distinct numbers
    received, and every number below the highest is either accepted or
    counted as lost. *)
Record exact_inv (seen : list Z) (s : specState) : Prop := {
  ex_nodup : NoDup (sp_got s);
  ex_range : Forall (fun x => 1 <= x <= sp_high s) (sp_got s);
  ex_set : forall x, x ∈ sp_got s <-> x ∈ seen;
  ex_high : 0 <= sp_high s /\ forall x, x ∈ seen -> x <= sp_high s;
  ex_loss : sp_loss s = sp_high s - Z.of_nat (length (sp_got s));
  ex_dup : sp_dup s = Z.of_nat (length seen) - Z.of_nat (length (sp_got s))
}.

Lemma exact_step seen s q : exact_inv seen s -> seq_ok q ->
  (q ∉ sp_got s \/ q ∈ take loadHistorySize (sp_got s)) -> exact_inv (seen ++ [q]) (spec_step s q).
Proof.
  intros [Hnd Hr Hset [Hh0 Hh] Hl Hd] Hq Hw. unfold spec_step, seq_ok in *.
  destruct (Z.ltb_spec (sp_high s) q) as [Hlt|Hge].
  - assert (Hnew : q ∉ sp_got s).
    { intros Hin. rewrite Forall_forall in Hr. apply list_elem_of_In, Hr in Hin. lia. }
    split; cbn [sp_got sp_high sp_loss sp_dup length]; rewrite ?length_app; cbn [length].
    + by constructor.
    + constructor; [lia|]. eapply Forall_impl; [|exact Hr]. intros; cbn in *; lia.
    + intros x. rewrite elem_of_cons, elem_of_app, list_elem_of_singleton, Hset. tauto.
    + split; [lia|]. intros x. rewrite elem_of_app, list_elem_of_singleton. intros [Hx| ->]; [apply Hh in Hx; lia|lia].
    + lia.
    + lia.
  - destruct (bool_decide_reflect (q ∈ take loadHistorySize (sp_got s))) as [Hin|Hout].
    + assert (Hg : q ∈ sp_got s) by (eapply elem_of_take in Hin as (? & ? & _); apply list_elem_of_lookup; eauto).
      split; cbn [sp_got sp_high sp_loss sp_dup]; rewrite ?length_app; cbn [length]; try (done || lia).
      * intros x. rewrite elem_of_app, list_elem_of_singleton, <- Hset. split; [tauto|]. by intros [Hx| ->].
      * split; [lia|]. intros x. rewrite elem_of_app, list_elem_of_singleton. intros [Hx| ->]; [by apply Hh|lia].
    + assert (Hnew : q ∉ sp_got s) by (destruct Hw as [Hw|Hw]; [done|by destruct Hout]).
      assert (Hr' : Forall (fun x => 1 <= x <= sp_high s) (q :: sp_got s)) by (constructor; [lia|done]).
      pose proof (distinct_bound (q :: sp_got s) (sp_high s) Hh0 (NoDup_cons_2 _ _ Hnew Hnd) Hr') as Hcount.
      cbn [length] in Hcount.
      split; cbn [sp_got sp_high sp_loss sp_dup length]; rewrite ?length_app; cbn [length]; try (done || lia).
      * by constructor.
      * intros x. rewrite elem_of_cons, elem_of_app, list_elem_of_singleton, Hset. tauto.
      * split; [lia|]. intros x. rewrite elem_of_app, list_elem_of_singleton. intros [Hx| ->]; [by apply Hh|lia].
Qed.

Lemma exact_run seen s qs : exact_inv seen s -> Forall seq_ok qs -> window_okb s qs = true ->
  exact_inv (seen ++ qs) (fold_left spec_step qs s).
Proof.
  intros Hinv Hq. revert seen s Hinv. induction Hq as [|q qs Hq Hqs IH]; intros seen s Hinv Hw; cbn in *.
  - by rewrite app_nil_r.
  - apply andb_true_iff in Hw as [Hw1 Hw2]. apply orb_true_iff in Hw1.
    rewrite !bool_decide_eq_true in Hw1.
    replace (seen ++ q :: qs) with ((seen ++ [q]) ++ qs) by by rewrite <- app_assoc.
    apply IH; [by apply exact_step|done].
Qed.

Lemma exact_init : exact_inv [] spec_init.
Proof.
  split; cbn; [constructor|constructor|done| |done|done].
  split; [lia|]. intros x Hx. by apply elem_of_nil in Hx.
Qed.

Lemma exact_size seen s : exact_inv seen s -> length (sp_got s) = size (list_to_set seen : gset Z).
Proof.
  intros [Hnd _ Hset _ _ _]. rewrite <- (size_list_to_set (C := gset Z) (sp_got s)) by done.
  f_equal. apply set_eq. intros x. rewrite !elem_of_list_to_set. apply Hset.
Qed.

(** ** Widths *)
Record rx_wf (a : rxAccounting) : Prop := {
  wf_seq : is_u32 (rx_seq (rx_s a));
  wf_hist : length (rx_history (rx_s a)) = loadHistorySize;
  wf_histIdx : 0 <= rx_histIdx (rx_s a) < Z.of_nat loadHistorySize;
  wf_delay : is_u32 (rx_rttMin (rx_d a)) /\ is_u32 (rx_rttVarSample (rx_d a)) /\
             is_u32 (rx_lastEchoSec (rx_d a)) /\ is_u32 (rx_lastEchoNsec (rx_d a));
  wf_trial : is_u32 (rx_tRxDatagrams (rx_t a)) /\ is_u32 (rx_tRxBytes (rx_t a)) /\
             is_u32 (rx_tLoss (rx_t a)) /\ is_u32 (rx_tOoo (rx_t a)) /\ is_u32 (rx_tDup (rx_t a)) /\
             is_u32 (rx_tDvMin (rx_t a)) /\ is_u32 (rx_tDvMax (rx_t a)) /\ is_u32 (rx_tDvSum (rx_t a)) /\
             is_u32 (rx_tDvCnt (rx_t a)) /\ is_u32 (rx_tCE (rx_t a));
  wf_sub : sub_wf (rx_sub (rx_b a)) /\ sub_wf (rx_saved (rx_b a));
  wf_subrest : is_u32 (rx_subCE (rx_b a)) /\ is_u32 (rx_savedCE (rx_b a)) /\
               is_u32 (rx_accumMs (rx_b a)) /\ is_u32 (rx_subIntSeq (rx_b a))
}.

Lemma statusNoDelay_u32 : is_u32 statusNoDelay.
Proof. split; [discriminate|reflexivity]. Qed.
Lemma zero_u32 : is_u32 0.
Proof. split; [discriminate|reflexivity]. Qed.
Lemma zero_u64 : is_u64 0.
Proof. split; [discriminate|reflexivity]. Qed.
Lemma min_or_none_u32 cur v : is_u32 cur -> is_u32 v -> is_u32 (min_or_none cur v).
Proof. unfold min_or_none. intros. by destruct (_ || _). Qed.
Lemma max_of_u32 cur v : is_u32 cur -> is_u32 v -> is_u32 (max_of cur v).
Proof. unfold max_of. intros. by destruct (_ <? _). Qed.
Lemma pred_u32 v : is_u32 v -> is_u32 (if 0 <? v then v - 1 else v).
Proof. intros. destruct (0 <? v) eqn:E; b2p; width_lia. Qed.
#[export] Hint Resolve statusNoDelay_u32 zero_u32 zero_u64 min_or_none_u32 max_of_u32 pred_u32 : diagd.

Lemma freshSub_wf : sub_wf freshSub.
Proof. unfold sub_wf, freshSub. cbn. split_and!; auto with diagd. Qed.
Lemma zeroSub_wf : sub_wf zeroSub.
Proof. unfold sub_wf, zeroSub. cbn. split_and!; auto with diagd. Qed.
#[export] Hint Resolve freshSub_wf zeroSub_wf : diagd.

(** Open the invariant into its fields and rebuild it. *)
Ltac rx_open H :=
  destruct H as [? ? ? (? & ? & ? & ?) (? & ? & ? & ? & ? & ? & ? & ? & ? & ?)
    [(? & ? & ? & ? & ? & ? & ? & ? & ? & ? & ? & ? & ?)
     (? & ? & ? & ? & ? & ? & ? & ? & ? & ? & ? & ? & ?)] (? & ? & ? & ?)].
Ltac rx_close :=
  split; cbn; unfold sub_wf; cbn; repeat match goal with |- _ /\ _ => split end; auto with diagd; try lia.

Lemma newRxAccounting_wf now : rx_wf (newRxAccounting now).
Proof. unfold newRxAccounting. rx_close. reflexivity. Qed.

Lemma pushHistory_wf s q : length (rx_history s) = loadHistorySize -> 0 <= rx_histIdx s < Z.of_nat loadHistorySize ->
  exists s', pushHistory s q = Ret s' /\ rx_seq s' = rx_seq s /\ length (rx_history s') = loadHistorySize /\
             0 <= rx_histIdx s' < Z.of_nat loadHistorySize.
Proof.
  intros Hl Hi. unfold pushHistory, set_idx. rewrite Hl, (proj2 (Nat.ltb_lt _ _)) by lia. rewrite go_bind_Ret.
  eexists. split; [reflexivity|]. cbn [rx_seq rx_history rx_histIdx]. rewrite length_insert.
  split_and!; [done|done|apply Z.rem_nonneg; unfold loadHistorySize; lia|].
  apply Z.rem_bound_pos; unfold loadHistorySize; lia.
Qed.

Lemma recordSeq_wf a q : rx_wf a -> is_u32 q -> exists a' adv, recordSeq a q = Ret (a', adv) /\ rx_wf a'.
Proof.
  intros Hwf Hq. rx_open Hwf. unfold recordSeq.
  destruct (_ <=? q).
  - edestruct (pushHistory_wf (mkSeq q (rx_history (rx_s a)) (rx_histIdx (rx_s a))) q) as (s' & -> & Hs & ? & ?); [done..|].
    rewrite go_bind_Ret. do 2 eexists. split; [reflexivity|]. rx_close. by rewrite Hs.
  - destruct (inHistory _ q).
    + do 2 eexists. split; [reflexivity|]. rx_close.
    + edestruct (pushHistory_wf (rx_s a) q) as (s' & -> & Hs & ? & ?); [done..|].
      rewrite go_bind_Ret. do 2 eexists. split; [reflexivity|]. rx_close. by rewrite Hs.
Qed.

Lemma countLoad_wf a hdr : rx_wf a -> rx_wf (countLoad a hdr).
Proof. intros Hwf. rx_open Hwf. unfold countLoad. rx_close. Qed.

Lemma recordDelay_wf a t hdr : rx_wf a -> rx_wf (recordDelay a t hdr).
Proof.
  intros Hwf. rx_open Hwf. unfold recordDelay. cbv zeta.
  destruct (_ || _); rx_close.
Qed.

Lemma recordRTT_wf a t hdr : rx_wf a -> load_wf hdr -> rx_wf (recordRTT a t hdr).
Proof.
  intros Hwf (_ & _ & _ & _ & _ & ? & ? & _). pose proof Hwf as Hwf'. rx_open Hwf. unfold recordRTT. cbv zeta.
  destruct (_ && _); [|done]. rx_close.
Qed.

Lemma recordLoad_wf a t hdr : rx_wf a -> load_wf hdr -> exists a', recordLoad a t hdr = Ret a' /\ rx_wf a'.
Proof.
  intros Hwf Hl. unfold recordLoad.
  destruct (recordSeq_wf _ (Lo_SeqNo hdr) (countLoad_wf a hdr Hwf)) as (a1 & adv & -> & H1).
  { apply Hl. }
  rewrite go_bind_Ret. destruct adv; cbn [negb].
  - eexists. split; [reflexivity|]. apply recordRTT_wf; [by apply recordDelay_wf|done].
  - eexists. split; [reflexivity|done].
Qed.

Lemma maybeRoll_wf a now subInt trialInt : rx_wf a -> rx_wf (maybeRoll a now subInt trialInt).
Proof.
  intros Hwf. pose proof Hwf as Hwf'. rx_open Hwf. unfold maybeRoll. cbv zeta.
  destruct (_ && _); [done|]. destruct (_ && _); [done|]. rx_close.
Qed.

Lemma resetTrial_wf a : rx_wf a -> rx_wf (resetTrial a).
Proof. intros Hwf. pose proof Hwf as Hwf'. rx_open Hwf. unfold resetTrial. rx_close. Qed.

Lemma buildStatus_wf a now last wnow : rx_wf a -> status_wf (buildStatus a now last wnow).
Proof.
  intros Hwf. pose proof (wf_sub a Hwf) as [_ Hsv]. rx_open Hwf. unfold status_wf, buildStatus, rate_wf. cbn.
  split_and!; auto with diagd; try (split; [discriminate|reflexivity]).
Qed.

(** ** Theorems *)

(** C10: the receiver with its ring of 32 sequence numbers refines the
    abstract receiver that keeps every accepted number: over any stream of
    numbers short of the wrap, no access of the ring is out of range and the
    loss, reordering and duplicate counts of the trial and of the sub-interval
    are those of the abstract classification. *)
Theorem recordSeq_refines now seqs :
  Forall seq_ok seqs -> Z.of_nat (length seqs) < 2 ^ 32 - 1 ->
  exists a, record_seqs (newRxAccounting now) seqs = Ret a /\
    let s := spec_run seqs in
    rx_seq (rx_s a) = sp_high s /\
    rx_tLoss (rx_t a) = sp_loss s /\ rx_tOoo (rx_t a) = sp_ooo s /\ rx_tDup (rx_t a) = sp_dup s /\
    Si_SeqErrLoss (rx_sub (rx_b a)) = sp_loss s /\ Si_SeqErrOoo (rx_sub (rx_b a)) = sp_ooo s /\
    Si_SeqErrDup (rx_sub (rx_b a)) = sp_dup s.
Proof.
  intros Hq Hn. destruct (record_seqs_sim 0 _ _ seqs (seq_sim_init now) Hq) as (a & Ha & Hsim); [lia|lia|].
  exists a. split; [done|]. destruct Hsim as [H1 _ _ [H2 H3] [H4 H5] [H6 H7] _]. done.
Qed.

Lemma recordSeq_refines_witness :
  exists a, record_seqs (newRxAccounting zeroTime) [1; 2; 5; 3; 5] = Ret a /\
    rx_tLoss (rx_t a) = 1 /\ rx_tOoo (rx_t a) = 1 /\ rx_tDup (rx_t a) = 1.
Proof.
  destruct (recordSeq_refines zeroTime [1; 2; 5; 3; 5]) as (a & Ha & _ & H1 & H2 & H3 & _).
  - repeat constructor; cbn; lia.
  - cbn. lia.
  - exists a. split; [exact Ha|]. rewrite H1, H2, H3. split_and!; vm_compute; reflexivity.
Defined.

(** C11: when every repeated number arrives while it is still in the window,
    the loss reported is exactly the number of sequence numbers missing below
    the highest one received (a late arrival takes its counted loss back),
    and the duplicates are exactly the repetitions. *)
Theorem recordSeq_exact now seqs :
  Forall seq_ok seqs -> Z.of_nat (length seqs) < 2 ^ 32 - 1 -> window_okb spec_init seqs = true ->
  exists a, record_seqs (newRxAccounting now) seqs = Ret a /\
    let distinct := Z.of_nat (size (list_to_set seqs : gset Z)) in
    (forall x, x ∈ seqs -> x <= rx_seq (rx_s a)) /\
    rx_tLoss (rx_t a) = rx_seq (rx_s a) - distinct /\
    rx_tDup (rx_t a) = Z.of_nat (length seqs) - distinct.
Proof.
  intros Hq Hn Hw. destruct (record_seqs_sim 0 _ _ seqs (seq_sim_init now) Hq) as (a & Ha & Hsim); [lia|lia|].
  exists a. split; [done|]. cbv zeta. pose proof (exact_run [] _ seqs exact_init Hq Hw) as He. cbn [app] in He.
  rewrite <- (exact_size _ _ He). destruct He as [_ _ _ [_ Hh] Hl Hd].
  destruct Hsim as [H1 _ _ [H2 _] _ [H6 _] _]. rewrite H1, H2, H6. done.
Qed.

Lemma recordSeq_exact_witness :
  exists a, record_seqs (newRxAccounting zeroTime) [2; 1; 4; 2; 7; 6] = Ret a /\
    rx_tLoss (rx_t a) = 7 - 5 /\ rx_tDup (rx_t a) = 6 - 5.
Proof.
  destruct (recordSeq_exact zeroTime [2; 1; 4; 2; 7; 6]) as (a & Ha & _ & H1 & H2).
  - repeat constructor; cbn; lia.
  - cbn. lia.
  - vm_compute. reflexivity.
  - exists a. split; [exact Ha|]. rewrite H1, H2. vm_compute in Ha. injection Ha as <-.
    split; vm_compute; reflexivity.
Defined.

(** Operations of the receiver, as the session interleaves them. *)
Inductive rxOp : Type :=
| OpLoad (rxTime : Time) (hdr : LoadPDU)
| OpRoll (now : Time) (subInt trialInt : Z)
| OpReset.

Definition rx_apply (a : rxAccounting) (op : rxOp) : go rxAccounting :=
  match op with
  | OpLoad t hdr => recordLoad a t hdr
  | OpRoll now subInt trialInt => Ret (maybeRoll a now subInt trialInt)
  | OpReset => Ret (resetTrial a)
  end.

Fixpoint rx_run (a : rxAccounting) (ops : list rxOp) : go rxAccounting :=
  match ops with
  | [] => Ret a
  | op :: ops => a ← rx_apply a op; rx_run a ops
  end.

Definition rxOp_ok (op : rxOp) : Prop :=
  match op with OpLoad _ hdr => load_wf hdr | _ => True end.

Lemma rx_run_wf a ops : rx_wf a -> Forall rxOp_ok ops -> exists a', rx_run a ops = Ret a' /\ rx_wf a'.
Proof.
  intros Hwf Hops. revert a Hwf. induction Hops as [|op ops Hop Hops IH]; intros a Hwf; cbn [rx_run].
  - by exists a.
  - assert (H : exists a', rx_apply a op = Ret a' /\ rx_wf a').
    { destruct op; cbn in *; [by apply recordLoad_wf| |]; eexists; (split; [reflexivity|]);
      [by apply maybeRoll_wf|by apply resetTrial_wf]. }
    destruct H as (a' & -> & Hwf'). rewrite go_bind_Ret. by apply IH.
Qed.

(** From a fresh receiver, any interleaving of load datagrams (with any
    sequence numbers and timestamps the wire can carry), sub-interval rolls and
    trial resets runs without an out-of-range access and keeps every counter
    at its width, so the status PDU built from it is well-formed. *)
Theorem rx_run_safe start ops now last wnow :
  Forall rxOp_ok ops ->
  exists a, rx_run (newRxAccounting start) ops = Ret a /\ rx_wf a /\ status_wf (buildStatus a now last wnow).
Proof.
  intros Hops. destruct (rx_run_wf _ ops (newRxAccounting_wf start) Hops) as (a & Ha & Hwf).
  exists a. split_and!; [done|done|by apply buildStatus_wf].
Qed.

Lemma rx_run_safe_witness :
  exists a, rx_run (newRxAccounting zeroTime)
              [OpLoad zeroTime load_example; OpReset; OpRoll zeroTime 0 0] = Ret a /\ rx_wf a /\
            status_wf (buildStatus a zeroTime zeroTime zeroTime).
Proof.
  apply (rx_run_safe zeroTime); repeat constructor; discriminate.
Defined.

(** ** Sub-intervals

    The run again, with the sub-intervals it saved, oldest first, and the time
    of each roll. *)
Definition roll_of (op : rxOp) (a a' : rxAccounting) : list (Time * SubIntStats) :=
  match op with
  | OpRoll now _ _ => if rx_subIntSeq (rx_b a') =? rx_subIntSeq (rx_b a) then [] else [(now, rx_saved (rx_b a'))]
  | _ => []
  end.

Fixpoint rx_rolls (a : rxAccounting) (ops : list rxOp) : go (rxAccounting * list (Time * SubIntStats)) :=
  match ops with
  | [] => Ret (a, [])
  | op :: ops =>
      a' ← rx_apply a op;
      r ← rx_rolls a' ops;
      let '(a'', rolls) := (r : rxAccounting * list (Time * SubIntStats)) in
      Ret (a'', roll_of op a a' ++ rolls)
  end.

(** The load datagrams of a run, and the bytes their headers declare. *)
Definition op_datagrams (op : rxOp) : Z := match op with OpLoad _ _ => 1 | _ => 0 end.
Definition op_bytes (op : rxOp) : Z := match op with OpLoad _ hdr => Lo_UDPPayload hdr | _ => 0 end.

(** Consecutive sub-intervals: each measures the time since the one before
    it. *)
Fixpoint tiles (start : Time) (rolls : list (Time * SubIntStats)) : Prop :=
  match rolls with
  | [] => True
  | (now, s) :: rolls => Si_DeltaTime s = u32 (Microseconds (time_Sub now start)) /\ tiles now rolls
  end.

Lemma recordSeq_sub a q a' adv : recordSeq a q = Ret (a', adv) ->
  Si_RxDatagrams (rx_sub (rx_b a')) = Si_RxDatagrams (rx_sub (rx_b a)) /\
  Si_RxBytes (rx_sub (rx_b a')) = Si_RxBytes (rx_sub (rx_b a)) /\
  rx_subStart (rx_b a') = rx_subStart (rx_b a) /\ rx_subIntSeq (rx_b a') = rx_subIntSeq (rx_b a).
Proof.
  unfold recordSeq. cbv zeta. destruct (_ <=? _); [|destruct (inHistory _ _)]; intros H;
    try (apply bind_Ret_inv in H as (s & _ & H)); by injection H as <- <-.
Qed.

Lemma recordLoad_sub a t hdr a' : recordLoad a t hdr = Ret a' ->
  Si_RxDatagrams (rx_sub (rx_b a')) = u32 (Si_RxDatagrams (rx_sub (rx_b a)) + 1) /\
  Si_RxBytes (rx_sub (rx_b a')) = u64 (Si_RxBytes (rx_sub (rx_b a)) + Lo_UDPPayload hdr) /\
  rx_subStart (rx_b a') = rx_subStart (rx_b a) /\ rx_subIntSeq (rx_b a') = rx_subIntSeq (rx_b a).
Proof.
  unfold recordLoad. intros H. apply bind_Ret_inv in H as ([a1 adv] & Hs & H). apply recordSeq_sub in Hs.
  destruct adv; cbn [negb] in H; injection H as <-; [|exact Hs].
  unfold recordRTT. cbv zeta. destruct (_ && _); exact Hs.
Qed.

Lemma u32_succ_neq x : is_u32 x -> (u32 (x + 1) =? x) = false.
Proof. unfold is_u32, u32. intros H. apply Z.eqb_neq. intros He. zify; Z.to_euclidean_division_equations; lia. Qed.

(** A roll either leaves the receiver or saves the active sub-interval with
    its duration and starts an empty one. *)
Lemma maybeRoll_cases a now si ti : rx_wf a ->
  let a' := maybeRoll a now si ti in
  (a' = a /\ roll_of (OpRoll now si ti) a a' = []) \/
  (exists s, roll_of (OpRoll now si ti) a a' = [(now, s)] /\
     Si_RxDatagrams s = Si_RxDatagrams (rx_sub (rx_b a)) /\ Si_RxBytes s = Si_RxBytes (rx_sub (rx_b a)) /\
     Si_DeltaTime s = u32 (Microseconds (time_Sub now (rx_subStart (rx_b a)))) /\
     rx_sub (rx_b a') = freshSub /\ rx_subStart (rx_b a') = now /\ rx_subIntSeq (rx_b a') = u32 (rx_subIntSeq (rx_b a) + 1)).
Proof.
  intros Hwf. pose proof (wf_subrest a Hwf) as (_ & _ & _ & Hq). cbv zeta. unfold roll_of, maybeRoll. cbv zeta.
  destruct (_ && _); [left; by rewrite Z.eqb_refl|]. destruct (_ && _); [left; by rewrite Z.eqb_refl|].
  right. cbn [rx_b rx_subIntSeq]. rewrite u32_succ_neq by done. by eexists.
Qed.

Lemma sum_ops_nonneg ops : Forall rxOp_ok ops -> 0 <= zsum op_datagrams ops /\ 0 <= zsum op_bytes ops.
Proof.
  induction 1 as [|op ops Hop _ IH]; cbn; [lia|]. unfold zsum in IH. destruct op as [t hdr| |]; cbn in *; [|lia..].
  assert (Hl : is_u16 (Lo_UDPPayload hdr)) by apply Hop. unfold is_u16 in Hl. lia.
Qed.

Lemma rx_rolls_conserve a ops : rx_wf a -> Forall rxOp_ok ops ->
  exists a' rolls, rx_rolls a ops = Ret (a', rolls) /\ rx_run a ops = Ret a' /\
    (Si_RxDatagrams (rx_sub (rx_b a)) + zsum op_datagrams ops < 2 ^ 32 ->
     zsum (fun r => Si_RxDatagrams r.2) rolls + Si_RxDatagrams (rx_sub (rx_b a')) =
     Si_RxDatagrams (rx_sub (rx_b a)) + zsum op_datagrams ops) /\
    (Si_RxBytes (rx_sub (rx_b a)) + zsum op_bytes ops < 2 ^ 64 ->
     zsum (fun r => Si_RxBytes r.2) rolls + Si_RxBytes (rx_sub (rx_b a')) =
     Si_RxBytes (rx_sub (rx_b a)) + zsum op_bytes ops) /\
    rx_subIntSeq (rx_b a') = u32 (rx_subIntSeq (rx_b a) + Z.of_nat (length rolls)) /\
    tiles (rx_subStart (rx_b a)) rolls.
Proof.
  intros Hwf Hops. revert a Hwf. induction Hops as [|op ops Hop Hops IH]; intros a Hwf; cbn [rx_rolls rx_run].
  { exists a, []. pose proof (wf_subrest a Hwf) as (_ & _ & _ & Hq). cbn -[u32]. rewrite !Z.add_0_r, u32_id by done. by split_and!. }
  destruct (sum_ops_nonneg ops Hops) as [Hn1 Hn2].
  pose proof (wf_sub a Hwf) as [(Hd & Hby & _) _].
  destruct op as [t hdr|now si ti|]; cbn [rx_apply].
  - destruct (recordLoad_wf a t hdr Hwf Hop) as (a1 & H1 & Hwf1). destruct (recordLoad_sub a t hdr a1 H1) as (E1 & E2 & E3 & E4).
    destruct (IH a1 Hwf1) as (a2 & rolls & R1 & R2 & C1 & C2 & C3 & C4). rewrite H1, !go_bind_Ret, R1, R2, go_bind_Ret.
    exists a2, rolls. rewrite E1, E2, E3, E4 in *. assert (Hl : is_u16 (Lo_UDPPayload hdr)) by apply Hop.
    unfold zsum in *. cbn [foldr op_datagrams op_bytes roll_of app] in *. unfold is_u16 in Hl.
    split_and!; try done; intros Hlt; [rewrite u32_id in C1 by width_lia|rewrite u64_id in C2 by width_lia]; lia.
  - pose proof (maybeRoll_wf a now si ti Hwf) as Hwf1.
    destruct (IH _ Hwf1) as (a2 & rolls & R1 & R2 & C1 & C2 & C3 & C4). rewrite !go_bind_Ret, R1, R2, go_bind_Ret. eexists _, _.
    split; [reflexivity|]. split; [reflexivity|].
    destruct (maybeRoll_cases a now si ti Hwf) as [[Ha ->]|(s & -> & E1 & E2 & E3 & E4 & E5 & E6)].
    + rewrite Ha in *. cbn. by split_and!.
    + rewrite E4, E5, E6 in *. unfold zsum in *. cbn [freshSub Si_RxDatagrams Si_RxBytes foldr app length tiles op_datagrams op_bytes snd] in *.
      rewrite u32_add_l in C3. unfold is_u32, is_u64 in Hd, Hby. split_and!; [lia|lia| |done|done]. rewrite C3. f_equal. lia.
  - destruct (IH _ (resetTrial_wf a Hwf)) as (a2 & rolls & R1 & R2 & C). rewrite !go_bind_Ret, R1, R2, go_bind_Ret. by exists a2, rolls.
Qed.

(** C12: nothing falls between the sub-intervals: over any interleaving of
    load datagrams, rolls and trial resets, the datagrams and the bytes of the
    sub-intervals saved so far and of the active one are together exactly
    those received (up to the widths of the counters); the sub-intervals are
    numbered by the rolls, and each one measures the time since the roll
    before it, so they tile the test. *)
Theorem subintervals_conserve start ops :
  Forall rxOp_ok ops ->
  exists a rolls, rx_rolls (newRxAccounting start) ops = Ret (a, rolls) /\ rx_run (newRxAccounting start) ops = Ret a /\
    (zsum op_datagrams ops < 2 ^ 32 ->
     zsum (fun r => Si_RxDatagrams r.2) rolls + Si_RxDatagrams (rx_sub (rx_b a)) = zsum op_datagrams ops) /\
    (zsum op_bytes ops < 2 ^ 64 ->
     zsum (fun r => Si_RxBytes r.2) rolls + Si_RxBytes (rx_sub (rx_b a)) = zsum op_bytes ops) /\
    rx_subIntSeq (rx_b a) = u32 (Z.of_nat (length rolls)) /\ tiles start rolls.
Proof. exact (rx_rolls_conserve (newRxAccounting start) ops (newRxAccounting_wf start)). Qed.

Lemma subintervals_conserve_witness :
  exists a rolls,
    rx_rolls (newRxAccounting zeroTime)
      [OpLoad zeroTime load_example; OpRoll (time_Add zeroTime 1000000000) 1000000000 50000000; OpReset;
       OpLoad zeroTime load_example] = Ret (a, rolls) /\
    length rolls = 1%nat /\
    zsum (fun r => Si_RxDatagrams r.2) rolls + Si_RxDatagrams (rx_sub (rx_b a)) = 2.
Proof.
  destruct (subintervals_conserve zeroTime
              [OpLoad zeroTime load_example; OpRoll (time_Add zeroTime 1000000000) 1000000000 50000000; OpReset;
               OpLoad zeroTime load_example]) as (a & rolls & H & _ & Hd & _).
  - repeat constructor; discriminate.
  - exists a, rolls. split_and!; [exact H|vm_compute in H; injection H as <- <-; reflexivity|].
    apply Hd. reflexivity.
Defined.

(** On a datagram that advances the stream, the clock offset estimate
    becomes the minimum of the send-to-receive differences so far, the delay
    variation is the excess over it, and it is folded into the minimum, the
    maximum, the sum and the count of the trial. *)
Theorem recordDelay_running_min a t hdr :
  rx_tDvMin (rx_t a) = statusNoDelay \/ rx_tDvMin (rx_t a) <= rx_tDvMax (rx_t a) ->
  let a' := recordDelay a t hdr in
  let delta := wallDiffMs t (Lo_TimeSec hdr) (Lo_TimeNsec hdr) in
  let m := if rx_haveClockDelta (rx_d a) then Z.min (rx_clockDeltaMin (rx_d a)) delta else delta in
  let dv := delta - m in
  rx_clockDeltaMin (rx_d a') = m /\ rx_haveClockDelta (rx_d a') = true /\ 0 <= dv /\
  (dv < 2 ^ 32 - 1 ->
   rx_tDvMin (rx_t a') <= dv <= rx_tDvMax (rx_t a') /\
   rx_tDvSum (rx_t a') = u32 (rx_tDvSum (rx_t a) + dv) /\
   rx_tDvCnt (rx_t a') = u32 (rx_tDvCnt (rx_t a) + 1)).
Proof.
  intros Hmin. cbv zeta. unfold recordDelay. cbv zeta.
  set (delta := wallDiffMs t _ _).
  destruct (rx_haveClockDelta (rx_d a)) eqn:Hh; cbn [negb orb].
  - destruct (Z.ltb_spec delta (rx_clockDeltaMin (rx_d a))) as [Hlt|Hge];
    cbn [rx_d rx_t rx_clockDeltaMin rx_haveClockDelta rx_tDvMin rx_tDvMax rx_tDvSum rx_tDvCnt].
    + rewrite Z.min_r, Z.sub_diag by lia. split_and!; [done|done|lia|]. intros _.
      rewrite (u32_id 0) by width_lia. unfold min_or_none, max_of. split_and!; try done; split_ifs; lia.
    + rewrite Z.min_l by lia. split_and!; [done|done|lia|]. intros Hdv.
      rewrite (u32_id (delta - _)) by width_lia. unfold min_or_none, max_of. split_and!; try done; split_ifs; lia.
  - cbn. rewrite Z.sub_diag. split_and!; [done|done|lia|]. intros _.
    rewrite (u32_id 0) by width_lia. unfold min_or_none, max_of. split_and!; try done; split_ifs; lia.
Qed.

Lemma recordDelay_running_min_witness :
  rx_clockDeltaMin (rx_d (recordDelay (newRxAccounting zeroTime) (time_Unix 1712345679 0) load_example)) = 1000.
Proof.
  assert (H := recordDelay_running_min (newRxAccounting zeroTime) (time_Unix 1712345679 0) load_example
                 (or_introl eq_refl)).
  exact (proj1 H).
Defined.
