(* ===== verification/Sha256.v ===== *)
(** * SHA-256 and HMAC-SHA-256 (crypto/sha256 and crypto/hmac)

    The standard library functions that auth.go calls, from FIPS 180-4 and
    RFC 2104: executable on byte lists, with the published test vectors as
    examples. *)

From S2P Require Import Prelude.

Definition rotr (n x : Z) : Z := Z.lor (Z.shiftr x n) (u32 (Z.shiftl x (32 - n))).
Definition Ch (x y z : Z) : Z := Z.lxor (Z.land x y) (Z.land (Z.lxor x (2 ^ 32 - 1)) z).
Definition Maj (x y z : Z) : Z := Z.lxor (Z.lxor (Z.land x y) (Z.land x z)) (Z.land y z).
Definition Sigma0 (x : Z) : Z := Z.lxor (Z.lxor (rotr 2 x) (rotr 13 x)) (rotr 22 x).
Definition Sigma1 (x : Z) : Z := Z.lxor (Z.lxor (rotr 6 x) (rotr 11 x)) (rotr 25 x).
Definition sigma0 (x : Z) : Z := Z.lxor (Z.lxor (rotr 7 x) (rotr 18 x)) (Z.shiftr x 3).
Definition sigma1 (x : Z) : Z := Z.lxor (Z.lxor (rotr 17 x) (rotr 19 x)) (Z.shiftr x 10).

(** The constants of FIPS 180-4 by their definition: the first 32 bits of the
    fractional parts of the cube and square roots of the first primes. *)
Fixpoint icbrt_bits (bits : nat) (n root : Z) : Z :=
  match bits with
  | O => root
  | S k =>
      let c := root + 2 ^ Z.of_nat k in
      icbrt_bits k n (if c * c * c <=? n then c else root)
  end.

Definition is_prime (n : Z) : bool :=
  forallb (fun d => negb (n mod d =? 0)) (seqZ 2 (Z.sqrt n - 1)).

(** The 64 primes up to 311. *)
Definition sha_primes : list Z := Eval vm_compute in filter (fun n => is_prime n = true) (seqZ 2 310).

(** The cube root of [311 * 2 ^ 96] is below [2 ^ 35]. *)
Definition sha_K : list Z :=
  Eval vm_compute in map (fun p => u32 (icbrt_bits 36 (p * 2 ^ 96) 0)) sha_primes.

Definition sha_H0 : list Z :=
  Eval vm_compute in map (fun p => u32 (Z.sqrt (p * 2 ^ 64))) (take 8 sha_primes).

(** The message schedule, newest word first: each round needs the words 2, 7,
    15 and 16 back. *)
Fixpoint schedule (n : nat) (w : list Z) : list Z :=
  match n with
  | O => w
  | S n =>
      let at_ k := nth k w 0 in
      schedule n (u32 (sigma1 (at_ 1%nat) + at_ 6%nat + sigma0 (at_ 14%nat) + at_ 15%nat) :: w)
  end.

Definition round (st : list Z) (kw : Z * Z) : list Z :=
  match st with
  | [a; b; c; d; e; f; g; h] =>
      let t1 := u32 (h + Sigma1 e + Ch e f g + kw.1 + kw.2) in
      let t2 := u32 (Sigma0 a + Maj a b c) in
      [u32 (t1 + t2); a; b; c; u32 (d + t1); e; f; g]
  | _ => st
  end.

Fixpoint words (n : nat) (b : list Z) : list Z :=
  match n with
  | O => []
  | S n => be_decode (take 4 b) :: words n (drop 4 b)
  end.

Definition compress (h : list Z) (block : list Z) : list Z :=
  let w := rev (schedule 48 (rev (words 16 block))) in
  zip_with (fun x y => u32 (x + y)) h (fold_left round (combine sha_K w) h).

Fixpoint compress_blocks (n : nat) (h b : list Z) : list Z :=
  match n with
  | O => h
  | S n => compress_blocks n (compress h (take 64 b)) (drop 64 b)
  end.

(** 0x80, zeros up to 56 modulo 64, and the bit length on 8 bytes. *)
Definition sha_pad (m : list Z) : list Z :=
  let n := Z.of_nat (length m) in
  m ++ [128] ++ make_bytes (Z.to_nat ((55 - n) mod 64)) ++ be_encode 8 (8 * n).

Definition sha256 (m : list Z) : list Z :=
  let p := sha_pad m in
  concat (map (be_encode 4) (compress_blocks (Nat.div (length p) 64) sha_H0 p)).

Definition hmac_key (k : list Z) : list Z :=
  let k := if (64 <? length k)%nat then sha256 k else k in
  k ++ make_bytes (64 - length k).

Definition hmac_sha256 (k m : list Z) : list Z :=
  let kb := hmac_key k in
  let ipad := map (fun x => Z.lxor x 54) kb in
  let opad := map (fun x => Z.lxor x 92) kb in
  sha256 (opad ++ sha256 (ipad ++ m)).

(** ** Vectors *)
Definition hex_digest (z : Z) : list Z := be_encode 32 z.

Example sha256_empty :
  sha256 [] = hex_digest 0xe3b0c44298fc1c149afbf4c8996fb92427ae41e4649b934ca495991b7852b855.
Proof. vm_compute. reflexivity. Qed.

Example sha256_abc :
  sha256 [97; 98; 99] = hex_digest 0xba7816bf8f01cfea414140de5dae2223b00361a396177a9cb410ff61f20015ad.
Proof. vm_compute. reflexivity. Qed.

(** RFC 4231, test case 2. *)
Example hmac_jefe :
  hmac_sha256 [74; 101; 102; 101]
    [119; 104; 97; 116; 32; 100; 111; 32; 121; 97; 32; 119; 97; 110; 116; 32;
     102; 111; 114; 32; 110; 111; 116; 104; 105; 110; 103; 63]
  = hex_digest 0x5bdcc146bf60754e6a042426089575c75a003f089d2739839dec58b964ec3843.
Proof. vm_compute. reflexivity. Qed.

(** ** The digest is 32 bytes, whatever the input *)
Lemma round_length st kw : length (round st kw) = length st.
Proof. unfold round. repeat case_match; reflexivity. Qed.

Lemma rounds_length kws st : length (fold_left round kws st) = length st.
Proof. revert st. induction kws as [|kw kws IH]; intros st; cbn; [done|]. by rewrite IH, round_length. Qed.

Lemma compress_length h b : length (compress h b) = length h.
Proof. unfold compress. rewrite length_zip_with, rounds_length. lia. Qed.

Lemma compress_blocks_length n h b : length (compress_blocks n h b) = length h.
Proof. revert h b. induction n as [|n IH]; intros h b; cbn; [done|]. by rewrite IH, compress_length. Qed.

Lemma concat_be_length l : length (concat (map (be_encode 4) l)) = (4 * length l)%nat.
Proof. induction l as [|x l IH]; cbn [map concat length]; [done|]. rewrite length_app, IH, be_encode_length. lia. Qed.

Lemma sha256_length m : length (sha256 m) = 32%nat.
Proof. unfold sha256. by rewrite concat_be_length, compress_blocks_length. Qed.

Lemma concat_ok (l : list (list Z)) : Forall bytes_ok l -> bytes_ok (concat l).
Proof. induction 1; cbn; [constructor|]. by apply Forall_app. Qed.

Lemma sha256_ok m : bytes_ok (sha256 m).
Proof. apply concat_ok, Forall_map, Forall_forall. intros. apply be_encode_ok. Qed.

Lemma hmac_sha256_length k m : length (hmac_sha256 k m) = 32%nat.
Proof. apply sha256_length. Qed.

Lemma hmac_sha256_ok k m : bytes_ok (hmac_sha256 k m).
Proof. apply sha256_ok. Qed.
