(* ===== verification/Auth.v ===== *)
(** * Control PDU authentication (internal/udpst/auth.go)

    Key derivation, digest computation, verification and signing, over an
    interface [MAC] that states what the code needs of a keyed digest;
    HMAC-SHA-256 is its instance.  The masking loop indexes the PDU copy, so a
    PDU shorter than the digest field panics: the computations are in [go]. *)

From stdpp Require Import strings.
From S2P Require Import Prelude GoText GoFloat Srates Protocol Sha256.

Definition authTimeWindow : Z := 5.
Definition authModeNone : Z := 0.
Definition authModeControl : Z := 1.

(** ** The interface of the keyed digest *)
Class MAC := {
  mac_sum : list Z -> list Z -> list Z;
  mac_length : forall k m, length (mac_sum k m) = 32%nat;
  mac_ok : forall k m, bytes_ok (mac_sum k m)
}.

#[export] Instance HMAC_SHA256 : MAC := {
  mac_sum := hmac_sha256;
  mac_length := hmac_sha256_length;
  mac_ok := hmac_sha256_ok
}.

Record sessionKeys := mkKeys {
  key_client : list Z;
  key_server : list Z
}.

(** "UDPSTP" *)
Definition kdf_label : list Z := [85; 68; 80; 83; 84; 80].
Definition kdf_outBytes : nat := 64.

Section Auth.
Context `{M : MAC}.

(** One block of the counter-mode KDF: counter, label, separator, context,
    output length in bits. *)
Definition kdf_block (sharedKey context : list Z) (counter : Z) : list Z :=
  mac_sum sharedKey
    (be_encode 4 counter ++ kdf_label ++ [0] ++ context ++ be_encode 4 (Z.of_nat kdf_outBytes * 8)).

(** for len(out) < outBytes { ...; counter++ } *)
Fixpoint kdf_loop (fuel : nat) (sharedKey context : list Z) (counter : Z) (out : list Z) : list Z :=
  match fuel with
  | O => out
  | S fuel =>
      if (length out <? kdf_outBytes)%nat
      then kdf_loop fuel sharedKey context (u32 (counter + 1)) (out ++ kdf_block sharedKey context counter)
      else out
  end.

Definition deriveSessionKeys (sharedKey : list Z) (authUnixTime : Z) : sessionKeys :=
  let out := kdf_loop kdf_outBytes sharedKey (FormatUint10 authUnixTime) 1 [] in
  mkKeys (take 32 out) (take 32 (drop 32 out)).

(** for i := digestOff; i < digestOff+32; i++ { masked[i] = 0 } *)
Fixpoint zero_range (b : list Z) (i n : nat) : go (list Z) :=
  match n with
  | O => Ret b
  | S n => b ← set_idx b i 0; zero_range b (S i) n
  end.

Definition computeDigest (key pdu : list Z) (digestOff : nat) : go (list Z) :=
  masked ← zero_range pdu digestOff 32;
  Ret (mac_sum key masked).

Definition verifyDigest (key pdu : list Z) (digestOff : nat) (received : list Z) : go bool :=
  want ← computeDigest key pdu digestOff;
  Ret (bool_decide (want = received)).

Definition signPDU (key pdu : list Z) (digestOff : nat) : go (list Z) :=
  d ← computeDigest key pdu digestOff;
  put_bytes pdu digestOff d.

(** ** Lemmas *)

(** The PDU with its digest field cleared. *)
Definition mask (pdu : list Z) (off : nat) : list Z := splice pdu off (make_bytes 32).

Lemma set_zero_splice b i n : (i + S n <= length b)%nat ->
  splice (<[i:=0]> b) (S i) (make_bytes n) = splice b i (make_bytes (S n)).
Proof.
  intros H. unfold splice. rewrite !make_bytes_length.
  rewrite drop_insert_lt by lia. replace (S i + n)%nat with (i + S n)%nat by lia.
  rewrite (take_S_r _ i 0) by (apply list_lookup_insert_eq; lia).
  rewrite take_insert_ge by lia. by rewrite <- app_assoc.
Qed.

Lemma zero_range_Ret b i n : (i + n <= length b)%nat -> zero_range b i n = Ret (splice b i (make_bytes n)).
Proof.
  revert b i. induction n as [|n IH]; intros b i H; cbn [zero_range].
  - unfold splice. cbn. by rewrite Nat.add_0_r, take_drop.
  - unfold set_idx. rewrite (proj2 (Nat.ltb_lt _ _)) by lia. rewrite go_bind_Ret.
    rewrite IH by (rewrite length_insert; lia). by rewrite set_zero_splice.
Qed.

Lemma zero_range_Panic b i n : (length b < i + n)%nat -> (0 < n)%nat -> zero_range b i n = Panic.
Proof.
  revert b i. induction n as [|n IH]; intros b i H Hn; [lia|]. cbn [zero_range]. unfold set_idx.
  destruct (i <? length b)%nat eqn:E; [|done]. b2p. rewrite go_bind_Ret.
  apply IH; rewrite ?length_insert; lia.
Qed.

Lemma computeDigest_Ret k pdu off : (off + 32 <= length pdu)%nat -> computeDigest k pdu off = Ret (mac_sum k (mask pdu off)).
Proof. intros H. unfold computeDigest. by rewrite zero_range_Ret. Qed.

Lemma computeDigest_Panic k pdu off : (length pdu < off + 32)%nat -> computeDigest k pdu off = Panic.
Proof. intros H. unfold computeDigest. by rewrite zero_range_Panic by lia. Qed.

Lemma mask_splice pdu off d : (off + 32 <= length pdu)%nat -> length d = 32%nat -> mask (splice pdu off d) off = mask pdu off.
Proof.
  intros H Hd. unfold mask, splice. rewrite !make_bytes_length, Hd.
  rewrite take_app_length' by (rewrite length_take; lia).
  f_equal. f_equal. rewrite drop_app_ge by (rewrite length_take; lia).
  rewrite drop_app_ge by (rewrite length_take; lia). rewrite drop_drop, length_take. f_equal. lia.
Qed.

Lemma slice_splice pdu off d : (off + length d <= length pdu)%nat -> slice (splice pdu off d) off (off + length d) = Ret d.
Proof.
  intros H. rewrite slice_Ret by (rewrite ?splice_length; lia). unfold splice. f_equal.
  rewrite drop_app_length' by (rewrite length_take; lia). rewrite take_app_length' by lia. done.
Qed.

Lemma signPDU_Ret k pdu off : (off + 32 <= length pdu)%nat ->
  signPDU k pdu off = Ret (splice pdu off (mac_sum k (mask pdu off))).
Proof.
  intros H. unfold signPDU. rewrite computeDigest_Ret, go_bind_Ret by done.
  apply put_bytes_Ret. by rewrite mac_length.
Qed.

Lemma verifyDigest_Ret k pdu off d : (off + 32 <= length pdu)%nat ->
  verifyDigest k pdu off d = Ret (bool_decide (mac_sum k (mask pdu off) = d)).
Proof. intros H. unfold verifyDigest. by rewrite computeDigest_Ret. Qed.

Lemma kdf_block_length key ctx c : length (kdf_block key ctx c) = 32%nat.
Proof. apply mac_length. Qed.

Lemma kdf_loop_more fuel key ctx c out : (length out < kdf_outBytes)%nat ->
  kdf_loop (S fuel) key ctx c out = kdf_loop fuel key ctx (u32 (c + 1)) (out ++ kdf_block key ctx c).
Proof. intros H. cbn [kdf_loop]. by rewrite (proj2 (Nat.ltb_lt _ _) H). Qed.

Lemma kdf_loop_done fuel key ctx c out : (kdf_outBytes <= length out)%nat -> kdf_loop fuel key ctx c out = out.
Proof. intros H. destruct fuel; [done|]. cbn [kdf_loop]. by rewrite (proj2 (Nat.ltb_ge _ _) H). Qed.

Lemma kdf_loop_out key ctx : kdf_loop kdf_outBytes key ctx 1 [] = kdf_block key ctx 1 ++ kdf_block key ctx 2.
Proof.
  unfold kdf_outBytes at 1. rewrite kdf_loop_more by (unfold kdf_outBytes; cbn [length]; lia).
  rewrite kdf_loop_more by (cbn [app]; rewrite kdf_block_length; unfold kdf_outBytes; lia).
  rewrite kdf_loop_done; [done|]. cbn [app]. rewrite length_app, !kdf_block_length. unfold kdf_outBytes. lia.
Qed.

Lemma deriveSessionKeys_blocks key time :
  deriveSessionKeys key time =
    mkKeys (kdf_block key (FormatUint10 time) 1) (kdf_block key (FormatUint10 time) 2).
Proof.
  unfold deriveSessionKeys. rewrite kdf_loop_out.
  rewrite take_app_length', drop_app_length' by by rewrite kdf_block_length.
  by rewrite take_ge by by rewrite kdf_block_length.
Qed.

(** ** The key derivation of NIST SP 800-108, in counter mode

    Written from the standard, apart from the code: for a pseudorandom
    function of [h] bits, n = ceil(L / h) blocks
    K(i) = PRF(K_I, [i]_32 || Label || 0x00 || Context || [L]_32), i = 1 .. n,
    and the leftmost L bits of their concatenation. *)
Definition octets4 (x : Z) : list Z := [x / 256 ^ 3 mod 256; x / 256 ^ 2 mod 256; x / 256 mod 256; x mod 256].

Definition KDF_CTR (prf : list Z -> list Z -> list Z) (h : Z) (KI Label Context : list Z) (L : Z) : list Z :=
  take (Z.to_nat (L / 8))
    (concat (map (fun i => prf KI (octets4 i ++ Label ++ [0] ++ Context ++ octets4 L)) (seqZ 1 ((L + h - 1) / h)))).

Lemma be_encode_octets x : be_encode 4 x = octets4 x.
Proof. rewrite !be_encode_S. unfold octets4. change (256 ^ Z.of_nat 0) with 1. by rewrite Z.div_1_r. Qed.

Lemma kdf_block_standard key ctx c :
  kdf_block key ctx c = mac_sum key (octets4 c ++ str "UDPSTP" ++ [0] ++ ctx ++ octets4 512).
Proof. unfold kdf_block. by rewrite !be_encode_octets. Qed.

(** ** Theorems *)

(** Signing a PDU that holds its digest field and verifying the result
    against the digest it carries succeeds under the same key; the bytes
    outside the field are untouched, and verification fails for any other
    digest. *)
Theorem sign_then_verify k pdu off :
  (off + 32 <= length pdu)%nat ->
  exists pdu' d, signPDU k pdu off = Ret pdu' /\ length pdu' = length pdu /\
    take off pdu' = take off pdu /\ drop (off + 32) pdu' = drop (off + 32) pdu /\
    slice pdu' off (off + 32) = Ret d /\
    forall d', verifyDigest k pdu' off d' = Ret (bool_decide (d = d')).
Proof.
  intros H. rewrite signPDU_Ret by done. set (d := mac_sum k (mask pdu off)).
  assert (Hd : length d = 32%nat) by apply mac_length.
  exists (splice pdu off d), d. split_and!.
  - done.
  - apply splice_length. lia.
  - unfold splice. rewrite take_app_length'; [done|]. rewrite length_take. lia.
  - unfold splice. rewrite Hd, app_assoc, drop_app_length'; [done|]. rewrite length_app, length_take. lia.
  - rewrite <- Hd at 1. apply slice_splice. lia.
  - intros d'. rewrite verifyDigest_Ret by (rewrite splice_length; lia). by rewrite mask_splice.
Qed.

(** C24: the two directional keys are the 512 bits that the counter-mode KDF
    of SP 800-108 derives from the shared secret, with the keyed digest as its
    256-bit pseudorandom function, the label UDPSTP and the decimal text of the
    time as the context: the client's key is the first half and the server's
    the second. *)
Theorem deriveSessionKeys_spec key time :
  is_u32 time ->
  exists ctx, is_decimal ctx time /\
    key_client (deriveSessionKeys key time) ++ key_server (deriveSessionKeys key time)
      = KDF_CTR mac_sum 256 key (str "UDPSTP") ctx 512 /\
    length (key_client (deriveSessionKeys key time)) = 32%nat /\
    length (key_server (deriveSessionKeys key time)) = 32%nat.
Proof.
  intros Ht. exists (FormatUint10 time). rewrite deriveSessionKeys_blocks. cbn [key_client key_server].
  split_and!; [apply FormatUint10_decimal; width_lia| |apply kdf_block_length..].
  rewrite !kdf_block_standard. unfold KDF_CTR. change (seqZ 1 ((512 + 256 - 1) / 256)) with [1; 2]. cbn [map concat].
  rewrite app_nil_r, take_ge; [done|]. rewrite length_app, !mac_length. done.
Qed.

(** Digest computation panics exactly on a PDU that ends before its
    digest field does, for the reading and for the signing side. *)
Theorem digest_panics_iff_short k pdu off d :
  (returns (verifyDigest k pdu off d) <-> (off + 32 <= length pdu)%nat) /\
  (returns (signPDU k pdu off) <-> (off + 32 <= length pdu)%nat).
Proof.
  destruct (Nat.le_gt_cases (off + 32) (length pdu)) as [H|H].
  - rewrite verifyDigest_Ret, signPDU_Ret by done. split; split; auto using returns_Ret.
  - unfold verifyDigest, signPDU. rewrite computeDigest_Panic by done. cbn.
    split; (split; [intros [? ?]; discriminate|lia]).
Qed.
End Auth.

Lemma sign_then_verify_witness :
  exists pdu' d, signPDU [115; 101; 99] (make_bytes 56) setupAuthDigestOff = Ret pdu' /\
    slice pdu' 20 52 = Ret d /\ verifyDigest [115; 101; 99] pdu' setupAuthDigestOff d = Ret true.
Proof.
  destruct (sign_then_verify (M := HMAC_SHA256) [115; 101; 99] (make_bytes 56) setupAuthDigestOff)
    as (pdu' & d & H1 & _ & _ & _ & H2 & H3); [vm_compute; lia|].
  exists pdu', d. split; [exact H1|]. split; [exact H2|]. rewrite H3. by rewrite bool_decide_true.
Defined.

Lemma deriveSessionKeys_spec_witness :
  exists ctx, is_decimal ctx 1712345678 /\
    key_client (deriveSessionKeys (str "testkey123") 1712345678) ++ key_server (deriveSessionKeys (str "testkey123") 1712345678)
      = KDF_CTR hmac_sha256 256 (str "testkey123") (str "UDPSTP") ctx 512.
Proof.
  destruct (deriveSessionKeys_spec (M := HMAC_SHA256) (str "testkey123") 1712345678) as (ctx & Hc & Hk & _);
    [split; [discriminate|reflexivity]|].
  exists ctx. split; [exact Hc|exact Hk].
Defined.

(** The reference vector of the key derivation (OpenSSL KBKDF): the secret
    "testkey123" and the time 1712345678. *)
Example deriveSessionKeys_vector :
  let k := deriveSessionKeys [116; 101; 115; 116; 107; 101; 121; 49; 50; 51] 1712345678 in
  key_client k = hex_digest 0x419bcd26c920c07768bfead96cf2acda1302c304b9b4e61d961204d88a3371eb /\
  key_server k = hex_digest 0x6b14945df66f9ab6d65062281342d538aa98557a27bf631832a1b681dd9531e7.
Proof. vm_compute. split; reflexivity. Qed.
