(* ===== verification/GoNet.v ===== *)
(** * Network addresses (package net/netip)

    The addresses the access checks compare: IPv4 and IPv6 values, the
    IPv4-mapped form, CIDR prefixes, and their parsing from text (the flag
    of the allow list, the remote address of an HTTP request). *)

From S2P Require Import Prelude GoText.

Inductive Addr : Type :=
| Addr4 (a : Z)
| Addr6 (a : Z) (zone : list Z).

#[global] Instance Addr_eq_dec : EqDecision Addr.
Proof. solve_decision. Defined.

Record AddrPort := mkAddrPort {
  ap_Addr : Addr;
  ap_Port : Z
}.

#[global] Instance AddrPort_eq_dec : EqDecision AddrPort.
Proof. solve_decision. Defined.

(** ::ffff:0:0/96, the IPv4-mapped block. *)
Definition Is4In6 (a : Z) : bool := Z.shiftr a 32 =? 0xffff.

Definition Unmap (a : Addr) : Addr :=
  match a with
  | Addr4 _ => a
  | Addr6 v _ => if Is4In6 v then Addr4 (Z.land v (2 ^ 32 - 1)) else a
  end.

Definition Is4 (a : Addr) : bool := match a with Addr4 _ => true | Addr6 _ _ => false end.

(** ** Prefixes *)
Record Prefix := mkPrefix {
  pf_Addr : Addr;
  pf_Bits : Z
}.

(** p.Masked(): the host bits cleared, the zone dropped. *)
Definition Masked (p : Prefix) : Prefix :=
  match pf_Addr p with
  | Addr4 a => mkPrefix (Addr4 (Z.shiftl (Z.shiftr a (32 - pf_Bits p)) (32 - pf_Bits p))) (pf_Bits p)
  | Addr6 a _ => mkPrefix (Addr6 (Z.shiftl (Z.shiftr a (128 - pf_Bits p)) (128 - pf_Bits p)) []) (pf_Bits p)
  end.

(** p.Contains(a): same family, no zone on the address, equal network bits. *)
Definition Contains (p : Prefix) (a : Addr) : bool :=
  match pf_Addr p, a with
  | Addr4 n, Addr4 v => Z.shiftr n (32 - pf_Bits p) =? Z.shiftr v (32 - pf_Bits p)
  | Addr6 n _, Addr6 v zone =>
      bool_decide (zone = []) && (Z.shiftr n (128 - pf_Bits p) =? Z.shiftr v (128 - pf_Bits p))
  | _, _ => false
  end.

(** The values of an address and the lengths of a prefix. *)
Definition addr_ok (a : Addr) : Prop :=
  match a with Addr4 v => 0 <= v < 2 ^ 32 | Addr6 v _ => 0 <= v < 2 ^ 128 end.

Definition prefix_ok (p : Prefix) : Prop := 0 <= pf_Bits p <= (if Is4 (pf_Addr p) then 32 else 128).

(** ** Parsing

    parseIPv4Fields: four decimal octets without leading zeros; [prev] is the
    character before, [None] at the start. *)
Fixpoint ipv4_fields (s : list Z) (prev : option Z) (val digLen : Z) (fields : list Z) : option (list Z) :=
  match s with
  | [] => if (length fields <? 3)%nat then None else Some (fields ++ [val])
  | c :: s =>
      if is_digit c then
        if (digLen =? 1) && (val =? 0) then None
        else
          let val := val * 10 + (c - 48) in
          if 255 <? val then None else ipv4_fields s (Some c) val (digLen + 1) fields
      else if c =? 46 then
        if match prev with None => true | Some p => p =? 46 end || match s with [] => true | _ => false end then None
        else if (length fields =? 3)%nat then None
        else ipv4_fields s (Some c) 0 0 (fields ++ [val])
      else None
  end.

Definition parseIPv4Fields (s : list Z) : option (list Z) := ipv4_fields s None 0 0 [].

Definition hex_value (c : Z) : option Z :=
  if is_digit c then Some (c - 48)
  else if (97 <=? c) && (c <=? 102) then Some (c - 87)
  else if (65 <=? c) && (c <=? 70) then Some (c - 55)
  else None.

(** One group of parseIPv6: the digits read, their value and the rest. *)
Fixpoint hex_group (s : list Z) (off acc : Z) : option (Z * Z * list Z) :=
  match s with
  | [] => Some (off, acc, [])
  | c :: s' =>
      match hex_value c with
      | None => Some (off, acc, s)
      | Some d =>
          let acc := acc * 16 + d in
          if 3 <? off then None else if 65535 <? acc then None else hex_group s' (off + 1) acc
      end
  end.

(** The text starts with [c]. *)
Definition starts (c : Z) (s : list Z) : bool := match s with x :: _ => x =? c | [] => false end.

(** The loop of parseIPv6: at most eight groups fill the sixteen bytes.  The
    result is what is left of the text, the bytes and the place of "::". *)
Fixpoint ipv6_loop (n : nat) (s ip : list Z) (ellipsis : option nat) : option (list Z * list Z * option nat) :=
  match n with
  | O => Some (s, ip, ellipsis)
  | S n =>
      match hex_group s 0 0 with
      | None => None
      | Some (off, acc, rest) =>
          if off =? 0 then None
          else
            if starts 46 rest then
              if match ellipsis with None => negb (length ip =? 12)%nat | Some _ => false end then None
              else if (16 <? length ip + 4)%nat then None
              else match parseIPv4Fields s with Some f => Some ([], ip ++ f, ellipsis) | None => None end
            else
              let ip := ip ++ [acc / 256; acc mod 256] in
              match rest with
              | [] => Some ([], ip, ellipsis)
              | [_] => None
              | c :: s =>
                  if negb (c =? 58) then None
                  else if starts 58 s then
                    match ellipsis, tail s with
                    | Some _, _ => None
                    | None, [] => Some ([], ip, Some (length ip))
                    | None, s => ipv6_loop n s ip (Some (length ip))
                    end
                  else ipv6_loop n s ip ellipsis
              end
      end
  end.

(** The text before the first [c], and after it. *)
Fixpoint cut_byte (c : Z) (s : list Z) : list Z * option (list Z) :=
  match s with
  | [] => ([], None)
  | x :: s => if x =? c then ([], Some s) else let '(a, b) := cut_byte c s in (x :: a, b)
  end.

(** The expansion of "::" at byte [e]. *)
Definition expand_ellipsis (ip : list Z) (e : nat) : list Z :=
  take e ip ++ replicate (16 - length ip) 0 ++ drop e ip.

Definition parseIPv6 (s : list Z) : option Addr :=
  let '(s, z) := cut_byte 37 s in
  match z with
  | Some [] => None
  | _ =>
      let zone := default [] z in
      let '(ellipsis, s) := if starts 58 s && starts 58 (tail s) then (Some 0%nat, tail (tail s)) else (None, s) in
      match ellipsis, s with
      | Some _, [] => Some (Addr6 0 zone)
      | _, _ =>
          match ipv6_loop 8 s [] ellipsis with
          | Some ([], ip, ellipsis) =>
              if (length ip <? 16)%nat then
                match ellipsis with Some e => Some (Addr6 (be_decode (expand_ellipsis ip e)) zone) | None => None end
              else match ellipsis with Some _ => None | None => Some (Addr6 (be_decode ip) zone) end
          | _ => None
          end
      end
  end.

(** ParseAddr: the first of '.', ':' and '%' decides. *)
Fixpoint addr_family (s : list Z) : option bool :=
  match s with
  | [] => None
  | c :: s => if c =? 46 then Some true else if c =? 58 then Some false else if c =? 37 then None else addr_family s
  end.

Definition ParseAddr (s : list Z) : option Addr :=
  match addr_family s with
  | Some true => match parseIPv4Fields s with Some f => Some (Addr4 (be_decode f)) | None => None end
  | Some false => parseIPv6 s
  | None => None
  end.

(** The text before and after the last [c]. *)
Definition cut_last (c : Z) (s : list Z) : option (list Z * list Z) :=
  match cut_byte c (rev s) with
  | (b, Some a) => Some (rev a, rev b)
  | (_, None) => None
  end.

Definition ParsePrefix (s : list Z) : option Prefix :=
  match cut_last 47 s with
  | None => None
  | Some (a, bits) =>
      match ParseAddr a with
      | None => None
      | Some ip =>
          if match ip with Addr6 _ (_ :: _) => true | _ => false end then None
          else if (1 <? length bits)%nat && match bits with c :: _ => (c <? 49) || (57 <? c) | [] => false end then None
          else
            match ParseInt bits with
            | None => None
            | Some n => if (n <? 0) || ((if Is4 ip then 32 else 128) <? n) then None else Some (mkPrefix ip n)
            end
      end
  end.

(** splitAddrPort: address, port and whether there were brackets. *)
Definition splitAddrPort (s : list Z) : option (list Z * list Z * bool) :=
  match cut_last 58 s with
  | None => None
  | Some (ip, port) =>
      match ip, port with
      | [], _ | _, [] => None
      | _, _ =>
          if starts 91 ip then
            if (length ip <? 2)%nat || negb (starts 93 (rev ip)) then None
            else Some (removelast (tail ip), port, true)
          else Some (ip, port, false)
      end
  end.

Definition ParseAddrPort (s : list Z) : option AddrPort :=
  match splitAddrPort s with
  | None => None
  | Some (ip, port, v6) =>
      match ParseUint port 65535 with
      | None => None
      | Some p =>
          match ParseAddr ip with
          | None => None
          | Some a => if Bool.eqb v6 (Is4 a) then None else Some (mkAddrPort a p)
          end
      end
  end.

(** ** Lemmas *)
Lemma Unmap_idemp a : Unmap (Unmap a) = Unmap a.
Proof. destruct a as [|v z]; [done|]. cbn. destruct (Is4In6 v) eqn:E; cbn; [done|]. by rewrite E. Qed.

(** *** What is parsed is in range *)
Lemma ipv4_fields_ok s : forall prev val dl fields f,
  ipv4_fields s prev val dl fields = Some f -> 0 <= val < 256 -> (length fields <= 3)%nat -> bytes_ok fields ->
  length f = 4%nat /\ bytes_ok f.
Proof.
  induction s as [|c s IH]; intros prev val dl fields f; cbn [ipv4_fields].
  - destruct (length fields <? 3)%nat eqn:E; [done|]. intros [= <-] Hv Hl Hf. apply Nat.ltb_ge in E.
    rewrite length_app. cbn. split; [lia|]. apply Forall_app. split; [done|]. by apply Forall_singleton.
  - destruct (is_digit c) eqn:Ed.
    + destruct (_ && _); [done|]. cbv zeta. destruct (255 <? _) eqn:E; [done|]. intros H Hv Hl Hf.
      apply (IH _ _ _ _ _ H); [|done|done]. unfold is_digit in Ed. b2p. lia.
    + destruct (c =? 46); [|done]. destruct (_ || _); [done|].
      destruct (length fields =? 3)%nat eqn:E; [done|]. intros H Hv Hl Hf. apply Nat.eqb_neq in E.
      apply (IH _ _ _ _ _ H); [lia|rewrite length_app; cbn; lia|]. apply Forall_app. split; [done|]. by apply Forall_singleton.
Qed.

Lemma hex_value_range c d : hex_value c = Some d -> 0 <= d < 16.
Proof. unfold hex_value, is_digit. intros H. repeat case_match; simplify_eq; b2p; lia. Qed.

Lemma hex_group_range s : forall off acc off' acc' rest, hex_group s off acc = Some (off', acc', rest) ->
  0 <= acc < 65536 -> 0 <= acc' < 65536.
Proof.
  induction s as [|c s IH]; intros off acc off' acc' rest; cbn [hex_group]; [by intros [= <- <- <-]|].
  destruct (hex_value c) as [d|] eqn:Ed; [|by intros [= <- <- <-]]. cbv zeta. apply hex_value_range in Ed.
  destruct (3 <? off); [done|]. destruct (65535 <? _) eqn:E; [done|]. intros H Ha. b2p. apply (IH _ _ _ _ _ H). lia.
Qed.

Lemma ipv6_loop_ok n : forall s ip e s' ip' e', ipv6_loop n s ip e = Some (s', ip', e') ->
  bytes_ok ip -> (length ip + 2 * n = 16)%nat -> bytes_ok ip' /\ (length ip' <= 16)%nat.
Proof.
  induction n as [|n IH]; intros s ip e s' ip' e'; cbn [ipv6_loop]; [intros [= <- <- <-]; split; [done|lia]|].
  destruct (hex_group s 0 0) as [[[off acc] rest]|] eqn:Eg; [|done].
  apply hex_group_range in Eg; [|lia]. destruct (off =? 0); [done|].
  assert (Hip : forall ip, bytes_ok ip -> bytes_ok (ip ++ [acc / 256; acc mod 256])).
  { intros l Hl. apply Forall_app. split; [done|]. repeat constructor; zify; Z.to_euclidean_division_equations; lia. }
  intros H Hb Hl. specialize (Hip ip Hb). cbv zeta in H.
  assert (Hlen : length (ip ++ [acc / 256; acc mod 256]) = (length ip + 2)%nat) by (rewrite length_app; cbn; lia).
  destruct (starts 46 rest).
  - destruct (match e with Some _ => _ | None => _ end); [done|]. destruct (16 <? _)%nat eqn:Ec; [done|]. apply Nat.ltb_ge in Ec.
    unfold parseIPv4Fields in H. destruct (ipv4_fields s None 0 0 []) as [f|] eqn:Ef; [|done]. injection H as <- <- <-.
    apply ipv4_fields_ok in Ef as [Hf1 Hf2]; [|lia|cbn; lia|constructor].
    split; [by apply Forall_app|]. rewrite length_app. lia.
  - repeat case_match; simplify_eq; try (split; [done|lia]); eapply IH; [eassumption|done|lia|eassumption|done|lia].
Qed.

Lemma expand_ellipsis_ok ip e : bytes_ok ip -> (length ip <= 16)%nat ->
  bytes_ok (expand_ellipsis ip e) /\ length (expand_ellipsis ip e) = 16%nat.
Proof.
  intros Hb Hl. unfold expand_ellipsis. split.
  - apply Forall_app. split; [by apply Forall_take|]. apply Forall_app. split; [|by apply Forall_drop].
    apply Forall_replicate. split; [done|reflexivity].
  - rewrite !length_app, length_replicate, length_take, length_drop. lia.
Qed.

Lemma parseIPv6_ok s a : parseIPv6 s = Some a -> addr_ok a /\ Is4 a = false.
Proof.
  unfold parseIPv6. destruct (cut_byte 37 s) as [s1 z]. intros H.
  assert (H' : exists zone e s2, (match (e : option nat), s2 with
      | Some _, [] => Some (Addr6 0 zone)
      | _, _ =>
          match ipv6_loop 8 s2 [] e with
          | Some ([], ip, e) =>
              if (length ip <? 16)%nat then match e with Some e => Some (Addr6 (be_decode (expand_ellipsis ip e)) zone) | None => None end
              else match e with Some _ => None | None => Some (Addr6 (be_decode ip) zone) end
          | _ => None
          end
      end) = Some a).
  { destruct (if starts 58 s1 && _ then _ else _) as [e s2]. exists (default [] z), e, s2. by destruct z as [[|]|]. }
  clear H. destruct H' as (zone & e & s2 & H).
  assert (Hloop : forall e, match ipv6_loop 8 s2 [] e with
      | Some ([], ip, e) =>
          if (length ip <? 16)%nat then match e with Some e => Some (Addr6 (be_decode (expand_ellipsis ip e)) zone) | None => None end
          else match e with Some _ => None | None => Some (Addr6 (be_decode ip) zone) end
      | _ => None
      end = Some a -> addr_ok a /\ Is4 a = false).
  { intros e0. destruct (ipv6_loop 8 s2 [] e0) as [[[[|] ip] e1]|] eqn:El; try done.
    apply ipv6_loop_ok in El as [Hb Hl]; [|constructor|done].
    destruct (length ip <? 16)%nat eqn:E; destruct e1 as [e1|]; try done; intros [= <-]; (split; [|done]).
    - destruct (expand_ellipsis_ok ip e1 Hb Hl) as [H1 H2]. pose proof (be_decode_range _ H1) as Hr. by rewrite H2 in Hr.
    - apply Nat.ltb_ge in E. pose proof (be_decode_range _ Hb) as Hr. by replace (length ip) with 16%nat in Hr by lia. }
  destruct e as [e|]; [destruct s2|]; try (by eapply Hloop). injection H as <-. split; [|done]. cbn. lia.
Qed.

Lemma ParseAddr_ok s a : ParseAddr s = Some a -> addr_ok a.
Proof.
  unfold ParseAddr. destruct (addr_family s) as [[]|]; [|by intros [? _]%parseIPv6_ok|done].
  destruct (parseIPv4Fields s) as [f|] eqn:Ef; [|done]. intros [= <-].
  apply ipv4_fields_ok in Ef as [Hf1 Hf2]; [|lia|cbn; lia|constructor].
  pose proof (be_decode_range _ Hf2) as Hr. by rewrite Hf1 in Hr.
Qed.

Lemma ParsePrefix_ok s p : ParsePrefix s = Some p -> prefix_ok p /\ addr_ok (pf_Addr p).
Proof.
  unfold ParsePrefix. destruct (cut_last 47 s) as [[a bits]|]; [|done]. destruct (ParseAddr a) as [ip|] eqn:Ea; [|done].
  apply ParseAddr_ok in Ea. destruct (match ip with Addr6 _ (_ :: _) => true | _ => false end); [done|].
  destruct (_ && _); [done|]. destruct (ParseInt bits) as [n|]; [|done]. destruct (_ || _) eqn:E; [done|].
  intros [= <-]. split; [|done]. unfold prefix_ok. cbn. b2p. lia.
Qed.

(** *** Texts that are written *)

(** The dotted form of an IPv4 address. *)
Definition dotted (a : Z) : list Z :=
  FormatUint10 (Z.land (Z.shiftr a 24) 255) ++ [46] ++ FormatUint10 (Z.land (Z.shiftr a 16) 255) ++ [46] ++
  FormatUint10 (Z.land (Z.shiftr a 8) 255) ++ [46] ++ FormatUint10 (Z.land (Z.shiftr a 0) 255).

(** One octet, as the parser reads it. *)
Definition reads_octet (v : Z) : Prop :=
  forall rest prev fields, exists c, c <> 46 /\ exists dl,
    ipv4_fields (FormatUint10 v ++ rest) prev 0 0 fields = ipv4_fields rest (Some c) v dl fields.

Lemma octets_read : Forall reads_octet (seqZ 0 256).
Proof. vm_compute seqZ. repeat (apply Forall_cons; [intros rest prev fields; eexists; split; [|eexists; reflexivity]; done|]). constructor. Qed.

Lemma octet_read v : 0 <= v < 256 -> reads_octet v.
Proof. intros Hv. apply (proj1 (Forall_forall _ _) octets_read), list_elem_of_In, elem_of_seqZ. lia. Qed.

Lemma octet_range a k : 0 <= Z.land (Z.shiftr a k) 255 < 256.
Proof. change 255 with (Z.ones 8). rewrite Z.land_ones by lia. apply Z.mod_pos_bound. lia. Qed.

Lemma octet_digits v : 0 <= v < 256 -> all_digits (FormatUint10 v) /\ FormatUint10 v <> [].
Proof. intros Hv. destruct (FormatUint10_spec v) as (H1 & H2 & _); [lia|done]. Qed.

Lemma addr_family_digits ds rest : all_digits ds -> addr_family (ds ++ rest) = addr_family rest.
Proof.
  induction 1 as [|d ds Hd _ IH]; [done|]. cbn [app addr_family]. unfold is_digit in Hd. b2p.
  rewrite !(proj2 (Z.eqb_neq d _)) by lia. exact IH.
Qed.

Lemma ipv4_dot s c v dl fields : c <> 46 -> s <> [] -> (length fields < 3)%nat ->
  ipv4_fields (46 :: s) (Some c) v dl fields = ipv4_fields s (Some 46) 0 0 (fields ++ [v]).
Proof.
  intros Hc Hs Hf. cbn [ipv4_fields]. change (is_digit 46) with false. cbn [Z.eqb Pos.eqb].
  rewrite (proj2 (Z.eqb_neq c 46) Hc), (proj2 (Nat.eqb_neq _ 3)) by lia. by destruct s.
Qed.

Lemma ParseAddr_dotted a : 0 <= a < 2 ^ 32 -> ParseAddr (dotted a) = Some (Addr4 a).
Proof.
  intros Ha. unfold ParseAddr, dotted.
  destruct (octet_digits _ (octet_range a 24)) as [D3 N3]. destruct (octet_digits _ (octet_range a 16)) as [D2 N2].
  destruct (octet_digits _ (octet_range a 8)) as [D1 N1]. destruct (octet_digits _ (octet_range a 0)) as [D0 N0].
  rewrite addr_family_digits by done. cbn [app addr_family Z.eqb Pos.eqb]. unfold parseIPv4Fields.
  edestruct (octet_read _ (octet_range a 24)) as (c3 & Hc3 & dl3 & ->).
  rewrite ipv4_dot; [|done|by intros [? _]%app_nil|cbn; lia].
  edestruct (octet_read _ (octet_range a 16)) as (c2 & Hc2 & dl2 & ->).
  rewrite ipv4_dot; [|done|by intros [? _]%app_nil|cbn; lia].
  edestruct (octet_read _ (octet_range a 8)) as (c1 & Hc1 & dl1 & ->).
  rewrite ipv4_dot; [|done|done|cbn; lia].
  rewrite <- (app_nil_r (FormatUint10 (Z.land (Z.shiftr a 0) 255))).
  edestruct (octet_read _ (octet_range a 0)) as (c0 & Hc0 & dl0 & ->). cbn [ipv4_fields app length Nat.ltb Nat.leb].
  by rewrite be4_id.
Qed.

Lemma cut_byte_stop c a b : c ∉ a -> cut_byte c (a ++ c :: b) = (a, Some b).
Proof.
  induction a as [|x a IH]; cbn [app cut_byte]; intros Ha; [by rewrite Z.eqb_refl|].
  apply not_elem_of_cons in Ha as [Hx Ha]. rewrite (proj2 (Z.eqb_neq x c)) by congruence. by rewrite IH.
Qed.

Lemma cut_last_app c a b : c ∉ b -> cut_last c (a ++ c :: b) = Some (a, b).
Proof.
  intros Hb. unfold cut_last. rewrite rev_app_distr. cbn [rev]. rewrite <- app_assoc. cbn [app].
  rewrite cut_byte_stop by (by rewrite list_elem_of_In, <- in_rev, <- list_elem_of_In). by rewrite !rev_involutive.
Qed.

Lemma digits_not c ds : all_digits ds -> is_digit c = false -> c ∉ ds.
Proof. intros Hd Hc Hin. apply list_elem_of_In in Hin. rewrite (proj1 (Forall_forall _ _) Hd c Hin) in Hc. done. Qed.

(** The bits of an IPv4 prefix, as the parser reads them. *)
Lemma bits_read : forallb (fun n => let b := FormatUint10 n in
  negb ((1 <? length b)%nat && match b with c :: _ => (c <? 49) || (57 <? c) | [] => false end) &&
  bool_decide (ParseInt b = Some n)) (seqZ 0 129) = true.
Proof. vm_compute. reflexivity. Qed.

Lemma ParsePrefix_dotted a n : 0 <= a < 2 ^ 32 -> 0 <= n <= 32 ->
  ParsePrefix (dotted a ++ 47 :: FormatUint10 n) = Some (mkPrefix (Addr4 a) n).
Proof.
  intros Ha Hn. destruct (FormatUint10_spec n ltac:(lia)) as (Hd & _).
  unfold ParsePrefix. rewrite cut_last_app by by apply digits_not. rewrite ParseAddr_dotted by done.
  assert (Hb := proj1 (forallb_forall _ _) bits_read n ltac:(apply list_elem_of_In, elem_of_seqZ; lia)). cbv zeta in Hb.
  apply andb_prop in Hb as [H1 H2]. apply negb_true_iff in H1. apply bool_decide_eq_true in H2. rewrite H1, H2. cbn [Is4].
  by rewrite (proj2 (Z.ltb_ge n 0)), (proj2 (Z.ltb_ge 32 n)) by lia.
Qed.

Lemma ParseUint_Format v max : 0 <= v <= max -> max < 2 ^ 64 -> ParseUint (FormatUint10 v) max = Some v.
Proof.
  intros Hv Hm. destruct (FormatUint10_spec v ltac:(lia)) as (H1 & H2 & H3). unfold ParseUint.
  destruct (FormatUint10 v) as [|c ds] eqn:E; [done|]. rewrite all_digits_forallb, H3 by done.
  by rewrite (proj2 (Z.leb_le v max)) by lia.
Qed.

Lemma dotted_head a : exists c s, dotted a = c :: s /\ is_digit c = true.
Proof.
  unfold dotted. destruct (octet_digits _ (octet_range a 24)) as [D N].
  destruct (FormatUint10 (Z.land (Z.shiftr a 24) 255)) as [|c ds]; [done|]. inversion D as [|? ? Hc _]; subst. by eexists _, _.
Qed.

Lemma ParseAddrPort_dotted a port : 0 <= a < 2 ^ 32 -> is_u16 port ->
  ParseAddrPort (dotted a ++ 58 :: FormatUint10 port) = Some (mkAddrPort (Addr4 a) port).
Proof.
  unfold is_u16. intros Ha Hp. destruct (FormatUint10_spec port ltac:(lia)) as (Hd & Hne & _).
  unfold ParseAddrPort, splitAddrPort. rewrite cut_last_app by by apply digits_not.
  pose proof (ParseAddr_dotted a Ha) as Hpa. destruct (dotted_head a) as (c & s & Hs & Hc). rewrite Hs in *.
  destruct (FormatUint10 port) as [|d ds] eqn:Ef; [done|]. rewrite <- Ef. cbn [starts].
  assert (c <> 91) by (unfold is_digit in Hc; b2p; lia). rewrite (proj2 (Z.eqb_neq c 91)) by done.
  rewrite Ef at 1. rewrite <- Ef, ParseUint_Format by lia. rewrite Hpa. done.
Qed.
