(* ===== verification/GoConn.v ===== *)
(** * Reads with a deadline (package net)

    What a read of a socket gives, from the deadline set on the socket and
    what happens on the wire: the clock that wakes a loop of a session is
    this one. *)

From S2P Require Import Prelude GoTime.

(** What happens on the socket while a read waits: nothing, an error, or data
    at some instant. *)
Inductive wire (A : Type) : Type :=
| Quiet
| Breaks (at_ : Time)
| Arrives (at_ : Time) (x : A).
Arguments Quiet {A}.
Arguments Breaks {A} at_.
Arguments Arrives {A} at_ x.

Inductive readResult (A : Type) : Type :=
| TimedOut
| Failed
| Got (x : A).
Arguments TimedOut {A}.
Arguments Failed {A}.
Arguments Got {A} x.

Definition later (t u : Time) : Time := if time_Before t u then u else t.

(** A read entered at [now]: the instant it returns at and its result.  It
    fails with ErrDeadlineExceeded once the deadline has passed; without a
    deadline ([None]) and with nothing on the wire it never returns
    ([None]). *)
Definition conn_read {A} (deadline : option Time) (now : Time) (w : wire A) : option (Time * readResult A) :=
  let timeout := match deadline with Some d => Some (later now d, TimedOut) | None => None end in
  let returns_at t r :=
    match deadline with
    | Some d => if time_After now d || time_After t d then timeout else Some (later now t, r)
    | None => Some (later now t, r)
    end in
  match w with
  | Quiet => timeout
  | Breaks t => returns_at t Failed
  | Arrives t x => returns_at t (Got x)
  end.

(** How the loop of a session ends against the wire: it leaves at some
    instant, it waits for more than the inputs given, or it waits for ever. *)
Inductive loopEnd : Type :=
| Ended (at_ : Time)
| Unfinished
| Blocked.

Definition has_ended (e : loopEnd) : bool := match e with Ended _ => true | _ => false end.

(** ** Lemmas *)
Lemma time_Before_ns t u : has_mono t -> has_mono u -> time_Before t u = (mono_ns t <? mono_ns u).
Proof. intros Ht Hu. unfold time_Before. by rewrite time_After_mono. Qed.

Lemma later_spec t u : has_mono t -> has_mono u -> has_mono (later t u) /\ mono_ns (later t u) = Z.max (mono_ns t) (mono_ns u).
Proof.
  intros Ht Hu. unfold later. rewrite time_Before_ns by done. destruct (_ <? _) eqn:E; b2p; (split; [done|lia]).
Qed.

(** The instants of what arrives carry a monotonic reading. *)
Definition wire_mono {A} (w : wire A) : Prop :=
  match w with Quiet => True | Breaks t | Arrives t _ => has_mono t end.

(** A read with a deadline returns, not before it was entered and, unless it
    was entered too late, not after the deadline; a timeout is not before
    the deadline. *)
Lemma conn_read_returns {A} d now (w : wire A) : has_mono d -> has_mono now -> wire_mono w ->
  exists t r, conn_read (Some d) now w = Some (t, r) /\ has_mono t /\
    mono_ns now <= mono_ns t <= Z.max (mono_ns now) (mono_ns d) /\
    match r with
    | TimedOut => mono_ns d <= mono_ns t
    | Failed => exists u, w = Breaks u
    | Got x => exists u, w = Arrives u x
    end.
Proof.
  intros Hd Hn Hw. destruct (later_spec now d Hn Hd) as [Hm Hl].
  assert (Hto : has_mono (later now d) /\ mono_ns now <= mono_ns (later now d) <= Z.max (mono_ns now) (mono_ns d) /\ mono_ns d <= mono_ns (later now d)).
  { rewrite Hl. split; [done|lia]. }
  destruct Hto as (H1 & H2 & H3). destruct w as [|u|u x]; cbn [conn_read wire_mono] in *; [by eexists _, _|..].
  all: rewrite !time_After_mono by done; destruct (_ || _) eqn:E; [by eexists _, _|].
  all: apply orb_false_iff in E as [E1 E2]; b2p; destruct (later_spec now u Hn Hw) as [Hmu Hlu].
  all: eexists _, _; split; [reflexivity|]; split; [done|]; rewrite Hlu; split; [lia|by eexists].
Qed.
