(* ===== verification/GoUrl.v ===== *)
(** * Query strings (package net/url)

    The query of a request as the handlers read it, r.URL.Query().Get(key),
    and the reference writer of one, with the lemma that a value reads back
    whatever its bytes. *)

From stdpp Require Import strings.
From S2P Require Import Prelude GoText GoNet.

(** QueryUnescape: [None] is an error, a percent sign without two hexadecimal
    digits. *)
Fixpoint QueryUnescape (s : list Z) : option (list Z) :=
  match s with
  | [] => Some []
  | c :: s =>
      if c =? 37 then
        match s with
        | a :: b :: s =>
            match hex_value a, hex_value b with
            | Some x, Some y => match QueryUnescape s with Some r => Some (x * 16 + y :: r) | None => None end
            | _, _ => None
            end
        | _ => None
        end
      else match QueryUnescape s with Some r => Some ((if c =? 43 then 32 else c) :: r) | None => None end
  end.

(** strings.Cut(s, sep) for a separator of one byte; without it, all of [s]
    and nothing. *)
Definition Cut (s : list Z) (c : Z) : list Z * list Z :=
  match cut_byte c s with (a, Some b) => (a, b) | (a, None) => (a, []) end.

(** The parts of a query between ampersands. *)
Fixpoint split_amp (s cur : list Z) : list (list Z) :=
  match s with
  | [] => match cur with [] => [] | _ => [rev cur] end
  | c :: s => if c =? 38 then rev cur :: split_amp s [] else split_amp s (c :: cur)
  end.

(** One part: a key and its value; parts with a semicolon, empty parts and
    parts that do not unescape are skipped. *)
Definition query_part (part : list Z) : option (list Z * list Z) :=
  if existsb (Z.eqb 59) part then None
  else
    match part with
    | [] => None
    | _ =>
        let '(key, value) := Cut part 61 in
        match QueryUnescape key, QueryUnescape value with
        | Some k, Some v => Some (k, v)
        | _, _ => None
        end
    end.

(** URL.Query: ParseQuery with its error dropped. *)
Definition Query (raw : list Z) : list (list Z * list Z) := omap query_part (split_amp raw []).

(** Values.Get: the first value of the key, or the empty string. *)
Fixpoint Values_Get (q : list (list Z * list Z)) (key : list Z) : list Z :=
  match q with
  | [] => []
  | (k, v) :: q => if bool_decide (k = key) then v else Values_Get q key
  end.

(** ** The reference writer: QueryEscape *)
Definition unreserved (c : Z) : bool :=
  is_digit c || ((97 <=? c) && (c <=? 122)) || ((65 <=? c) && (c <=? 90)) ||
  (c =? 45) || (c =? 46) || (c =? 95) || (c =? 126).

Definition hex_upper (d : Z) : Z := if d <? 10 then 48 + d else 55 + d.

Definition escape_byte (c : Z) : list Z :=
  if unreserved c then [c] else if c =? 32 then [43] else [37; hex_upper (c / 16); hex_upper (c mod 16)].

Definition QueryEscape (s : list Z) : list Z := concat (map escape_byte s).

(** ** Reading back *)
Lemma hex_upper_value d : 0 <= d < 16 -> hex_value (hex_upper d) = Some d.
Proof.
  intros Hd. unfold hex_upper. destruct (d <? 10) eqn:E; b2p; unfold hex_value, is_digit.
  - rewrite !(proj2 (Z.leb_le _ _)) by lia. cbn. f_equal. lia.
  - rewrite (proj2 (Z.leb_gt (55 + d) 57)) by lia. rewrite andb_false_r, (proj2 (Z.leb_gt 97 _)) by lia. cbn [andb].
    rewrite !(proj2 (Z.leb_le _ _)) by lia. cbn [andb]. f_equal. lia.
Qed.

Lemma unescape_escape_byte c s : is_u8 c ->
  QueryUnescape (escape_byte c ++ s) = match QueryUnescape s with Some r => Some (c :: r) | None => None end.
Proof.
  unfold is_u8. intros Hc. unfold escape_byte. destruct (unreserved c) eqn:Eu.
  - cbn [app QueryUnescape]. assert (c <> 37 /\ c <> 43) by (unfold unreserved, is_digit in Eu; b2p; lia).
    by rewrite !(proj2 (Z.eqb_neq c _)) by lia.
  - destruct (Z.eqb_spec c 32) as [->|]; [done|]. cbn [app QueryUnescape Z.eqb Pos.eqb].
    rewrite !hex_upper_value by (Z.to_euclidean_division_equations; lia).
    destruct (QueryUnescape s); [|done]. do 2 f_equal. Z.to_euclidean_division_equations; lia.
Qed.

Lemma unescape_escape s : bytes_ok s -> QueryUnescape (QueryEscape s) = Some s.
Proof.
  unfold QueryEscape. induction 1 as [|c s Hc _ IH]; [done|]. cbn [map concat].
  by rewrite unescape_escape_byte, IH.
Qed.

Lemma escape_chars s c : bytes_ok s -> c ∈ QueryEscape s -> unreserved c = true \/ c = 43 \/ c = 37.
Proof.
  unfold QueryEscape. induction 1 as [|x s Hx _ IH]; cbn [map concat]; [by intros []%elem_of_nil|].
  intros [H|H]%elem_of_app; [|by apply IH]. unfold escape_byte in H. destruct (unreserved x) eqn:Eu.
  - apply list_elem_of_singleton in H as ->. by left.
  - destruct (x =? 32); [apply list_elem_of_singleton in H as ->; auto|].
    unfold is_u8 in Hx. assert (Hd : 0 <= x / 16 < 16 /\ 0 <= x mod 16 < 16) by (Z.to_euclidean_division_equations; lia).
    assert (Hh : forall d, 0 <= d < 16 -> unreserved (hex_upper d) = true).
    { intros d Hd'. unfold hex_upper, unreserved, is_digit. destruct (d <? 10) eqn:E; b2p.
      - rewrite !(proj2 (Z.leb_le _ _)) by lia. done.
      - rewrite (proj2 (Z.leb_le 65 _)), (proj2 (Z.leb_le _ 90)) by lia. by rewrite !orb_true_r. }
    rewrite !elem_of_cons in H. destruct H as [->|[->|[->|[]%elem_of_nil]]]; [auto|left; apply Hh, Hd..].
Qed.

Lemma split_amp_part part rest : forall cur, 38 ∉ part ->
  split_amp (part ++ 38 :: rest) cur = (rev cur ++ part) :: split_amp rest [].
Proof.
  induction part as [|c part IH]; intros cur Hp; cbn [app split_amp].
  - by rewrite Z.eqb_refl, app_nil_r.
  - apply not_elem_of_cons in Hp as [Hc Hp]. rewrite (proj2 (Z.eqb_neq c 38)) by congruence.
    rewrite IH by done. cbn [rev]. by rewrite <- app_assoc.
Qed.

Lemma split_amp_end part : forall cur, 38 ∉ part -> rev cur ++ part <> [] -> split_amp part cur = [rev cur ++ part].
Proof.
  induction part as [|c part IH]; intros cur Hp Hne; cbn [split_amp].
  - rewrite app_nil_r in *. by destruct cur.
  - apply not_elem_of_cons in Hp as [Hc Hp]. rewrite (proj2 (Z.eqb_neq c 38)) by congruence.
    rewrite IH by (done || cbn [rev]; rewrite <- app_assoc; done). cbn [rev]. by rewrite <- app_assoc.
Qed.

(** A part written as key=value. *)
Definition written_part (k v : list Z) : list Z := QueryEscape k ++ 61 :: QueryEscape v.

Lemma written_part_clean k v c : bytes_ok k -> bytes_ok v -> (c = 38 \/ c = 59) -> c ∉ written_part k v.
Proof.
  intros Hk Hv Hc. unfold written_part. rewrite elem_of_app, elem_of_cons. intros [H|[->|H]]; [|lia|];
  apply escape_chars in H as [H|H]; try done; destruct Hc as [-> | ->]; (discriminate H || lia).
Qed.

Lemma query_part_written k v : bytes_ok k -> bytes_ok v -> query_part (written_part k v) = Some (k, v).
Proof.
  intros Hk Hv. unfold query_part. destruct (existsb (Z.eqb 59) (written_part k v)) eqn:E.
  { apply existsb_exists in E as (x & Hx & He). apply Z.eqb_eq in He as <-. apply list_elem_of_In in Hx.
    by apply (written_part_clean k v 59) in Hx; auto. }
  destruct (written_part k v) eqn:Ew; [by unfold written_part in Ew; apply app_nil in Ew as [_ ?]|]. rewrite <- Ew. unfold Cut, written_part.
  rewrite cut_byte_stop; [by rewrite !unescape_escape|]. intros H. apply escape_chars in H as [H|H]; [discriminate H|lia|done].
Qed.

Lemma Query_written_cons k v rest : bytes_ok k -> bytes_ok v -> Query (written_part k v ++ 38 :: rest) = (k, v) :: Query rest.
Proof.
  intros Hk Hv. unfold Query. rewrite split_amp_part by (apply written_part_clean; auto). cbn [rev app omap list_omap].
  by rewrite query_part_written.
Qed.

Lemma Query_written k v : bytes_ok k -> bytes_ok v -> Query (written_part k v) = [(k, v)].
Proof.
  intros Hk Hv. unfold Query. rewrite split_amp_end; [|apply written_part_clean; auto|].
  - cbn [rev app omap list_omap]. by rewrite query_part_written.
  - cbn. unfold written_part. by intros [_ ?]%app_nil.
Qed.
