(* ===== verification/GoUtf8.v ===== *)
(** * UTF-8 (package unicode/utf8)

    The decoding of one rune as utf8.DecodeRuneInString does it, and a text
    as the sequence of its runes and invalid bytes, the form over which the
    quoting of strings (GoJson, GoQuote) is written. *)

From S2P Require Import Prelude.

Definition between (lo c hi : Z) : bool := (lo <=? c) && (c <=? hi).

(** The rune at the head of a text and its width; [None] is
    (RuneError, 1), or an empty text. *)
Definition DecodeRune (s : list Z) : option (Z * nat) :=
  match s with
  | [] => None
  | c :: s =>
      if c <? 128 then Some (c, 1%nat)
      else if between 194 c 223 then
        match s with
        | b :: _ => if between 128 b 191 then Some ((c - 192) * 64 + (b - 128), 2%nat) else None
        | _ => None
        end
      else if between 224 c 239 then
        match s with
        | b1 :: b2 :: _ =>
            if between (if c =? 224 then 160 else 128) b1 (if c =? 237 then 159 else 191) && between 128 b2 191
            then Some ((c - 224) * 4096 + (b1 - 128) * 64 + (b2 - 128), 3%nat) else None
        | _ => None
        end
      else if between 240 c 244 then
        match s with
        | b1 :: b2 :: b3 :: _ =>
            if between (if c =? 240 then 144 else 128) b1 (if c =? 244 then 143 else 191) && between 128 b2 191 && between 128 b3 191
            then Some ((c - 240) * 262144 + (b1 - 128) * 4096 + (b2 - 128) * 64 + (b3 - 128), 4%nat) else None
        | _ => None
        end
      else None
  end.

(** The encoding of a rune below 0x10000. *)
Definition AppendRune (r : Z) : list Z :=
  if r <? 128 then [r]
  else if r <? 2048 then [192 + r / 64; 128 + r mod 64]
  else [224 + r / 4096; 128 + r / 64 mod 64; 128 + r mod 64].

(** A piece of a text: a rune with its bytes, or a byte that starts none. *)
Inductive chunk : Type :=
| Rune (r : Z) (bs : list Z)
| Bad (b : Z).

(** A piece takes at least one byte, so the length bounds their number. *)
Fixpoint chunks_fuel (fuel : nat) (s : list Z) : list chunk :=
  match fuel, s with
  | S fuel, c :: s' =>
      match DecodeRune s with
      | Some (r, n) => Rune r (take n s) :: chunks_fuel fuel (drop n s)
      | None => Bad c :: chunks_fuel fuel s'
      end
  | _, _ => []
  end.

Definition chunks (s : list Z) : list chunk := chunks_fuel (length s) s.

Definition chunk_bytes (c : chunk) : list Z := match c with Rune _ bs => bs | Bad b => [b] end.

(** utf8.ValidString. *)
Definition ValidString (s : list Z) : bool := forallb (fun c => match c with Rune _ _ => true | Bad _ => false end) (chunks s).

(** The text with each invalid byte replaced by U+FFFD. *)
Definition valid_chunk (c : chunk) : list Z := match c with Rune _ bs => bs | Bad _ => [239; 191; 189] end.
Definition ToValid (s : list Z) : list Z := concat (map valid_chunk (chunks s)).

(** ** Lemmas *)

(** A decoded rune: an ASCII byte, or bytes from 128 on that are its
    encoding when it is below 0x10000. *)
Definition chunk_ok (c : chunk) : Prop :=
  match c with
  | Rune r bs => (r < 128 /\ bs = [r]) \/ (128 <= r /\ Forall (fun b => 128 <= b < 256) bs /\ (r < 65536 -> bs = AppendRune r))
  | Bad b => 128 <= b
  end.

Lemma AppendRune2 c b : 194 <= c <= 223 -> 128 <= b <= 191 -> [c; b] = AppendRune ((c - 192) * 64 + (b - 128)).
Proof.
  intros Hc Hb. unfold AppendRune. rewrite (proj2 (Z.ltb_ge _ 128)), (proj2 (Z.ltb_lt _ 2048)) by lia.
  f_equal; [|f_equal]; Z.to_euclidean_division_equations; lia.
Qed.

Lemma AppendRune3 c b1 b2 : 224 <= c <= 239 -> 128 <= b1 <= 191 -> (c = 224 -> 160 <= b1) -> 128 <= b2 <= 191 ->
  [c; b1; b2] = AppendRune ((c - 224) * 4096 + (b1 - 128) * 64 + (b2 - 128)).
Proof.
  intros Hc Hb1 Hl Hb2. unfold AppendRune. rewrite (proj2 (Z.ltb_ge _ 128)), (proj2 (Z.ltb_ge _ 2048)) by lia.
  f_equal; [|f_equal; [|f_equal]]; Z.to_euclidean_division_equations; lia.
Qed.

Lemma DecodeRune_ok s r n : DecodeRune s = Some (r, n) ->
  chunk_ok (Rune r (take n s)) /\ (0 < n <= length s)%nat.
Proof.
  destruct s as [|c s]; [done|]. cbn [DecodeRune]. unfold between, chunk_ok.
  destruct (c <? 128) eqn:E; b2p.
  { intros [= <- <-]. cbn. split; [left; split; [lia|done]|lia]. }
  destruct ((194 <=? c) && (c <=? 223)) eqn:E2; b2p.
  { destruct s as [|b s]; [done|]. destruct (_ && _) eqn:Eb; [|done]. b2p. intros [= <- <-]. cbn [take length]. split; [right|lia].
    split_and!; [lia|repeat constructor; lia|]. intros _. apply AppendRune2; lia. }
  destruct ((224 <=? c) && (c <=? 239)) eqn:E3; b2p.
  { destruct s as [|b1 [|b2 s]]; [done..|]. destruct (_ && _ && _) eqn:Eb; [|done]. b2p. intros [= <- <-]. cbn [take length].
    assert (Hb : 128 <= b1 <= 191 /\ 128 <= b2 <= 191 /\ (c = 224 -> 160 <= b1)).
    { destruct (Z.eqb_spec c 224), (Z.eqb_spec c 237); lia. }
    split; [right|lia]. split_and!; [|repeat constructor; lia|intros _; apply AppendRune3; lia].
    destruct Hb as (? & ? & ?). destruct (Z.eq_dec c 224); lia. }
  destruct ((240 <=? c) && (c <=? 244)) eqn:E4; b2p; [|done].
  destruct s as [|b1 [|b2 [|b3 s]]]; [done..|]. destruct (_ && _ && _ && _) eqn:Eb; [|done]. b2p. intros [= <- <-]. cbn [take length].
  assert (Hb : 128 <= b1 <= 191 /\ 128 <= b2 <= 191 /\ 128 <= b3 <= 191 /\ (c = 240 -> 144 <= b1)).
  { destruct (Z.eqb_spec c 240), (Z.eqb_spec c 244); lia. }
  destruct Hb as (? & ? & ? & ?). assert (65536 <= (c - 240) * 262144 + (b1 - 128) * 4096 + (b2 - 128) * 64 + (b3 - 128)).
  { destruct (Z.eq_dec c 240); lia. }
  split; [right|lia]. split_and!; [lia|repeat constructor; lia|lia].
Qed.

Lemma chunks_fuel_spec fuel s : (length s <= fuel)%nat -> bytes_ok s ->
  concat (map chunk_bytes (chunks_fuel fuel s)) = s /\ Forall chunk_ok (chunks_fuel fuel s).
Proof.
  revert s. induction fuel as [|fuel IH]; intros s Hl Hb;
    [destruct s; [split; [done|constructor]|cbn in Hl; lia]|].
  destruct s as [|c s]; [split; [done|constructor]|]. cbn [chunks_fuel]. destruct (DecodeRune (c :: s)) as [[r n]|] eqn:Ed.
  - destruct (DecodeRune_ok _ _ _ Ed) as [Hc Hn]. destruct (IH (drop n (c :: s))) as [H1 H2].
    { rewrite length_drop. lia. } { by apply Forall_drop. }
    cbn [map concat chunk_bytes]. rewrite H1, take_drop. split; [done|]. by constructor.
  - inversion Hb as [|? ? Hc Hb']; subst. cbn in Hl. destruct (IH s) as [H1 H2]; [lia|done|].
    cbn [map concat chunk_bytes app]. rewrite H1. split; [done|]. constructor; [|done]. cbn.
    cbn [DecodeRune] in Ed. destruct (c <? 128) eqn:E; [done|]. b2p. lia.
Qed.

(** The pieces of a text make it up. *)
Lemma chunks_spec s : bytes_ok s -> concat (map chunk_bytes (chunks s)) = s /\ Forall chunk_ok (chunks s).
Proof. intros. by apply chunks_fuel_spec. Qed.

Lemma ToValid_valid s : bytes_ok s -> ValidString s = true -> ToValid s = s.
Proof.
  intros Hb Hv. destruct (chunks_spec s Hb) as [Hc _]. unfold ToValid. rewrite <- Hc at 2. f_equal.
  apply map_ext_in. intros c Hin. unfold ValidString in Hv. rewrite forallb_forall in Hv. specialize (Hv c Hin). by destruct c.
Qed.
