(* ===== verification/GoJson.v ===== *)
(** * JSON (package encoding/json)

    The encoding of the values the endpoints write, to the byte, and the
    reference reader of compact JSON, with the round trip between them.
    Strings are Go strings, so bytes of any kind: what is not UTF-8 is
    written as the replacement character. *)

From stdpp Require Import strings.
From S2P Require Import Prelude GoText GoNet GoUtf8.

#[local] Set Warnings "-register-all".

Inductive json : Type :=
| JInt (n : Z)
| JBool (b : bool)
| JString (s : list Z)
| JArray (l : list json)
| JObject (fs : list (list Z * json)).

(** ** The encoder *)

(** A digit of the table "0123456789abcdef". *)
Definition hex_digit (n : Z) : Z := if n <? 10 then 48 + n else 87 + n.

(** \uXXXX *)
Definition unicode_escape (r : Z) : list Z :=
  [92; 117; hex_digit (r / 4096); hex_digit (r / 256 mod 16); hex_digit (r / 16 mod 16); hex_digit (r mod 16)].

(** The letter of a short escape. *)
Definition short_escape (r : Z) : option Z :=
  if (r =? 34) || (r =? 92) then Some r
  else if r =? 8 then Some 98
  else if r =? 12 then Some 102
  else if r =? 10 then Some 110
  else if r =? 13 then Some 114
  else if r =? 9 then Some 116
  else None.

(** Control characters, the characters HTML gives a meaning, and the line
    separators of JavaScript. *)
Definition must_escape (r : Z) : bool :=
  (r <? 32) || (r =? 60) || (r =? 62) || (r =? 38) || (r =? 8232) || (r =? 8233).

Definition escape_chunk (c : chunk) : list Z :=
  match c with
  | Bad _ => unicode_escape 65533
  | Rune r bs =>
      match short_escape r with
      | Some e => [92; e]
      | None => if must_escape r then unicode_escape r else bs
      end
  end.

Definition encode_string (s : list Z) : list Z := 34 :: concat (map escape_chunk (chunks s)) ++ [34].

(** Items separated by commas. *)
Definition commas (ls : list (list Z)) : list Z :=
  match ls with [] => [] | l :: ls => l ++ concat (map (cons 44) ls) end.

Fixpoint encode (j : json) : list Z :=
  match j with
  | JInt n => FormatInt10 n
  | JBool b => if b then str "true" else str "false"
  | JString s => encode_string s
  | JArray l => 91 :: commas (map encode l) ++ [93]
  | JObject fs => 123 :: commas (map (fun kv => encode_string kv.1 ++ 58 :: encode kv.2) fs) ++ [125]
  end.

(** Encoder.Encode ends the value with a newline. *)
Definition Encode (j : json) : list Z := encode j ++ [10].

(** The order of strings, and a map as an object: its entries by key. *)
Fixpoint bytes_leb (a b : list Z) : bool :=
  match a, b with
  | [], _ => true
  | _, [] => false
  | x :: a, y :: b => if x =? y then bytes_leb a b else x <? y
  end.

Fixpoint insert_key (kv : list Z * json) (fs : list (list Z * json)) : list (list Z * json) :=
  match fs with
  | [] => [kv]
  | f :: fs' => if bytes_leb kv.1 f.1 then kv :: fs else f :: insert_key kv fs'
  end.

Definition JMap (m : list (list Z * json)) : json := JObject (foldr insert_key [] m).

(** ** The reader

    RFC 8259 without insignificant white space, numbers being integers; a
    surrogate escape is not read. *)
Definition unescape_short (c : Z) : option Z :=
  if (c =? 34) || (c =? 92) || (c =? 47) then Some c
  else if c =? 98 then Some 8
  else if c =? 102 then Some 12
  else if c =? 110 then Some 10
  else if c =? 114 then Some 13
  else if c =? 116 then Some 9
  else None.

Definition prepend (a : list Z) (r : option (list Z * list Z)) : option (list Z * list Z) :=
  match r with Some (b, rest) => Some (a ++ b, rest) | None => None end.

Fixpoint read_string (s : list Z) : option (list Z * list Z) :=
  match s with
  | [] => None
  | c :: s =>
      if c =? 34 then Some ([], s)
      else if c =? 92 then
        match s with
        | [] => None
        | e :: s =>
            if e =? 117 then
              match s with
              | a :: b :: c :: d :: s =>
                  match hex_value a, hex_value b, hex_value c, hex_value d with
                  | Some a, Some b, Some c, Some d =>
                      let r := a * 4096 + b * 256 + c * 16 + d in
                      if between 55296 r 57343 then None else prepend (AppendRune r) (read_string s)
                  | _, _, _, _ => None
                  end
              | _ => None
              end
            else match unescape_short e with Some r => prepend [r] (read_string s) | None => None end
        end
      else if c <? 32 then None
      else prepend [c] (read_string s)
  end.

(** Items until [close]. *)
Fixpoint read_items {A} (rd : list Z -> option (A * list Z)) (n : nat) (close : Z) (s : list Z) : option (list A * list Z) :=
  match n with
  | O => None
  | S n =>
      match rd s with
      | Some (x, c :: s) =>
          if c =? close then Some ([x], s)
          else if c =? 44 then
            match read_items rd n close s with Some (xs, s) => Some (x :: xs, s) | None => None end
          else None
      | _ => None
      end
  end.

Definition read_list {A} (rd : list Z -> option (A * list Z)) (n : nat) (close : Z) (s : list Z) : option (list A * list Z) :=
  match s with
  | [] => None
  | c :: s' => if c =? close then Some ([], s') else read_items rd n close s
  end.

Definition read_field (rd : list Z -> option (json * list Z)) (s : list Z) : option ((list Z * json) * list Z) :=
  match s with
  | q :: s =>
      if q =? 34 then
        match read_string s with
        | Some (k, c :: s) =>
            if c =? 58 then match rd s with Some (j, s) => Some ((k, j), s) | None => None end else None
        | _ => None
        end
      else None
  | [] => None
  end.

Definition number_char (c : Z) : bool := is_digit c || (c =? 45).

Fixpoint span_number (s : list Z) : list Z * list Z :=
  match s with
  | c :: s' => if number_char c then let '(d, r) := span_number s' in (c :: d, r) else ([], s)
  | [] => ([], [])
  end.

Definition read_number (s : list Z) : option (json * list Z) :=
  let '(ds, rest) := span_number s in
  match parse_number ds with Some n => Some (JInt n, rest) | None => None end.

Definition read_word (w : list Z) (j : json) (s : list Z) : option (json * list Z) :=
  if bool_decide (take (length w) s = w) then Some (j, drop (length w) s) else None.

Fixpoint read (fuel : nat) (s : list Z) : option (json * list Z) :=
  match fuel with
  | O => None
  | S fuel =>
      match s with
      | [] => None
      | c :: s' =>
          if c =? 34 then match read_string s' with Some (t, s) => Some (JString t, s) | None => None end
          else if c =? 91 then
            match read_list (read fuel) fuel 93 s' with Some (l, s) => Some (JArray l, s) | None => None end
          else if c =? 123 then
            match read_list (read_field (read fuel)) fuel 125 s' with Some (l, s) => Some (JObject l, s) | None => None end
          else if c =? 116 then read_word (str "true") (JBool true) s
          else if c =? 102 then read_word (str "false") (JBool false) s
          else read_number s
      end
  end.

(** A value takes at least one byte, so the length bounds the nesting. *)
Definition Unmarshal (s : list Z) : option json :=
  match read (length s) s with Some (j, [10]) | Some (j, []) => Some j | _ => None end.

(** ** Lemmas *)
Section JsonInd.
Context (P : json -> Prop) (Hi : forall n, P (JInt n)) (Hb : forall b, P (JBool b)) (Hs : forall s, P (JString s))
  (Ha : forall l, Forall P l -> P (JArray l)) (Ho : forall fs, Forall (fun kv => P kv.2) fs -> P (JObject fs)).

(** Induction with the hypothesis for every element and field. *)
Fixpoint json_rect' (j : json) : P j :=
  match j with
  | JInt n => Hi n
  | JBool b => Hb b
  | JString s => Hs s
  | JArray l => Ha l ((fix go l : Forall P l := match l with [] => List.Forall_nil P | x :: l => @List.Forall_cons _ P x l (json_rect' x) (go l) end) l)
  | JObject fs =>
      Ho fs ((fix go fs : Forall (fun kv => P kv.2) fs :=
        match fs with [] => List.Forall_nil _ | kv :: fs => @List.Forall_cons _ _ kv fs (json_rect' kv.2) (go fs) end) fs)
  end.
End JsonInd.

(** The value a reader gets: its texts with invalid bytes replaced. *)
Fixpoint valid_json (j : json) : json :=
  match j with
  | JString s => JString (ToValid s)
  | JArray l => JArray (map valid_json l)
  | JObject fs => JObject (map (fun kv => (ToValid kv.1, valid_json kv.2)) fs)
  | _ => j
  end.

(** Texts are bytes, integers within 64 bits of either kind. *)
Fixpoint json_ok (j : json) : Prop :=
  match j with
  | JInt n => - 2 ^ 64 < n < 2 ^ 64
  | JBool _ => True
  | JString s => bytes_ok s
  | JArray l => foldr (fun x Q => json_ok x /\ Q) True l
  | JObject fs => foldr (fun kv Q => (bytes_ok kv.1 /\ json_ok kv.2) /\ Q) True fs
  end.

Lemma hex_digit_value n : 0 <= n < 16 -> hex_value (hex_digit n) = Some n.
Proof.
  intros Hn. assert (H : forallb (fun k => bool_decide (hex_value (hex_digit k) = Some k)) (seqZ 0 16) = true) by reflexivity.
  rewrite forallb_forall in H. specialize (H n). rewrite bool_decide_eq_true in H. apply H, list_elem_of_In, elem_of_seqZ. lia.
Qed.

Lemma read_unicode r rest : 0 <= r < 65536 -> between 55296 r 57343 = false ->
  read_string (unicode_escape r ++ rest) = prepend (AppendRune r) (read_string rest).
Proof.
  intros Hr Hb. unfold unicode_escape. cbn [app read_string Z.eqb Pos.eqb].
  rewrite !hex_digit_value by (Z.to_euclidean_division_equations; lia).
  replace (r / 4096 * 4096 + r / 256 mod 16 * 256 + r / 16 mod 16 * 16 + r mod 16) with r
    by (Z.to_euclidean_division_equations; lia).
  by rewrite Hb.
Qed.

Lemma read_plain bs rest : Forall (fun b => 32 <= b /\ b <> 34 /\ b <> 92) bs ->
  read_string (bs ++ rest) = prepend bs (read_string rest).
Proof.
  induction 1 as [|b bs (H1 & H2 & H3) _ IH]; cbn [app read_string].
  - by destruct (read_string rest) as [[]|].
  - rewrite (proj2 (Z.eqb_neq b 34)), (proj2 (Z.eqb_neq b 92)), (proj2 (Z.ltb_ge b 32)) by done. rewrite IH.
    by destruct (read_string rest) as [[]|].
Qed.

Lemma short_escape_inv r e : short_escape r = Some e -> r < 128 /\ e <> 117 /\ unescape_short e = Some r.
Proof.
  unfold short_escape. destruct (_ || _) eqn:E.
  { intros [= <-]. apply orb_true_iff in E as [E|E]; apply Z.eqb_eq in E as ->; done. }
  repeat match goal with
  | |- (if r =? ?k then _ else _) = _ -> _ => destruct (Z.eqb_spec r k) as [->|_]; [intros [= <-]; done|]
  end. done.
Qed.

Lemma read_chunk c rest : chunk_ok c -> bytes_ok (chunk_bytes c) ->
  read_string (escape_chunk c ++ rest) = prepend (valid_chunk c) (read_string rest).
Proof.
  destruct c as [r bs|b]; cbn [escape_chunk valid_chunk chunk_bytes chunk_ok]; [|intros _ _; by apply (read_unicode 65533)].
  intros Hc Hb. destruct (short_escape r) as [e|] eqn:Es.
  - destruct (short_escape_inv r e Es) as (Hr & He & Hu). destruct Hc as [[_ ->]|[? _]]; [|lia].
    cbn [app read_string Z.eqb Pos.eqb]. by rewrite (proj2 (Z.eqb_neq e 117)), Hu.
  - destruct (must_escape r) eqn:Em.
    + assert (Hr : bs = AppendRune r /\ 0 <= r < 65536 /\ between 55296 r 57343 = false).
      { unfold must_escape in Em. rewrite !orb_true_iff in Em. unfold between. destruct Hc as [[Hr ->]|(Hr & _ & Ha)].
        - inversion Hb as [|? ? Hb0 _]; subst. unfold is_u8 in Hb0. unfold AppendRune. rewrite (proj2 (Z.ltb_lt r 128)) by done.
          split_and!; [done|lia|lia|]. apply andb_false_iff. left. apply Z.leb_gt. lia.
        - b2p. rewrite Ha by lia. split_and!; [done|lia|lia|]. apply andb_false_iff. left. apply Z.leb_gt. lia. }
      destruct Hr as (-> & Hr & Hs). by apply read_unicode.
    + apply read_plain. unfold short_escape, must_escape in *. destruct Hc as [[Hr ->]|(Hr & Ha & _)].
      * constructor; [|constructor]. rewrite !orb_false_iff in Em. repeat case_match; try done. b2p. lia.
      * refine (Forall_impl _ _ Ha). cbn. lia.
Qed.

(** An escaped text reads back, invalid bytes replaced. *)
Lemma read_chunks cs rest : Forall (fun c => chunk_ok c /\ bytes_ok (chunk_bytes c)) cs ->
  read_string (concat (map escape_chunk cs) ++ 34 :: rest) = Some (concat (map valid_chunk cs), rest).
Proof.
  induction 1 as [|c cs [Hc Hb] _ IH]; [done|]. cbn [map concat]. rewrite <- app_assoc, read_chunk by done. by rewrite IH.
Qed.

Lemma chunks_ok s : bytes_ok s -> Forall (fun c => chunk_ok c /\ bytes_ok (chunk_bytes c)) (chunks s).
Proof.
  intros Hb. destruct (chunks_spec s Hb) as [Hc Hok]. apply Forall_and; [done|].
  rewrite <- Hc in Hb. clear Hc Hok. induction (chunks s) as [|c cs IH]; [constructor|].
  cbn in Hb. apply Forall_app in Hb as [H1 H2]. constructor; [done|by apply IH].
Qed.

Lemma read_encode_string s rest : bytes_ok s ->
  read_string (concat (map escape_chunk (chunks s)) ++ 34 :: rest) = Some (ToValid s, rest).
Proof. intros Hb. by apply read_chunks, chunks_ok. Qed.

(** What may follow a value: nothing a number could go on with. *)
Definition ends (rest : list Z) : Prop := match rest with [] => True | c :: _ => number_char c = false end.

Lemma span_number_app ds rest : Forall (fun c => number_char c = true) ds -> ends rest -> span_number (ds ++ rest) = (ds, rest).
Proof.
  intros Hd He. induction Hd as [|d ds Hd _ IH]; cbn [app span_number].
  - destruct rest as [|c rest]; [done|]. cbn in He |- *. by rewrite He.
  - by rewrite Hd, IH.
Qed.

Lemma read_number_ok n rest : - 2 ^ 64 < n < 2 ^ 64 -> ends rest -> read_number (FormatInt10 n ++ rest) = Some (JInt n, rest).
Proof.
  intros Hn He. unfold read_number. rewrite span_number_app; [by rewrite parse_FormatInt10| |done].
  apply Forall_forall. intros c Hc%list_elem_of_In. unfold number_char.
  apply (FormatInt10_chars n c Hn) in Hc as [->| ->]; [done|]. by rewrite orb_true_r.
Qed.

Section Items.
Context {A B : Type} (rd : list Z -> option (B * list Z)) (f : A -> list Z) (g : A -> B) (close : Z) (n : nat).
(** The items that are written read back, and start with no [close]. *)
Hypothesis close_ok : close <> 44.

Definition reads (x : A) : Prop :=
  (forall rest, ends rest -> rd (f x ++ rest) = Some (g x, rest)) /\ head (f x) <> Some close /\ f x <> [].

Hypothesis close_ends : number_char close = false.

Lemma read_items_ok x xs rest : Forall reads (x :: xs) -> (length xs < n)%nat ->
  read_items rd n close (commas (map f (x :: xs)) ++ close :: rest) = Some (map g (x :: xs), rest).
Proof.
  revert x n. induction xs as [|y xs IH]; intros x m Hall Hm; (destruct m as [|m]; [cbn in Hm; lia|]);
    inversion Hall as [|? ? [Hx _] Hall']; subst; cbn [map commas concat read_items].
  - rewrite app_nil_r, Hx by done. by rewrite Z.eqb_refl.
  - rewrite <- !app_assoc, Hx by done. cbn [app]. rewrite (proj2 (Z.eqb_neq 44 close)), Z.eqb_refl by done.
    cbn in Hm. pose proof (IH y m Hall' ltac:(lia)) as E. cbn [map commas] in E. rewrite <- app_assoc in E.
    rewrite E. done.
Qed.

Lemma read_list_ok xs rest : Forall reads xs -> (length xs <= n)%nat ->
  read_list rd n close (commas (map f xs) ++ close :: rest) = Some (map g xs, rest).
Proof.
  intros Hall Hl. destruct xs as [|x xs]; [cbn; by rewrite Z.eqb_refl|]. unfold read_list.
  destruct (commas (map f (x :: xs)) ++ close :: rest) as [|c t] eqn:E.
  { destruct (commas (map f (x :: xs))); done. }
  rewrite (proj2 (Z.eqb_neq c close)).
  - rewrite <- E. by apply read_items_ok.
  - intros ->. inversion Hall as [|? ? (_ & Hh & Hn) _]; subst. cbn in E. destruct (f x); [done|]. by injection E as -> _.
Qed.
End Items.

Lemma commas_length {A} (f : A -> list Z) xs : Forall (fun x => f x <> []) xs -> (length xs <= length (commas (map f xs)))%nat.
Proof.
  destruct xs as [|x xs]; [done|]. intros H. inversion H as [|? ? Hx Hxs]; subst. cbn [map commas length]. rewrite length_app.
  assert (Hlen : (length xs <= length (concat (map (cons 44%Z) (map f xs))))%nat).
  { clear -Hxs. induction Hxs as [|y ys Hy _ IH]; [done|]. cbn. rewrite length_app. lia. }
  destruct (f x); [done|]. cbn. lia.
Qed.

Lemma commas_item {A} (f : A -> list Z) xs x : x ∈ xs -> (length (f x) <= length (commas (map f xs)))%nat.
Proof.
  assert (Htl : forall ys, x ∈ ys -> (length (f x) <= length (concat (map (cons 44%Z) (map f ys))))%nat).
  { induction ys as [|y ys IH]; [by intros []%elem_of_nil|]. cbn. rewrite length_app.
    intros [->|H]%elem_of_cons; [|specialize (IH H)]; lia. }
  destruct xs as [|y ys]; [by intros []%elem_of_nil|]. cbn. rewrite length_app.
  intros [->|H]%elem_of_cons; [|specialize (Htl ys H)]; lia.
Qed.

(** The first byte of a value. *)
Lemma encode_head j : json_ok j ->
  exists c t, encode j = c :: t /\ c <> 93 /\ c <> 125.
Proof.
  destruct j as [n|[]|s|l|fs]; cbn [encode json_ok]; intros Hok; try (by eexists _, _); try (eexists _, _; done).
  pose proof (fun c => FormatInt10_chars n c Hok) as Hc. pose proof (parse_FormatInt10 n Hok) as Hp.
  destruct (FormatInt10 n) as [|c t]; [done|]. exists c, t. split; [done|].
  destruct (Hc c ltac:(left)) as [H| ->]; [|done]. unfold is_digit in H. b2p. lia.
Qed.

Lemma read_digits fuel n rest : - 2 ^ 64 < n < 2 ^ 64 -> ends rest ->
  read (S fuel) (FormatInt10 n ++ rest) = Some (JInt n, rest).
Proof.
  intros Hn He. rewrite <- (read_number_ok n rest Hn He). pose proof (fun c => FormatInt10_chars n c Hn) as Hc.
  pose proof (parse_FormatInt10 n Hn) as Hp. destruct (FormatInt10 n) as [|c t]; [done|]. cbn [app read].
  assert (H : c < 58) by (destruct (Hc c ltac:(left)) as [H| ->]; [unfold is_digit in H; b2p|]; lia).
  assert (H' : c <> 34) by (destruct (Hc c ltac:(left)) as [H'| ->]; [unfold is_digit in H'; b2p|]; lia).
  repeat match goal with |- context [c =? ?k] => rewrite (proj2 (Z.eqb_neq c k)) by lia end. done.
Qed.

Lemma Forall_json_ok {A} (Q : A -> Prop) l : foldr (fun x R => Q x /\ R) True l <-> Forall Q l.
Proof. induction l as [|x l IH]; cbn; [split; constructor|]. rewrite Forall_cons_iff. tauto. Qed.

Lemma encode_reads fuel j : json_ok j ->
  (forall rest, ends rest -> read fuel (encode j ++ rest) = Some (valid_json j, rest)) -> reads (read fuel) encode valid_json 93 j.
Proof. intros Hok H. destruct (encode_head j Hok) as (c & t & E & H1 & H2). split; [exact H|]. rewrite E. cbn. split; [congruence|done]. Qed.

Definition encode_field (kv : list Z * json) : list Z := encode_string kv.1 ++ 58 :: encode kv.2.
Definition valid_field (kv : list Z * json) : list Z * json := (ToValid kv.1, valid_json kv.2).

Lemma field_reads fuel kv : bytes_ok kv.1 ->
  (forall rest, ends rest -> read fuel (encode kv.2 ++ rest) = Some (valid_json kv.2, rest)) ->
  reads (read_field (read fuel)) encode_field valid_field 125 kv.
Proof.
  intros Hb H. unfold reads, encode_field, encode_string. split_and!; [|done|done]. intros rest Hr.
  cbn [app read_field Z.eqb Pos.eqb]. rewrite <- !app_assoc. cbn [app]. rewrite read_encode_string by done.
  cbn [Z.eqb Pos.eqb]. by rewrite H.
Qed.

(** The encoder's text reads back, whatever follows it but a digit. *)
Lemma read_encode j : json_ok j -> forall fuel rest, (length (encode j) <= fuel)%nat -> ends rest ->
  read fuel (encode j ++ rest) = Some (valid_json j, rest).
Proof.
  induction j as [n|b|s|l IH|fs IH] using json_rect'; intros Hok fuel rest Hf Hr;
    destruct (encode_head _ Hok) as (c0 & t0 & E0 & _);
    (destruct fuel as [|fuel]; [rewrite E0 in Hf; cbn in Hf; lia|]); clear E0.
  - by apply read_digits.
  - by destruct b.
  - cbn [encode encode_string app read Z.eqb Pos.eqb]. rewrite <- app_assoc. cbn [app]. by rewrite read_encode_string.
  - cbn [encode length] in Hf. rewrite length_app in Hf. cbn in Hok. apply Forall_json_ok in Hok.
    cbn [encode app read Z.eqb Pos.eqb]. rewrite <- app_assoc. cbn [app].
    rewrite (read_list_ok (read fuel) encode valid_json 93 fuel); [done|done|done| |].
    + apply Forall_forall. intros x Hx. rewrite Forall_forall in IH, Hok. apply encode_reads; [by apply Hok|].
      intros rest' Hr'. apply IH; [done|by apply Hok| |done]. apply list_elem_of_In, (commas_item encode) in Hx. lia.
    + assert (H : Forall (fun x => encode x <> []) l).
      { refine (Forall_impl _ _ Hok). intros x Hx. destruct (encode_head x Hx) as (c & t & E & _). by rewrite E. }
      apply commas_length in H. lia.
  - cbn [encode length] in Hf. rewrite length_app in Hf. cbn in Hok. apply Forall_json_ok in Hok.
    change (fun kv : list Z * json => encode_string kv.1 ++ 58 :: encode kv.2) with encode_field in Hf.
    cbn [encode app read Z.eqb Pos.eqb]. rewrite <- app_assoc. cbn [app].
    change (fun kv : list Z * json => encode_string kv.1 ++ 58 :: encode kv.2) with encode_field.
    rewrite (read_list_ok (read_field (read fuel)) encode_field valid_field 125 fuel); [done|done|done| |].
    + apply Forall_forall. intros x Hx. rewrite Forall_forall in IH, Hok. destruct (Hok x Hx) as [Hk Hv]. apply field_reads; [done|].
      intros rest' Hr'. apply IH; [done|done| |done]. apply list_elem_of_In, (commas_item encode_field) in Hx.
      unfold encode_field in Hx at 1. rewrite length_app in Hx. cbn in Hx. lia.
    + assert (H : Forall (fun x => encode_field x <> []) fs) by (apply Forall_forall; done).
      apply commas_length in H. lia.
Qed.

(** What Encode writes, Unmarshal reads. *)
Lemma Unmarshal_Encode j : json_ok j -> Unmarshal (Encode j) = Some (valid_json j).
Proof.
  intros Hok. unfold Unmarshal, Encode. rewrite read_encode; [done|done| |done]. rewrite length_app. lia.
Qed.
