(* ===== verification/GoQuote.v ===== *)
(** * Quoted strings (strconv.Quote, the verb %q)

    What %q writes, to the byte, and the reading of a label value in the
    Prometheus text format, which knows three escapes only: a quoted text
    reads back as a label value exactly when it needs no other. *)

From stdpp Require Import strings.
From S2P Require Import Prelude GoText GoUtf8 GoJson.

Section Quote.
(** strconv.IsPrint above ASCII, a table of Unicode. *)
Context (isPrint : Z -> bool).

Definition IsPrint (r : Z) : bool := if r <? 128 then between 32 r 126 else isPrint r.

(** \xHH and \UHHHHHHHH *)
Definition hex_escape (b : Z) : list Z := [92; 120; hex_digit (b / 16); hex_digit (b mod 16)].
Definition long_escape (r : Z) : list Z :=
  [92; 85] ++ map (fun k => hex_digit (r / 16 ^ k mod 16)) [7; 6; 5; 4; 3; 2; 1; 0].

(** The letter of a control character: \a \b \t \n \v \f \r. *)
Definition control_letter (r : Z) : option Z :=
  match r with 7 => Some 97 | 8 => Some 98 | 9 => Some 116 | 10 => Some 110 | 11 => Some 118 | 12 => Some 102 | 13 => Some 114 | _ => None end.

(** appendEscapedRune; a byte that is not UTF-8 is \xHH. *)
Definition quote_chunk (c : chunk) : list Z :=
  match c with
  | Bad b => hex_escape b
  | Rune r bs =>
      if (r =? 34) || (r =? 92) then [92; r]
      else if IsPrint r then bs
      else
        match control_letter r with
        | Some l => [92; l]
        | None =>
            if (r <? 32) || (r =? 127) then hex_escape r
            else if r <? 65536 then unicode_escape r
            else long_escape r
        end
  end.

Definition Quote (s : list Z) : list Z := 34 :: concat (map quote_chunk (chunks s)) ++ [34].

(** ** A label value in the Prometheus text format

    After the opening quote; [None]: an escape other than those of the
    backslash, the quote and the newline, or no closing quote. *)
Fixpoint read_label (s : list Z) : option (list Z * list Z) :=
  match s with
  | [] => None
  | c :: s =>
      if c =? 34 then Some ([], s)
      else if c =? 92 then
        match s with
        | [] => None
        | e :: s =>
            if (e =? 34) || (e =? 92) then prepend [e] (read_label s)
            else if e =? 110 then prepend [10] (read_label s)
            else None
        end
      else if c =? 10 then None
      else prepend [c] (read_label s)
  end.

(** The pieces %q writes as the format reads them. *)
Definition label_chunk (c : chunk) : bool :=
  match c with Rune r _ => IsPrint r || (r =? 10) | Bad _ => false end.
Definition label_ok (s : list Z) : bool := forallb label_chunk (chunks s).

(** ** Lemmas *)
Lemma read_label_plain bs rest : Forall (fun b => b <> 34 /\ b <> 92 /\ b <> 10) bs ->
  read_label (bs ++ rest) = prepend bs (read_label rest).
Proof.
  induction 1 as [|b bs (H1 & H2 & H3) _ IH]; cbn [app read_label].
  - by destruct (read_label rest) as [[]|].
  - rewrite (proj2 (Z.eqb_neq b 34)), (proj2 (Z.eqb_neq b 92)), (proj2 (Z.eqb_neq b 10)) by done. rewrite IH.
    by destruct (read_label rest) as [[]|].
Qed.

(** An escape other than the three. *)
Lemma read_label_bad e rest : e <> 34 -> e <> 92 -> e <> 110 -> read_label (92 :: e :: rest) = None.
Proof.
  intros H1 H2 H3. cbn [read_label Z.eqb Pos.eqb].
  by rewrite (proj2 (Z.eqb_neq e 34)), (proj2 (Z.eqb_neq e 92)), (proj2 (Z.eqb_neq e 110)).
Qed.

Lemma control_letter_inv r l : control_letter r = Some l -> 7 <= r <= 13 /\ (l = 110 <-> r = 10) /\ 97 <= l.
Proof.
  unfold control_letter. destruct r as [|p|p]; try done.
  do 4 try (destruct p as [p|p|]; try done); intros [= <-]; lia.
Qed.

Lemma control_letter_none r : control_letter r = None -> r <> 10.
Proof. by intros H ->. Qed.

Lemma read_quote_chunk c rest : chunk_ok c ->
  read_label (quote_chunk c ++ rest) = if label_chunk c then prepend (chunk_bytes c) (read_label rest) else None.
Proof.
  destruct c as [r bs|b]; cbn [quote_chunk label_chunk chunk_bytes chunk_ok]; [|done]. intros Hc.
  destruct ((r =? 34) || (r =? 92)) eqn:E.
  { destruct Hc as [[Hr ->]|[Hr _]]; [|b2p; lia].
    assert (H : r = 34 \/ r = 92) by (apply orb_true_iff in E as [E|E]; b2p; auto). destruct H as [-> | ->]; done. }
  apply orb_false_iff in E as [E1 E2]. b2p. destruct (IsPrint r) eqn:Ep; cbn [orb].
  { apply read_label_plain. destruct Hc as [[Hr ->]|(Hr & Hb & _)].
    - constructor; [|constructor]. unfold IsPrint, between in Ep. rewrite (proj2 (Z.ltb_lt r 128)) in Ep by done. b2p. lia.
    - refine (Forall_impl _ _ Hb). cbn. lia. }
  destruct (control_letter r) as [l|] eqn:El.
  { apply control_letter_inv in El as (Hr & Hl & Hl'). destruct (Z.eqb_spec r 10) as [->|Hn].
    - rewrite (proj2 Hl eq_refl). by destruct Hc as [[_ ->]|[? _]]; [|lia].
    - cbn [app]. apply read_label_bad; [lia|lia|]. tauto. }
  apply control_letter_none in El. rewrite (proj2 (Z.eqb_neq r 10)) by done.
  destruct (_ || _); [by apply (read_label_bad 120)|]. destruct (r <? 65536); [by apply (read_label_bad 117)|by apply (read_label_bad 85)].
Qed.

Lemma read_label_chunks cs rest : Forall chunk_ok cs ->
  read_label (concat (map quote_chunk cs) ++ 34 :: rest) =
  if forallb label_chunk cs then Some (concat (map chunk_bytes cs), rest) else None.
Proof.
  induction 1 as [|c cs Hc _ IH]; [done|]. cbn [map concat forallb]. rewrite <- app_assoc, read_quote_chunk by done.
  destruct (label_chunk c); cbn [andb]; [|done]. rewrite IH. by destruct (forallb label_chunk cs).
Qed.

(** The quoted text as a label value, after its opening quote. *)
Lemma read_label_quote s rest : bytes_ok s ->
  read_label (concat (map quote_chunk (chunks s)) ++ 34 :: rest) = if label_ok s then Some (s, rest) else None.
Proof. intros Hb. destruct (chunks_spec s Hb) as [Hs Hok]. rewrite read_label_chunks by done. by rewrite Hs. Qed.

(** It is on one line. *)
Lemma hex_digit_line n : 0 <= n -> hex_digit n <> 10.
Proof. unfold hex_digit. destruct (n <? 10); lia. Qed.

Lemma quote_chunk_line c : chunk_ok c -> bytes_ok (chunk_bytes c) -> 10 ∉ quote_chunk c.
Proof.
  assert (Hhex : forall n, hex_digit (n mod 16) <> 10).
  { intros n. apply hex_digit_line. pose proof (Z.mod_pos_bound n 16). lia. }
  assert (Hx : forall b, 0 <= b -> 10 ∉ hex_escape b).
  { intros b Hb. unfold hex_escape. rewrite !not_elem_of_cons. split_and!; try done; try (intros H; symmetry in H; revert H); try apply Hhex.
    - apply hex_digit_line, Z.div_pos; lia.
    - apply not_elem_of_nil. }
  destruct c as [r bs|b]; cbn [quote_chunk chunk_bytes chunk_ok]; intros Hc Hb;
    [|apply Hx; inversion Hb as [|? ? H _]; subst; unfold is_u8 in H; lia].
  assert (Hr : 0 <= r).
  { destruct Hc as [[_ ->]|[? _]]; [|lia]. inversion Hb as [|? ? H _]; subst; unfold is_u8 in H; lia. }
  destruct ((r =? 34) || (r =? 92)) eqn:E.
  { assert (r <> 10) by (intros ->; done). rewrite !not_elem_of_cons. split_and!; [done|congruence|apply not_elem_of_nil]. }
  destruct (IsPrint r) eqn:Ep.
  { destruct Hc as [[H ->]|(H & Hbs & _)].
    - unfold IsPrint, between in Ep. rewrite (proj2 (Z.ltb_lt r 128)) in Ep by done. b2p. rewrite list_elem_of_singleton. lia.
    - intros Hin. apply list_elem_of_In in Hin. rewrite Forall_forall in Hbs. apply Hbs in Hin. lia. }
  destruct (control_letter r) as [l|] eqn:El.
  { apply control_letter_inv in El as (_ & _ & Hl). rewrite !not_elem_of_cons. split_and!; [done|lia|apply not_elem_of_nil]. }
  destruct ((r <? 32) || _); [by apply Hx|]. destruct (r <? 65536).
  - unfold unicode_escape. rewrite !not_elem_of_cons. split_and!; try done; try (intros H; symmetry in H; revert H); try apply Hhex.
    + apply hex_digit_line, Z.div_pos; lia.
    + apply not_elem_of_nil.
  - unfold long_escape. rewrite elem_of_app. intros [H|H]; [rewrite !elem_of_cons, elem_of_nil in H; lia|].
    apply list_elem_of_In, in_map_iff in H as (k & H & _). by apply Hhex in H.
Qed.

Lemma Quote_line s : bytes_ok s -> 10 ∉ Quote s.
Proof.
  intros Hb. unfold Quote. apply chunks_ok in Hb. rewrite elem_of_cons, elem_of_app, list_elem_of_singleton.
  intros [?|[H|?]]; [done| |done]. apply list_elem_of_In, in_concat in H as (l & Hl & H).
  apply in_map_iff in Hl as (c & <- & Hc). rewrite Forall_forall in Hb. destruct (Hb c Hc) as [H1 H2].
  by apply (quote_chunk_line c H1 H2), list_elem_of_In.
Qed.
End Quote.

(** No escape but the three: a tab, or a byte that is not UTF-8, is not read. *)
Example quote_tab : read_label (tail (Quote (fun _ => true) [97; 9; 98])) = None.
Proof. reflexivity. Qed.
