(* ===== verification/GoScan.v ===== *)
(** * Scanning (verbs of fmt.Sscanf, strings.TrimSpace, slog levels)

    The readings of flag texts: a port range by the format "%d-%d", the
    trimming of a CIDR and the name of a log level.  They go by runes, so they
    are written over the pieces of a text (GoUtf8). *)

From stdpp Require Import strings.
From S2P Require Import Prelude GoText GoUtf8 GoNet.

(** unicode.IsSpace, the same set as fmt's isSpace. *)
Definition unicode_space (r : Z) : bool :=
  (r =? 32) || between 9 r 13 || (r =? 133) || (r =? 160) || (r =? 5760) || between 8192 r 8202 ||
  (r =? 8232) || (r =? 8233) || (r =? 8239) || (r =? 8287) || (r =? 12288).

Definition space_chunk (c : chunk) : bool := match c with Rune r _ => unicode_space r | Bad _ => false end.

Fixpoint drop_space (cs : list chunk) : list chunk :=
  match cs with c :: cs' => if space_chunk c then drop_space cs' else cs | [] => [] end.

Definition TrimSpace (s : list Z) : list Z :=
  concat (map chunk_bytes (rev (drop_space (rev (drop_space (chunks s)))))).

(** ** fmt.Sscanf(text, "%d-%d", &lo, &hi)

    [None]: an error.  What follows the second number is not read. *)

(** SkipSpace: a newline is an error. *)
Fixpoint SkipSpace (cs : list chunk) : option (list chunk) :=
  match cs with
  | Rune r bs :: cs' =>
      if r =? 10 then None else if unicode_space r then SkipSpace cs' else Some cs
  | _ => Some cs
  end.

(** accept of a sign, then of digits. *)
Definition accept_sign (cs : list chunk) : list Z * list chunk :=
  match cs with
  | Rune r _ :: cs' => if (r =? 43) || (r =? 45) then ([r], cs') else ([], cs)
  | _ => ([], cs)
  end.

Fixpoint accept_digits (cs : list chunk) : list Z * list chunk :=
  match cs with
  | Rune r _ :: cs' => if is_digit r then let '(ds, rest) := accept_digits cs' in (r :: ds, rest) else ([], cs)
  | _ => ([], cs)
  end.

(** scanInt for the verb d. *)
Definition scanInt (cs : list chunk) : option (Z * list chunk) :=
  match SkipSpace cs with
  | Some cs =>
      let '(sign, cs) := accept_sign cs in
      let '(ds, cs) := accept_digits cs in
      match ds with
      | [] => None
      | _ => match ParseInt (sign ++ ds) with Some n => Some (n, cs) | None => None end
      end
  | None => None
  end.

Definition scan_range (text : list Z) : option (Z * Z) :=
  match scanInt (chunks text) with
  | Some (lo, Rune 45 _ :: cs) => match scanInt cs with Some (hi, _) => Some (lo, hi) | None => None end
  | _ => None
  end.

(** ** slog.Level.UnmarshalText *)

(** strings.ToUpper, as far as a comparison with an ASCII name sees it: the
    two runes besides the ASCII letters whose upper case is ASCII. *)
Definition upper_rune (r : Z) : Z :=
  if between 97 r 122 then r - 32 else if r =? 305 then 73 else if r =? 383 then 83 else r.
Definition upper (s : list Z) : list Z :=
  map (fun c => match c with Rune r _ => upper_rune r | Bad _ => 65533 end) (chunks s).

(** strings.IndexAny(s, "+-") and the cut there. *)
Fixpoint cut_sign (s : list Z) : list Z * option (list Z) :=
  match s with
  | [] => ([], None)
  | c :: s' => if (c =? 43) || (c =? 45) then ([], Some s) else let '(a, b) := cut_sign s' in (c :: a, b)
  end.

Definition level_name (n : list Z) : option Z :=
  if bool_decide (n = str "DEBUG") then Some (-4)
  else if bool_decide (n = str "INFO") then Some 0
  else if bool_decide (n = str "WARN") then Some 4
  else if bool_decide (n = str "ERROR") then Some 8
  else None.

Definition Level_parse (s : list Z) : option Z :=
  let '(name, sign) := cut_sign s in
  match match sign with Some t => ParseInt t | None => Some 0 end with
  | Some offset => (fun l => i64 (l + offset)) <$> level_name (upper name)
  | None => None
  end.

(** ** Lemmas *)
Definition ascii (s : list Z) : Prop := Forall (fun c => 0 <= c < 128) s.

Lemma chunks_fuel_ascii a : forall fuel s, ascii a -> (length a <= fuel)%nat ->
  chunks_fuel fuel (a ++ s) = map (fun c => Rune c [c]) a ++ chunks_fuel (fuel - length a) s.
Proof.
  induction a as [|c a IH]; intros fuel s Ha Hf; [by rewrite Nat.sub_0_r|]. inversion Ha as [|? ? Hc Ha']; subst.
  destruct fuel as [|fuel]; [cbn in Hf; lia|]. cbn [app chunks_fuel DecodeRune map length].
  rewrite (proj2 (Z.ltb_lt c 128)) by lia. cbn in Hf. change (drop 1 (c :: a ++ s)) with (drop 0 (a ++ s)). rewrite drop_0, IH by (done || lia). done.
Qed.

Lemma chunks_ascii_app a s : ascii a -> chunks (a ++ s) = map (fun c => Rune c [c]) a ++ chunks s.
Proof.
  intros Ha. unfold chunks. rewrite chunks_fuel_ascii by (done || rewrite length_app; lia). f_equal. f_equal. rewrite length_app. lia.
Qed.

Lemma chunks_ascii a : ascii a -> chunks a = map (fun c => Rune c [c]) a.
Proof. intros Ha. rewrite <- (app_nil_r a) at 1. rewrite chunks_ascii_app by done. apply app_nil_r. Qed.

Lemma chunk_bytes_ascii a : concat (map chunk_bytes (map (fun c => Rune c [c]) a)) = a.
Proof. induction a as [|c a IH]; [done|]. cbn. by rewrite IH. Qed.

(** ASCII text between spaces, with neither end a space. *)
Definition trimmed (s : list Z) : Prop :=
  match head s, head (rev s) with Some a, Some b => unicode_space a = false /\ unicode_space b = false | _, _ => False end.

Lemma drop_space_stop (cs : list Z) rest c t : Forall (fun c => unicode_space c = true) cs -> rest = c :: t -> unicode_space c = false ->
  drop_space (map (fun c => Rune c [c]) (cs ++ rest)) = map (fun c => Rune c [c]) rest.
Proof.
  intros Hs -> Hc. induction Hs as [|x cs Hx _ IH]; cbn; [by rewrite Hc|]. by rewrite Hx.
Qed.

Lemma TrimSpace_pad l s r : ascii l -> ascii s -> ascii r ->
  Forall (fun c => unicode_space c = true) l -> Forall (fun c => unicode_space c = true) r -> trimmed s -> TrimSpace (l ++ s ++ r) = s.
Proof.
  intros Hl Hs Hr Sl Sr Ht. unfold trimmed in Ht. unfold TrimSpace.
  destruct (head s) as [a|] eqn:Ea; [|done]. destruct (head (rev s)) as [b|] eqn:Eb; [|done]. destruct Ht as [Ha Hb].
  rewrite chunks_ascii by (by repeat apply Forall_app_2).
  destruct s as [|a' s]; [done|]. injection Ea as ->.
  rewrite (drop_space_stop l ((a :: s) ++ r) a (s ++ r)) by done.
  rewrite <- map_rev, rev_app_distr.
  destruct (rev (a :: s)) as [|b' t] eqn:Er; [done|]. injection Eb as ->.
  rewrite (drop_space_stop (rev r) (b :: t) b t); [|by apply Forall_rev|done|done].
  rewrite <- Er, <- map_rev, rev_involutive. apply chunk_bytes_ascii.
Qed.

Lemma SkipSpace_digit c cs bs : is_digit c = true -> SkipSpace (Rune c bs :: cs) = Some (Rune c bs :: cs).
Proof.
  intros H. unfold is_digit in H. b2p. cbn. rewrite (proj2 (Z.eqb_neq c 10)) by lia.
  assert (E : unicode_space c = false); [|by rewrite E]. unfold unicode_space, between. rewrite !orb_false_iff.
  repeat split; try (apply Z.eqb_neq; lia); apply andb_false_iff; (left; apply Z.leb_gt; lia) || (right; apply Z.leb_gt; lia).
Qed.

Lemma accept_digits_app ds cs : all_digits ds -> match cs with Rune r _ :: _ => is_digit r = false | _ => True end ->
  accept_digits (map (fun c => Rune c [c]) ds ++ cs) = (ds, cs).
Proof.
  intros Hd Hc. induction Hd as [|d ds Hd _ IH]; cbn [map app accept_digits].
  - destruct cs as [|[r bs|b] cs]; [done| |done]. by cbn; rewrite Hc.
  - by rewrite Hd, IH.
Qed.

Lemma scanInt_decimal n cs : 0 <= n < 2 ^ 63 -> match cs with Rune r _ :: _ => is_digit r = false | _ => True end ->
  scanInt (map (fun c => Rune c [c]) (FormatUint10 n) ++ cs) = Some (n, cs).
Proof.
  intros Hn Hc. destruct (FormatUint10_spec n) as (Hd & Hne & Hv); [width_lia|]. unfold scanInt.
  destruct (FormatUint10 n) as [|d ds] eqn:Ef; [done|]. pose proof (Forall_inv Hd) as Hd1. destruct (digit_not_sign d Hd1) as [Hp Hm].
  cbn [map app]. rewrite SkipSpace_digit by done. cbn [accept_sign].
  rewrite (proj2 (Z.eqb_neq d 43)), (proj2 (Z.eqb_neq d 45)) by done. cbn [orb].
  change (Rune d [d] :: map (fun c => Rune c [c]) ds ++ cs) with (map (fun c => Rune c [c]) (d :: ds) ++ cs).
  rewrite accept_digits_app by done. cbn [app]. rewrite ParseInt_digits by (done || lia). by rewrite Hv.
Qed.

Lemma digits_ascii ds : all_digits ds -> ascii ds.
Proof. intros H. refine (Forall_impl _ _ H). intros c Hc. unfold is_digit in Hc. b2p. lia. Qed.

(** A range written as two numbers reads back, whatever follows it but a
    digit. *)
Lemma scan_range_written lo hi rest : 0 <= lo < 2 ^ 63 -> 0 <= hi < 2 ^ 63 ->
  match chunks rest with Rune r _ :: _ => is_digit r = false | _ => True end ->
  scan_range (FormatUint10 lo ++ 45 :: FormatUint10 hi ++ rest) = Some (lo, hi).
Proof.
  intros Hlo Hhi Hr. unfold scan_range.
  destruct (FormatUint10_spec lo) as (Hd & _ & _); [width_lia|]. destruct (FormatUint10_spec hi) as (Hd' & _ & _); [width_lia|].
  rewrite chunks_ascii_app by (by apply digits_ascii).
  change (45 :: FormatUint10 hi ++ rest) with ([45] ++ FormatUint10 hi ++ rest).
  rewrite chunks_ascii_app by (by repeat constructor). rewrite chunks_ascii_app by (by apply digits_ascii).
  rewrite scanInt_decimal by done. cbn [map app]. by rewrite scanInt_decimal.
Qed.

Example level_names : map (fun s => Level_parse (str s)) ["info"; "Debug"; "WARN+2"; "error-1"; "verbose"; "info+"]%string
  = [Some 0; Some (-4); Some 6; Some 7; None; None].
Proof. reflexivity. Qed.
