(* ===== verification/GoFlag.v ===== *)
(** * Command-line flags (package flag)

    A set of flags with their current values, and Parse over the arguments
    as FlagSet.parseOne does it; the values of integer flags are read by
    strconv.ParseInt with base 0.  A flag can be written in several ways;
    the theorem is that every one sets it, the last one winning. *)

From stdpp Require Import strings.
From S2P Require Import Prelude GoText GoNet GoUtf8 GoUrl.

(** ** Integers with a base prefix *)

(** lower(c): c | 0x20. *)
Definition lower (c : Z) : Z := Z.lor c 32.

(** The value of a digit in any base up to 36. *)
Definition digit_of (c : Z) : option Z :=
  if is_digit c then Some (c - 48)
  else if between 97 (lower c) 122 then Some (lower c - 97 + 10)
  else None.

(** The digits, underscores skipped; the number may exceed 64 bits. *)
Fixpoint scan_digits (base n : Z) (s : list Z) : option Z :=
  match s with
  | [] => Some n
  | c :: s =>
      if c =? 95 then scan_digits base n s
      else
        match digit_of c with
        | Some d => if d <? base then scan_digits base (n * base + d) s else None
        | None => None
        end
  end.

(** The base and the digits after the prefix. *)
Definition base_prefix (s : list Z) : Z * list Z :=
  match s with
  | z :: c :: ((_ :: _) as rest) =>
      if z =? 48 then
        if lower c =? 98 then (2, rest)
        else if lower c =? 111 then (8, rest)
        else if lower c =? 120 then (16, rest)
        else (8, c :: rest)
      else (10, s)
  | z :: rest => if z =? 48 then (8, rest) else (10, s)
  | [] => (10, [])
  end.

(** underscoreOK: an underscore only between digits, the base prefix
    counting as one. *)
Inductive saw : Type := SawStart | SawDigit | SawUnderscore | SawOther.

Fixpoint underscore_loop (hex : bool) (st : saw) (s : list Z) : bool :=
  match s with
  | [] => match st with SawUnderscore => false | _ => true end
  | c :: s =>
      if is_digit c || (hex && between 97 (lower c) 102) then underscore_loop hex SawDigit s
      else if c =? 95 then match st with SawDigit => underscore_loop hex SawUnderscore s | _ => false end
      else match st with SawUnderscore => false | _ => underscore_loop hex SawOther s end
  end.

Definition underscoreOK (s : list Z) : bool :=
  match s with
  | z :: c :: rest =>
      if (z =? 48) && ((lower c =? 98) || (lower c =? 111) || (lower c =? 120))
      then underscore_loop (lower c =? 120) SawDigit rest
      else underscore_loop false SawStart s
  | _ => underscore_loop false SawStart s
  end.

(** ParseUint(s, 0, 64) up to the range check. *)
Definition ParseUint0 (s : list Z) : option Z :=
  match s with
  | [] => None
  | _ =>
      let '(base, ds) := base_prefix s in
      match scan_digits base 0 ds with
      | Some n => if existsb (Z.eqb 95) ds && negb (underscoreOK s) then None else Some n
      | None => None
      end
  end.

(** ParseInt(s, 0, 64). *)
Definition ParseInt0 (s : list Z) : option Z :=
  let '(neg, t) :=
    match s with
    | c :: t => if c =? 43 then (false, t) else if c =? 45 then (true, t) else (false, s)
    | [] => (false, [])
    end in
  match ParseUint0 t with
  | Some n =>
      if neg then (if n <=? 2 ^ 63 then Some (- n) else None)
      else (if n <? 2 ^ 63 then Some n else None)
  | None => None
  end.

Definition ParseBool (s : list Z) : option bool :=
  if existsb (fun w => bool_decide (s = str w)) ["1"; "t"; "T"; "true"; "TRUE"; "True"]%string then Some true
  else if existsb (fun w => bool_decide (s = str w)) ["0"; "f"; "F"; "false"; "FALSE"; "False"]%string then Some false
  else None.

(** ** A flag set *)
Inductive flagValue : Type :=
| FString (s : list Z)
| FInt (n : Z)
| FBool (b : bool).

(** Value.Set: the value keeps its kind; [None] is an error. *)
Definition flag_Set (v : flagValue) (text : list Z) : option flagValue :=
  match v with
  | FString _ => Some (FString text)
  | FInt _ => FInt <$> ParseInt0 text
  | FBool _ => FBool <$> ParseBool text
  end.

(** The flags by name. *)
Definition FlagSet : Type := list (list Z * flagValue).

Fixpoint formal (fs : FlagSet) (name : list Z) : option flagValue :=
  match fs with
  | [] => None
  | (n, v) :: fs => if bool_decide (n = name) then Some v else formal fs name
  end.

Fixpoint assign (fs : FlagSet) (name : list Z) (v : flagValue) : FlagSet :=
  match fs with
  | [] => []
  | (n, w) :: fs => if bool_decide (n = name) then (n, v) :: fs else (n, w) :: assign fs name v
  end.

(** An argument that is a flag: the name and the value after the first equals
    sign that is not its first character. *)
Definition split_equals (name : list Z) : list Z * option (list Z) :=
  match name with
  | [] => ([], None)
  | c :: t => let '(n, v) := cut_byte 61 t in (c :: n, v)
  end.

(** How an argument starts. *)
Inductive argument : Type :=
| NotFlag
| Terminator
| BadSyntax
| AFlag (name : list Z).

Definition classify (s : list Z) : argument :=
  match s with
  | m :: c :: rest =>
      if m =? 45 then
        let name := if c =? 45 then rest else c :: rest in
        if (c =? 45) && bool_decide (rest = []) then Terminator
        else
          match name with
          | [] => BadSyntax
          | x :: _ => if (x =? 45) || (x =? 61) then BadSyntax else AFlag name
          end
      else NotFlag
  | _ => NotFlag
  end.

(** The end of Parse: the values and the arguments left, or, with
    ExitOnError, the end of the process with 0 (help asked) or 2. *)
Inductive parseResult : Type :=
| Parsed (fs : FlagSet) (rest : list (list Z))
| Help
| Bad_flag.

Fixpoint Parse (fs : FlagSet) (args : list (list Z)) : parseResult :=
  match args with
  | [] => Parsed fs []
  | s :: rest =>
      match classify s with
      | NotFlag => Parsed fs args
      | Terminator => Parsed fs rest
      | BadSyntax => Bad_flag
      | AFlag name =>
          let '(name, value) := split_equals name in
          match formal fs name with
          | None => if bool_decide (name = str "help") || bool_decide (name = str "h") then Help else Bad_flag
          | Some v =>
              match v, value with
              | _, Some text =>
                  match flag_Set v text with Some v => Parse (assign fs name v) rest | None => Bad_flag end
              | FBool _, None =>
                  match flag_Set v (str "true") with Some v => Parse (assign fs name v) rest | None => Bad_flag end
              | _, None =>
                  match rest with
                  | text :: rest =>
                      match flag_Set v text with Some v => Parse (assign fs name v) rest | None => Bad_flag end
                  | [] => Bad_flag
                  end
              end
          end
      end
  end.

(** ** Ways to write a flag *)
Inductive form : Type :=
| Equals   (** -name=value *)
| Next     (** -name value *)
| Alone.   (** -name, of a boolean flag *)

Record setting := mkSetting {
  sg_name : list Z;
  sg_text : list Z;
  sg_double : bool;
  sg_form : form
}.

Definition setting_args (st : setting) : list (list Z) :=
  let dash := if sg_double st then [45; 45] else [45] in
  match sg_form st with
  | Equals => [dash ++ sg_name st ++ 61 :: sg_text st]
  | Next => [dash ++ sg_name st; sg_text st]
  | Alone => [dash ++ sg_name st]
  end.

Definition is_bool (v : flagValue) : bool := match v with FBool _ => true | _ => false end.

(** The flag exists, takes the value, and can be written this way. *)
Definition setting_ok (fs : FlagSet) (st : setting) : bool :=
  match formal fs (sg_name st) with
  | Some v =>
      match flag_Set v (sg_text st) with Some _ => true | None => false end &&
      match sg_form st with
      | Equals => true
      | Next => negb (is_bool v)
      | Alone => is_bool v && bool_decide (sg_text st = str "true")
      end
  | None => false
  end.

Definition apply_setting (fs : FlagSet) (st : setting) : FlagSet :=
  match formal fs (sg_name st) with
  | Some v => match flag_Set v (sg_text st) with Some v => assign fs (sg_name st) v | None => fs end
  | None => fs
  end.

(** A name is not empty, has no equals sign and does not start with a
    dash. *)
Definition name_ok (n : list Z) : bool :=
  match n with [] => false | c :: t => negb ((c =? 45) || (c =? 61)) && negb (existsb (Z.eqb 61) t) end.
Definition names_ok (fs : FlagSet) : bool := forallb (fun nv => name_ok nv.1) fs.

(** The value of a flag after settings: the last one of its name. *)
Definition final_value (fs : FlagSet) (sts : list setting) (name : list Z) : option flagValue :=
  match list.last (filter (fun st => sg_name st = name) sts) with
  | Some st => formal fs name ≫= fun v => flag_Set v (sg_text st)
  | None => formal fs name
  end.

(** ** Lemmas *)
Inductive kind : Type := KString | KInt | KBool.
Definition kind_of (v : flagValue) : kind := match v with FString _ => KString | FInt _ => KInt | FBool _ => KBool end.
Definition kinds (fs : FlagSet) : list (list Z * kind) := map (fun nv => (nv.1, kind_of nv.2)) fs.

Lemma flag_Set_kind v t w : flag_Set v t = Some w -> kind_of w = kind_of v.
Proof. destruct v; cbn; [by intros [= <-]|..]; intros H; apply fmap_Some in H as (x & _ & ->); done. Qed.

Lemma flag_Set_same v w : kind_of v = kind_of w -> flag_Set v = flag_Set w.
Proof. by destruct v, w. Qed.

Lemma assign_kinds fs n v w : formal fs n = Some w -> kind_of v = kind_of w -> kinds (assign fs n v) = kinds fs.
Proof.
  intros Hf Hk. induction fs as [|[m u] fs IH]; [done|]. cbn in *. destruct (bool_decide (m = n)) eqn:E; cbn.
  - injection Hf as ->. by rewrite Hk.
  - f_equal. by apply IH.
Qed.

Lemma formal_kinds fs fs' n : kinds fs = kinds fs' ->
  match formal fs n, formal fs' n with Some v, Some w => kind_of v = kind_of w | None, None => True | _, _ => False end.
Proof.
  revert fs'. induction fs as [|[m v] fs IH]; intros [|[m' v'] fs'] H; try done. cbn in H. injection H as -> Hk H.
  cbn. destruct (bool_decide (m' = n)); [done|]. by apply IH.
Qed.

Lemma formal_assign fs n v m : formal (assign fs n v) m = if bool_decide (n = m) then (fun _ => v) <$> formal fs n else formal fs m.
Proof.
  induction fs as [|[k u] fs IH]; cbn; [by destruct (bool_decide _)|].
  destruct (bool_decide (k = n)) eqn:Ekn; cbn.
  - apply bool_decide_eq_true in Ekn as ->. by destruct (bool_decide (n = m)) eqn:E.
  - rewrite IH. destruct (bool_decide (n = m)) eqn:E; [|by destruct (bool_decide (k = m))].
    apply bool_decide_eq_true in E as ->. by rewrite Ekn.
Qed.

Lemma apply_kinds fs st : kinds (apply_setting fs st) = kinds fs.
Proof.
  unfold apply_setting. destruct (formal fs (sg_name st)) as [v|] eqn:Ef; [|done].
  destruct (flag_Set v (sg_text st)) as [w|] eqn:Es; [|done]. apply (assign_kinds _ _ _ v Ef). by apply flag_Set_kind in Es.
Qed.

Lemma setting_ok_kinds fs fs' st : kinds fs = kinds fs' -> setting_ok fs st = setting_ok fs' st.
Proof.
  intros Hk. pose proof (formal_kinds _ _ (sg_name st) Hk) as H. unfold setting_ok.
  destruct (formal fs (sg_name st)) as [v|], (formal fs' (sg_name st)) as [w|]; try done.
  rewrite (flag_Set_same v w H). by destruct v, w.
Qed.

Lemma settings_ok_kinds fs fs' sts : kinds fs = kinds fs' -> forallb (setting_ok fs) sts = forallb (setting_ok fs') sts.
Proof. intros Hk. induction sts as [|st sts IH]; [done|]. cbn. by rewrite (setting_ok_kinds fs fs' st Hk), IH. Qed.

Lemma names_ok_kinds fs : names_ok fs = forallb (fun nk => name_ok nk.1) (kinds fs).
Proof. unfold names_ok, kinds. induction fs as [|nv fs IH]; [done|]. cbn. f_equal. apply IH. Qed.

Lemma formal_name_ok fs n v : names_ok fs = true -> formal fs n = Some v -> name_ok n = true.
Proof.
  unfold names_ok. induction fs as [|[m w] fs IH]; [done|]. cbn. intros [H1 H2]%andb_prop.
  destruct (bool_decide (m = n)) eqn:E; [|by apply IH]. by apply bool_decide_eq_true in E as ->.
Qed.

Lemma classify_name n (double : bool) t : name_ok n = true ->
  classify ((if double then [45; 45] else [45]) ++ n ++ t) = AFlag (n ++ t).
Proof.
  destruct n as [|c n]; [done|]. cbn [name_ok]. intros [H _]%andb_prop.
  assert (Hd : c <> 45) by (intros ->; done). destruct double; cbn [app classify Z.eqb Pos.eqb andb].
  - rewrite bool_decide_false by done. apply negb_true_iff in H. by rewrite H.
  - apply negb_true_iff in H. by rewrite (proj2 (Z.eqb_neq c 45) Hd), ?(proj2 (Z.eqb_neq c 45) Hd) in H |- *; rewrite (proj2 (Z.eqb_neq c 45) Hd), H.
Qed.

Lemma cut_byte_none c s : existsb (Z.eqb c) s = false -> cut_byte c s = (s, None).
Proof.
  induction s as [|x s IH]; [done|]. cbn [existsb cut_byte]. intros [H1 H2]%orb_false_iff.
  rewrite Z.eqb_sym, H1. by rewrite (IH H2).
Qed.

Lemma split_name n : name_ok n = true -> split_equals n = (n, None) /\ forall t, split_equals (n ++ 61 :: t) = (n, Some t).
Proof.
  destruct n as [|c n]; [done|]. cbn [name_ok]. intros [_ H%negb_true_iff]%andb_prop. unfold split_equals. cbn [app].
  split; [by rewrite cut_byte_none|]. intros t. rewrite cut_byte_stop; [done|].
  intros Hin%list_elem_of_In. assert (existsb (Z.eqb 61) n = true) by (apply existsb_exists; by exists 61). congruence.
Qed.

(** One setting, however it is written. *)
Lemma Parse_setting fs st rest : names_ok fs = true -> setting_ok fs st = true ->
  Parse fs (setting_args st ++ rest) = Parse (apply_setting fs st) rest.
Proof.
  intros Hn Hs. unfold setting_ok, apply_setting in *. destruct (formal fs (sg_name st)) as [v|] eqn:Ef; [|done].
  destruct (flag_Set v (sg_text st)) as [w|] eqn:Es; [|done]. cbn [andb] in Hs.
  pose proof (formal_name_ok _ _ _ Hn Ef) as Hname. destruct (split_name _ Hname) as [Hsp Hspe]. unfold setting_args.
  pose proof (classify_name (sg_name st) (sg_double st) [] Hname) as Hc. rewrite app_nil_r in Hc.
  destruct (sg_form st); cbn [app Parse].
  - rewrite (classify_name _ _ _ Hname), Hspe, Ef. destruct v; cbv beta iota; by rewrite Es.
  - rewrite Hc, Hsp, Ef. by destruct v; [rewrite Es|rewrite Es|].
  - apply andb_prop in Hs as [Hb Ht%bool_decide_eq_true]. rewrite Hc, Hsp, Ef, <- Ht. by destruct v; [| |rewrite Es].
Qed.

Lemma Parse_settings sts : forall fs rest, names_ok fs = true -> forallb (setting_ok fs) sts = true ->
  Parse fs (concat (map setting_args sts) ++ rest) = Parse (fold_left apply_setting sts fs) rest.
Proof.
  induction sts as [|st sts IH]; intros fs rest Hn Hs; [done|]. cbn [forallb] in Hs. apply andb_prop in Hs as [H1 H2].
  cbn [map concat fold_left]. rewrite <- app_assoc, Parse_setting by done. apply IH.
  - by rewrite names_ok_kinds, apply_kinds, <- names_ok_kinds.
  - by rewrite (settings_ok_kinds _ fs) by apply apply_kinds.
Qed.

Lemma final_value_spec sts : forall fs name, forallb (setting_ok fs) sts = true ->
  formal (fold_left apply_setting sts fs) name = final_value fs sts name.
Proof.
  induction sts as [|st sts IH]; intros fs name Hs; [done|]. cbn [forallb] in Hs. apply andb_prop in Hs as [H1 H2].
  cbn [fold_left]. rewrite IH.
  2: { by rewrite (settings_ok_kinds _ fs) by apply apply_kinds. }
  unfold final_value. rewrite filter_cons.
  pose proof (formal_kinds _ _ name (apply_kinds fs st)) as Hk.
  assert (Hsame : forall t, (formal (apply_setting fs st) name ≫= fun v => flag_Set v t) = (formal fs name ≫= fun v => flag_Set v t)).
  { intros t. destruct (formal (apply_setting fs st) name) as [v|], (formal fs name) as [w|]; try done. cbn. by rewrite (flag_Set_same v w). }
  destruct (decide (sg_name st = name)) as [<-|Hne].
  - rewrite last_cons. destruct (list.last (filter _ sts)) as [x|]; [apply Hsame|].
    unfold apply_setting, setting_ok in *. destruct (formal fs (sg_name st)) as [v|] eqn:Ef; [|done]. cbn.
    destruct (flag_Set v (sg_text st)) as [w|]; [|done]. rewrite formal_assign, bool_decide_true by done. by rewrite Ef.
  - destruct (list.last (filter _ sts)) as [x|]; [apply Hsame|]. unfold apply_setting.
    destruct (formal fs (sg_name st)) as [v|]; [|done]. destruct (flag_Set v (sg_text st)); [|done].
    by rewrite formal_assign, bool_decide_false.
Qed.

(** Parse sets values and changes no kind. *)
Lemma Parse_kinds args : forall fs fs' rest, Parse fs args = Parsed fs' rest -> kinds fs' = kinds fs.
Proof.
  induction args as [args IH] using (well_founded_induction (Wf_nat.well_founded_ltof _ (@length (list Z)))).
  unfold Wf_nat.ltof in IH. destruct args as [|s args]; intros fs fs' rest; cbn [Parse]; [by intros [= <- _]|].
  assert (Hset : forall name v text args', formal fs name = Some v -> (length args' < length (s :: args))%nat ->
    match flag_Set v text with Some v => Parse (assign fs name v) args' | None => Bad_flag end = Parsed fs' rest -> kinds fs' = kinds fs).
  { intros name v text args' Hf Hl. destruct (flag_Set v text) as [w|] eqn:Es; [|done]. intros H.
    rewrite (IH args' Hl _ _ _ H). apply (assign_kinds _ _ _ v Hf). by apply flag_Set_kind in Es. }
  destruct (classify s) as [| | |name]; try (by intros [= <- _]); try done.
  destruct (split_equals name) as [n value]. destruct (formal fs n) as [v|] eqn:Ef; [|by destruct (_ || _)].
  destruct v, value, args; try done; intros H; eapply Hset in H; eauto; cbn; lia.
Qed.

(** ** Numbers written in decimal *)
Lemma scan_decimal ds : forall n, all_digits ds -> scan_digits 10 n ds = Some (fold_left (fun v d => v * 10 + (d - 48)) ds n).
Proof.
  induction ds as [|d ds IH]; intros n Hd; [done|]. inversion Hd as [|? ? H1 H2]; subst. cbn [scan_digits fold_left].
  unfold is_digit in H1. b2p. rewrite (proj2 (Z.eqb_neq d 95)) by lia.
  unfold digit_of, is_digit. rewrite (proj2 (Z.leb_le 48 d)), (proj2 (Z.leb_le d 57)) by lia. cbn [andb].
  rewrite (proj2 (Z.ltb_lt (d - 48) 10)) by lia. by apply IH.
Qed.

(** A decimal number reads back, whatever its size. *)
Lemma ParseInt0_Format n : 0 <= n < 2 ^ 63 -> ParseInt0 (FormatUint10 n) = Some n.
Proof.
  intros Hn. destruct (FormatUint10_spec n) as (Hd & Hne & Hv); [width_lia|].
  assert (Hz : n = 0 \/ head (FormatUint10 n) <> Some 48).
  { destruct (Z.eq_dec n 0); [by left|]. right. apply FormatUint10_head. width_lia. }
  destruct Hz as [-> | Hh]; [reflexivity|]. destruct (FormatUint10 n) as [|c ds] eqn:Ef; [done|].
  cbn in Hh. assert (Hc : c <> 48) by congruence. destruct (digit_not_sign c (Forall_inv Hd)) as [Hp Hm].
  unfold ParseInt0. rewrite (proj2 (Z.eqb_neq c 43)), (proj2 (Z.eqb_neq c 45)) by done.
  assert (Hbase : base_prefix (c :: ds) = (10, c :: ds)).
  { unfold base_prefix. rewrite (proj2 (Z.eqb_neq c 48)) by done. by destruct ds as [|? []]. }
  unfold ParseUint0. rewrite Hbase, scan_decimal by done. change (fold_left _ (c :: ds) 0) with (digits_value (c :: ds)). rewrite Hv.
  assert (Hu : existsb (Z.eqb 95) (c :: ds) = false).
  { apply not_true_is_false. intros (x & Hx & <-%Z.eqb_eq)%existsb_exists.
    apply (proj1 (Forall_forall _ _) Hd) in Hx. done. }
  rewrite Hu. cbn [andb]. rewrite (proj2 (Z.ltb_lt n (2 ^ 63))); [done|lia].
Qed.
