(* ===== verification/Server.v ===== *)
(** * The TR-471 control server (internal/udpst/server.go)

    The server's configuration and mutex-guarded state, the setup handler
    with its checks in the source's order, bandwidth admission, the session
    socket allocation, the response (signed or not) and the control loop's
    treatment of one datagram.  Packets sent are outputs; the clock readings
    and the outcome of binding a port are inputs of each call. *)

From stdpp Require Import gmap strings.
From S2P Require Import Prelude GoFloat Srates Protocol GoTime Sha256 Auth GoNet.

Definition watchdogTimeout : Z := 3 * Second.
Definition noTrafficWarning : Z := Second.

Record Config := mkConfig {
  Keys : gmap Z (list Z);
  MaxBandwidthMbps : Z;
  Jumbo : bool;
  TraditionalMTU : bool;
  MaxTestSeconds : Z;
  MaxSessions : Z;
  TestPortMin : Z;
  TestPortMax : Z;
  Allow : option (Addr -> bool)
}.

Record Server := mkServer {
  cfg : Config;
  table : RateTable;
  usedUS : Z;
  usedDS : Z;
  sessions : Z;
  nextPort : Z;
  closed : bool;
  testsUpstream : Z;
  testsDownstream : Z;
  setupAccepts : Z;
  setupRejects : Z
}.

(** Assignments to the guarded fields. *)
Definition set_used (s : Server) (us ds : Z) : Server :=
  mkServer (cfg s) (table s) us ds (sessions s) (nextPort s) (closed s)
    (testsUpstream s) (testsDownstream s) (setupAccepts s) (setupRejects s).
Definition set_sessions (s : Server) (n : Z) : Server :=
  mkServer (cfg s) (table s) (usedUS s) (usedDS s) n (nextPort s) (closed s)
    (testsUpstream s) (testsDownstream s) (setupAccepts s) (setupRejects s).
Definition set_nextPort (s : Server) (p : Z) : Server :=
  mkServer (cfg s) (table s) (usedUS s) (usedDS s) (sessions s) p (closed s)
    (testsUpstream s) (testsDownstream s) (setupAccepts s) (setupRejects s).
Definition set_closed (s : Server) : Server :=
  mkServer (cfg s) (table s) (usedUS s) (usedDS s) (sessions s) (nextPort s) true
    (testsUpstream s) (testsDownstream s) (setupAccepts s) (setupRejects s).
Definition set_counts (s : Server) (accepts rejects : Z) : Server :=
  mkServer (cfg s) (table s) (usedUS s) (usedDS s) (sessions s) (nextPort s) (closed s)
    (testsUpstream s) (testsDownstream s) accepts rejects.
Definition set_tests (s : Server) (us ds : Z) : Server :=
  mkServer (cfg s) (table s) (usedUS s) (usedDS s) (sessions s) (nextPort s) (closed s)
    us ds (setupAccepts s) (setupRejects s).

Definition NewServer (c : Config) : Server :=
  let c := if MaxSessions c =? 0
           then mkConfig (Keys c) (MaxBandwidthMbps c) (Jumbo c) (TraditionalMTU c)
                  (MaxTestSeconds c) 256 (TestPortMin c) (TestPortMax c) (Allow c)
           else c in
  mkServer c (BuildRateTable (Jumbo c) (TraditionalMTU c)) 0 0 0 (TestPortMin c) false 0 0 0 0.

Record Stats := mkStats {
  ActiveSessions : Z;
  UpstreamMbpsAllocated : Z;
  DownstreamMbpsAllocated : Z;
  TestsUpstream : Z;
  TestsDownstream : Z;
  SetupAccepts : Z;
  SetupRejects : Z
}.

Definition Server_Stats (s : Server) : Stats :=
  mkStats (sessions s) (usedUS s) (usedDS s) (testsUpstream s) (testsDownstream s)
    (setupAccepts s) (setupRejects s).

Definition reserveBandwidth (s : Server) (upstream : bool) (mbw : Z) : Server * bool :=
  let used := if upstream then usedUS s else usedDS s in
  if MaxBandwidthMbps (cfg s) <? used + mbw then (s, false)
  else if upstream then (set_used s (used + mbw) (usedDS s), true)
  else (set_used s (usedUS s) (used + mbw), true).

Definition releaseBandwidth (s : Server) (upstream : bool) (mbw : Z) : Server :=
  if upstream then set_used s (usedUS s - mbw) (usedDS s)
  else set_used s (usedUS s) (usedDS s - mbw).

Definition sessionDone (s : Server) : Server := set_sessions s (sessions s - 1).

(** The scan of the test port range from [start]: the first port that binds.
    [listen port] is the outcome of net.ListenUDP, the bound port on
    success. *)
Fixpoint scan_ports (listen : Z -> option Z) (lo span start : Z) (idxs : list Z) : option (Z * Z) :=
  match idxs with
  | [] => None
  | i :: idxs =>
      let port := lo + Z.rem (start - lo + i) span in
      match listen port with
      | Some bound => Some (port, bound)
      | None => scan_ports listen lo span start idxs
      end
  end.

(** The new socket is represented by its local port. *)
Definition newSessionSocket (s : Server) (listen : Z -> option Z) : Server * option Z :=
  if closed s then (s, None)
  else if MaxSessions (cfg s) <=? sessions s then (s, None)
  else
    let s := set_sessions s (sessions s + 1) in
    let lo := TestPortMin (cfg s) in
    let hi := TestPortMax (cfg s) in
    if (0 <? lo) && (lo <=? hi) then
      let span := hi - lo + 1 in
      match scan_ports listen lo span (nextPort s) (seqZ 0 span) with
      | Some (port, bound) =>
          (set_nextPort s (if hi <? port + 1 then lo else port + 1), Some bound)
      | None => (sessionDone s, None)
      end
    else
      match listen 0 with
      | Some bound => (s, Some bound)
      | None => (sessionDone s, None)
      end.

(** What handleSetup hands to the session goroutine. *)
Record setupSession := mkSetupSession {
  ss_port : Z;
  ss_setupPeer : AddrPort;
  ss_pver : Z;
  ss_authMode : Z;
  ss_keys : option sessionKeys;
  ss_legacyKey : option (list Z);
  ss_bwMbps : Z;
  ss_bwUpstream : bool
}.

(** Datagrams sent, on the control socket or on the socket of a session. *)
Inductive Out : Type :=
| SendControl (pdu : list Z) (peer : AddrPort)
| SendTest (port : Z) (pdu : list Z) (peer : AddrPort).

(** The inputs of one call: three readings of the clock and the outcome of
    binding a port. *)
Record SetupEnv := mkEnv {
  env_since : Time;
  env_null : Time;
  env_resp : Time;
  env_listen : Z -> option Z
}.

(** Field assignments on a Setup PDU. *)
Definition setup_cmd (p : SetupPDU) (req resp : Z) : SetupPDU :=
  mkSetup (Su_ProtocolVer p) (Su_MCIndex p) (Su_MCCount p) (Su_MCIdent p) req resp
    (Su_MaxBandwidth p) (Su_TestPort p) (Su_Modifiers p) (Su_Auth p).
Definition setup_ver (p : SetupPDU) (v : Z) : SetupPDU :=
  mkSetup v (Su_MCIndex p) (Su_MCCount p) (Su_MCIdent p) (Su_CmdRequest p) (Su_CmdResponse p)
    (Su_MaxBandwidth p) (Su_TestPort p) (Su_Modifiers p) (Su_Auth p).
Definition setup_port (p : SetupPDU) (port : Z) : SetupPDU :=
  mkSetup (Su_ProtocolVer p) (Su_MCIndex p) (Su_MCCount p) (Su_MCIdent p) (Su_CmdRequest p)
    (Su_CmdResponse p) (Su_MaxBandwidth p) port (Su_Modifiers p) (Su_Auth p).
Definition setup_time (p : SetupPDU) (t : Z) : SetupPDU :=
  let a := Su_Auth p in
  mkSetup (Su_ProtocolVer p) (Su_MCIndex p) (Su_MCCount p) (Su_MCIdent p) (Su_CmdRequest p)
    (Su_CmdResponse p) (Su_MaxBandwidth p) (Su_TestPort p) (Su_Modifiers p)
    (mkAuth (AuthMode a) t (AuthDigest a) (KeyID a)).

Inductive authOutcome : Type :=
| AuthPass (keys : option sessionKeys) (legacyKey : option (list Z))
| AuthReject (code : Z) (keys : option sessionKeys) (legacyKey : option (list Z)).

Section Setup.
Context `{M : MAC}.

(** rejectReason: the name of a rejection code in the log. *)
Definition rejectReason (code : Z) : string :=
  if code =? SetupRespBadVersion then "protocol version"
  else if code =? SetupRespBadJumbo then "jumbo option mismatch"
  else if code =? SetupRespAuthNC then "authentication not configured"
  else if code =? SetupRespAuthReq then "authentication required"
  else if code =? SetupRespAuthInv then "authentication mode invalid"
  else if code =? SetupRespAuthFail then "authentication failed"
  else if code =? SetupRespAuthTime then "authentication time window"
  else if code =? SetupRespNoMaxBW then "bandwidth requirement missing"
  else if code =? SetupRespCapExc then "capacity exceeded"
  else if code =? SetupRespBadTMTU then "traditional MTU mismatch"
  else if code =? SetupRespMCInvPar then "multi-connection parameters"
  else if code =? SetupRespConnFail then "connection allocation"
  else "unknown".

Definition sendSetupResponse (s : Server) (resp req : SetupPDU) (keys : option sessionKeys)
    (legacyKey : option (list Z)) (peer : AddrPort) (now : Time) : go (Server * list Out) :=
  let s := if Su_CmdResponse resp =? SetupRespACKOK
           then set_counts s (u64 (setupAccepts s + 1)) (setupRejects s)
           else set_counts s (setupAccepts s) (u64 (setupRejects s + 1)) in
  pdu ← SetupPDU_marshal resp;
  pdu ←
    match keys with
    | Some k =>
        if ProtocolVer <=? Su_ProtocolVer req then
          pdu ← SetupPDU_marshal (setup_time resp (u32 (Unix now)));
          signPDU (key_server k) pdu setupAuthDigestOff
        else
          match legacyKey with
          | Some lk => signPDU lk pdu setupAuthDigestOff
          | None => Ret pdu
          end
    | None =>
        match legacyKey with
        | Some lk => signPDU lk pdu setupAuthDigestOff
        | None => Ret pdu
        end
    end;
  Ret (s, [SendControl pdu peer]).

(** The authentication block at the head of handleSetup. *)
Definition setup_authenticate (c : Config) (req : SetupPDU) (raw : list Z) (now : Time) : go authOutcome :=
  let auth := Su_Auth req in
  if (AuthMode auth =? authModeControl) && negb (bool_decide (Keys c = ∅)) then
    match Keys c !! KeyID auth with
    | None => Ret (AuthReject SetupRespAuthFail None None)
    | Some secret =>
        let checked keys legacyKey :=
          let skew := time_Sub now (time_Unix (AuthUnixTime auth) 0) in
          if (skew <? - authTimeWindow * Second) || (authTimeWindow * Second <? skew)
          then AuthReject SetupRespAuthTime keys legacyKey
          else AuthPass keys legacyKey in
        if ProtocolVer <=? Su_ProtocolVer req then
          let k := deriveSessionKeys secret (AuthUnixTime auth) in
          ok ← verifyDigest (key_client k) raw setupAuthDigestOff (AuthDigest auth);
          Ret (if negb ok then AuthReject SetupRespAuthFail None None else checked (Some k) None)
        else
          ok ← verifyDigest secret raw setupAuthDigestOff (AuthDigest auth);
          Ret (if negb ok then AuthReject SetupRespAuthFail None None else checked None (Some secret))
    end
  else Ret (AuthPass None None).

(** The version, multi-connection and MTU checks: the rejection code. *)
Definition setup_check (c : Config) (req : SetupPDU) : option Z :=
  if (Su_ProtocolVer req <? ProtocolMin) || (ProtocolVer <? Su_ProtocolVer req)
  then Some SetupRespBadVersion
  else if (Su_MCCount req =? 0) || (24 <? Su_MCCount req) || (Su_MCCount req <=? Su_MCIndex req)
  then Some SetupRespMCInvPar
  else if negb (Bool.eqb (negb (Z.land (Su_Modifiers req) modJumbo =? 0)) (Jumbo c))
  then Some SetupRespBadJumbo
  else if negb (Bool.eqb (negb (Z.land (Su_Modifiers req) modTraditionalMTU =? 0)) (TraditionalMTU c))
  then Some SetupRespBadTMTU
  else None.

(** The switch on the authentication mode after admission. *)
Definition setup_mode (c : Config) (req : SetupPDU) : option Z :=
  let mode := AuthMode (Su_Auth req) in
  if (mode =? authModeControl) && bool_decide (Keys c = ∅) then Some SetupRespAuthNC
  else if (mode =? authModeNone) && negb (bool_decide (Keys c = ∅)) then Some SetupRespAuthReq
  else if authModeControl <? mode then Some SetupRespAuthInv
  else None.

Definition handleSetup (s : Server) (req : SetupPDU) (raw : list Z) (peer : AddrPort) (env : SetupEnv)
    : go (Server * list Out * option setupSession) :=
  let resp := setup_cmd req cmdSetupResponse (Su_CmdResponse req) in
  let reject s resp code keys legacyKey :=
    r ← sendSetupResponse s (setup_cmd resp (Su_CmdRequest resp) code) req keys legacyKey peer (env_resp env);
    Ret ((r : Server * list Out).1, r.2, None) in
  a ← setup_authenticate (cfg s) req raw (env_since env);
  match a with
  | AuthReject code keys legacyKey => reject s resp code keys legacyKey
  | AuthPass keys legacyKey =>
      match setup_check (cfg s) req with
      | Some code =>
          let resp := if code =? SetupRespBadVersion then setup_ver resp ProtocolVer else resp in
          reject s resp code keys legacyKey
      | None =>
          let upstream := negb (Z.land (Su_MaxBandwidth req) bwUpstreamBit =? 0) in
          let mbw := Z.ldiff (Su_MaxBandwidth req) bwUpstreamBit in
          if (0 <? MaxBandwidthMbps (cfg s)) && (mbw =? 0) then
            reject s resp SetupRespNoMaxBW keys legacyKey
          else
            let '(s, ok) := if 0 <? MaxBandwidthMbps (cfg s) then reserveBandwidth s upstream mbw else (s, true) in
            let mbw := if 0 <? MaxBandwidthMbps (cfg s) then mbw else 0 in
            if negb ok then reject s resp SetupRespCapExc keys legacyKey
            else
              let releaseOnErr s := if 0 <? mbw then releaseBandwidth s upstream mbw else s in
              match setup_mode (cfg s) req with
              | Some code => reject (releaseOnErr s) resp code keys legacyKey
              | None =>
                  let '(s, sock) := newSessionSocket s (env_listen env) in
                  match sock with
                  | None => reject (releaseOnErr s) resp SetupRespConnFail keys legacyKey
                  | Some port =>
                      let sess := mkSetupSession port peer (Su_ProtocolVer req) (AuthMode (Su_Auth req))
                                    keys legacyKey mbw upstream in
                      nullOut ←
                        if ProtocolVer <=? Su_ProtocolVer req then
                          pdu ← NullPDU_marshal (mkNull (Su_ProtocolVer req)
                                  (mkAuth (AuthMode (Su_Auth req)) (u32 (Unix (env_null env)))
                                     (make_bytes 32) (KeyID (Su_Auth req))));
                          pdu ← match keys with
                                | Some k => signPDU (key_server k) pdu nullAuthDigestOff
                                | None => Ret pdu
                                end;
                          Ret [SendTest port pdu peer]
                        else Ret [];
                      r ← sendSetupResponse s
                            (setup_port (setup_cmd resp (Su_CmdRequest resp) SetupRespACKOK) (u16 port))
                            req keys legacyKey peer (env_resp env);
                      Ret ((r : Server * list Out).1, (nullOut : list Out) ++ r.2, Some sess)
                  end
              end
      end
  end.

(** One datagram of the control loop. *)
Definition serve_datagram (s : Server) (b : list Z) (peer : AddrPort) (env : SetupEnv)
    : go (Server * list Out * option setupSession) :=
  let denied := match Allow (cfg s) with
                | Some allow => negb (allow (Unmap (ap_Addr peer)))
                | None => false
                end in
  if denied then Ret (s, [], None)
  else
    r ← parseSetup b;
    match r with
    | Err _ => Ret (s, [], None)
    | Ok req =>
        if negb (Su_CmdRequest req =? cmdSetupRequest) then Ret (s, [], None)
        else handleSetup s req b peer env
    end.

(** The deferred function of session.run. *)
Definition session_cleanup (s : Server) (sess : setupSession) : Server :=
  sessionDone (if 0 <? ss_bwMbps sess then releaseBandwidth s (ss_bwUpstream sess) (ss_bwMbps sess) else s).

(** Close, up to the wait for the sessions. *)
Definition Server_Close (s : Server) : Server := set_closed s.
End Setup.

(** ** Lemmas *)
Section SetupLemmas.
Context `{M : MAC}.

Lemma reserve_release s up m s' : reserveBandwidth s up m = (s', true) -> releaseBandwidth s' up m = s.
Proof.
  unfold reserveBandwidth, releaseBandwidth, set_used. intros H.
  destruct (_ <? _); [done|]. destruct up; injection H as <-; destruct s; cbn; f_equal; lia.
Qed.

Lemma reserve_false s up m s' : reserveBandwidth s up m = (s', false) -> s' = s.
Proof. unfold reserveBandwidth. destruct (_ <? _); [congruence|]. by destruct up. Qed.

Lemma sessionDone_undo s : sessionDone (set_sessions s (sessions s + 1)) = s.
Proof. destruct s. unfold sessionDone, set_sessions. cbn. f_equal. lia. Qed.

Lemma newSessionSocket_None s listen s' : newSessionSocket s listen = (s', None) -> s' = s.
Proof.
  unfold newSessionSocket. cbv zeta. intros H.
  destruct (closed s); [congruence|]. destruct (_ <=? _); [congruence|].
  destruct (_ && _).
  - destruct (scan_ports _ _ _ _ _) as [[port bound]|]; [congruence|]. injection H as <-. apply sessionDone_undo.
  - destruct (listen 0); [congruence|]. injection H as <-. apply sessionDone_undo.
Qed.

(** A state the setup handler may leave: only the fields it assigns differ. *)
Lemma newSessionSocket_Some s listen s' port : newSessionSocket s listen = (s', Some port) ->
  closed s = false /\ sessions s < MaxSessions (cfg s) /\
  s' = set_nextPort (set_sessions s (sessions s + 1)) (nextPort s').
Proof.
  unfold newSessionSocket. cbv zeta. intros H.
  destruct (closed s) eqn:Ec; [congruence|]. destruct (_ <=? _) eqn:E; [congruence|]. b2p.
  split_and!; [done|done|]. destruct (_ && _).
  - destruct (scan_ports _ _ _ _ _) as [[p bound]|]; [|congruence]. injection H as <- <-. by destruct s.
  - destruct (listen 0); [|congruence]. injection H as <- <-. by destruct s.
Qed.

(** The response on the wire carries [resp], up to the trailer that signing
    rewrites. *)
Definition carries (pdu : list Z) (resp : SetupPDU) : Prop :=
  exists a, parseSetup pdu =
    Ret (Ok (mkSetup (Su_ProtocolVer resp) (Su_MCIndex resp) (Su_MCCount resp) (Su_MCIdent resp)
               (Su_CmdRequest resp) (Su_CmdResponse resp) (Su_MaxBandwidth resp) (Su_TestPort resp)
               (Su_Modifiers resp) a)).

Lemma carries_marshal p pdu : setup_wf p -> Su_CmdRequest p = cmdSetupResponse ->
  SetupPDU_marshal p = Ret pdu -> carries pdu p.
Proof.
  intros Hwf Hc H. destruct (SetupPDU_encode_decode p Hwf (or_intror Hc)) as (b & Hb & _ & Hp).
  rewrite H in Hb. injection Hb as <-. exists (Su_Auth p). rewrite Hp. by destruct p.
Qed.

Lemma setup_digest_wf p d : setup_wf p -> length d = 32%nat -> bytes_ok d -> setup_wf (setup_digest p d).
Proof. unfold setup_wf, auth_wf. cbn. intros; destruct_and!; split_and!; done. Qed.

Lemma setup_time_wf p t : setup_wf p -> is_u32 t -> setup_wf (setup_time p t).
Proof. unfold setup_wf, auth_wf. cbn. intros [] ?; destruct_and!; split_and!; done. Qed.

Lemma sign_carries p key : setup_wf p -> Su_CmdRequest p = cmdSetupResponse ->
  exists b pdu, SetupPDU_marshal p = Ret b /\ signPDU key b setupAuthDigestOff = Ret pdu /\
                carries pdu (setup_digest p (AuthDigest (Su_Auth p))).
Proof.
  intros Hwf Hc. assert (Hl : length (AuthDigest (Su_Auth p)) = 32%nat) by apply Hwf.
  destruct (SetupPDU_encode_decode p Hwf (or_intror Hc)) as (b & Hb & Hlen & _).
  set (d := mac_sum key (mask b setupAuthDigestOff)).
  destruct (SetupPDU_marshal_digest p d Hl (mac_length _ _)) as (b' & Hb' & _ & Hd).
  rewrite Hb in Hb'. injection Hb' as <-.
  exists b, (splice b setupAuthDigestOff d). split_and!; [done| |].
  - rewrite signPDU_Ret; [done|]. rewrite Hlen. unfold setupSize, setupAuthDigestOff. lia.
  - assert (Hw : setup_wf (setup_digest p d)) by (apply setup_digest_wf; [done|apply mac_length|apply mac_ok]).
    destruct (carries_marshal _ _ Hw Hc Hd) as [a Ha]. by exists a.
Qed.

Lemma sendSetupResponse_spec s resp req keys lk peer now :
  setup_wf resp -> Su_CmdRequest resp = cmdSetupResponse ->
  exists pdu,
    sendSetupResponse s resp req keys lk peer now =
      Ret (if Su_CmdResponse resp =? SetupRespACKOK
           then set_counts s (u64 (setupAccepts s + 1)) (setupRejects s)
           else set_counts s (setupAccepts s) (u64 (setupRejects s + 1)), [SendControl pdu peer]) /\
    carries pdu resp.
Proof.
  intros Hwf Hc. unfold sendSetupResponse. cbv zeta.
  destruct (SetupPDU_encode_decode resp Hwf (or_intror Hc)) as (b & Hb & _ & _).
  rewrite Hb, go_bind_Ret.
  assert (Hplain : carries b resp) by by eapply carries_marshal.
  assert (Hlk : forall k, exists pdu, signPDU k b setupAuthDigestOff = Ret pdu /\ carries pdu resp).
  { intros k. destruct (sign_carries resp k Hwf Hc) as (b' & pdu & Hb' & Hs & Hcar).
    rewrite Hb in Hb'. injection Hb' as <-. by exists pdu. }
  destruct keys as [k|]; [destruct (ProtocolVer <=? _)|].
  - destruct (sign_carries (setup_time resp (u32 (Unix now))) (key_server k)) as (b' & pdu & Hb' & Hs & Hcar).
    { apply setup_time_wf; [done|apply u32_range]. }
    { done. }
    rewrite Hb', go_bind_Ret, Hs, go_bind_Ret. by eexists.
  - destruct lk as [k'|]; [destruct (Hlk k') as (pdu & -> & Hcar)|]; rewrite go_bind_Ret; by eexists.
  - destruct lk as [k'|]; [destruct (Hlk k') as (pdu & -> & Hcar)|]; rewrite go_bind_Ret; by eexists.
Qed.

Lemma setup_authenticate_returns c req raw now : length raw = setupSize -> returns (setup_authenticate c req raw now).
Proof.
  intros Hl. unfold setup_authenticate. destruct (_ && _); [|apply returns_Ret].
  destruct (Keys c !! _) as [secret|]; [|apply returns_Ret].
  destruct (ProtocolVer <=? _); rewrite verifyDigest_Ret by (rewrite Hl; unfold setupSize, setupAuthDigestOff; lia);
  rewrite go_bind_Ret; apply returns_Ret.
Qed.

Lemma setup_cmd_wf p c r : setup_wf p -> is_u8 c -> is_u8 r -> setup_wf (setup_cmd p c r).
Proof. unfold setup_wf. cbn. intros [] ? ?; destruct_and!; split_and!; done. Qed.

Lemma setup_ver_wf p v : setup_wf p -> is_u16 v -> setup_wf (setup_ver p v).
Proof. unfold setup_wf. cbn. intros [] ?; destruct_and!; split_and!; done. Qed.

Lemma setup_port_wf p v : setup_wf p -> is_u16 v -> setup_wf (setup_port p v).
Proof. unfold setup_wf. cbn. intros [] ?; destruct_and!; split_and!; done. Qed.

(** The requested direction and bandwidth. *)
Definition req_upstream (req : SetupPDU) : bool := negb (Z.land (Su_MaxBandwidth req) bwUpstreamBit =? 0).
Definition req_mbps (req : SetupPDU) : Z := Z.ldiff (Su_MaxBandwidth req) bwUpstreamBit.

(** The state after admission: the reservation, when admission control is
    on. *)
Definition admitted (s : Server) (req : SetupPDU) : Server :=
  if 0 <? MaxBandwidthMbps (cfg s) then
    if req_upstream req then set_used s (usedUS s + req_mbps req) (usedDS s)
    else set_used s (usedUS s) (usedDS s + req_mbps req)
  else s.

Definition admission_ok (s : Server) (req : SetupPDU) : Prop :=
  0 < MaxBandwidthMbps (cfg s) ->
  req_mbps req <> 0 /\
  (if req_upstream req then usedUS s else usedDS s) + req_mbps req <= MaxBandwidthMbps (cfg s).

(** How a request ends: rejected with a code, the state unchanged but for
    the counter; or accepted, after every check. *)
Definition rejected (s : Server) (peer : AddrPort) (r : Server * list Out * option setupSession) : Prop :=
  exists pdu resp,
    r = (set_counts s (setupAccepts s) (u64 (setupRejects s + 1)), [SendControl pdu peer], None) /\
    carries pdu resp /\ Su_CmdRequest resp = cmdSetupResponse /\ Su_CmdResponse resp <> SetupRespACKOK /\
    rejectReason (Su_CmdResponse resp) <> "unknown"%string.

(** A code a request is rejected with: a byte other than ACK, with a reason. *)
Definition reject_code (code : Z) : Prop :=
  is_u8 code /\ code <> SetupRespACKOK /\ rejectReason code <> "unknown"%string.

Ltac code_ok := split; [split; [discriminate|reflexivity]|split; discriminate].

Record accepted (s : Server) (req : SetupPDU) (raw : list Z) (peer : AddrPort) (env : SetupEnv)
    (acc_keys : option sessionKeys) (acc_legacy : option (list Z))
    (r : Server * list Out * option setupSession) : Prop := {
  acc_auth : setup_authenticate (cfg s) req raw (env_since env) = Ret (AuthPass acc_keys acc_legacy);
  acc_check : setup_check (cfg s) req = None;
  acc_mode : setup_mode (cfg s) req = None;
  acc_admission : admission_ok s req;
  acc_state : exists port s1 nulls pdu resp,
    newSessionSocket (admitted s req) (env_listen env) = (s1, Some port) /\
    (nulls = [] \/ exists np, nulls = [SendTest port np peer]) /\
    carries pdu resp /\ Su_CmdRequest resp = cmdSetupResponse /\
    Su_CmdResponse resp = SetupRespACKOK /\ Su_TestPort resp = u16 port /\
    r = (set_counts s1 (u64 (setupAccepts s + 1)) (setupRejects s), nulls ++ [SendControl pdu peer],
         Some (mkSetupSession port peer (Su_ProtocolVer req) (AuthMode (Su_Auth req)) acc_keys acc_legacy
                 (if 0 <? MaxBandwidthMbps (cfg s) then req_mbps req else 0) (req_upstream req)))
}.

Lemma reject_rejected s resp req code keys lk peer now :
  setup_wf resp -> Su_CmdRequest resp = cmdSetupResponse -> reject_code code ->
  exists r, (r ← sendSetupResponse s (setup_cmd resp (Su_CmdRequest resp) code) req keys lk peer now;
             Ret ((r : Server * list Out).1, r.2, None)) = Ret r /\ rejected s peer r.
Proof.
  intros Hwf Hc (Hcode & Hne & Hname).
  destruct (sendSetupResponse_spec s (setup_cmd resp (Su_CmdRequest resp) code) req keys lk peer now) as (pdu & Hs & Hcar).
  { apply setup_cmd_wf; [done|rewrite Hc; unfold cmdSetupResponse, is_u8; lia|done]. }
  { done. }
  rewrite Hs, go_bind_Ret. eexists. split; [reflexivity|].
  exists pdu. eexists. split_and!; [|exact Hcar|exact Hc|exact Hne|exact Hname].
  cbn [Su_CmdResponse setup_cmd]. by rewrite (proj2 (Z.eqb_neq _ _) Hne).
Qed.

Lemma setup_authenticate_code c req raw now code keys lk :
  setup_authenticate c req raw now = Ret (AuthReject code keys lk) -> reject_code code.
Proof.
  unfold setup_authenticate. intros H.
  destruct (_ && _); [|discriminate]. destruct (Keys c !! _) as [secret|];
  [|injection H as <- _ _; code_ok].
  destruct (ProtocolVer <=? _); apply bind_Ret_inv in H as (ok & _ & H); destruct ok; cbn [negb] in H;
  repeat case_match; try discriminate; injection H as <- _ _; code_ok.
Qed.

Lemma setup_check_code c req code : setup_check c req = Some code -> reject_code code.
Proof.
  unfold setup_check. intros H. repeat case_match; simplify_eq;
  code_ok.
Qed.

Lemma setup_mode_code c req code : setup_mode c req = Some code -> reject_code code.
Proof.
  unfold setup_mode. intros H. repeat case_match; simplify_eq;
  code_ok.
Qed.

Lemma null_out_returns (req : SetupPDU) (keys : option sessionKeys) t port peer :
  exists nulls,
    (if ProtocolVer <=? Su_ProtocolVer req then
       pdu ← NullPDU_marshal (mkNull (Su_ProtocolVer req)
               (mkAuth (AuthMode (Su_Auth req)) t (make_bytes 32) (KeyID (Su_Auth req))));
       pdu ← match keys with
             | Some k => signPDU (key_server k) pdu nullAuthDigestOff
             | None => Ret pdu
             end;
       Ret [SendTest port pdu peer]
     else Ret []) = Ret nulls /\ (nulls = [] \/ exists np, nulls = [SendTest port np peer]).
Proof.
  destruct (ProtocolVer <=? _); [|exists []; auto].
  destruct (NullPDU_marshal_length (mkNull (Su_ProtocolVer req)
              (mkAuth (AuthMode (Su_Auth req)) t (make_bytes 32) (KeyID (Su_Auth req))))) as (b & -> & Hb); [done|].
  rewrite go_bind_Ret. destruct keys as [k|].
  - rewrite signPDU_Ret by (rewrite Hb; unfold nullSize, nullAuthDigestOff; lia).
    rewrite go_bind_Ret. eexists. split; [reflexivity|]. right. by eexists.
  - rewrite go_bind_Ret. eexists. split; [reflexivity|]. right. by eexists.
Qed.

(** Admission either fails and leaves the state, or leaves [admitted]. *)
Lemma admission_cases s req :
  let r := if 0 <? MaxBandwidthMbps (cfg s) then reserveBandwidth s (req_upstream req) (req_mbps req) else (s, true) in
  (r = (s, false) /\ 0 < MaxBandwidthMbps (cfg s)) \/
  (r = (admitted s req, true) /\
   (req_mbps req <> 0 \/ MaxBandwidthMbps (cfg s) <= 0 -> admission_ok s req)).
Proof.
  cbv zeta. unfold admitted, admission_ok, reserveBandwidth.
  destruct (Z.ltb_spec 0 (MaxBandwidthMbps (cfg s))) as [Hb|Hb].
  - destruct (Z.ltb_spec (MaxBandwidthMbps (cfg s)) ((if req_upstream req then usedUS s else usedDS s) + req_mbps req)).
    + left. auto.
    + right. destruct (req_upstream req); (split; [done|]); intros [?|?] ?; split; (done || lia).
  - right. split; [done|]. intros _ ?. lia.
Qed.

Lemma admitted_release s req :
  0 <= req_mbps req ->
  let mbw := if 0 <? MaxBandwidthMbps (cfg s) then req_mbps req else 0 in
  (if 0 <? mbw then releaseBandwidth (admitted s req) (req_upstream req) mbw else admitted s req) = s.
Proof.
  intros H0. cbv zeta. unfold admitted, releaseBandwidth, set_used.
  destruct (0 <? MaxBandwidthMbps (cfg s)); [|done].
  destruct (0 <? req_mbps req) eqn:E; b2p; destruct (req_upstream req), s; cbn; f_equal; lia.
Qed.

Lemma admitted_cfg s req : cfg (admitted s req) = cfg s.
Proof. unfold admitted. destruct (0 <? _); [destruct (req_upstream req)|]; done. Qed.

Lemma admitted_counts s req : setupAccepts (admitted s req) = setupAccepts s /\ setupRejects (admitted s req) = setupRejects s.
Proof. unfold admitted. destruct (0 <? _); [destruct (req_upstream req)|]; done. Qed.

Lemma req_mbps_nonneg req : setup_wf req -> 0 <= req_mbps req < 2 ^ 15.
Proof.
  intros Hwf. assert (Hb : is_u16 (Su_MaxBandwidth req)) by apply Hwf. unfold req_mbps, is_u16 in *.
  assert (Hnn : 0 <= Z.ldiff (Su_MaxBandwidth req) bwUpstreamBit) by (apply Z.ldiff_nonneg; lia).
  assert (Heq : Z.ldiff (Su_MaxBandwidth req) bwUpstreamBit = Su_MaxBandwidth req mod 2 ^ 15).
  { rewrite <- Z.land_ones by lia. apply Z.bits_inj'. intros n Hn.
    rewrite Z.ldiff_spec, Z.land_spec. unfold bwUpstreamBit.
    destruct (Z.ltb_spec n 15); [|destruct (Z.eq_dec n 15) as [->|]].
    - rewrite Z.ones_spec_low by lia. change 0x8000 with (2 ^ 15). rewrite Z.pow2_bits_false by lia. done.
    - rewrite Z.ones_spec_high by lia. change 0x8000 with (2 ^ 15). rewrite Z.pow2_bits_true by lia.
      by rewrite !andb_false_r.
    - assert (Ht : Z.testbit (Su_MaxBandwidth req) n = false).
      { rewrite <- (Z.mod_small (Su_MaxBandwidth req) (2 ^ 16)) by lia. apply Z.mod_pow2_bits_high. lia. }
      by rewrite Ht. }
  rewrite Heq in *. pose proof (Z.mod_pos_bound (Su_MaxBandwidth req) (2 ^ 15)). lia.
Qed.

Lemma reject_outcome s resp req code keys lk peer now (P : Server * list Out * option setupSession -> Prop) :
  setup_wf resp -> Su_CmdRequest resp = cmdSetupResponse -> reject_code code ->
  exists r, (r ← sendSetupResponse s (setup_cmd resp (Su_CmdRequest resp) code) req keys lk peer now;
             Ret ((r : Server * list Out).1, r.2, None)) = Ret r /\ (rejected s peer r \/ P r).
Proof.
  intros Hwf Hc Hcode. destruct (reject_rejected s resp req code keys lk peer now Hwf Hc Hcode) as (r & Hr & Hrej).
  exists r. auto.
Qed.

Lemma handleSetup_outcome s req raw peer env :
  setup_wf req -> length raw = setupSize ->
  exists r, handleSetup s req raw peer env = Ret r /\
            (rejected s peer r \/ exists keys lk, accepted s req raw peer env keys lk r).
Proof.
  intros Hwf Hraw. unfold handleSetup. cbv zeta.
  set (resp := setup_cmd req cmdSetupResponse (Su_CmdResponse req)).
  assert (Hresp : setup_wf resp).
  { apply setup_cmd_wf; [done|split; [discriminate|reflexivity]|]. apply Hwf. }
  destruct (setup_authenticate_returns (cfg s) req raw (env_since env) Hraw) as [a Ha].
  rewrite Ha, go_bind_Ret. destruct a as [keys lk|code keys lk].
  2:{ apply reject_outcome; [done|done|by eapply setup_authenticate_code]. }
  destruct (setup_check (cfg s) req) as [code|] eqn:Hcheck.
  { pose proof (setup_check_code _ _ _ Hcheck) as Hcode.
    destruct (code =? SetupRespBadVersion); apply reject_outcome; try done.
    apply setup_ver_wf; [done|split; [discriminate|reflexivity]]. }
  fold (req_upstream req) (req_mbps req).
  destruct ((0 <? MaxBandwidthMbps (cfg s)) && (req_mbps req =? 0)) eqn:Hnobw.
  { apply reject_outcome; [done|done|code_ok]. }
  assert (Hbw : req_mbps req <> 0 \/ MaxBandwidthMbps (cfg s) <= 0) by (b2p; destruct Hnobw; b2p; auto).
  destruct (admission_cases s req) as [[Hadm _]|[Hadm Hok]]; rewrite Hadm; cbn [negb].
  { apply reject_outcome; [done|done|code_ok]. }
  specialize (Hok Hbw). rewrite !admitted_cfg.
  pose proof (admitted_release s req (proj1 (req_mbps_nonneg req Hwf))) as Hrel. cbv zeta in Hrel.
  destruct (setup_mode (cfg s) req) as [code|] eqn:Hmode.
  { rewrite Hrel. apply reject_outcome; [done|done|by eapply setup_mode_code]. }
  destruct (newSessionSocket (admitted s req) (env_listen env)) as [s1 [port|]] eqn:Hsock.
  2:{ apply newSessionSocket_None in Hsock as ->. rewrite Hrel. apply reject_outcome; [done|done|code_ok]. }
  destruct (null_out_returns req keys (u32 (Unix (env_null env))) port peer) as (nulls & Hn & Hnulls).
  rewrite Hn, go_bind_Ret.
  edestruct (sendSetupResponse_spec s1 (setup_port (setup_cmd resp (Su_CmdRequest resp) SetupRespACKOK) (u16 port))
               req keys lk peer (env_resp env)) as (pdu & Hs & Hcar); [|done|].
  { apply setup_port_wf; [|apply u16_range]. apply setup_cmd_wf; [done|split; [discriminate|reflexivity]..]. }
  rewrite Hs, go_bind_Ret. eexists. split; [reflexivity|]. right. exists keys, lk.
  split; [done..|]. exists port, s1, nulls, pdu. eexists. split_and!; [done|done|exact Hcar|done|done|done|].
  destruct (newSessionSocket_Some _ _ _ _ Hsock) as (_ & _ & Heq).
  destruct (admitted_counts s req) as [Hc1 Hc2].
  assert (Hs1 : setupAccepts s1 = setupAccepts s /\ setupRejects s1 = setupRejects s) by (rewrite Heq; done).
  destruct Hs1 as [-> ->]. done.
Qed.

Lemma setup_authenticate_pass c req raw now keys lk :
  Keys c <> ∅ -> AuthMode (Su_Auth req) = authModeControl -> length raw = setupSize ->
  setup_authenticate c req raw now = Ret (AuthPass keys lk) ->
  exists secret, Keys c !! KeyID (Su_Auth req) = Some secret /\
    (let key := if ProtocolVer <=? Su_ProtocolVer req
                then key_client (deriveSessionKeys secret (AuthUnixTime (Su_Auth req))) else secret in
     AuthDigest (Su_Auth req) = mac_sum key (mask raw setupAuthDigestOff)) /\
    Z.abs (time_Sub now (time_Unix (AuthUnixTime (Su_Auth req)) 0)) <= authTimeWindow * Second.
Proof.
  intros Hk Hm Hl. unfold setup_authenticate. rewrite Hm, bool_decide_false by done. cbn [Z.eqb authModeControl Pos.eqb andb negb].
  intros H. destruct (Keys c !! KeyID (Su_Auth req)) as [secret|]; [|discriminate].
  exists secret. split; [done|].
  destruct (ProtocolVer <=? Su_ProtocolVer req); rewrite verifyDigest_Ret in H by (rewrite Hl; unfold setupSize, setupAuthDigestOff; lia);
  rewrite go_bind_Ret in H; destruct (bool_decide _) eqn:E; cbn [negb] in H; try discriminate;
  apply bool_decide_eq_true in E; (split; [done|]);
  destruct ((_ <? _) || (_ <? _)) eqn:Esk; try discriminate; b2p; lia.
Qed.

Lemma setup_mode_None c req : Keys c <> ∅ -> 0 <= AuthMode (Su_Auth req) -> setup_mode c req = None -> AuthMode (Su_Auth req) = authModeControl.
Proof.
  intros Hk H0. unfold setup_mode. rewrite bool_decide_false by done. intros H.
  unfold authModeNone, authModeControl in *. repeat case_match; b2p; try discriminate. all: b2p; try lia.
Qed.

Lemma serve_datagram_inv s b peer env r :
  serve_datagram s b peer env = Ret r -> r = (s, [], None) \/
  exists req, parseSetup b = Ret (Ok req) /\ Su_CmdRequest req = cmdSetupRequest /\
    (forall allow, Allow (cfg s) = Some allow -> allow (Unmap (ap_Addr peer)) = true) /\
    handleSetup s req b peer env = Ret r.
Proof.
  unfold serve_datagram. cbv zeta. intros H.
  destruct (match Allow (cfg s) with Some _ => _ | None => false end) eqn:Ea; [injection H as <-; by left|].
  apply bind_Ret_inv in H as ([req|e] & Hp & H); [|injection H as <-; by left].
  destruct (_ =? cmdSetupRequest) eqn:Ec; cbn [negb] in H; [|injection H as <-; by left].
  b2p. right. exists req. split_and!; [done|done| |done].
  intros allow Hal. rewrite Hal in Ea. b2p. done.
Qed.

(** What a setup hands to the session it creates, and what it takes from the
    server for it. *)
Record session_created (s : Server) (peer : AddrPort) (s' : Server) (ss : setupSession) : Prop := {
  sc_peer : ss_setupPeer ss = peer;
  sc_allowed : forall allow, Allow (cfg s) = Some allow -> allow (Unmap (ap_Addr peer)) = true;
  sc_mode : is_u8 (ss_authMode ss);
  sc_keys : Keys (cfg s) = ∅ -> ss_keys ss = None;
  sc_static : cfg s' = cfg s /\ table s' = table s;
  sc_bw : 0 <= ss_bwMbps ss;
  sc_used : usedUS s' = usedUS s + (if ss_bwUpstream ss then ss_bwMbps ss else 0) /\
            usedDS s' = usedDS s + (if ss_bwUpstream ss then 0 else ss_bwMbps ss);
  sc_slot : sessions s' = sessions s + 1
}.

Lemma setup_authenticate_open c req raw now keys lk :
  Keys c = ∅ -> setup_authenticate c req raw now = Ret (AuthPass keys lk) -> keys = None.
Proof.
  intros Hk. unfold setup_authenticate. rewrite bool_decide_true by done. rewrite andb_false_r.
  by intros [= <- _].
Qed.

Lemma serve_datagram_session s b peer env s' outs ss :
  bytes_ok b -> serve_datagram s b peer env = Ret (s', outs, Some ss) -> session_created s peer s' ss.
Proof.
  intros Hb H. destruct (serve_datagram_inv _ _ _ _ _ H) as [Heq|(req & Hp & _ & Hal & Hh)]; [discriminate|].
  destruct (parseSetup_wf b req Hb Hp) as (Hwf & Hlen & _).
  destruct (handleSetup_outcome s req b peer env Hwf Hlen) as (r & Hr & Hout). rewrite Hh in Hr. injection Hr as <-.
  destruct Hout as [(pdu & resp & Heq & _)|(keys & lk & [Hauth _ _ _ Hst])]; [discriminate|].
  destruct Hst as (port & s1 & nulls & pdu & resp & Hsock & _ & _ & _ & _ & _ & [= -> -> ->]).
  destruct (newSessionSocket_Some _ _ _ _ Hsock) as (_ & _ & Heq). pose proof (req_mbps_nonneg req Hwf) as Hm.
  split; cbn [ss_setupPeer ss_authMode ss_keys ss_bwMbps ss_bwUpstream set_counts cfg table usedUS usedDS sessions].
  - done.
  - exact Hal.
  - apply Hwf.
  - intros Hk. by eapply setup_authenticate_open.
  - rewrite Heq. cbn. split; [apply admitted_cfg|]. unfold admitted. by repeat case_match.
  - destruct (0 <? _); lia.
  - rewrite Heq. cbn. unfold admitted. destruct (0 <? _), (req_upstream req); cbn; lia.
  - rewrite Heq. cbn. unfold admitted. by repeat case_match.
Qed.
End SetupLemmas.

(** ** Port allocation *)
Lemma scan_ports_Some listen lo span start idxs port bound :
  0 < span -> lo <= start -> Forall (fun i => 0 <= i) idxs ->
  scan_ports listen lo span start idxs = Some (port, bound) -> lo <= port < lo + span /\ listen port = Some bound.
Proof.
  intros Hs Hst Hidx. induction Hidx as [|i idxs Hi Hidx IH]; cbn; [done|].
  destruct (listen (lo + Z.rem (start - lo + i) span)) as [b|] eqn:E; [|exact IH].
  intros [= <- <-]. split; [|done]. pose proof (Z.rem_bound_pos (start - lo + i) span). lia.
Qed.

Lemma scan_ports_None listen lo span start idxs :
  scan_ports listen lo span start idxs = None -> forall i, i ∈ idxs -> listen (lo + Z.rem (start - lo + i) span) = None.
Proof.
  induction idxs as [|j idxs IH]; cbn; intros H i Hi; [by apply elem_of_nil in Hi|].
  destruct (listen (lo + Z.rem (start - lo + j) span)) eqn:E; [done|].
  apply elem_of_cons in Hi as [->|Hi]; [done|by apply IH].
Qed.

(** Every port of the range is tried: the offsets from the start, taken
    modulo the span, cover it. *)
Lemma scan_covers lo span start p : 0 < span -> lo <= start -> lo <= p < lo + span ->
  exists i, 0 <= i < span /\ lo + Z.rem (start - lo + i) span = p.
Proof.
  intros Hs Hst Hp. exists ((p - start) mod span). pose proof (Z.mod_pos_bound (p - start) span Hs). split; [done|].
  rewrite Z.rem_mod_nonneg by lia. rewrite Zplus_mod_idemp_r.
  replace (start - lo + (p - start)) with (p - lo) by lia. rewrite Z.mod_small by lia. lia.
Qed.

(** ** Theorems *)
Section SetupTheorems.
Context `{M : MAC}.

(** C1: every datagram on the control socket is handled without a panic and
    in one of three ways: ignored, with no answer and no change; answered to
    its sender by exactly one Setup Response with a rejection code, the only
    change being the rejection counter; or accepted, with exactly one response
    carrying ACK and the port of the new session. *)
Theorem serve_datagram_outcome s b peer env :
  bytes_ok b ->
  exists r, serve_datagram s b peer env = Ret r /\
    (r = (s, [], None) \/ rejected s peer r \/
     exists req keys lk, parseSetup b = Ret (Ok req) /\ accepted s req b peer env keys lk r).
Proof.
  intros Hb. unfold serve_datagram. cbv zeta.
  destruct (match Allow (cfg s) with Some _ => _ | None => false end); [by eauto|].
  destruct (parseSetup_returns b) as [[req|e] Hp]; rewrite Hp, go_bind_Ret; [|by eauto].
  destruct (parseSetup_wf b req Hb Hp) as (Hwf & Hlen & _).
  destruct (negb _); [by eauto|].
  destruct (handleSetup_outcome s req b peer env Hwf Hlen) as (r & Hr & [Hrej|(keys & lk & Hacc)]).
  - exists r. auto.
  - exists r. split; [done|]. right. right. exists req, keys, lk. auto.
Qed.

Lemma accepted_authenticated s b peer env s' outs sess :
  bytes_ok b -> Keys (cfg s) <> ∅ ->
  serve_datagram s b peer env = Ret (s', outs, Some sess) ->
  exists req secret, parseSetup b = Ret (Ok req) /\
    AuthMode (Su_Auth req) = authModeControl /\
    Keys (cfg s) !! KeyID (Su_Auth req) = Some secret /\
    (let key := if ProtocolVer <=? Su_ProtocolVer req
                then key_client (deriveSessionKeys secret (AuthUnixTime (Su_Auth req))) else secret in
     AuthDigest (Su_Auth req) = mac_sum key (mask b setupAuthDigestOff)) /\
    Z.abs (time_Sub (env_since env) (time_Unix (AuthUnixTime (Su_Auth req)) 0)) <= authTimeWindow * Second.
Proof.
  intros Hb Hk H. destruct (serve_datagram_inv _ _ _ _ _ H) as [Heq|(req & Hp & _ & _ & Hh)]; [discriminate|].
  destruct (parseSetup_wf b req Hb Hp) as (Hwf & Hlen & _).
  destruct (handleSetup_outcome s req b peer env Hwf Hlen) as (r & Hr & Hout).
  rewrite Hh in Hr. injection Hr as <-.
  destruct Hout as [(pdu & resp & Heq & _)|(keys & lk & [Hauth _ Hmode _ _])]; [discriminate|].
  assert (H0 : 0 <= AuthMode (Su_Auth req)) by apply Hwf.
  pose proof (setup_mode_None _ _ Hk H0 Hmode) as Hm.
  destruct (setup_authenticate_pass _ _ _ _ _ _ Hk Hm Hlen Hauth) as (secret & Hs & Hd & Ht).
  exists req, secret. done.
Qed.

(** C2: with keys configured no session exists without authentication: an
    accepted request is in authentication mode 1, names a configured key,
    carries the MAC of its own bytes under the key derived for its version, and
    its time is within five seconds of the server's clock. *)
Theorem sessions_are_authenticated s b peer env s' outs sess :
  bytes_ok b -> Keys (cfg s) <> ∅ ->
  serve_datagram s b peer env = Ret (s', outs, Some sess) ->
  exists req secret, parseSetup b = Ret (Ok req) /\
    AuthMode (Su_Auth req) = authModeControl /\
    Keys (cfg s) !! KeyID (Su_Auth req) = Some secret /\
    (let key := if ProtocolVer <=? Su_ProtocolVer req
                then key_client (deriveSessionKeys secret (AuthUnixTime (Su_Auth req))) else secret in
     AuthDigest (Su_Auth req) = mac_sum key (mask b setupAuthDigestOff)) /\
    Z.abs (time_Sub (env_since env) (time_Unix (AuthUnixTime (Su_Auth req)) 0)) <= authTimeWindow * Second.
Proof. apply accepted_authenticated. Qed.

(** C27: with a test port range configured and a slot free, the allocation
    binds a port of the range whenever any port of it can be bound, advances
    the rotation inside the range, and otherwise takes nothing. *)
Theorem newSessionSocket_range s listen :
  closed s = false -> sessions s < MaxSessions (cfg s) ->
  let lo := TestPortMin (cfg s) in
  let hi := TestPortMax (cfg s) in
  0 < lo <= hi -> lo <= nextPort s <= hi ->
  match newSessionSocket s listen with
  | (s', Some bound) =>
      lo <= nextPort s' <= hi /\ sessions s' = sessions s + 1 /\
      exists port, lo <= port <= hi /\ listen port = Some bound
  | (s', None) => s' = s /\ forall port, lo <= port <= hi -> listen port = None
  end.
Proof.
  intros Hc Hn. cbv zeta. intros Hr Hp.
  destruct (newSessionSocket s listen) as [s' [bound|]] eqn:E.
  - unfold newSessionSocket in E. rewrite Hc, (proj2 (Z.leb_gt _ _) Hn) in E. cbv zeta in E.
    cbn [cfg set_sessions nextPort] in E.
    rewrite (proj2 (Z.ltb_lt _ _)), (proj2 (Z.leb_le _ _)) in E by lia. cbn [andb] in E.
    destruct (scan_ports _ _ _ _ _) as [[port bd]|] eqn:Es; [|discriminate]. injection E as <- <-.
    apply scan_ports_Some in Es as [Hport Hl]; [|lia|lia|].
    + cbn. split_and!; [destruct (_ <? _) eqn:E2; b2p; lia..|done|]. exists port. split; [lia|done].
    + apply Forall_forall. intros i Hi. apply list_elem_of_In, elem_of_seqZ in Hi. lia.
  - split; [by apply newSessionSocket_None in E|]. intros port Hport.
    unfold newSessionSocket in E. rewrite Hc, (proj2 (Z.leb_gt _ _) Hn) in E. cbv zeta in E.
    cbn [cfg set_sessions nextPort] in E.
    rewrite (proj2 (Z.ltb_lt _ _)), (proj2 (Z.leb_le _ _)) in E by lia. cbn [andb] in E.
    destruct (scan_ports _ _ _ _ _) as [[q bd]|] eqn:Es; [discriminate|].
    destruct (scan_covers (TestPortMin (cfg s)) (TestPortMax (cfg s) - TestPortMin (cfg s) + 1) (nextPort s) port)
      as (i & Hi & <-); [lia..|].
    apply (scan_ports_None _ _ _ _ _ Es). apply elem_of_seqZ. lia.
Qed.

(** Authentication is not checked before everything else: with keys
    configured, a request that does not authenticate at all and passes the
    static checks is told "capacity exceeded" when the requested bandwidth does
    not fit and "authentication required" only when it does. *)
Theorem unauthenticated_sees_capacity s req raw peer env :
  setup_wf req -> Keys (cfg s) <> ∅ -> AuthMode (Su_Auth req) = authModeNone ->
  setup_check (cfg s) req = None -> 0 < MaxBandwidthMbps (cfg s) -> req_mbps req <> 0 ->
  exists pdu resp s',
    handleSetup s req raw peer env = Ret (s', [SendControl pdu peer], None) /\ carries pdu resp /\
    Su_CmdResponse resp =
      if MaxBandwidthMbps (cfg s) <? (if req_upstream req then usedUS s else usedDS s) + req_mbps req
      then SetupRespCapExc else SetupRespAuthReq.
Proof.
  intros Hwf Hk Hm Hcheck Hmax Hbw. unfold handleSetup. cbv zeta.
  set (resp := setup_cmd req cmdSetupResponse (Su_CmdResponse req)).
  assert (Hresp : setup_wf resp).
  { apply setup_cmd_wf; [done|split; [discriminate|reflexivity]|]. apply Hwf. }
  assert (Ha : setup_authenticate (cfg s) req raw (env_since env) = Ret (AuthPass None None))
    by (unfold setup_authenticate; by rewrite Hm).
  rewrite Ha, go_bind_Ret, Hcheck. fold (req_upstream req) (req_mbps req).
  rewrite (proj2 (Z.ltb_lt _ _) Hmax), (proj2 (Z.eqb_neq _ _) Hbw). cbn [andb].
  assert (Hsend : forall st code, is_u8 code -> code <> SetupRespACKOK -> exists pdu resp' s',
    (r ← sendSetupResponse st (setup_cmd resp (Su_CmdRequest resp) code) req None None peer (env_resp env);
     Ret ((r : Server * list Out).1, r.2, @None setupSession)) = Ret (s', [SendControl pdu peer], None) /\
    carries pdu resp' /\ Su_CmdResponse resp' = code).
  { intros st code Hc Hne.
    edestruct (sendSetupResponse_spec st (setup_cmd resp (Su_CmdRequest resp) code) req None None peer (env_resp env))
      as (pdu & Hs & Hcar); [|done|].
    { apply setup_cmd_wf; [done|split; [discriminate|reflexivity]|done]. }
    rewrite Hs, go_bind_Ret. do 3 eexists. split; [reflexivity|]. split; [exact Hcar|done]. }
  unfold reserveBandwidth.
  destruct (MaxBandwidthMbps (cfg s) <? (if req_upstream req then usedUS s else usedDS s) + req_mbps req); cbn [negb].
  - apply Hsend; [split; [discriminate|reflexivity]|discriminate].
  - assert (Hmode : setup_mode (cfg s) req = Some SetupRespAuthReq).
    { unfold setup_mode. by rewrite Hm, bool_decide_false. }
    destruct (req_upstream req); cbn [cfg set_used negb]; rewrite Hmode;
    (apply Hsend; [split; [discriminate|reflexivity]|discriminate]).
Qed.
End SetupTheorems.

(** ** A concrete server: one key, 100 Mbps per direction, test ports
    50000-50001. *)
Definition cfg_example : Config :=
  mkConfig {[ 0 := [115; 101; 99; 114; 101; 116] ]} 100 true false 0 2 50000 50001 None.
Definition peer_example : AddrPort := mkAddrPort (Addr4 3221225985) 40000.
Definition time_example : Time := mkTime (1712345680 * Second) (Some 0).
Definition env_example : SetupEnv := mkEnv time_example time_example time_example (fun p => if p =? 50000 then None else Some p).

(** An unauthenticated request for [mbps] downstream. *)
Definition req_plain (mbps : Z) : SetupPDU :=
  mkSetup 20 0 1 7 cmdSetupRequest 0 mbps 0 modJumbo (mkAuth 0 1712345678 (make_bytes 32) 0).

Lemma req_plain_wf mbps : is_u16 mbps -> setup_wf (req_plain mbps).
Proof.
  intros H. unfold setup_wf, auth_wf. cbn -[make_bytes]. unfold is_u8, is_u16, is_u32, modJumbo, cmdSetupRequest in *.
  split_and!; try (done || lia). apply make_bytes_ok.
Qed.

(** An authenticated request, signed with the derived client key. *)
Definition req_signed_bytes : list Z :=
  match
    pdu ← SetupPDU_marshal (setup_cmd (mkSetup 20 0 1 7 1 0 60 0 modJumbo (mkAuth 1 1712345678 (make_bytes 32) 0)) 1 0);
    signPDU (key_client (deriveSessionKeys [115; 101; 99; 114; 101; 116] 1712345678)) pdu setupAuthDigestOff
  with Ret b => b | Panic => [] end.

Lemma bytes_ok_compute b : forallb (fun x => (0 <=? x) && (x <? 256)) b = true -> bytes_ok b.
Proof.
  intros H. apply Forall_forall. intros x Hx. rewrite forallb_forall in H. apply H in Hx. b2p.
  unfold is_u8. lia.
Qed.

(** The run of the concrete server on it is accepted, by evaluation. *)
Definition run_accepted (r : go (Server * list Out * option setupSession)) : bool :=
  match r with
  | Ret (s, outs, Some sess) =>
      (usedDS s =? 60) && (sessions s =? 1) && (ss_port sess =? 50001) && (length outs =? 2)%nat
  | _ => false
  end.

Lemma run_accepted_example : 
  run_accepted (serve_datagram (NewServer cfg_example) req_signed_bytes peer_example env_example) = true.
Proof. vm_compute. reflexivity. Qed.

Lemma req_signed_bytes_ok : bytes_ok req_signed_bytes.
Proof. apply bytes_ok_compute. vm_compute. reflexivity. Qed.

Lemma keys_example : Keys (cfg (NewServer cfg_example)) <> ∅.
Proof. intros H. apply (f_equal (lookup 0)) in H. discriminate H. Qed.

Lemma serve_datagram_outcome_witness :
  exists r, serve_datagram (NewServer cfg_example) req_signed_bytes peer_example env_example = Ret r /\ run_accepted (Ret r) = true /\
    exists req keys lk, accepted (NewServer cfg_example) req req_signed_bytes peer_example env_example keys lk r.
Proof.
  destruct (serve_datagram_outcome (NewServer cfg_example) req_signed_bytes peer_example env_example req_signed_bytes_ok)
    as (r & Hr & Hout).
  pose proof run_accepted_example as Hrun. rewrite Hr in Hrun.
  exists r. split; [exact Hr|]. split; [exact Hrun|].
  destruct Hout as [->|[(pdu & resp & -> & _)|(req & keys & lk & _ & H)]];
    [discriminate Hrun|discriminate Hrun|by exists req, keys, lk].
Defined.

Lemma sessions_are_authenticated_witness :
  exists req secret, parseSetup req_signed_bytes = Ret (Ok req) /\
    AuthMode (Su_Auth req) = authModeControl /\
    Keys (cfg (NewServer cfg_example)) !! KeyID (Su_Auth req) = Some secret.
Proof.
  pose proof run_accepted_example as Hrun.
  destruct (serve_datagram (NewServer cfg_example) req_signed_bytes peer_example env_example)
    as [[[s outs] [sess|]]|] eqn:E; [|discriminate Hrun..].
  destruct (sessions_are_authenticated (NewServer cfg_example) req_signed_bytes peer_example env_example s outs sess
              req_signed_bytes_ok keys_example E) as (req & secret & H1 & H2 & H3 & _).
  exists req, secret. split_and!; [exact H1|exact H2|exact H3].
Defined.

Lemma newSessionSocket_range_witness :
  match newSessionSocket (NewServer cfg_example) (env_listen env_example) with
  | (s', Some bound) => 50000 <= nextPort s' <= 50001 /\ sessions s' = 1 /\
      exists port, 50000 <= port <= 50001 /\ env_listen env_example port = Some bound
  | (s', None) => s' = NewServer cfg_example /\ forall port, 50000 <= port <= 50001 -> env_listen env_example port = None
  end.
Proof.
  apply (newSessionSocket_range (NewServer cfg_example) (env_listen env_example)); cbn; try done; lia.
Defined.

Lemma unauthenticated_sees_capacity_witness :
  exists pdu resp s',
    handleSetup (NewServer cfg_example) (req_plain 101) [] peer_example env_example = Ret (s', [SendControl pdu peer_example], None) /\
    carries pdu resp /\ Su_CmdResponse resp = SetupRespCapExc.
Proof.
  apply (unauthenticated_sees_capacity (NewServer cfg_example) (req_plain 101) [] peer_example env_example).
  - apply req_plain_wf. unfold is_u16. lia.
  - exact keys_example.
  - reflexivity.
  - reflexivity.
  - reflexivity.
  - discriminate.
Defined.
