(* ===== verification/Session.v ===== *)
(** * Test sessions: activation and policing (internal/udpst/session.go)

    A session waits on its own socket for a Test Activation, polices the
    requested parameters and answers with the corrected values.  The reads of
    the socket are a list of events (its end stands for the read deadline);
    the outcome of setting the socket's traffic class and the clock are
    inputs.  [srv] is the server the session belongs to: the session reads
    only its configuration and its rate table, which nothing writes. *)

From stdpp Require Import gmap.
From S2P Require Import Prelude GoFloat Srates Protocol Status GoTime Algo Accounting Sha256 Auth GoNet Server.

Record testParams := mkParams {
  tp_lowThresh : Z;
  tp_upperThresh : Z;
  tp_trialInt : Z;
  tp_duration : Z;
  tp_subInt : Z;
  tp_dscpEcn : Z;
  tp_srIndexConf : Z;
  tp_indexIsStart : bool;
  tp_useOwDelVar : bool;
  tp_highSpeedDelta : Z;
  tp_slowAdjThresh : Z;
  tp_seqErrThresh : Z;
  tp_ignoreOooDup : bool;
  tp_randPayload : bool;
  tp_algo : Z;
  tp_ecnCEThresh : Z;
  tp_srAdjSupp : Z
}.

(** The fields handleSetup fills, then those of the activation. *)
Record session := mkSession {
  se_setup : setupSession;
  se_peer : AddrPort;
  se_ipv6 : bool;
  se_downstream : bool;
  se_p : testParams
}.

(** setTrafficClass: [tc_ok ipv6 tc] is the outcome of the socket option. *)
Definition setTrafficClass (tc_ok : bool -> Z -> bool) (ipv6 : bool) (tc : Z) : bool := tc_ok ipv6 tc.

(** police, one definition per parameter group, in the source's order. *)
Definition police_thresholds (req : TestActPDU) : Z * Z :=
  let lt := Ta_LowThresh req in
  let ut := Ta_UpperThresh req in
  let lt := if (lt <? 1) || (10000 <? lt) then 30 else lt in
  let ut := if (ut <? 1) || (10000 <? ut) then 90 else ut in
  if ut <? lt then (30, 90) else (lt, ut).

Definition police_trialInt (req : TestActPDU) : Z :=
  let ti := Ta_TrialInt req in
  if (ti <? 5) || (250 <? ti) then 50 else ti.

Definition police_duration (c : Config) (req : TestActPDU) : Z :=
  let dur := Ta_TestIntTime req in
  let dur := if (dur <? 5) || (3600 <? dur) then 10 else dur in
  let maxDur := MaxTestSeconds c in
  let maxDur := if (maxDur <=? 0) || (3600 <? maxDur) then 3600 else maxDur in
  if maxDur <? dur then maxDur else dur.

Definition police_subMs (pver : Z) (req : TestActPDU) (dur : Z) : Z :=
  let subMs := if ProtocolVer <=? pver then Ta_SubIntPeriod req else Ta_LegacySubIntSec req * 1000 in
  let subMs := if (subMs <? 100) || (10000 <? subMs) then 1000 else subMs in
  if dur * 1000 <? subMs then dur * 1000 else subMs.

Definition police_srIndexConf (t : RateTable) (req : TestActPDU) : Z :=
  if negb (Ta_SRIndexConf req =? srIndexAuto) && (Ta_SRIndexConf req <? Z.of_nat (length (Rows t)))
  then Ta_SRIndexConf req else -1.

Definition police_ecnCEThresh (req : TestActPDU) : Z :=
  let ecn := Z.land (Ta_DSCPECN req) 3 in
  if negb (ecn =? 1) && negb (ecn =? 2) then 0 else Ta_ECNCEThresh req.

Definition police_srAdjSupp (pver : Z) (req : TestActPDU) (dur subMs : Z) : Z :=
  if ProtocolVer <=? pver then
    let numSub := Z.quot (dur * 1000) subMs in
    if Ta_SRAdjSuppCount req <? numSub then Ta_SRAdjSuppCount req else 0
  else 0.

Definition police (srv : Server) (pver : Z) (ipv6 : bool) (tc_ok : bool -> Z -> bool) (req : TestActPDU)
    : testParams :=
  let '(lt, ut) := police_thresholds req in
  let dur := police_duration (cfg srv) req in
  let subMs := police_subMs pver req dur in
  let delta := Ta_HighSpeedDelta req in
  let slow := Ta_SlowAdjThresh req in
  let algo := Ta_RateAdjAlgo req in
  let dscp := Ta_DSCPECN req in
  mkParams lt ut (police_trialInt req * Millisecond) (dur * Second) (subMs * Millisecond)
    (if negb (dscp =? 0) && negb (setTrafficClass tc_ok ipv6 dscp) then 0 else dscp)
    (police_srIndexConf (table srv) req)
    (negb (Z.land (Ta_Modifiers req) taModStartIndex =? 0))
    (Ta_UseOwDelVar req =? 1)
    (if delta <? 1 then 10 else delta)
    (if slow <? 1 then 3 else slow)
    (Ta_SeqErrThresh req)
    (negb (Ta_IgnoreOooDup req =? 0))
    (negb (Z.land (Ta_Modifiers req) taModRandomPayload =? 0))
    (if 1 <? algo then 0 else algo)
    (police_ecnCEThresh req)
    (police_srAdjSupp pver req dur subMs).

Definition initialIndex (p : testParams) : Z :=
  if 0 <=? tp_srIndexConf p then tp_srIndexConf p else 0.

(** Rows[i] of the rate table. *)
Definition table_row (t : RateTable) (i : Z) : go Rate :=
  if 0 <=? i then
    match Rows t !! Z.to_nat i with Some r => Ret r | None => Panic end
  else Panic.

Definition newRateController (srv : Server) (p : testParams) : rateController :=
  mkRC (table srv) (tp_algo p) (initialIndex p) (tp_srIndexConf p) (tp_indexIsStart p)
    (tp_highSpeedDelta p) (tp_slowAdjThresh p) (tp_seqErrThresh p) (tp_lowThresh p) (tp_upperThresh p)
    (tp_useOwDelVar p) (tp_ignoreOooDup p) (tp_ecnCEThresh p) (u32 (tp_srAdjSupp p)) 0 0 0 false.

Definition session_l3Overhead (ipv6 : bool) : Z :=
  if ipv6 then l3Overhead + ipv6AddSize else l3Overhead.

Definition subIntervalMbps (ipv6 : bool) (st : SubIntStats) : float64 :=
  if Si_DeltaTime st =? 0 then f64_zero
  else
    let bits := f64_mul (f64_add (f64_mul (f64_of_Z (Si_RxDatagrams st)) (f64_of_Z (session_l3Overhead ipv6)))
                                 (f64_of_Z (Si_RxBytes st))) (f64_of_Z 8) in
    f64_div bits (f64_of_Z (Si_DeltaTime st)).

(** The response: the request with the policed values written back. *)
Definition activation_response (pver : Z) (p : testParams) (req : TestActPDU) (sr : Rate) : TestActPDU :=
  mkTestAct (Ta_ProtocolVer req) (Ta_CmdRequest req) TestActRespACKOK
    (u16 (tp_lowThresh p)) (u16 (tp_upperThresh p))
    (u16 (Z.quot (tp_trialInt p) Millisecond)) (u16 (Z.quot (tp_duration p) Second))
    (if ProtocolVer <=? pver then Ta_LegacySubIntSec req else u8 (Z.quot (tp_subInt p) Second))
    (tp_dscpEcn p)
    (if tp_srIndexConf p <? 0 then srIndexAuto else u16 (tp_srIndexConf p))
    (boolByte (tp_useOwDelVar p)) (u8 (tp_highSpeedDelta p)) (u16 (tp_slowAdjThresh p))
    (u16 (tp_seqErrThresh p)) (boolByte (tp_ignoreOooDup p)) (Ta_Modifiers req) (tp_algo p)
    (u8 (tp_ecnCEThresh p)) sr
    (if ProtocolVer <=? pver then u16 (Z.quot (tp_subInt p) Millisecond) else Ta_SubIntPeriod req)
    (tp_srAdjSupp p) (Ta_Auth req) (Ta_legacy req).

(** The PDU with another authentication trailer, and with another time. *)
Definition testact_auth (p : TestActPDU) (a : authTrailer) : TestActPDU :=
  mkTestAct (Ta_ProtocolVer p) (Ta_CmdRequest p) (Ta_CmdResponse p) (Ta_LowThresh p) (Ta_UpperThresh p)
    (Ta_TrialInt p) (Ta_TestIntTime p) (Ta_LegacySubIntSec p) (Ta_DSCPECN p) (Ta_SRIndexConf p)
    (Ta_UseOwDelVar p) (Ta_HighSpeedDelta p) (Ta_SlowAdjThresh p) (Ta_SeqErrThresh p) (Ta_IgnoreOooDup p)
    (Ta_Modifiers p) (Ta_RateAdjAlgo p) (Ta_ECNCEThresh p) (Ta_SR p) (Ta_SubIntPeriod p)
    (Ta_SRAdjSuppCount p) a (Ta_legacy p).

Definition testact_time (p : TestActPDU) (t : Z) : TestActPDU :=
  let a := Ta_Auth p in testact_auth p (mkAuth (AuthMode a) t (AuthDigest a) (KeyID a)).

(** A read of the session's socket: a datagram with its sender, or an error
    (the deadline among them). *)
Inductive readEvent : Type :=
| ReadFrom (b : list Z) (peer : AddrPort)
| ReadError.

(** Two inputs of an activation besides the datagram. *)
Record ActEnv := mkActEnv {
  act_tc_ok : bool -> Z -> bool;
  act_now : Time
}.

Definition activationBuf : nat := 512.

Section Activation.
Context `{M : MAC}.

(** The encoding of the response, signed with the server key in an
    authenticated session. *)
Definition activation_reply (ss : setupSession) (env : ActEnv) (resp : TestActPDU) : go (list Z) :=
  pdu ← TestActPDU_marshal resp;
  match ss_keys ss with
  | Some k =>
      if ProtocolVer <=? ss_pver ss then
        pdu ← TestActPDU_marshal (testact_time resp (u32 (Unix (act_now env))));
        signPDU (key_server k) pdu testActAuthDigestOff
      else Ret pdu
  | None => Ret pdu
  end.

(** One datagram of awaitActivation; [None]: continue. *)
Definition activate (srv : Server) (ss : setupSession) (env : ActEnv) (buf : list Z) (peer : AddrPort)
    : go (option (session * list Out)) :=
  if negb (bool_decide (Unmap (ap_Addr peer) = Unmap (ap_Addr (ss_setupPeer ss)))) then Ret None
  else
    r ← parseTestAct buf;
    match r with
    | Err _ => Ret None
    | Ok req =>
        if negb (Ta_CmdResponse req =? TestActRespNone) then Ret None
        else
          ok ←
            (if (ProtocolVer <=? ss_pver ss) && (ss_authMode ss =? authModeControl) then
               match ss_keys ss with
               | Some k => verifyDigest (key_client k) buf testActAuthDigestOff (AuthDigest (Ta_Auth req))
               | None => Ret true
               end
             else Ret true);
          if negb ok then Ret None
          else
            let ipv6 := negb (Is4 (Unmap (ap_Addr peer))) in
            let downstream := Ta_CmdRequest req =? cmdTestActDownstream in
            let p := police srv (ss_pver ss) ipv6 (act_tc_ok env) req in
            sr ← (if negb downstream then table_row (table srv) (initialIndex p) else Ret zeroRate);
            let resp := activation_response (ss_pver ss) p req sr in
            pdu ← activation_reply ss env resp;
            Ret (Some (mkSession ss peer ipv6 downstream p, [SendTest (ss_port ss) pdu peer]))
    end.

(** awaitActivation: [None] is the return of false.  The 512-byte buffer
    cuts a longer datagram. *)
Fixpoint awaitActivation (srv : Server) (ss : setupSession) (env : ActEnv) (evs : list readEvent)
    : go (option (session * list Out)) :=
  match evs with
  | [] => Ret None
  | ReadError :: _ => Ret None
  | ReadFrom b peer :: evs =>
      r ← activate srv ss env (take activationBuf b) peer;
      match r with
      | Some res => Ret (Some res)
      | None => awaitActivation srv ss env evs
      end
  end.
End Activation.

(** ** What a session relies on

    The interface between the rate table and the session: a table the search
    can run on, every row of which a transmitter can send. *)
Class SendTable (t : RateTable) : Prop := {
  snd_search :: SearchTable t;
  snd_rows : Forall (row_ok maxJL3Packet) (Rows t)
}.

Lemma row_ok_mono l l' r : l <= l' -> row_ok l r -> row_ok l' r.
Proof. unfold row_ok, row_okb. intros Hl H. b2p. rewrite !andb_true_iff, !Z.leb_le. split_and!; auto; lia. Qed.

Lemma row_ok_wf r : row_ok maxJL3Packet r -> rate_wf r.
Proof.
  unfold row_ok, row_okb, rate_wf, maxJL3Packet, l3Overhead, baseSendTimer1, baseSendTimer2, maxBurstSize, is_u32.
  intros H. b2p. change (2 ^ 32) with 4294967296 in *. destruct_or?; b2p; split_and!; lia.
Qed.

#[export] Instance BuildRateTable_send jumbo trad : SendTable (BuildRateTable jumbo trad).
Proof.
  split; [apply _|]. apply Forall_lookup. intros i r Hr. apply (row_ok_mono (max_l3 jumbo trad)).
  - destruct jumbo, trad; discriminate.
  - exact (build_rows_ok jumbo trad i r Hr).
Qed.

(** The ranges policing guarantees. *)
Record params_ok (c : Config) (t : RateTable) (p : testParams) : Prop := {
  po_thresh : 1 <= tp_lowThresh p <= tp_upperThresh p /\ tp_upperThresh p <= 10000;
  po_trial : 5 * Millisecond <= tp_trialInt p <= 250 * Millisecond;
  po_duration : Second <= tp_duration p <= 3600 * Second;
  po_max : 0 < MaxTestSeconds c -> tp_duration p <= MaxTestSeconds c * Second;
  po_subInt : 100 * Millisecond <= tp_subInt p <= 10000 * Millisecond /\ tp_subInt p <= tp_duration p;
  po_dscp : is_u8 (tp_dscpEcn p);
  po_conf : -1 <= tp_srIndexConf p < Z.of_nat (length (Rows t));
  po_search : 1 <= tp_highSpeedDelta p <= 255 /\ 1 <= tp_slowAdjThresh p <= 65535 /\
              is_u16 (tp_seqErrThresh p) /\ 0 <= tp_algo p <= 1 /\ is_u8 (tp_ecnCEThresh p);
  po_supp : is_u16 (tp_srAdjSupp p) /\ tp_srAdjSupp p * tp_subInt p <= tp_duration p
}.

(** Name the fields of a well-formed Test Activation. *)
Ltac testact_fields H :=
  unfold testact_wf in H; widths;
  destruct H as ((?&?&?&?&?&?&?&?&?&?)&(?&?&?&?&?&?&?&?&?&?)&?&?).

Lemma boolByte_is1 b : (boolByte b =? 1) = b.
Proof. by destruct b. Qed.

Lemma boolByte_not0 b : negb (boolByte b =? 0) = b.
Proof. by destruct b. Qed.

(** Linear arithmetic over widths and durations. *)
Ltac time_lia := unfold Second, Millisecond, Microsecond, Nanosecond in *; width_lia.

Section Policing.
Context (srv : Server) (pver : Z) (ipv6 : bool) (tc_ok : bool -> Z -> bool).

Lemma thresholds_ok req lt ut : police_thresholds req = (lt, ut) -> 1 <= lt <= ut /\ ut <= 10000.
Proof. unfold police_thresholds. split_ifs; intros [= <- <-]; destruct_or?; b2p; lia. Qed.

Lemma duration_ok req : 1 <= police_duration (cfg srv) req <= 3600 /\
  (0 < MaxTestSeconds (cfg srv) -> police_duration (cfg srv) req <= MaxTestSeconds (cfg srv)).
Proof. unfold police_duration. split_ifs; destruct_or?; b2p; lia. Qed.

Lemma subMs_ok req dur : 1 <= dur -> 100 <= police_subMs pver req dur <= 10000 /\ police_subMs pver req dur <= dur * 1000.
Proof. intros Hd. unfold police_subMs. split_ifs; destruct_or?; b2p; lia. Qed.

Lemma supp_ok req dur subMs : testact_wf req -> 0 < subMs <= dur * 1000 ->
  is_u16 (police_srAdjSupp pver req dur subMs) /\ police_srAdjSupp pver req dur subMs * subMs <= dur * 1000.
Proof.
  intros Hwf Hs. testact_fields Hwf. unfold police_srAdjSupp.
  pose proof (Z.mul_quot_le (dur * 1000) subMs ltac:(lia) ltac:(lia)).
  split_ifs; (split; [lia|nia]).
Qed.

Lemma police_params_ok req : testact_wf req -> params_ok (cfg srv) (table srv) (police srv pver ipv6 tc_ok req).
Proof.
  intros Hwf. unfold police. destruct (police_thresholds req) as [lt ut] eqn:Eth.
  pose proof (thresholds_ok req lt ut Eth). destruct (duration_ok req) as [Hdur Hmax].
  pose proof (subMs_ok req (police_duration (cfg srv) req) (proj1 Hdur)) as Hsub.
  pose proof (supp_ok req (police_duration (cfg srv) req) (police_subMs pver req (police_duration (cfg srv) req)) Hwf ltac:(lia)) as Hsupp.
  testact_fields Hwf.
  split; cbn; unfold Second, Millisecond, Microsecond, Nanosecond, police_trialInt, police_srIndexConf, police_ecnCEThresh in *; widths;
    split_ifs; destruct_or?; b2p; lia.
Qed.

(** Each rule leaves its own output alone. *)
Lemma thresholds_fix req req' : (Ta_LowThresh req', Ta_UpperThresh req') = police_thresholds req ->
  police_thresholds req' = police_thresholds req.
Proof.
  intros H. destruct (police_thresholds req) as [lt ut] eqn:E. injection H as <- <-.
  apply thresholds_ok in E. unfold police_thresholds. split_ifs; destruct_or?; b2p; first [done | lia].
Qed.

Lemma trialInt_fix req req' : Ta_TrialInt req' = police_trialInt req -> police_trialInt req' = police_trialInt req.
Proof. unfold police_trialInt. intros ->. split_ifs; destruct_or?; b2p; lia. Qed.

Lemma duration_fix c req req' : Ta_TestIntTime req' = police_duration c req -> police_duration c req' = police_duration c req.
Proof. unfold police_duration. intros ->. split_ifs; destruct_or?; b2p; lia. Qed.

Lemma subMs_fix req req' dur : 1 <= dur ->
  (ProtocolVer <= pver -> Ta_SubIntPeriod req' = police_subMs pver req dur) ->
  (pver < ProtocolVer -> Ta_LegacySubIntSec req' * 1000 = police_subMs pver req dur) ->
  police_subMs pver req' dur = police_subMs pver req dur.
Proof.
  intros Hd Hnew Hold. pose proof (subMs_ok req dur Hd) as Hok. unfold police_subMs at 1.
  destruct (ProtocolVer <=? pver) eqn:Ev; b2p; [rewrite Hnew by done|rewrite Hold by done];
    split_ifs; destruct_or?; b2p; lia.
Qed.

(** A version before 20 counts sub-intervals in whole seconds, and the policed
    period is one. *)
Lemma subMs_legacy req dur : pver < ProtocolVer -> exists n, police_subMs pver req dur = n * 1000.
Proof.
  intros Hv. unfold police_subMs. rewrite (proj2 (Z.leb_gt _ _) Hv).
  split_ifs; first [by eexists | exists 1; lia].
Qed.

Lemma supp_fix req req' dur subMs : 0 < subMs <= dur * 1000 ->
  Ta_SRAdjSuppCount req' = police_srAdjSupp pver req dur subMs ->
  police_srAdjSupp pver req' dur subMs = police_srAdjSupp pver req dur subMs.
Proof.
  intros Hs. unfold police_srAdjSupp. intros ->.
  assert (1 <= Z.quot (dur * 1000) subMs) by (apply Z.quot_le_lower_bound; lia).
  split_ifs; lia.
Qed.

Lemma conf_fix t req req' :
  Ta_SRIndexConf req' = (if police_srIndexConf t req <? 0 then srIndexAuto else u16 (police_srIndexConf t req)) ->
  is_u16 (Ta_SRIndexConf req) -> police_srIndexConf t req' = police_srIndexConf t req.
Proof.
  intros H Hr. unfold police_srIndexConf in *. rewrite H. clear H.
  destruct (negb (Ta_SRIndexConf req =? srIndexAuto) && _) eqn:E; [|done].
  rewrite (proj2 (Z.ltb_ge _ _)), u16_id by (done || width_lia). by rewrite E.
Qed.

(** The socket refuses the traffic class the request asks for. *)
Definition tc_refused (req : TestActPDU) : bool :=
  negb (Ta_DSCPECN req =? 0) && negb (setTrafficClass tc_ok ipv6 (Ta_DSCPECN req)).

(** The parameters without a CE threshold. *)
Definition without_ce (p : testParams) : testParams :=
  mkParams (tp_lowThresh p) (tp_upperThresh p) (tp_trialInt p) (tp_duration p) (tp_subInt p) (tp_dscpEcn p) (tp_srIndexConf p)
    (tp_indexIsStart p) (tp_useOwDelVar p) (tp_highSpeedDelta p) (tp_slowAdjThresh p) (tp_seqErrThresh p) (tp_ignoreOooDup p)
    (tp_randPayload p) (tp_algo p) 0 (tp_srAdjSupp p).

(** Policing the parameters the response announces gives the parameters the
    session runs with, but for the CE threshold when the socket refused the
    traffic class: the response says no marking, the session keeps its
    threshold. *)
Lemma police_fix req sr : testact_wf req ->
  let p := police srv pver ipv6 tc_ok req in
  police srv pver ipv6 tc_ok (activation_response pver p req sr) = if tc_refused req then without_ce p else p.
Proof.
  intros Hwf. cbv zeta.
  pose proof (police_params_ok req Hwf) as [Hth Hti Hdu _ [Hsi _] Hds Hco (Hd1 & Hd2 & Hd3 & Hd4 & Hd5) [Hsu _]].
  destruct (duration_ok req) as [Hdur _]. pose proof (subMs_ok req _ (proj1 Hdur)) as Hsub.
  set (p := police srv pver ipv6 tc_ok req) in *. set (resp := activation_response pver p req sr).
  assert (Hp : p = police srv pver ipv6 tc_ok req) by done. unfold police in Hp.
  destruct (police_thresholds req) as [lt ut] eqn:Eth.
  assert (Hq : forall x u, 0 < u -> Z.quot (x * u) u = x) by (intros; apply Z.quot_mul; lia).
  unfold police.
  rewrite (thresholds_fix req resp), Eth.
  2:{ rewrite Eth. unfold resp, activation_response. cbn [Ta_LowThresh Ta_UpperThresh].
      rewrite !u16_id by width_lia. by rewrite Hp. }
  rewrite (trialInt_fix req resp).
  2:{ unfold resp, activation_response. cbn [Ta_TrialInt]. rewrite Hp in Hti |- *. cbn [tp_trialInt] in *.
      rewrite Hq by done. apply u16_id. time_lia. }
  rewrite (duration_fix (cfg srv) req resp).
  2:{ unfold resp, activation_response. cbn [Ta_TestIntTime]. rewrite Hp. cbn [tp_duration].
      rewrite Hq by done. apply u16_id. time_lia. }
  rewrite (subMs_fix req resp _ (proj1 Hdur)).
  2:{ intros Hv. unfold resp, activation_response. cbn [Ta_SubIntPeriod]. rewrite (proj2 (Z.leb_le _ _) Hv), Hp.
      cbn [tp_subInt]. rewrite Hq by done. apply u16_id. time_lia. }
  2:{ intros Hv. unfold resp, activation_response. cbn [Ta_LegacySubIntSec]. rewrite (proj2 (Z.leb_gt _ _) Hv), Hp.
      cbn [tp_subInt]. destruct (subMs_legacy req (police_duration (cfg srv) req) Hv) as [n Hn]. rewrite Hn in *.
      replace (n * 1000 * Millisecond) with (n * Second) by (unfold Second, Millisecond, Microsecond, Nanosecond; lia).
      rewrite Hq by done. rewrite u8_id by width_lia. done. }
  rewrite (conf_fix (table srv) req resp); [| |by apply Hwf].
  2:{ unfold resp, activation_response. cbn [Ta_SRIndexConf]. by rewrite Hp. }
  rewrite (supp_fix req resp); [|lia|].
  2:{ unfold resp, activation_response. cbn [Ta_SRAdjSuppCount]. by rewrite Hp. }
  unfold resp, activation_response, police_ecnCEThresh.
  cbn [Ta_DSCPECN Ta_Modifiers Ta_UseOwDelVar Ta_HighSpeedDelta Ta_SlowAdjThresh Ta_SeqErrThresh Ta_IgnoreOooDup Ta_RateAdjAlgo Ta_ECNCEThresh].
  rewrite (u8_id (tp_highSpeedDelta p)), (u16_id (tp_slowAdjThresh p)), (u16_id (tp_seqErrThresh p)), (u8_id (tp_ecnCEThresh p)) by width_lia.
  rewrite boolByte_is1, boolByte_not0.
  rewrite (proj2 (Z.ltb_ge _ 1) (proj1 Hd1)), (proj2 (Z.ltb_ge _ 1) (proj1 Hd2)), (proj2 (Z.ltb_ge 1 _) (proj2 Hd4)).
  assert (Hdscp : tp_dscpEcn p = if tc_refused req then 0 else Ta_DSCPECN req) by (by rewrite Hp).
  rewrite Hdscp, Hp. unfold tc_refused in *. destruct (negb (Ta_DSCPECN req =? 0) && _) eqn:Er; [reflexivity|].
  rewrite Er. cbn [tp_ecnCEThresh]. unfold police_ecnCEThresh. cbv zeta. f_equal.
  destruct (negb (Z.land (Ta_DSCPECN req) 3 =? 1) && negb (Z.land (Ta_DSCPECN req) 3 =? 2)); reflexivity.
Qed.
End Policing.

(** ** Activation *)
Section ActivationLemmas.
Context `{M : MAC} (srv : Server) `{T : SendTable (table srv)}.

Lemma activation_response_wf pver p req sr :
  testact_wf req -> rate_wf sr -> params_ok (cfg srv) (table srv) p -> testact_wf (activation_response pver p req sr).
Proof.
  intros Hwf Hsr [Hth Hti Hdu _ [Hsi _] Hds Hco (Hd1 & Hd2 & Hd3 & Hd4 & Hd5) [Hsu _]].
  unfold testact_wf in *. destruct Hwf as ((?&?&?&?&?&?&?&?&?&?)&(?&?&?&?&?&?&?&?&?&?)&?&?).
  unfold activation_response. cbn.
  split_and!; try done; try apply u16_range; try apply u8_range; try apply boolByte_range;
    try (destruct (ProtocolVer <=? pver); first [apply u16_range|apply u8_range|done]).
  - destruct (_ <? _); [split; [discriminate|reflexivity]|apply u16_range].
  - width_lia.
Qed.

Lemma police_legacy_supp pver ipv6 tc_ok req : testact_legacy_ok req -> Ta_legacy req = true ->
  tp_srAdjSupp (police srv pver ipv6 tc_ok req) = 0.
Proof.
  intros Hl Ht. destruct (Hl Ht) as [Hs _]. unfold police. destruct (police_thresholds req). cbn.
  unfold police_srAdjSupp. rewrite Hs. by destruct (_ <=? _); [destruct (_ <? _)|].
Qed.

Lemma initialIndex_row p : params_ok (cfg srv) (table srv) p ->
  exists r, table_row (table srv) (initialIndex p) = Ret r /\ rate_wf r /\
           Rows (table srv) !! Z.to_nat (initialIndex p) = Some r.
Proof.
  intros Hp. pose proof (po_conf _ _ _ Hp) as Hc. unfold table_row, initialIndex.
  assert (Hlen : 0 < Z.of_nat (length (Rows (table srv)))).
  { destruct (@snd_search _ T) as [? ?]. lia. }
  set (i := if 0 <=? tp_srIndexConf p then tp_srIndexConf p else 0).
  assert (Hi : 0 <= i < Z.of_nat (length (Rows (table srv)))) by (unfold i; split_ifs; lia).
  rewrite (proj2 (Z.leb_le _ _)) by lia.
  destruct (lookup_lt_is_Some_2 (Rows (table srv)) (Z.to_nat i)) as [r Hr]; [lia|].
  rewrite Hr. exists r. split_and!; [done| |done].
  apply row_ok_wf. by apply (Forall_lookup_1 _ _ _ _ (@snd_rows _ T) Hr).
Qed.

(** In the current layout the reply is the encoding of the response, with the
    time and the MAC of a signed one. *)
Lemma activation_reply_decodes ss env resp :
  testact_wf resp -> testact_legacy_ok resp ->
  Ta_CmdRequest resp = cmdTestActUpstream \/ Ta_CmdRequest resp = cmdTestActDownstream ->
  (ProtocolVer <= ss_pver ss -> is_Some (ss_keys ss) -> Ta_legacy resp = false) ->
  exists pdu a, activation_reply ss env resp = Ret pdu /\ parseTestAct pdu = Ret (Ok (testact_auth resp a)) /\
   (forall k, ss_keys ss = Some k -> ProtocolVer <= ss_pver ss ->
       AuthDigest a = mac_sum (key_server k) (mask pdu testActAuthDigestOff)).
Proof.
  intros Hwf Hleg Hcmd Hnew. unfold activation_reply.
  destruct (TestActPDU_encode_decode resp Hwf Hleg Hcmd) as (b & Hb & Hlb & Hpb).
  assert (Hsame : testact_auth resp (Ta_Auth resp) = resp) by (by destruct resp).
  rewrite Hb, go_bind_Ret. destruct (ss_keys ss) as [k|].
  2:{ exists b, (Ta_Auth resp). by rewrite Hsame. }
  destruct (ProtocolVer <=? ss_pver ss) eqn:Ev; b2p.
  2:{ exists b, (Ta_Auth resp). rewrite Hsame. split_and!; [done|done|lia]. }
  specialize (Hnew Ev ltac:(done)). set (tr := testact_time resp (u32 (Unix (act_now env)))).
  assert (Htr : testact_wf tr).
  { unfold tr, testact_time, testact_wf, auth_wf in *. cbn. pose proof (u32_range (Unix (act_now env))). tauto. }
  destruct (TestActPDU_marshal_digest tr (make_bytes 32) Hnew ltac:(apply Htr) (make_bytes_length 32)) as (c & Hc & Hlc & _).
  rewrite Hc, go_bind_Ret. unfold testActSize in Hlc. rewrite signPDU_Ret by (rewrite Hlc; unfold testActAuthDigestOff; lia).
  set (d := mac_sum (key_server k) (mask c testActAuthDigestOff)).
  assert (Hd : length d = 32%nat) by apply mac_length.
  destruct (TestActPDU_marshal_digest tr d Hnew ltac:(apply Htr) Hd) as (c' & Hc' & _ & Hs).
  rewrite Hc in Hc'. injection Hc' as <-.
  destruct (TestActPDU_encode_decode (testact_digest tr d)) as (c' & Hc' & _ & Hp).
  { unfold testact_wf, auth_wf, testact_digest in *. cbn. pose proof (mac_ok (key_server k) (mask c testActAuthDigestOff)). tauto. }
  { intros Hl. unfold testact_digest in Hl. cbn in Hl. congruence. }
  { exact Hcmd. }
  rewrite Hs in Hc'. injection Hc' as <-.
  eexists _, (Ta_Auth (testact_digest tr d)). split_and!; [reflexivity|exact Hp|].
  intros k' [= <-] _. rewrite mask_splice; [done|rewrite Hlc; unfold testActAuthDigestOff; lia|done].
Qed.

(** What is known once a datagram has activated the session. *)
Record activated (ss : setupSession) (env : ActEnv) (buf : list Z) (peer : AddrPort)
    (req : TestActPDU) (sess : session) (outs : list Out) : Prop := {
  av_req : parseTestAct buf = Ret (Ok req) /\ Ta_CmdResponse req = TestActRespNone;
  av_peer : Unmap (ap_Addr peer) = Unmap (ap_Addr (ss_setupPeer ss));
  av_sess : sess = mkSession ss peer (negb (Is4 (Unmap (ap_Addr peer)))) (Ta_CmdRequest req =? cmdTestActDownstream)
              (police srv (ss_pver ss) (negb (Is4 (Unmap (ap_Addr peer)))) (act_tc_ok env) req);
  av_reply : exists sr pdu, activation_reply ss env (activation_response (ss_pver ss) (se_p sess) req sr) = Ret pdu /\
             outs = [SendTest (ss_port ss) pdu peer] /\
             (if se_downstream sess then Ret zeroRate else table_row (table srv) (initialIndex (se_p sess))) = Ret sr;
  av_auth : forall k, ss_keys ss = Some k -> ProtocolVer <= ss_pver ss -> ss_authMode ss = authModeControl ->
              verifyDigest (key_client k) buf testActAuthDigestOff (AuthDigest (Ta_Auth req)) = Ret true
}.

Lemma activate_inv ss env buf peer sess outs :
  activate srv ss env buf peer = Ret (Some (sess, outs)) -> exists req, activated ss env buf peer req sess outs.
Proof.
  unfold activate. destruct (bool_decide _) eqn:Ea; cbn [negb]; [|discriminate]. apply bool_decide_eq_true in Ea.
  intros H. apply bind_Ret_inv in H as ([req|e] & Hp & H); [|discriminate].
  destruct (Ta_CmdResponse req =? TestActRespNone) eqn:Ec; cbn [negb] in H; [|discriminate]. b2p.
  apply bind_Ret_inv in H as (ok & Hv & H). destruct ok; cbn [negb] in H; [|discriminate].
  apply bind_Ret_inv in H as (sr & Hsr & H). apply bind_Ret_inv in H as (pdu & Hpdu & H).
  injection H as <- <-. exists req. split; cbn; [done|done|done| |].
  - exists sr, pdu. split_and!; [done|done|]. by destruct (Ta_CmdRequest req =? _).
  - intros k Hk Hver Hmode. by rewrite (proj2 (Z.leb_le _ _) Hver), (proj2 (Z.eqb_eq _ _) Hmode), Hk in Hv.
Qed.

Lemma TestActPDU_marshal_legacy p a : Ta_legacy p = true -> TestActPDU_marshal (testact_auth p a) = TestActPDU_marshal p.
Proof. intros H. unfold TestActPDU_marshal, testact_auth. cbn [Ta_legacy]. rewrite H. reflexivity. Qed.

(** A 60-byte response has no room for the digest of a signed one. *)
Lemma activation_reply_legacy ss env resp k :
  testact_wf resp -> testact_legacy_ok resp ->
  Ta_CmdRequest resp = cmdTestActUpstream \/ Ta_CmdRequest resp = cmdTestActDownstream ->
  ss_keys ss = Some k -> ProtocolVer <= ss_pver ss -> Ta_legacy resp = true -> activation_reply ss env resp = Panic.
Proof.
  intros Hwf Hleg Hcmd Hk Hv Hl. unfold activation_reply, testact_time.
  destruct (TestActPDU_encode_decode resp Hwf Hleg Hcmd) as (b & Hb & Hlb & _). rewrite Hl in Hlb.
  rewrite Hb, go_bind_Ret, Hk, (proj2 (Z.leb_le _ _) Hv), TestActPDU_marshal_legacy, Hb, go_bind_Ret by done.
  unfold signPDU. rewrite computeDigest_Panic; [done|]. rewrite Hlb. unfold testActMinSize, testActAuthDigestOff. lia.
Qed.

(** The response derived from a decoded request can be encoded. *)
Lemma activation_response_ok ss ipv6 tc_ok buf req sr :
  bytes_ok buf -> parseTestAct buf = Ret (Ok req) -> rate_wf sr ->
  let resp := activation_response (ss_pver ss) (police srv (ss_pver ss) ipv6 tc_ok req) req sr in
  testact_wf resp /\ testact_legacy_ok resp /\
  (Ta_CmdRequest resp = cmdTestActUpstream \/ Ta_CmdRequest resp = cmdTestActDownstream).
Proof.
  intros Hb Hp Hsr resp. destruct (parseTestAct_wf buf req Hb Hp) as (Hwf & Hleg & _ & _ & Hcmd).
  split_and!; [|intros Hl|exact Hcmd].
  - apply activation_response_wf; [done|done|by apply police_params_ok].
  - split; [exact (police_legacy_supp (ss_pver ss) ipv6 tc_ok req Hleg Hl)|apply (Hleg Hl)].
Qed.

Lemma activate_returns ss env buf peer : bytes_ok buf ->
  (is_Some (ss_keys ss) -> ProtocolVer <= ss_pver ss -> (length buf < testActMinSize \/ testActSize <= length buf)%nat) ->
  returns (activate srv ss env buf peer).
Proof.
  intros Hb Hlen. unfold activate. destruct (bool_decide _); cbn [negb]; [|apply returns_Ret].
  apply returns_bind; [apply parseTestAct_returns|]. intros [req|e] Hp; [|apply returns_Ret].
  destruct (parseTestAct_wf buf req Hb Hp) as (Hwf & Hleg & Hl & Hsz & Hcmd).
  destruct (Ta_CmdResponse req =? TestActRespNone); cbn [negb]; [|apply returns_Ret].
  apply returns_bind.
  { destruct (ProtocolVer <=? ss_pver ss) eqn:Ev; cbn [andb]; [|apply returns_Ret]. b2p.
    destruct (ss_authMode ss =? authModeControl); [|apply returns_Ret].
    destruct (ss_keys ss) as [k|] eqn:Ek; [|apply returns_Ret].
    rewrite verifyDigest_Ret; [apply returns_Ret|]. specialize (Hlen ltac:(done) Ev).
    unfold testActSize, testActMinSize, testActAuthDigestOff in *. lia. }
  intros ok _. destruct ok; cbn [negb]; [|apply returns_Ret].
  pose proof (police_params_ok srv (ss_pver ss) (negb (Is4 (Unmap (ap_Addr peer)))) (act_tc_ok env) req Hwf) as Hpo.
  destruct (initialIndex_row _ Hpo) as (row & Hrow & Hrw & _).
  assert (Hsr : forall d : bool, exists sr, (if negb d then table_row (table srv) (initialIndex (police srv (ss_pver ss)
      (negb (Is4 (Unmap (ap_Addr peer)))) (act_tc_ok env) req)) else Ret zeroRate) = Ret sr /\ rate_wf sr).
  { intros []; cbn [negb]; [exists zeroRate|by exists row]. split; [done|]. repeat split; discriminate. }
  destruct (Hsr (Ta_CmdRequest req =? cmdTestActDownstream)) as (sr & Hs & Hsw). rewrite Hs, go_bind_Ret.
  destruct (activation_response_ok ss (negb (Is4 (Unmap (ap_Addr peer)))) (act_tc_ok env) buf req sr Hb Hp Hsw) as (H1 & H2 & H3).
  destruct (activation_reply_decodes ss env _ H1 H2 H3) as (pdu & a & Hr & _); [|rewrite Hr, go_bind_Ret; apply returns_Ret].
  intros Hv Hk. cbn [activation_response Ta_legacy]. rewrite Hl. apply Nat.ltb_ge.
  specialize (Hlen Hk Hv). lia.
Qed.
Lemma awaitActivation_returns ss env evs :
  Forall (fun ev => match ev with ReadFrom b _ => bytes_ok b | ReadError => True end) evs ->
  (is_Some (ss_keys ss) -> ProtocolVer <= ss_pver ss ->
   Forall (fun ev => match ev with
                     | ReadFrom b _ => (length b < testActMinSize \/ testActSize <= length b)%nat
                     | ReadError => True
                     end) evs) ->
  exists r, awaitActivation srv ss env evs = Ret r.
Proof.
  induction evs as [|[b peer|] evs IH]; intros Hb Hl; cbn [awaitActivation]; [by eexists| |by eexists].
  inversion Hb as [|? ? Hb1 Hb2]; subst.
  destruct (activate_returns ss env (take activationBuf b) peer) as [[res|] Hr].
  - by apply Forall_take.
  - intros Hk Hv. specialize (Hl Hk Hv). inversion Hl as [|? ? Hl1 Hl2]; subst.
    rewrite length_take. unfold activationBuf, testActSize, testActMinSize in *. lia.
  - rewrite Hr, go_bind_Ret. by eexists.
  - rewrite Hr, go_bind_Ret. apply IH; [done|]. intros Hk Hv. specialize (Hl Hk Hv). by inversion Hl.
Qed.

(** The only datagrams that make an activation panic: activations of a legacy
    size from the address of the setup, in a session with keys. *)
Definition fatal (ss : setupSession) (buf : list Z) (peer : AddrPort) : Prop :=
  Unmap (ap_Addr peer) = Unmap (ap_Addr (ss_setupPeer ss)) /\ is_Some (ss_keys ss) /\ ProtocolVer <= ss_pver ss /\
  (testActMinSize <= length buf < testActSize)%nat.

Lemma activate_panics ss env buf peer : bytes_ok buf -> activate srv ss env buf peer = Panic -> fatal ss buf peer.
Proof.
  intros Hb Hp.
  assert (Hno : ~ (is_Some (ss_keys ss) -> ProtocolVer <= ss_pver ss -> (length buf < testActMinSize \/ testActSize <= length buf)%nat)).
  { intros H. destruct (activate_returns ss env buf peer Hb H) as [r Hr]. congruence. }
  split; [|destruct (ss_keys ss) as [k|] eqn:Ek; [|exfalso; apply Hno; by intros [? ?]]; split; [done|]].
  - unfold activate in Hp. destruct (bool_decide _) eqn:E; [by apply bool_decide_eq_true in E|discriminate].
  - destruct (Z.le_gt_cases ProtocolVer (ss_pver ss)) as [Hv|Hv]; [|exfalso; apply Hno; intros _ Hv'; lia]. split; [done|].
    destruct (Nat.lt_ge_cases (length buf) testActMinSize), (Nat.lt_ge_cases (length buf) testActSize);
      [exfalso; apply Hno; intros; by left..|lia|exfalso; apply Hno; intros; by right].
Qed.

Lemma awaitActivation_panics ss env evs :
  Forall (fun ev => match ev with ReadFrom b _ => bytes_ok b | ReadError => True end) evs ->
  awaitActivation srv ss env evs = Panic -> exists b peer, ReadFrom b peer ∈ evs /\ fatal ss b peer.
Proof.
  induction evs as [|[b peer|] evs IH]; intros Hb; cbn [awaitActivation]; [discriminate| |discriminate].
  inversion Hb as [|? ? Hb1 Hb2]; subst.
  destruct (activate srv ss env (take activationBuf b) peer) as [[res|]|] eqn:Ea; [discriminate| |].
  - rewrite go_bind_Ret. intros H. destruct (IH Hb2 H) as (b' & p' & Hin & Hf). exists b', p'. split; [by right|done].
  - intros _. exists b, peer. split; [by left|]. destruct (activate_panics ss env _ peer ltac:(by apply Forall_take) Ea) as (H1 & H2 & H3 & H4).
    rewrite length_take in H4. unfold fatal, activationBuf, testActSize, testActMinSize in *. split_and!; [done|done|done|lia..].
Qed.
End ActivationLemmas.

#[export] Instance NewServer_send c : SendTable (table (NewServer c)).
Proof. apply BuildRateTable_send. Qed.

(** ** Theorems *)
Section SessionTheorems.
Context `{M : MAC} (srv : Server) `{T : SendTable (table srv)}.

(** C25: whatever a decodable Test Activation asks for, the session runs with
    parameters in range: ordered thresholds of at most 10 s, a trial interval of
    5 to 250 ms, a test no longer than an hour and than the configured maximum,
    a sub-interval of 0.1 to 10 s within the test, a start row of the table, a
    positive ramp, a known algorithm, and a suppression no longer than the
    test. *)
Theorem police_bounds pver ipv6 tc_ok buf req :
  bytes_ok buf -> parseTestAct buf = Ret (Ok req) ->
  params_ok (cfg srv) (table srv) (police srv pver ipv6 tc_ok req).
Proof. intros Hb Hp. apply police_params_ok. by apply (parseTestAct_wf buf). Qed.

(** C6: an activation answers its sender once, from the session's port, and
    the two ends agree: the answer decodes, says ACK, and policing the values
    it carries yields the parameters the session runs with (no value is cut
    on the way); only when the socket refused the requested traffic class do
    they differ, the answer announcing no marking and the session keeping its
    CE threshold.  The sender has the address of the setup, and an upstream
    answer carries the row the session starts from.  In a session of version
    20 or later with keys the answer carries the server's MAC, and when the
    setup asked for control authentication the request carried the
    client's. *)
Theorem activation_agreement ss env buf peer sess outs :
  bytes_ok buf -> activate srv ss env buf peer = Ret (Some (sess, outs)) ->
  exists req pdu resp,
    parseTestAct buf = Ret (Ok req) /\ outs = [SendTest (ss_port ss) pdu peer] /\
    parseTestAct pdu = Ret (Ok resp) /\ Ta_CmdResponse resp = TestActRespACKOK /\
    Unmap (ap_Addr peer) = Unmap (ap_Addr (ss_setupPeer ss)) /\
    police srv (ss_pver ss) (se_ipv6 sess) (act_tc_ok env) resp =
      (if tc_refused (se_ipv6 sess) (act_tc_ok env) req then without_ce (se_p sess) else se_p sess) /\
    tp_dscpEcn (se_p sess) = (if tc_refused (se_ipv6 sess) (act_tc_ok env) req then 0 else Ta_DSCPECN req) /\
    (se_downstream sess = false -> Rows (table srv) !! Z.to_nat (initialIndex (se_p sess)) = Some (Ta_SR resp)) /\
    (forall k, ss_keys ss = Some k -> ProtocolVer <= ss_pver ss ->
       AuthDigest (Ta_Auth resp) = mac_sum (key_server k) (mask pdu testActAuthDigestOff) /\
       (ss_authMode ss = authModeControl ->
        AuthDigest (Ta_Auth req) = mac_sum (key_client k) (mask buf testActAuthDigestOff))).
Proof.
  intros Hb Hact. destruct (activate_inv srv ss env buf peer sess outs Hact) as (req & [[Hp Hc] Hpeer Hs (sr & pdu & Hr & Ho & Hsr) Hau]).
  destruct (parseTestAct_wf buf req Hb Hp) as (Hwf & _).
  pose proof (police_params_ok srv (ss_pver ss) (se_ipv6 sess) (act_tc_ok env) req Hwf) as Hpo.
  assert (Hpp : se_p sess = police srv (ss_pver ss) (se_ipv6 sess) (act_tc_ok env) req) by (by rewrite Hs).
  destruct (initialIndex_row srv _ Hpo) as (row & Hrow & Hrw & Hlk). rewrite <- Hpp in Hrow, Hlk.
  assert (Hsw : rate_wf sr).
  { destruct (se_downstream sess); [|congruence]. injection Hsr as <-. repeat split; discriminate. }
  destruct (activation_response_ok srv ss (se_ipv6 sess) (act_tc_ok env) buf req sr Hb Hp Hsw) as (H1 & H2 & H3).
  rewrite Hpp in Hr.
  destruct (activation_reply_decodes ss env _ H1 H2 H3) as (pdu' & a & Hr' & Hd & Ha).
  { intros Hv [k Hk]. destruct (Ta_legacy _) eqn:El; [|done].
    by rewrite (activation_reply_legacy ss env _ k H1 H2 H3 Hk Hv El) in Hr. }
  rewrite Hr in Hr'. injection Hr' as <-.
  eexists req, pdu, _. split_and!; [done|done|exact Hd|done|done| | | |].
  - rewrite Hpp. exact (police_fix srv (ss_pver ss) (se_ipv6 sess) (act_tc_ok env) req sr Hwf).
  - rewrite Hpp. unfold police. by destruct (police_thresholds req).
  - intros Hdn. rewrite Hdn in Hsr. rewrite Hlk. rewrite Hrow in Hsr. by injection Hsr as <-.
  - intros k Hk Hv. split; [by apply Ha|]. intros Hm. specialize (Hau k Hk Hv Hm).
    destruct (Nat.le_gt_cases (testActAuthDigestOff + 32) (length buf)) as [Hle|Hgt].
    + rewrite verifyDigest_Ret in Hau by done. injection Hau as Hau. by apply bool_decide_eq_true in Hau.
    + unfold verifyDigest in Hau. by rewrite computeDigest_Panic in Hau.
Qed.

(** Waiting for the activation ends in a return, never in a panic, on
    any datagrams from any senders, for a session without keys; with keys, as
    long as no datagram has a legacy size. *)
Theorem activation_safe ss env evs :
  Forall (fun ev => match ev with ReadFrom b _ => bytes_ok b | ReadError => True end) evs ->
  (is_Some (ss_keys ss) -> ProtocolVer <= ss_pver ss ->
   Forall (fun ev => match ev with
                     | ReadFrom b _ => (length b < testActMinSize \/ testActSize <= length b)%nat
                     | ReadError => True
                     end) evs) ->
  exists r, awaitActivation srv ss env evs = Ret r.
Proof. exact (awaitActivation_returns srv ss env evs). Qed.

(** C26: a session with keys can be made to panic: a legacy-size Test Activation (60 to 99
    bytes, no trailer) from the address of the setup, in a session of version
    20 set up with authentication, makes the digest check index past the end
    of the datagram, and the process ends. *)
Theorem activation_short_panics ss env b peer evs k req :
  ss_keys ss = Some k -> ProtocolVer <= ss_pver ss -> ss_authMode ss = authModeControl ->
  Unmap (ap_Addr peer) = Unmap (ap_Addr (ss_setupPeer ss)) ->
  parseTestAct b = Ret (Ok req) -> Ta_CmdResponse req = TestActRespNone -> (length b < 100)%nat ->
  awaitActivation srv ss env (ReadFrom b peer :: evs) = Panic.
Proof.
  intros Hk Hv Hm Ha Hp Hc Hl. cbn [awaitActivation]. rewrite take_ge by (unfold activationBuf; lia).
  unfold activate. rewrite bool_decide_true by done. cbn [negb].
  rewrite Hp, go_bind_Ret, Hc. cbn [negb Z.eqb TestActRespNone].
  rewrite (proj2 (Z.leb_le _ _) Hv), Hm, Hk. cbn [andb Z.eqb authModeControl Pos.eqb].
  unfold verifyDigest. rewrite computeDigest_Panic; [done|]. unfold testActAuthDigestOff. lia.
Qed.
End SessionTheorems.

(** ** A concrete session *)
Definition ss_example (keys : option sessionKeys) : setupSession :=
  mkSetupSession 50001 peer_example 20 (match keys with Some _ => 1 | None => 0 end) keys None 60 false.
Definition act_env_example : ActEnv := mkActEnv (fun _ _ => true) time_example.
Definition act_keys_example : sessionKeys := mkKeys (make_bytes 32) (make_bytes 32).

(** An upstream request in the current layout, thresholds out of order. *)
Definition act_bytes_example : list Z :=
  match TestActPDU_marshal
    (mkTestAct 20 cmdTestActUpstream 0 90 30 50 10 1 0 40 1 10 3 0 0 0 0 0 zeroRate 1000 0 zeroAuth false)
  with Ret b => b | Panic => [] end.

Definition activate_okb (r : go (option (session * list Out))) : bool :=
  match r with
  | Ret (Some (sess, outs)) => (tp_lowThresh (se_p sess) =? 30) && (tp_srIndexConf (se_p sess) =? 40) && (length outs =? 1)%nat
  | _ => false
  end.

Lemma activate_example :
  activate_okb (activate (NewServer cfg_example) (ss_example None) act_env_example act_bytes_example peer_example) = true.
Proof. vm_compute. reflexivity. Qed.

Lemma act_bytes_ok : bytes_ok act_bytes_example.
Proof. apply bytes_ok_compute. vm_compute. reflexivity. Qed.

Lemma police_bounds_witness :
  exists req, parseTestAct act_bytes_example = Ret (Ok req) /\
    params_ok cfg_example (table (NewServer cfg_example)) (police (NewServer cfg_example) 20 false (fun _ _ => true) req).
Proof.
  eexists. split; [vm_compute; reflexivity|].
  apply (police_bounds (NewServer cfg_example) 20 false (fun _ _ => true) act_bytes_example);
    [exact act_bytes_ok|vm_compute; reflexivity].
Defined.

Lemma activation_agreement_witness :
  exists sess outs pdu resp,
    activate (NewServer cfg_example) (ss_example None) act_env_example act_bytes_example peer_example = Ret (Some (sess, outs)) /\
    outs = [SendTest 50001 pdu peer_example] /\
    parseTestAct pdu = Ret (Ok resp) /\ Ta_CmdResponse resp = TestActRespACKOK.
Proof.
  pose proof activate_example as Hrun.
  destruct (activate (NewServer cfg_example) (ss_example None) act_env_example act_bytes_example peer_example)
    as [[[sess outs]|]|] eqn:E; [|discriminate Hrun..].
  destruct (activation_agreement (NewServer cfg_example) (ss_example None) act_env_example act_bytes_example peer_example
              sess outs act_bytes_ok E) as (req & pdu & resp & _ & Ho & Hp & Hc & _).
  exists sess, outs, pdu, resp. split_and!; [reflexivity|exact Ho|exact Hp|exact Hc].
Defined.

Lemma activation_safe_witness :
  exists r, awaitActivation (NewServer cfg_example) (ss_example (Some act_keys_example)) act_env_example
    [ReadFrom [1; 2; 3] peer_example; ReadFrom act_bytes_example peer_example; ReadError] = Ret r.
Proof.
  apply (activation_safe (NewServer cfg_example)).
  - apply Forall_cons; [|apply Forall_cons; [exact act_bytes_ok|by repeat constructor]].
    apply bytes_ok_compute. reflexivity.
  - intros _ _. apply Forall_cons; [left; vm_compute; lia|].
    apply Forall_cons; [right; vm_compute; lia|by repeat constructor].
Defined.

Lemma activation_short_panics_witness :
  awaitActivation (NewServer cfg_example) (ss_example (Some act_keys_example)) act_env_example
    [ReadFrom (take 60 act_bytes_example) peer_example] = Panic.
Proof.
  eapply (activation_short_panics (NewServer cfg_example) (ss_example (Some act_keys_example)) act_env_example
    (take 60 act_bytes_example) peer_example [] act_keys_example).
  - reflexivity.
  - discriminate.
  - reflexivity.
  - reflexivity.
  - vm_compute. reflexivity.
  - reflexivity.
  - apply Nat.ltb_lt. vm_compute. reflexivity.
Defined.
