(* ===== verification/Upstream.v ===== *)
(** * The upstream engine (runUpstream of internal/udpst/session.go)

    The server receives the client's load stream, accounts for it and steers
    the client's rate with a status message every trial interval.  One
    iteration of the loop takes the reading of the clock at its head, the one
    in the status message and the outcome of the batched read; a run is a list
    of such ticks.  [up_conn] is the same loop against the socket: the outcome
    of a read and the clock after it come from the deadline the iteration sets
    and from what arrives, and every such run is a run of ticks. *)

From stdpp Require Import gmap.
From S2P Require Import Prelude GoFloat Srates Protocol Status GoTime Algo Accounting Sha256 Auth GoNet GoConn Server Session.

(** A message of a batch: its sender when it is a UDP address, and the bytes
    received. *)
Record message := mkMessage {
  m_Addr : option Addr;
  m_bytes : list Z
}.

(** The outcome of ReadBatch: the deadline, another error, or messages with
    the reading of the clock after it. *)
Inductive batchRead : Type :=
| BatchTimeout
| BatchError
| BatchOk (rxNow : Time) (msgs : list message).

Record tick := mkTick {
  tk_now : Time;
  tk_wall : Time;
  tk_read : batchRead
}.

(** The variables of the loop; [up_stopAt] is never assigned. *)
Record upState := mkUp {
  up_rc : rateController;
  up_a : rxAccounting;
  up_statusSeq : Z;
  up_lastStatus : Time;
  up_nextStatus : Time;
  up_stopAt : Time;
  up_watchdog : Time;
  up_lastRx : Time;
  up_stopping : bool;
  up_clientDone : bool;
  up_maxMbps : float64;
  up_totalLoss : Z;
  up_totalDG : Z
}.

Definition up_init (srv : Server) (sess : session) (now : Time) : upState :=
  let p := se_p sess in
  mkUp (newRateController srv p) (newRxAccounting now) 0 now (time_Add now (tp_trialInt p))
    (time_Add now (tp_duration p + 500 * Millisecond)) (time_Add now watchdogTimeout) now
    false false f64_zero 0 0.

(** if mbps > maxMbps { maxMbps = mbps } *)
Definition f64_max (cur v : float64) : float64 := if f64_gtb v cur then v else cur.

(** a.rolled = false *)
Definition clear_rolled (a : rxAccounting) : rxAccounting :=
  let b := rx_b a in
  mkRx (rx_s a) (rx_d a) (rx_t a)
    (mkSubState (rx_sub b) (rx_subCE b) (rx_subStart b) (rx_accumMs b) (rx_saved b) (rx_savedCE b)
       (rx_subIntSeq b) false).

(** The assignments to the built status PDU. *)
Definition status_fill (st : StatusPDU) (action rxStopped seqNo : Z) (sr : Rate) (authMode : Z) (legacy : bool)
    : StatusPDU :=
  mkStatus action rxStopped seqNo sr (St_SubIntSeqNo st) (St_SubIntSaved st) (St_SeqErrLoss st)
    (St_SeqErrOoo st) (St_SeqErrDup st) (St_ClockDeltaMin st) (St_DelayVarMin st) (St_DelayVarMax st)
    (St_DelayVarSum st) (St_DelayVarCnt st) (St_RTTMinimum st) (St_RTTVarSample st) (St_DelayMinUpd st)
    (St_TIDeltaTime st) (St_TIRxDatagrams st) (St_TIRxBytes st) (St_TimeSec st) (St_TimeNsec st)
    authMode (St_TIRxCECount st) (St_SavedCECount st) (St_Modifiers st) legacy.

(** The head of an iteration: the stop flag. *)
Definition up_stop (s : upState) (now : Time) : upState :=
  mkUp (up_rc s) (up_a s) (up_statusSeq s) (up_lastStatus s) (up_nextStatus s) (up_stopAt s) (up_watchdog s)
    (up_lastRx s) (up_stopping s || time_After now (up_stopAt s)) (up_clientDone s) (up_maxMbps s)
    (up_totalLoss s) (up_totalDG s).

(** The status block, when the status is due. *)
Definition up_status (srv : Server) (sess : session) (s : upState) (now wnow : Time) : go (upState * list Out) :=
  if time_Before now (up_nextStatus s) then Ret (s, [])
  else
    let p := se_p sess in
    let action := if up_stopping s then testActionStop2 else testActionTest in
    let rc := adjust (up_rc s) (trialInput_of (up_a s)) in
    let a := maybeRoll (up_a s) now (tp_subInt p) (tp_trialInt p) in
    let '(a, maxMbps) :=
      if rx_rolled (rx_b a)
      then (clear_rolled a, f64_max (up_maxMbps s) (subIntervalMbps (se_ipv6 sess) (rx_saved (rx_b a))))
      else (a, up_maxMbps s) in
    let st := buildStatus a now (up_lastStatus s) wnow in
    let rxStopped := boolByte (noTrafficWarning <? time_Sub now (up_lastRx s)) in
    let statusSeq := u32 (up_statusSeq s + 1) in
    sr ← table_row (table srv) (rc_index rc);
    let st := status_fill st action rxStopped statusSeq sr (ss_authMode (se_setup sess))
                (ss_pver (se_setup sess) <? ProtocolVer) in
    pdu ← StatusPDU_marshal st;
    let next := time_Add (up_nextStatus s) (tp_trialInt p) in
    let next := if time_Before next now then time_Add now (tp_trialInt p) else next in
    Ret (mkUp rc (resetTrial a) statusSeq now next (up_stopAt s) (up_watchdog s) (up_lastRx s) (up_stopping s)
           (up_clientDone s) maxMbps (u64 (up_totalLoss s + St_SeqErrLoss st)) (u64 (up_totalDG s + St_TIRxDatagrams st)),
         [SendTest (ss_port (se_setup sess)) pdu (se_peer sess)]).

(** One message of a batch. *)
Definition up_message (sess : session) (rxNow : Time) (s : upState) (m : message) : go upState :=
  match m_Addr m with
  | None => Ret s
  | Some ap =>
      if negb (bool_decide (Unmap ap = Unmap (ap_Addr (se_peer sess)))) then Ret s
      else
        r ← parseLoadHdr (take (Z.to_nat loadHdrSize) (m_bytes m));
        match r with
        | Err _ => Ret s
        | Ok hdr =>
            a ← recordLoad (up_a s) rxNow hdr;
            Ret (mkUp (up_rc s) a (up_statusSeq s) (up_lastStatus s) (up_nextStatus s) (up_stopAt s)
                   (time_Add rxNow watchdogTimeout) rxNow (up_stopping s)
                   (if negb (Lo_TestAction hdr =? testActionTest) then true else up_clientDone s)
                   (up_maxMbps s) (up_totalLoss s) (up_totalDG s))
        end
  end.

Fixpoint up_batch (sess : session) (rxNow : Time) (s : upState) (msgs : list message) : go upState :=
  match msgs with
  | [] => Ret s
  | m :: msgs => s ← up_message sess rxNow s m; up_batch sess rxNow s msgs
  end.

(** What follows the read; the flag says whether the loop goes on. *)
Definition up_read (sess : session) (s : upState) (r : batchRead) : go (upState * bool) :=
  match r with
  | BatchTimeout => Ret (s, true)
  | BatchError => Ret (s, false)
  | BatchOk rxNow msgs =>
      s ← up_batch sess rxNow s msgs;
      Ret (s, negb (up_clientDone s))
  end.

(** One iteration, with the outcome of its read given. *)
Definition up_iter (srv : Server) (sess : session) (s : upState) (t : tick) : go (upState * list Out * bool) :=
  if time_After (tk_now t) (up_watchdog s) then Ret (s, [], false)
  else
    r ← up_status srv sess (up_stop s (tk_now t)) (tk_now t) (tk_wall t);
    let '(s, outs) := (r : upState * list Out) in
    r ← up_read sess s (tk_read t);
    let '(s, cont) := (r : upState * bool) in
    Ret (s, outs, cont).

(** The loop over the ticks of a run: the final state, the datagrams sent and
    whether the loop has ended. *)
Fixpoint up_loop (srv : Server) (sess : session) (s : upState) (ticks : list tick) : go (upState * list Out * bool) :=
  match ticks with
  | [] => Ret (s, [], false)
  | t :: ticks =>
      r ← up_iter srv sess s t;
      let '(s, outs, cont) := (r : upState * list Out * bool) in
      if cont then
        r ← up_loop srv sess s ticks;
        let '(s, outs', ended) := (r : upState * list Out * bool) in
        Ret (s, outs ++ outs', ended)
      else Ret (s, outs, true)
  end.

(** ** The loop against the socket

    The deadline of the read: the earlier of the next status and the
    watchdog. *)
Definition up_deadline (s : upState) : Time :=
  if time_Before (up_watchdog s) (up_nextStatus s) then up_watchdog s else up_nextStatus s.

(** What one iteration meets: the clock in the status message, what happens
    on the wire while the read waits, the time from the return of the read to
    the next reading of the clock, and the time the batch takes. *)
Record arrival := mkArrival {
  ar_wall : Time;
  ar_wire : wire (list message);
  ar_late : Z;
  ar_lag : Z
}.

Definition batch_of (rxNow : Time) (r : readResult (list message)) : batchRead :=
  match r with TimedOut => BatchTimeout | Failed => BatchError | Got msgs => BatchOk rxNow msgs end.

(** The loop entered at [now]. *)
Fixpoint up_conn (srv : Server) (sess : session) (s : upState) (now : Time) (net : list arrival)
    : go (upState * list Out * loopEnd) :=
  if time_After now (up_watchdog s) then Ret (s, [], Ended now)
  else
    match net with
    | [] => Ret (s, [], Unfinished)
    | a :: net =>
        r ← up_status srv sess (up_stop s now) now (ar_wall a);
        let '(s, outs) := (r : upState * list Out) in
        match conn_read (Some (up_deadline s)) now (ar_wire a) with
        | None => Ret (s, outs, Blocked)
        | Some (t, r) =>
            let rxNow := time_Add t (ar_late a) in
            r ← up_read sess s (batch_of rxNow r);
            let '(s, cont) := (r : upState * bool) in
            if cont then
              r ← up_conn srv sess s (time_Add rxNow (ar_lag a)) net;
              let '(s, outs', e) := (r : upState * list Out * loopEnd) in
              Ret (s, outs ++ outs', e)
            else Ret (s, outs, Ended rxNow)
        end
    end.

(** logSummary: the counter of the direction and the values logged. *)
Record summary := mkSummary {
  sm_max_mbps : Z;
  sm_datagrams : Z;
  sm_loss : Z;
  sm_delivered : float64;
  sm_duration_ms : Z
}.

Definition logSummary (srv : Server) (upstream : bool) (start : Time) (maxMbps : float64) (datagrams loss : Z)
    (now : Time) : Server * summary :=
  let srv := if upstream then set_tests srv (u64 (testsUpstream srv + 1)) (testsDownstream srv)
             else set_tests srv (testsUpstream srv) (u64 (testsDownstream srv + 1)) in
  let delivered :=
    if 0 <? u64 (datagrams + loss)
    then f64_div (f64_mul (f64_of_Z datagrams) (f64_of_Z 100)) (f64_of_Z (u64 (datagrams + loss)))
    else f64_of_Z 100 in
  (srv, mkSummary (f64_trunc maxMbps) datagrams loss delivered (Milliseconds (time_Sub now start))).

(** What follows the loop. *)
Definition up_finish (srv : Server) (sess : session) (start : Time) (s : upState) (now1 now2 : Time)
    : Server * summary :=
  let a := maybeRoll (up_a s) now1 0 0 in
  let maxMbps := f64_max (up_maxMbps s) (subIntervalMbps (se_ipv6 sess) (rx_saved (rx_b a))) in
  logSummary srv true start maxMbps (up_totalDG s) (up_totalLoss s) now2.

Definition runUpstream (srv : Server) (sess : session) (start : Time) (ticks : list tick) (now1 now2 : Time)
    : go (list Out * option (Server * summary)) :=
  r ← up_loop srv sess (up_init srv sess start) ticks;
  let '(s, outs, ended) := (r : upState * list Out * bool) in
  Ret (outs, if ended then Some (up_finish srv sess start s now1 now2) else None).

(** ** Status messages on the wire

    The legacy layout drops the authentication mode, the CE counts and the
    modifiers. *)
Definition status_on_wire (p : StatusPDU) : StatusPDU :=
  if St_legacy p then
    mkStatus (St_TestAction p) (St_RxStopped p) (St_SeqNo p) (St_SR p) (St_SubIntSeqNo p) (St_SubIntSaved p)
      (St_SeqErrLoss p) (St_SeqErrOoo p) (St_SeqErrDup p) (St_ClockDeltaMin p) (St_DelayVarMin p)
      (St_DelayVarMax p) (St_DelayVarSum p) (St_DelayVarCnt p) (St_RTTMinimum p) (St_RTTVarSample p)
      (St_DelayMinUpd p) (St_TIDeltaTime p) (St_TIRxDatagrams p) (St_TIRxBytes p) (St_TimeSec p)
      (St_TimeNsec p) 0 0 0 0 true
  else p.

Lemma Status_wire p :
  status_wf p -> St_TestAction p <= testActionStop2 -> St_RxStopped p <= 1 ->
  exists b, StatusPDU_marshal p = Ret b /\ parseStatus b = Ret (Ok (status_on_wire p)).
Proof.
  intros Hwf Ha Hr. destruct (St_legacy p) eqn:El.
  - assert (Hm : StatusPDU_marshal (status_on_wire p) = StatusPDU_marshal p).
    { unfold status_on_wire. rewrite El. unfold StatusPDU_marshal. rewrite El. reflexivity. }
    destruct (Status_encode_decode (status_on_wire p)) as (b & Hb & _ & Hp).
    + unfold status_on_wire. rewrite El. unfold status_wf in *. cbn. intuition (auto with diagd).
      all: split; [discriminate|reflexivity].
    + unfold status_on_wire. rewrite El. by intros _.
    + unfold status_on_wire. by rewrite El.
    + unfold status_on_wire. by rewrite El.
    + exists b. split; [by rewrite <- Hm|exact Hp].
  - assert (Hs : status_on_wire p = p) by (unfold status_on_wire; by rewrite El). rewrite Hs.
    destruct (Status_encode_decode p Hwf ltac:(intros H; congruence) Ha Hr) as (b & Hb & _ & Hp). by exists b.
Qed.

(** ** The invariant of the loop *)
Record up_inv (srv : Server) (s : upState) : Prop := {
  ui_rc : rc_inv (up_rc s);
  ui_table : rc_table (up_rc s) = table srv;
  ui_a : rx_wf (up_a s);
  ui_seq : is_u32 (up_statusSeq s)
}.

Definition session_ok (srv : Server) (sess : session) : Prop :=
  params_ok (cfg srv) (table srv) (se_p sess) /\ is_u8 (ss_authMode (se_setup sess)).

Lemma newRateController_inv srv p : SendTable (table srv) -> params_ok (cfg srv) (table srv) p ->
  rc_inv (newRateController srv p).
Proof.
  intros [[Hmin Hin] _] [_ _ _ _ _ _ Hc (Hd & _) _].
  split; unfold max_index; cbn; unfold initialIndex; split_ifs; lia.
Qed.

Lemma up_init_inv srv sess now : SendTable (table srv) -> session_ok srv sess -> up_inv srv (up_init srv sess now).
Proof.
  intros T [Hp _]. split; cbn; [by apply newRateController_inv|done|apply newRxAccounting_wf|auto with diagd].
Qed.

Lemma clear_rolled_wf a : rx_wf a -> rx_wf (clear_rolled a).
Proof. intros Hwf. pose proof Hwf as Hwf'. rx_open Hwf. unfold clear_rolled. rx_close. Qed.

Lemma status_fill_wf st action rxs seq sr mode legacy :
  status_wf st -> is_u8 action -> is_u8 rxs -> is_u32 seq -> rate_wf sr -> is_u8 mode ->
  status_wf (status_fill st action rxs seq sr mode legacy).
Proof. unfold status_wf, status_fill. cbn. tauto. Qed.

Lemma rc_row srv rc : SendTable (table srv) -> rc_inv rc -> rc_table rc = table srv ->
  exists sr, table_row (table srv) (rc_index rc) = Ret sr /\ rate_wf sr /\ Rows (table srv) !! Z.to_nat (rc_index rc) = Some sr.
Proof.
  intros T Hi Ht. destruct (rc_inv_lookup rc Hi) as [sr Hsr]. rewrite Ht in Hsr. exists sr. unfold table_row.
  rewrite (proj2 (Z.leb_le _ _)) by apply Hi. rewrite Hsr. split_and!; [done| |done].
  apply row_ok_wf. by apply (Forall_lookup_1 _ _ _ _ (@snd_rows _ T) Hsr).
Qed.

(** What one due status does. *)
Record status_sent (srv : Server) (sess : session) (s s' : upState) (now : Time) (o : Out) (st : StatusPDU) : Prop := {
  sx_out : exists pdu, o = SendTest (ss_port (se_setup sess)) pdu (se_peer sess) /\ parseStatus pdu = Ret (Ok st);
  sx_seq : St_SeqNo st = u32 (up_statusSeq s + 1) /\ up_statusSeq s' = St_SeqNo st;
  sx_rc : up_rc s' = adjust (up_rc s) (trialInput_of (up_a s));
  sx_row : Rows (table srv) !! Z.to_nat (rc_index (up_rc s')) = Some (St_SR st);
  sx_action : St_TestAction st = if up_stopping s then testActionStop2 else testActionTest;
  sx_counts : St_SeqErrLoss st = rx_tLoss (rx_t (up_a s)) /\ St_TIRxDatagrams st = rx_tRxDatagrams (rx_t (up_a s)) /\
              up_totalDG s' = u64 (up_totalDG s + St_TIRxDatagrams st) /\ rx_tRxDatagrams (rx_t (up_a s')) = 0
}.

Lemma maybeRoll_trial a now si ti : rx_t (maybeRoll a now si ti) = rx_t a.
Proof. unfold maybeRoll. cbv zeta. destruct (_ && _); [done|]. by destruct (_ && _). Qed.

Lemma up_status_due srv sess s now wnow :
  SendTable (table srv) -> session_ok srv sess -> up_inv srv s -> time_Before now (up_nextStatus s) = false ->
  exists s' o st, up_status srv sess s now wnow = Ret (s', [o]) /\ up_inv srv s' /\ status_sent srv sess s s' now o st /\
    up_stopAt s' = up_stopAt s /\ up_watchdog s' = up_watchdog s /\ up_stopping s' = up_stopping s /\
    up_clientDone s' = up_clientDone s /\
    up_nextStatus s' = (let next := time_Add (up_nextStatus s) (tp_trialInt (se_p sess)) in
                        if time_Before next now then time_Add now (tp_trialInt (se_p sess)) else next).
Proof.
  intros T [Hp Hm] [Hrc Htab Ha Hseq] Hdue. unfold up_status. rewrite Hdue. cbv zeta.
  set (rc := adjust (up_rc s) (trialInput_of (up_a s))).
  assert (Hst : SearchTable (rc_table (up_rc s))) by (rewrite Htab; apply _).
  assert (Hrc' : rc_inv rc) by (by apply adjust_inv).
  assert (Htab' : rc_table rc = table srv) by (unfold rc; by rewrite adjust_table).
  destruct (rc_row srv rc T Hrc' Htab') as (sr & Hrow & Hsr & Hlk).
  set (a := maybeRoll (up_a s) now (tp_subInt (se_p sess)) (tp_trialInt (se_p sess))).
  assert (Hwa : rx_wf a) by (by apply maybeRoll_wf).
  assert (Hta : rx_t a = rx_t (up_a s)) by apply maybeRoll_trial.
  destruct (if rx_rolled (rx_b a) then _ else _) as [a' mx] eqn:Eroll.
  assert (Hwa' : rx_wf a' /\ rx_t a' = rx_t a).
  { destruct (rx_rolled (rx_b a)); injection Eroll as <- <-; [split; [by apply clear_rolled_wf|done]|done]. }
  destruct Hwa' as [Hwa' Hta'].
  rewrite Hrow, go_bind_Ret.
  set (st := status_fill _ _ _ _ _ _ _).
  assert (Hwst : status_wf st).
  { apply status_fill_wf; [by apply buildStatus_wf| |apply boolByte_range|apply u32_range|done|done].
    destruct (up_stopping s); split; discriminate || reflexivity. }
  destruct (Status_wire st Hwst) as (pdu & Hpdu & Hparse).
  { cbn. destruct (up_stopping s); discriminate. }
  { cbn. destruct (_ <? _); discriminate. }
  rewrite Hpdu, go_bind_Ret.
  eexists _, _, (status_on_wire st). split; [reflexivity|]. split_and!; try done.
  - split; cbn; [done|done|by apply resetTrial_wf|apply u32_range].
  - split; cbn.
    + by eexists.
    + unfold status_on_wire. by destruct (St_legacy st).
    + done.
    + rewrite Hlk. unfold status_on_wire. by destruct (St_legacy st).
    + unfold status_on_wire. by destruct (St_legacy st).
    + unfold status_on_wire. destruct (St_legacy st); cbn; rewrite Hta', Hta; done.
Qed.

Lemma up_status_idle srv sess s now wnow : time_Before now (up_nextStatus s) = true ->
  up_status srv sess s now wnow = Ret (s, []).
Proof. intros H. unfold up_status. by rewrite H. Qed.

(** ** Batches *)

(** A message the receiver counts: from the peer's address, with a load
    header. *)
Definition counted (sess : session) (m : message) : bool :=
  match m_Addr m with
  | None => false
  | Some ap =>
      bool_decide (Unmap ap = Unmap (ap_Addr (se_peer sess))) &&
      match parseLoadHdr (take (Z.to_nat loadHdrSize) (m_bytes m)) with Ret (Ok _) => true | _ => false end
  end.

Definition count_msgs (sess : session) (msgs : list message) : Z :=
  Z.of_nat (length (filter (fun m => counted sess m = true) msgs)).

(** What receiving leaves alone. *)
Definition up_frame (s s' : upState) : Prop :=
  up_rc s' = up_rc s /\ up_statusSeq s' = up_statusSeq s /\ up_nextStatus s' = up_nextStatus s /\
  up_stopAt s' = up_stopAt s /\ up_stopping s' = up_stopping s /\ up_totalDG s' = up_totalDG s.

Lemma recordSeq_count a q a' adv : recordSeq a q = Ret (a', adv) -> rx_tRxDatagrams (rx_t a') = rx_tRxDatagrams (rx_t a).
Proof.
  unfold recordSeq. cbv zeta. destruct (_ <=? _); [|destruct (inHistory _ _)]; intros H;
    try (apply bind_Ret_inv in H as (s & _ & H)); by injection H as <- <-.
Qed.

Lemma recordLoad_count a t hdr a' : recordLoad a t hdr = Ret a' ->
  rx_tRxDatagrams (rx_t a') = u32 (rx_tRxDatagrams (rx_t a) + 1).
Proof.
  unfold recordLoad. intros H. apply bind_Ret_inv in H as ([a1 adv] & Hs & H). apply recordSeq_count in Hs. cbn in Hs.
  destruct adv; cbn [negb] in H; injection H as <-; [|done].
  unfold recordRTT. cbv zeta. destruct (_ && _); exact Hs.
Qed.

Lemma up_message_ok srv sess rxNow s m : up_inv srv s -> bytes_ok (m_bytes m) ->
  exists s', up_message sess rxNow s m = Ret s' /\ up_inv srv s' /\ up_frame s s' /\
    (counted sess m = false -> s' = s) /\
    (counted sess m = true -> rx_tRxDatagrams (rx_t (up_a s')) = u32 (rx_tRxDatagrams (rx_t (up_a s)) + 1)).
Proof.
  intros Hi Hb. unfold up_message, counted. destruct (m_Addr m) as [ap|]; [|by exists s].
  destruct (bool_decide _); cbn [negb andb]; [|by exists s].
  destruct (parseLoadHdr_returns (take (Z.to_nat loadHdrSize) (m_bytes m))) as [[hdr|e] Hp]; rewrite Hp, go_bind_Ret; [|by exists s].
  destruct (parseLoadHdr_wf (take (Z.to_nat loadHdrSize) (m_bytes m)) hdr ltac:(by apply Forall_take) Hp) as (Hw & _).
  destruct (recordLoad_wf (up_a s) rxNow hdr (ui_a _ _ Hi) Hw) as (a & Ha & Hwa). rewrite Ha, go_bind_Ret.
  eexists. split; [reflexivity|]. split_and!.
  - destruct Hi. by split.
  - done.
  - done.
  - intros _. by apply recordLoad_count in Ha.
Qed.

Lemma up_batch_ok srv sess rxNow s msgs : up_inv srv s -> Forall (fun m => bytes_ok (m_bytes m)) msgs ->
  exists s', up_batch sess rxNow s msgs = Ret s' /\ up_inv srv s' /\ up_frame s s' /\
    (count_msgs sess msgs = 0 -> s' = s) /\
    rx_tRxDatagrams (rx_t (up_a s')) = u32 (rx_tRxDatagrams (rx_t (up_a s)) + count_msgs sess msgs).
Proof.
  unfold count_msgs. revert s. induction msgs as [|m msgs IH]; intros s Hi Hb; cbn [up_batch].
  - exists s. split_and!; try done. cbn. rewrite Z.add_0_r, u32_id; [done|]. apply (wf_trial _ (ui_a _ _ Hi)).
  - inversion Hb as [|? ? Hb1 Hb2]; subst.
    destruct (up_message_ok srv sess rxNow s m Hi Hb1) as (s1 & H1 & Hi1 & Hf1 & Hn1 & Hc1). rewrite H1, go_bind_Ret.
    destruct (IH s1 Hi1 Hb2) as (s2 & H2 & Hi2 & Hf2 & Hn2 & Hc2).
    exists s2. split_and!; [done|done|unfold up_frame in *; intuition congruence| |].
    + rewrite filter_cons. destruct (decide (counted sess m = true)) as [Hc|Hc]; [cbn; lia|].
      apply not_true_is_false in Hc. intros H0. rewrite Hn2 by done. by apply Hn1.
    + rewrite Hc2, filter_cons. destruct (decide (counted sess m = true)) as [Hc|Hc].
      * rewrite Hc1 by done. rewrite u32_add_l. f_equal. cbn [length]. lia.
      * apply not_true_is_false in Hc. by rewrite Hn1.
Qed.

(** ** Iterations *)
Definition tick_ok (t : tick) : Prop :=
  match tk_read t with BatchOk _ msgs => Forall (fun m => bytes_ok (m_bytes m)) msgs | _ => True end.

Definition tick_count (sess : session) (t : tick) : Z :=
  match tk_read t with BatchOk _ msgs => count_msgs sess msgs | _ => 0 end.

Lemma up_stop_inv srv s now : up_inv srv s -> up_inv srv (up_stop s now).
Proof. intros []. by split. Qed.

(** The read of an iteration, after its status block. *)
Lemma up_iter_read srv sess s t s1 outs :
  time_After (tk_now t) (up_watchdog s) = false ->
  up_status srv sess (up_stop s (tk_now t)) (tk_now t) (tk_wall t) = Ret (s1, outs) ->
  up_inv srv s1 -> tick_ok t ->
  exists s' cont, up_iter srv sess s t = Ret (s', outs, cont) /\ up_inv srv s' /\ up_frame s1 s' /\
    (tick_count sess t = 0 -> s' = s1) /\
    rx_tRxDatagrams (rx_t (up_a s')) = u32 (rx_tRxDatagrams (rx_t (up_a s1)) + tick_count sess t).
Proof.
  intros Hw Hs Hi Hok. unfold up_iter, tick_ok, tick_count in *. rewrite Hw, Hs, go_bind_Ret.
  assert (H0 : rx_tRxDatagrams (rx_t (up_a s1)) = u32 (rx_tRxDatagrams (rx_t (up_a s1)) + 0)).
  { rewrite Z.add_0_r, u32_id; [done|]. apply (wf_trial _ (ui_a _ _ Hi)). }
  destruct (tk_read t) as [| |rxNow msgs]; cbn [up_read]; [rewrite go_bind_Ret; eexists _, _; by split_and!..|].
  destruct (up_batch_ok srv sess rxNow s1 msgs Hi Hok) as (s2 & H2 & Hi2 & Hf2 & Hn2 & Hc2).
  rewrite H2, !go_bind_Ret. eexists _, _. by split_and!.
Qed.

(** The two ways an iteration short of the watchdog goes: the status is due,
    or it is not. *)
Inductive status_case (srv : Server) (sess : session) (s s1 : upState) (now : Time) : list Out -> Prop :=
| status_due o st :
    time_Before now (up_nextStatus s) = false ->
    status_sent srv sess (up_stop s now) s1 now o st ->
    up_nextStatus s1 = (let next := time_Add (up_nextStatus s) (tp_trialInt (se_p sess)) in
                        if time_Before next now then time_Add now (tp_trialInt (se_p sess)) else next) ->
    status_case srv sess s s1 now [o]
| status_not_due :
    time_Before now (up_nextStatus s) = true -> s1 = up_stop s now -> status_case srv sess s s1 now [].

Lemma up_iter_ok srv sess s t :
  SendTable (table srv) -> session_ok srv sess -> up_inv srv s -> tick_ok t ->
  time_After (tk_now t) (up_watchdog s) = false ->
  exists s1 s' outs cont, up_iter srv sess s t = Ret (s', outs, cont) /\ up_inv srv s' /\
    status_case srv sess s s1 (tk_now t) outs /\ up_frame s1 s' /\
    up_stopAt s1 = up_stopAt s /\ up_watchdog s1 = up_watchdog s /\
    up_stopping s1 = up_stopping s || time_After (tk_now t) (up_stopAt s) /\
    (tick_count sess t = 0 -> s' = s1) /\
    rx_tRxDatagrams (rx_t (up_a s')) = u32 (rx_tRxDatagrams (rx_t (up_a s1)) + tick_count sess t).
Proof.
  intros T Hs Hi Hok Hw. pose proof (up_stop_inv srv s (tk_now t) Hi) as Hi0.
  destruct (time_Before (tk_now t) (up_nextStatus s)) eqn:Ed.
  - destruct (up_iter_read srv sess s t (up_stop s (tk_now t)) [] Hw) as (s' & cont & H1 & H2 & H3 & H4 & H5);
      [by apply up_status_idle|done|done|].
    exists (up_stop s (tk_now t)), s', [], cont. split_and!; try done. by apply status_not_due.
  - destruct (up_status_due srv sess (up_stop s (tk_now t)) (tk_now t) (tk_wall t) T Hs Hi0 Ed)
      as (s1 & o & st & Hst & Hi1 & Hsent & Hsa & Hwd & Hsp & _ & Hnext).
    destruct (up_iter_read srv sess s t s1 [o] Hw Hst Hi1 Hok) as (s' & cont & H1 & H2 & H3 & H4 & H5).
    exists s1, s', [o], cont. split_and!; try done. by apply (status_due _ _ _ _ _ o st).
Qed.

(** ** Runs *)

(** The states the loop goes through, with the last reading of the clock and
    the number of load datagrams received from the peer. *)
Inductive up_reach (srv : Server) (sess : session) (start : Time) : upState -> Time -> Z -> Prop :=
| reach_start : has_mono start -> up_reach srv sess start (up_init srv sess start) start 0
| reach_iter s last n t s' outs :
    up_reach srv sess start s last n ->
    has_mono (tk_now t) -> mono_ns last <= mono_ns (tk_now t) -> tick_ok t ->
    up_iter srv sess s t = Ret (s', outs, true) ->
    up_reach srv sess start s' (tk_now t) (n + tick_count sess t).

(** The invariant of the runs. *)
Record run_inv (srv : Server) (sess : session) (start : Time) (s : upState) (last : Time) (n : Z) : Prop := {
  rn_inv : up_inv srv s;
  rn_mono : has_mono last /\ has_mono (up_nextStatus s);
  rn_stopAt : up_stopAt s = time_Add start (tp_duration (se_p sess) + 500 * Millisecond);
  rn_start : has_mono start;
  rn_stopping : up_stopping s = true -> mono_ns (up_stopAt s) < mono_ns last;
  rn_next : mono_ns last <= mono_ns (up_nextStatus s) <= mono_ns last + tp_trialInt (se_p sess);
  rn_n : 0 <= n /\ 0 <= up_totalDG s;
  rn_count : n < 2 ^ 32 -> up_totalDG s + rx_tRxDatagrams (rx_t (up_a s)) = n
}.

Lemma tick_count_nonneg sess t : 0 <= tick_count sess t.
Proof. unfold tick_count, count_msgs. destruct (tk_read t); lia. Qed.

(** The schedule after an iteration at [now]: due no earlier than now and no
    later than a trial interval ahead. *)
Lemma next_status_window ti next now :
  has_mono next -> has_mono now -> 0 <= ti -> time_Before now next = false ->
  let next' := if time_Before (time_Add next ti) now then time_Add now ti else time_Add next ti in
  has_mono next' /\ mono_ns now <= mono_ns next' <= mono_ns now + ti.
Proof.
  intros Hn Hw Hti. unfold time_Before. rewrite !time_After_mono by auto using has_mono_Add.
  rewrite mono_ns_Add by done. intros Hd. b2p. cbv zeta.
  destruct (_ <? _) eqn:E; b2p; rewrite mono_ns_Add by done; (split; [by apply has_mono_Add|lia]).
Qed.

Lemma run_inv_step srv sess start s last n t s' outs :
  SendTable (table srv) -> session_ok srv sess -> run_inv srv sess start s last n ->
  has_mono (tk_now t) -> mono_ns last <= mono_ns (tk_now t) -> tick_ok t ->
  up_iter srv sess s t = Ret (s', outs, true) -> run_inv srv sess start s' (tk_now t) (n + tick_count sess t).
Proof.
  intros T Hs [Hi [Hm1 Hm2] Hsa Hst Hsp Hnx [Hn Hn'] Hc] Hmn Hle Hok Hit.
  destruct (time_After (tk_now t) (up_watchdog s)) eqn:Ew.
  { unfold up_iter in Hit. rewrite Ew in Hit. discriminate. }
  destruct (up_iter_ok srv sess s t T Hs Hi Hok Ew)
    as (s1 & s'' & outs' & cont & Hit' & Hi' & Hcase & (Hf1 & Hf2 & Hf3 & Hf4 & Hf5 & Hf6) & Hsa1 & _ & Hsp1 & _ & Hcnt).
  rewrite Hit in Hit'. injection Hit' as <- <- <-.
  pose proof (tick_count_nonneg sess t) as Htc.
  pose proof (po_trial _ _ _ (proj1 Hs)) as Hti.
  assert (Hwin : has_mono (up_nextStatus s1) /\
    mono_ns (tk_now t) <= mono_ns (up_nextStatus s1) <= mono_ns (tk_now t) + tp_trialInt (se_p sess)).
  { destruct Hcase as [o st Hd _ Hnext|Hd ->].
    - cbv zeta in Hnext. rewrite Hnext. apply next_status_window; [done..|unfold Millisecond in *; lia|done].
    - cbn. split; [done|]. unfold time_Before in Hd. rewrite time_After_mono in Hd by done. b2p. lia. }
  split; rewrite ?Hf3, ?Hf4, ?Hf5, ?Hf6.
  - done.
  - split; [done|apply Hwin].
  - by rewrite Hsa1.
  - done.
  - rewrite Hsa1, Hsp1, orb_true_iff. intros [H|H]; [specialize (Hsp H); lia|].
    rewrite time_After_mono in H; [by b2p|done|]. rewrite Hsa. by apply has_mono_Add.
  - apply Hwin.
  - split; [lia|]. destruct Hcase as [o st _ [_ _ _ _ _ (_ & _ & -> & _)] _|_ ->]; [apply u64_range|done].
  - intros Hlt. specialize (Hc ltac:(lia)). rewrite Hcnt.
    pose proof (wf_trial _ (ui_a _ _ Hi)) as (Hu & _).
    destruct Hcase as [o st _ [_ _ _ _ _ (_ & Hdg & Htot & H0)] _|_ ->].
    + rewrite Htot, H0, Hdg. cbn [up_stop up_totalDG up_a]. rewrite Hc, Z.add_0_l.
      rewrite u64_id, u32_id by width_lia. done.
    + cbn [up_stop up_totalDG up_a]. rewrite u32_id by width_lia. lia.
Qed.

Lemma up_reach_inv srv sess start s last n :
  SendTable (table srv) -> session_ok srv sess -> up_reach srv sess start s last n -> run_inv srv sess start s last n.
Proof.
  intros T Hs. induction 1 as [Hm|s last n t s' outs _ IH Hm Hle Hok Hit]; [|by eapply run_inv_step].
  pose proof (po_trial _ _ _ (proj1 Hs)) as Hti. unfold Millisecond in Hti.
  split; cbn -[time_Add mono_ns up_init]; try done.
  - by apply up_init_inv.
  - split; [done|by apply has_mono_Add].
  - unfold up_init. cbn [up_nextStatus]. rewrite mono_ns_Add by done. lia.
Qed.

(** The loop as a whole: numbered statuses. *)
Definition is_status (srv : Server) (sess : session) (seq : Z) (o : Out) : Prop :=
  exists pdu st, o = SendTest (ss_port (se_setup sess)) pdu (se_peer sess) /\ parseStatus pdu = Ret (Ok st) /\
    St_SeqNo st = seq /\ In (St_SR st) (Rows (table srv)).

Lemma up_iter_total srv sess s t :
  SendTable (table srv) -> session_ok srv sess -> up_inv srv s -> tick_ok t ->
  exists s' outs cont, up_iter srv sess s t = Ret (s', outs, cont) /\ up_inv srv s' /\
    (outs = [] /\ up_statusSeq s' = up_statusSeq s \/
     exists o, outs = [o] /\ is_status srv sess (u32 (up_statusSeq s + 1)) o /\ up_statusSeq s' = u32 (up_statusSeq s + 1)).
Proof.
  intros T Hs Hi Hok. destruct (time_After (tk_now t) (up_watchdog s)) eqn:Ew.
  { exists s, [], false. unfold up_iter. rewrite Ew. auto. }
  destruct (up_iter_ok srv sess s t T Hs Hi Hok Ew)
    as (s1 & s' & outs & cont & Hit & Hi' & Hcase & (_ & Hf2 & _) & _).
  exists s', outs, cont. split_and!; [done|done|]. rewrite Hf2.
  destruct Hcase as [o st _ [(pdu & Ho & Hp) [Hq Hq'] _ Hrow _ _] _|_ ->]; [right|by left].
  exists o. split_and!; [done| |by rewrite Hq', Hq].
  exists pdu, st. split_and!; [done|done|done|]. apply list_elem_of_In, list_elem_of_lookup. by eexists.
Qed.

Lemma up_loop_total srv sess s ticks :
  SendTable (table srv) -> session_ok srv sess -> up_inv srv s -> Forall tick_ok ticks ->
  exists s' outs ended, up_loop srv sess s ticks = Ret (s', outs, ended) /\
    forall i o, outs !! i = Some o -> is_status srv sess (u32 (up_statusSeq s + 1 + Z.of_nat i)) o.
Proof.
  intros T Hs Hi Hok. revert s Hi. induction Hok as [|t ticks Ht Hok IH]; intros s Hi; cbn [up_loop].
  { exists s, [], false. by split. }
  destruct (up_iter_total srv sess s t T Hs Hi Ht) as (s1 & outs & cont & Hit & Hi1 & Hcase).
  rewrite Hit, go_bind_Ret. destruct cont.
  - destruct (IH s1 Hi1) as (s2 & outs2 & ended & Hl & Hall). rewrite Hl, go_bind_Ret.
    eexists _, _, _. split; [reflexivity|]. intros i o Ho.
    destruct Hcase as [[-> Hq]|(o1 & -> & Hst & Hq)]; cbn in Ho; [rewrite <- Hq; by apply Hall|].
    destruct i as [|i]; cbn in Ho; [injection Ho as <-; by rewrite Z.add_0_r|].
    apply Hall in Ho. rewrite Hq, <- Z.add_assoc, u32_add_l in Ho.
    by replace (up_statusSeq s + 1 + Z.of_nat (S i)) with (up_statusSeq s + 1 + (1 + Z.of_nat i)) by lia.
  - eexists _, _, _. split; [reflexivity|]. intros i o Ho.
    destruct Hcase as [[-> Hq]|(o1 & -> & Hst & Hq)]; [done|].
    destruct i as [|i]; [|done]. cbn in Ho. injection Ho as <-. by rewrite Z.add_0_r.
Qed.

(** ** A client that keeps sending *)

(** A counted message with an action other than Test ends the loop. *)
Definition stops (m : message) : bool :=
  match parseLoadHdr (take (Z.to_nat loadHdrSize) (m_bytes m)) with
  | Ret (Ok hdr) => negb (Lo_TestAction hdr =? testActionTest)
  | _ => false
  end.

(** No iteration of the run is past the watchdog, and every read brings a
    counted message and none that stops the test. *)
Fixpoint up_alive (sess : session) (watchdog : Time) (ticks : list tick) : Prop :=
  match ticks with
  | [] => True
  | t :: ticks =>
      time_After (tk_now t) watchdog = false /\
      match tk_read t with
      | BatchTimeout => up_alive sess watchdog ticks
      | BatchError => False
      | BatchOk rxNow msgs =>
          0 < count_msgs sess msgs /\ Forall (fun m => stops m = false) msgs /\
          up_alive sess (time_Add rxNow watchdogTimeout) ticks
      end
  end.

Lemma up_message_alive sess rxNow s m s' : up_message sess rxNow s m = Ret s' -> stops m = false ->
  up_clientDone s' = up_clientDone s /\
  up_watchdog s' = if counted sess m then time_Add rxNow watchdogTimeout else up_watchdog s.
Proof.
  unfold up_message, stops, counted. destruct (m_Addr m) as [ap|]; [|by intros [= <-]].
  destruct (bool_decide _); cbn [negb andb]; [|by intros [= <-]].
  destruct (parseLoadHdr _) as [[hdr|e]|]; cbn [go_bind]; [|by intros [= <-]|done].
  intros H Hs. rewrite go_bind_Ret in H. apply bind_Ret_inv in H as (a & _ & H). injection H as <-. cbn. by rewrite Hs.
Qed.

Lemma up_batch_alive sess rxNow s msgs s' : up_batch sess rxNow s msgs = Ret s' -> Forall (fun m => stops m = false) msgs ->
  up_clientDone s' = up_clientDone s /\
  up_watchdog s' = if 0 <? count_msgs sess msgs then time_Add rxNow watchdogTimeout else up_watchdog s.
Proof.
  intros H Hs. revert s H. induction Hs as [|m msgs Hm Hs IH]; intros s H; cbn [up_batch] in H; [by injection H as <-|].
  apply bind_Ret_inv in H as (s1 & H1 & H). destruct (IH s1 H) as [Hc Hw].
  destruct (up_message_alive _ _ _ _ _ H1 Hm) as [Hc1 Hw1]. split; [congruence|]. rewrite Hw, Hw1.
  unfold count_msgs. rewrite filter_cons. destruct (decide (counted sess m = true)) as [Hc'|Hc'].
  - rewrite Hc'. cbn [length]. repeat case_match; b2p; done || lia.
  - apply not_true_is_false in Hc'. by rewrite Hc'.
Qed.

Lemma up_loop_alive srv sess s ticks :
  SendTable (table srv) -> session_ok srv sess -> up_inv srv s -> Forall tick_ok ticks ->
  up_clientDone s = false -> up_alive sess (up_watchdog s) ticks ->
  exists s' outs, up_loop srv sess s ticks = Ret (s', outs, false).
Proof.
  intros T Hs Hi Hok. revert s Hi. induction Hok as [|t ticks Ht Hok IH]; intros s Hi Hd Hal; cbn [up_loop]; [by eexists _, _|].
  destruct Hal as [Hw Hal]. pose proof (up_stop_inv srv s (tk_now t) Hi) as Hi0.
  assert (Hst : exists s1 outs, up_status srv sess (up_stop s (tk_now t)) (tk_now t) (tk_wall t) = Ret (s1, outs) /\
            up_inv srv s1 /\ up_watchdog s1 = up_watchdog s /\ up_clientDone s1 = false).
  { destruct (time_Before (tk_now t) (up_nextStatus s)) eqn:Ed.
    - exists (up_stop s (tk_now t)), []. split_and!; [by apply up_status_idle|done..].
    - destruct (up_status_due srv sess _ (tk_now t) (tk_wall t) T Hs Hi0 Ed) as (s1 & o & st & H1 & H2 & _ & _ & H3 & _ & H4 & _).
      exists s1, [o]. split_and!; [done|done|done|]. by rewrite H4. }
  destruct Hst as (s1 & outs & Hst & Hi1 & Hw1 & Hd1). unfold up_iter at 1. rewrite Hw, Hst, !go_bind_Ret.
  unfold tick_ok in Ht. destruct (tk_read t) as [| |rxNow msgs]; cbn [up_read]; [|done|].
  - rewrite !go_bind_Ret. destruct (IH s1 Hi1 Hd1) as (s2 & o2 & H2); [by rewrite Hw1|]. rewrite H2, go_bind_Ret. by eexists _, _.
  - destruct Hal as (Hn & Hst' & Hal). destruct (up_batch_ok srv sess rxNow s1 msgs Hi1 Ht) as (s2 & H2 & Hi2 & _).
    destruct (up_batch_alive _ _ _ _ _ H2 Hst') as [Hc Hw2]. rewrite (proj2 (Z.ltb_lt _ _) Hn) in Hw2.
    rewrite H2, !go_bind_Ret, Hc, Hd1. cbn [negb].
    destruct (IH s2 Hi2) as (s3 & o3 & H3); [congruence|by rewrite Hw2|]. rewrite H3, go_bind_Ret. by eexists _, _.
Qed.

(** ** The socket wakes the loop *)

(** A run against the socket is a run of ticks. *)
Lemma up_conn_ticks srv sess s now net s' outs e : up_conn srv sess s now net = Ret (s', outs, e) -> e <> Blocked ->
  exists ticks, up_loop srv sess s ticks = Ret (s', outs, has_ended e).
Proof.
  revert s now outs. induction net as [|a net IH]; intros s now outs; cbn [up_conn]; destruct (time_After now _) eqn:Ew.
  1, 3: intros [= <- <- <-] _; exists [mkTick now now BatchTimeout]; cbn [up_loop]; unfold up_iter; cbn [tk_now]; by rewrite Ew, go_bind_Ret.
  - intros [= <- <- <-] _. by exists [].
  - intros H He. apply bind_Ret_inv in H as ([s1 o1] & Hst & H).
    destruct (conn_read _ _ _) as [[t r]|]; [|by injection H as <- <- <-].
    apply bind_Ret_inv in H as ([s2 cont] & Hr & H).
    assert (Hit : up_iter srv sess s (mkTick now (ar_wall a) (batch_of (time_Add t (ar_late a)) r)) = Ret (s2, o1, cont)).
    { unfold up_iter. cbn [tk_now tk_wall tk_read]. by rewrite Ew, Hst, go_bind_Ret, Hr, go_bind_Ret. }
    destruct cont.
    + apply bind_Ret_inv in H as ([[s3 o3] e3] & Hc & H). injection H as <- <- <-.
      destruct (IH _ _ _ Hc He) as [ticks Hl]. eexists (_ :: ticks). cbn [up_loop]. by rewrite Hit, go_bind_Ret, Hl, go_bind_Ret.
    + injection H as <- <- <-. eexists [_]. cbn [up_loop]. by rewrite Hit, go_bind_Ret.
Qed.

Definition silent (a : arrival) : bool := match ar_wire a with Quiet => true | _ => false end.
Definition silences (net : list arrival) : Z := Z.of_nat (length (filter (fun a => silent a = true) net)).

Lemma silences_cons a net : silences (a :: net) = (if silent a then 1 else 0) + silences net.
Proof. unfold silences. rewrite filter_cons. destruct (silent a); cbn [length decide]; [case_decide; [cbn; lia|done]|by case_decide]. Qed.

(** An iteration in which nothing the receiver counts arrives and the socket
    does not break; the clock is read again at least a nanosecond after the
    read and, with the batch, within [slack] of it. *)
Definition idle (sess : session) (slack : Z) (a : arrival) : Prop :=
  0 < ar_late a /\ 0 <= ar_lag a /\ ar_late a + ar_lag a <= slack /\
  match ar_wire a with
  | Quiet => True
  | Breaks _ => False
  | Arrives t msgs => has_mono t /\ Forall (fun m => bytes_ok (m_bytes m)) msgs /\ count_msgs sess msgs = 0
  end.

(** The readings of the clock the loop compares with. *)
Definition up_clock (s : upState) (now : Time) : Prop :=
  has_mono now /\ has_mono (up_nextStatus s) /\ has_mono (up_watchdog s).

Lemma up_deadline_ns s : has_mono (up_nextStatus s) -> has_mono (up_watchdog s) ->
  has_mono (up_deadline s) /\ mono_ns (up_deadline s) = Z.min (mono_ns (up_watchdog s)) (mono_ns (up_nextStatus s)).
Proof.
  intros Hn Hw. unfold up_deadline. rewrite time_Before_ns by done. destruct (_ <? _) eqn:E; b2p; (split; [done|lia]).
Qed.

(** The status block and the schedule: due or not, the next status is not in
    the past after it, and a due one has moved on by at least one trial
    interval. *)
Lemma up_status_sched srv sess s now wnow :
  SendTable (table srv) -> session_ok srv sess -> up_inv srv s -> up_clock s now ->
  exists s1 outs, up_status srv sess (up_stop s now) now wnow = Ret (s1, outs) /\ up_inv srv s1 /\
    up_watchdog s1 = up_watchdog s /\ up_clientDone s1 = up_clientDone s /\ has_mono (up_nextStatus s1) /\
    mono_ns now <= mono_ns (up_nextStatus s1) /\
    (mono_ns (up_nextStatus s1) = mono_ns (up_nextStatus s) /\ mono_ns now < mono_ns (up_nextStatus s) \/
     mono_ns (up_nextStatus s) <= mono_ns now /\
     mono_ns (up_nextStatus s) + tp_trialInt (se_p sess) <= mono_ns (up_nextStatus s1)).
Proof.
  intros T Hs Hi (Hn & Hx & Hw). pose proof (up_stop_inv srv s now Hi) as Hi0.
  pose proof (po_trial _ _ _ (proj1 Hs)) as Hti. unfold Millisecond in Hti.
  destruct (time_Before now (up_nextStatus s)) eqn:Ed.
  - exists (up_stop s now), []. split_and!; try done; [by apply up_status_idle|..].
    all: rewrite time_Before_ns in Ed by done; b2p; cbn; lia.
  - destruct (up_status_due srv sess (up_stop s now) now wnow T Hs Hi0 Ed)
      as (s1 & o & st & H1 & H2 & _ & _ & H3 & _ & H4 & H5).
    cbv zeta in H5. cbn [up_stop up_nextStatus] in H5.
    destruct (next_status_window (tp_trialInt (se_p sess)) (up_nextStatus s) now Hx Hn ltac:(lia) Ed) as [Hm Hwin].
    rewrite <- H5 in Hm, Hwin. exists s1, [o]. split_and!; try done; [lia|right].
    rewrite time_Before_ns in Ed by done. b2p. split; [done|]. rewrite H5, time_Before_ns by auto using has_mono_Add.
    rewrite mono_ns_Add by done. destruct (_ <? _) eqn:E; b2p; rewrite mono_ns_Add by done; lia.
Qed.

(** One idle iteration short of the watchdog: the read returns by the
    deadline, and not before it when nothing arrives. *)
Lemma up_conn_idle srv sess slack s now a net :
  SendTable (table srv) -> session_ok srv sess -> up_inv srv s -> up_clientDone s = false -> up_clock s now ->
  idle sess slack a -> mono_ns now <= mono_ns (up_watchdog s) ->
  exists s1 outs now1, up_inv srv s1 /\ up_clientDone s1 = false /\ up_clock s1 now1 /\ up_watchdog s1 = up_watchdog s /\
    (mono_ns (up_nextStatus s1) = mono_ns (up_nextStatus s) /\ mono_ns now < mono_ns (up_nextStatus s) \/
     mono_ns (up_nextStatus s) <= mono_ns now /\
     mono_ns (up_nextStatus s) + tp_trialInt (se_p sess) <= mono_ns (up_nextStatus s1)) /\
    mono_ns now1 <= mono_ns (up_watchdog s) + slack /\
    (silent a = true -> Z.min (mono_ns (up_watchdog s)) (mono_ns (up_nextStatus s1)) < mono_ns now1) /\
    up_conn srv sess s now (a :: net) =
      (r ← up_conn srv sess s1 now1 net;
       let '(s', outs', e) := (r : upState * list Out * loopEnd) in Ret (s', outs ++ outs', e)).
Proof.
  intros T Hs Hi Hd Hc (Hlate & Hlag & Hslack & Hwire) Hle. pose proof Hc as (Hn & Hx & Hw).
  destruct (up_status_sched srv sess s now (ar_wall a) T Hs Hi Hc) as (s1 & outs & Hst & Hi1 & Hw1 & Hd1 & Hx1 & Hge & Hmv).
  destruct (up_deadline_ns s1) as [Hdm Hdn]; [done|by rewrite Hw1|]. rewrite Hw1 in Hdn.
  destruct (conn_read_returns (up_deadline s1) now (ar_wire a) Hdm Hn) as (t & r & Hr & Htm & Htr & Hcase).
  { destruct (ar_wire a); [done|done|apply Hwire]. }
  assert (Hread : up_read sess s1 (batch_of (time_Add t (ar_late a)) r) = Ret (s1, true)).
  { destruct r as [| |msgs]; cbn [batch_of up_read]; [done|..].
    - destruct Hcase as [u Hu]. rewrite Hu in Hwire. done.
    - destruct Hcase as [u Hu]. rewrite Hu in Hwire. destruct Hwire as (_ & Hb & H0).
      destruct (up_batch_ok srv sess (time_Add t (ar_late a)) s1 msgs Hi1 Hb) as (s2 & H2 & _ & _ & Hsame & _).
      rewrite H2, go_bind_Ret, (Hsame H0), Hd1, Hd. done. }
  exists s1, outs, (time_Add (time_Add t (ar_late a)) (ar_lag a)).
  assert (Hnow1 : mono_ns (time_Add (time_Add t (ar_late a)) (ar_lag a)) = mono_ns t + (ar_late a + ar_lag a)).
  { rewrite !mono_ns_Add by auto using has_mono_Add. lia. }
  rewrite Hnow1. split_and!; try done; [by rewrite Hd1| |lia|..].
  - split; [auto using has_mono_Add|by rewrite Hw1].
  - intros Hq. unfold silent in Hq. destruct (ar_wire a); [|done..]. destruct r as [| |msgs]; [lia|by destruct Hcase..].
  - cbn [up_conn]. rewrite time_After_mono by done. rewrite (proj2 (Z.ltb_ge _ _) Hle).
    rewrite Hst, go_bind_Ret, Hr. cbv zeta. by rewrite Hread, go_bind_Ret.
Qed.

(** The number of silent reads the loop can wait for: [k] trial intervals
    from the next status reach past the watchdog. *)
Lemma up_conn_ends srv sess slack net k s now :
  SendTable (table srv) -> session_ok srv sess -> up_inv srv s -> up_clientDone s = false -> up_clock s now ->
  Forall (idle sess slack) net -> 0 <= k ->
  mono_ns (up_watchdog s) - mono_ns (up_nextStatus s) < k * tp_trialInt (se_p sess) ->
  (if mono_ns (up_watchdog s) <? mono_ns now then 0
   else if mono_ns (up_nextStatus s) <=? mono_ns now then k + 1 else k + 2) <= silences net ->
  exists s' outs t, up_conn srv sess s now net = Ret (s', outs, Ended t) /\
    mono_ns (up_watchdog s) < mono_ns t <= Z.max (mono_ns now) (mono_ns (up_watchdog s) + slack).
Proof.
  intros T Hs Hi Hd Hc Hall. revert k s now Hi Hd Hc.
  pose proof (po_trial _ _ _ (proj1 Hs)) as Hti. unfold Millisecond in Hti.
  induction Hall as [|a net Ha Hall IH]; intros k s now Hi Hd Hc Hk Hreach Hbud; pose proof Hc as (Hn & Hx & Hw).
  all: destruct (mono_ns (up_watchdog s) <? mono_ns now) eqn:Ew; b2p.
  1, 3: exists s, [], now; cbn [up_conn]; rewrite time_After_mono, (proj2 (Z.ltb_lt _ _) Ew) by done; split; [done|lia].
  { unfold silences in Hbud. cbn in Hbud. destruct (_ <=? _); lia. }
  destruct (up_conn_idle srv sess slack s now a net T Hs Hi Hd Hc Ha Ew)
    as (s1 & outs & now1 & Hi1 & Hd1 & Hc1 & Hw1 & Hmv & Hup & Hq & ->).
  rewrite silences_cons in Hbud.
  set (ti := tp_trialInt (se_p sess)) in *. set (W := mono_ns (up_watchdog s)) in *.
  assert (Hnext : exists k', 0 <= k' /\ W - mono_ns (up_nextStatus s1) < k' * ti /\
    (if W <? mono_ns now1 then 0 else if mono_ns (up_nextStatus s1) <=? mono_ns now1 then k' + 1 else k' + 2) <= silences net).
  { destruct Hmv as [[Heq Hge]|[Hle Hge]].
    - exists k. rewrite Heq. split_and!; [done|done|]. rewrite Heq in Hq.
      destruct (silent a) eqn:Es; [specialize (Hq eq_refl)|]; repeat case_match; b2p; lia.
    - exists (k - 1). rewrite (proj2 (Z.leb_le _ _) Hle) in Hbud.
      assert (1 <= k) by nia. split_and!; [lia|nia|].
      destruct (silent a) eqn:Es; [specialize (Hq eq_refl)|]; repeat case_match; b2p; lia. }
  destruct Hnext as (k' & Hk' & Hr' & Hb').
  destruct (IH k' s1 now1 Hi1 Hd1 Hc1 Hk') as (s2 & o2 & t & Hl & Ht1 & Ht2); [by rewrite Hw1..|].
  rewrite Hw1 in Ht1, Ht2. fold W in Ht1, Ht2. rewrite Hl, go_bind_Ret. eexists _, _, t. split; [reflexivity|].
  lia.
Qed.

(** ** Theorems *)
Section UpstreamTheorems.
Context (srv : Server) `{T : SendTable (table srv)} (sess : session) (Hsess : session_ok srv sess).

(** Whatever arrives, an upstream test runs without a panic, and what it
    sends is a sequence of status messages to the client numbered 1, 2, 3, ...
    (modulo 2^32), each of which decodes and carries a row of the rate
    table. *)
Theorem upstream_statuses start ticks now1 now2 :
  Forall tick_ok ticks ->
  exists outs res, runUpstream srv sess start ticks now1 now2 = Ret (outs, res) /\
    forall i o, outs !! i = Some o -> is_status srv sess (u32 (1 + Z.of_nat i)) o.
Proof.
  intros Hok. unfold runUpstream.
  destruct (up_loop_total srv sess (up_init srv sess start) ticks T Hsess (up_init_inv srv sess start T Hsess) Hok)
    as (s & outs & ended & Hl & Hall).
  rewrite Hl, go_bind_Ret. eexists _, _. split; [reflexivity|]. exact Hall.
Qed.

(** C13: the feedback loop: in any run with a clock that does not go back, an
    iteration sends at most one status; it reports the loss and the datagrams
    of the trial, carries the row at the index the search moves to on exactly
    these measurements, and asks the client to stop if and only if the duration
    and the half second after it have passed; and the next status is due
    within one trial interval, never in the past. *)
Theorem upstream_feedback start s last n t s' outs :
  up_reach srv sess start s last n ->
  has_mono (tk_now t) -> mono_ns last <= mono_ns (tk_now t) -> tick_ok t ->
  up_iter srv sess s t = Ret (s', outs, true) ->
  mono_ns (tk_now t) <= mono_ns (up_nextStatus s') <= mono_ns (tk_now t) + tp_trialInt (se_p sess) /\
  (outs = [] \/
   exists o pdu st, outs = [o] /\ o = SendTest (ss_port (se_setup sess)) pdu (se_peer sess) /\
     parseStatus pdu = Ret (Ok st) /\
     Rows (table srv) !! Z.to_nat (rc_index (adjust (up_rc s) (trialInput_of (up_a s)))) = Some (St_SR st) /\
     up_rc s' = adjust (up_rc s) (trialInput_of (up_a s)) /\
     St_SeqErrLoss st = rx_tLoss (rx_t (up_a s)) /\ St_TIRxDatagrams st = rx_tRxDatagrams (rx_t (up_a s)) /\
     (St_TestAction st = testActionStop2 <->
      mono_ns start + tp_duration (se_p sess) + 500 * Millisecond < mono_ns (tk_now t)) /\
     (St_TestAction st = testActionStop2 \/ St_TestAction st = testActionTest)).
Proof.
  intros Hr Hm Hle Hok Hit. pose proof (up_reach_inv srv sess start s last n T Hsess Hr) as Hinv.
  pose proof (run_inv_step srv sess start s last n t s' outs T Hsess Hinv Hm Hle Hok Hit) as [_ _ _ _ _ Hnx _ _].
  split; [exact Hnx|]. destruct Hinv as [Hi _ Hsa Hst Hsp _ _ _].
  destruct (time_After (tk_now t) (up_watchdog s)) eqn:Ew; [unfold up_iter in Hit; by rewrite Ew in Hit|].
  destruct (up_iter_ok srv sess s t T Hsess Hi Hok Ew)
    as (s1 & s2 & outs' & cont & Hit' & _ & Hcase & (Hf1 & _) & _).
  rewrite Hit in Hit'. injection Hit' as <- <- <-.
  destruct Hcase as [o st _ [(pdu & Ho & Hp) _ Hrc Hrow Hact (Hl & Hdg & _)] _|_ _]; [right|by left].
  exists o, pdu, st. rewrite Hrc in Hrow, Hf1. split_and!; try done.
  - rewrite Hact. cbn [up_stop up_stopping].
    assert (Hafter : time_After (tk_now t) (up_stopAt s) = true <->
      mono_ns start + tp_duration (se_p sess) + 500 * Millisecond < mono_ns (tk_now t)).
    { rewrite Hsa, time_After_mono, mono_ns_Add, Z.ltb_lt by auto using has_mono_Add. lia. }
    destruct (up_stopping s) eqn:Es; cbn [orb].
    + split; [intros _|done]. specialize (Hsp eq_refl). rewrite Hsa, mono_ns_Add in Hsp by done. lia.
    + rewrite <- Hafter. by destruct (time_After (tk_now t) (up_stopAt s)).
  - rewrite Hact. destruct (up_stopping (up_stop s (tk_now t))); [by left|by right].
Qed.

(** C14: no datagram is counted twice or missed: up to 2^32 of them, the
    datagrams reported in the statuses sent so far and those of the current
    trial are together exactly the load datagrams received from the peer. *)
Theorem upstream_counts start s last n :
  up_reach srv sess start s last n -> n < 2 ^ 32 ->
  up_totalDG s + rx_tRxDatagrams (rx_t (up_a s)) = n.
Proof. intros Hr Hn. by apply (rn_count _ _ _ _ _ _ (up_reach_inv srv sess start s last n T Hsess Hr)). Qed.

(** C15: the test of a silent client ends, because the deadline of the read
    wakes the loop: whatever arrives that the receiver does not count, and
    however the silences fall, once enough reads of the socket have met
    silence (three more than the trial intervals between the next status and
    the watchdog) the loop has left, after the watchdog, three seconds after the last datagram it
    counted, and within one iteration's delay of it. *)
Theorem upstream_watchdog s now slack net :
  up_inv srv s -> up_clientDone s = false -> up_clock s now -> Forall (idle sess slack) net ->
  Z.max 0 ((mono_ns (up_watchdog s) - mono_ns (up_nextStatus s)) / tp_trialInt (se_p sess)) + 3 <= silences net ->
  exists s' outs t, up_conn srv sess s now net = Ret (s', outs, Ended t) /\
    mono_ns (up_watchdog s) < mono_ns t <= Z.max (mono_ns now) (mono_ns (up_watchdog s) + slack).
Proof.
  intros Hi Hd Hc Hall Hq. pose proof (po_trial _ _ _ (proj1 Hsess)) as Hti. unfold Millisecond in Hti.
  set (d := mono_ns (up_watchdog s) - mono_ns (up_nextStatus s)) in *. set (ti := tp_trialInt (se_p sess)) in *.
  pose proof (Z.mul_succ_div_gt d ti ltac:(lia)).
  apply (up_conn_ends srv sess slack net (Z.max 0 (d / ti) + 1) s now T Hsess Hi Hd Hc Hall); [lia| |repeat case_match; lia].
  fold d ti. nia.
Qed.
End UpstreamTheorems.

(** ** A concrete run: one load datagram, then the first status *)
Definition sess_example : session :=
  mkSession (ss_example None) peer_example false false
    (police (NewServer cfg_example) 20 false (fun _ _ => true) (testact_example false)).

Lemma sess_example_ok : session_ok (NewServer cfg_example) sess_example.
Proof. split; [apply police_params_ok, testact_example_wf|split; [discriminate|reflexivity]]. Qed.

Definition at_ms (ms : Z) : Time := time_Add time_example (ms * Millisecond).

Definition load_bytes_example : list Z :=
  match LoadPDU_marshalInto (mkLoad testActionTest 0 1 1222 0 0 0 1712345680 0 0) (make_bytes 64) with
  | Ret b => b
  | Panic => []
  end.

Definition tick_load : tick :=
  mkTick (at_ms 10) (at_ms 10)
    (BatchOk (at_ms 11) [mkMessage (Some (ap_Addr peer_example)) load_bytes_example; mkMessage None []]).
Definition tick_status : tick := mkTick (at_ms 60) (at_ms 60) BatchTimeout.

Lemma tick_load_ok : tick_ok tick_load.
Proof.
  apply Forall_cons; [|apply Forall_cons; [constructor|constructor]].
  apply bytes_ok_compute. vm_compute. reflexivity.
Qed.

(** One iteration goes on and sends [k] datagrams. *)
Definition iter_okb (k : nat) (r : go (upState * list Out * bool)) : bool :=
  match r with Ret (_, outs, true) => (length outs =? k)%nat | _ => false end.

Lemma tick_load_runs :
  iter_okb 0 (up_iter (NewServer cfg_example) sess_example (up_init (NewServer cfg_example) sess_example time_example) tick_load) = true.
Proof. vm_compute. reflexivity. Qed.

Lemma tick_status_runs :
  iter_okb 1 (up_iter (NewServer cfg_example) sess_example (up_init (NewServer cfg_example) sess_example time_example) tick_status) = true.
Proof. vm_compute. reflexivity. Qed.

Lemma time_example_mono : has_mono time_example.
Proof. by eexists. Qed.

Lemma upstream_statuses_witness :
  exists outs res, runUpstream (NewServer cfg_example) sess_example time_example [tick_load; tick_status] (at_ms 70) (at_ms 70) = Ret (outs, res) /\
    forall i o, outs !! i = Some o -> is_status (NewServer cfg_example) sess_example (u32 (1 + Z.of_nat i)) o.
Proof.
  apply (upstream_statuses (NewServer cfg_example) sess_example sess_example_ok).
  apply Forall_cons; [exact tick_load_ok|apply Forall_cons; [exact I|constructor]].
Defined.

Lemma upstream_feedback_witness :
  exists s' outs, up_iter (NewServer cfg_example) sess_example (up_init (NewServer cfg_example) sess_example time_example) tick_status
      = Ret (s', outs, true) /\ length outs = 1%nat /\
    mono_ns (at_ms 60) <= mono_ns (up_nextStatus s') <= mono_ns (at_ms 60) + tp_trialInt (se_p sess_example).
Proof.
  pose proof tick_status_runs as Hrun.
  destruct (up_iter (NewServer cfg_example) sess_example (up_init (NewServer cfg_example) sess_example time_example) tick_status)
    as [[[s' outs] [|]]|] eqn:E; [|discriminate Hrun..].
  destruct (upstream_feedback (NewServer cfg_example) sess_example sess_example_ok time_example
      (up_init (NewServer cfg_example) sess_example time_example) time_example 0 tick_status s' outs) as [H _].
  - apply reach_start. exact time_example_mono.
  - by eexists.
  - discriminate.
  - exact I.
  - exact E.
  - exists s', outs. split_and!; [reflexivity|by apply Nat.eqb_eq|apply H|apply H].
Defined.

Lemma upstream_counts_witness :
  exists s, up_reach (NewServer cfg_example) sess_example time_example s (at_ms 10) 1 /\
    up_totalDG s + rx_tRxDatagrams (rx_t (up_a s)) = 1.
Proof.
  pose proof tick_load_runs as Hrun.
  destruct (up_iter (NewServer cfg_example) sess_example (up_init (NewServer cfg_example) sess_example time_example) tick_load)
    as [[[s' outs] [|]]|] eqn:E; [|discriminate Hrun..].
  assert (Hr : up_reach (NewServer cfg_example) sess_example time_example s' (at_ms 10) (0 + tick_count sess_example tick_load)).
  { apply (reach_iter _ _ _ (up_init (NewServer cfg_example) sess_example time_example) time_example 0 tick_load s' outs).
    - apply reach_start. exact time_example_mono.
    - by eexists.
    - discriminate.
    - exact tick_load_ok.
    - exact E. }
  replace (0 + tick_count sess_example tick_load) with 1 in Hr by (vm_compute; reflexivity).
  exists s'. split; [exact Hr|].
  exact (upstream_counts (NewServer cfg_example) sess_example sess_example_ok time_example s' (at_ms 10) 1 Hr eq_refl).
Defined.

(** A client that sends nothing, or junk from another address, from the start
    of the test. *)
Definition arrival_silence : arrival := mkArrival time_example Quiet 1000 0.
Definition arrival_junk : arrival :=
  mkArrival time_example (Arrives (at_ms 20) [mkMessage None []; mkMessage (Some (ap_Addr peer_example)) [1; 2; 3]]) 1000 500.

Lemma upstream_watchdog_witness :
  exists s' outs t, up_conn (NewServer cfg_example) sess_example (up_init (NewServer cfg_example) sess_example time_example)
      time_example (arrival_junk :: replicate 62 arrival_silence) = Ret (s', outs, Ended t) /\
    mono_ns (up_watchdog (up_init (NewServer cfg_example) sess_example time_example)) < mono_ns t
      <= Z.max (mono_ns time_example) (mono_ns (up_watchdog (up_init (NewServer cfg_example) sess_example time_example)) + Millisecond).
Proof.
  apply (upstream_watchdog (NewServer cfg_example) sess_example sess_example_ok).
  - apply up_init_inv; [apply _|exact sess_example_ok].
  - reflexivity.
  - split_and!; by eexists.
  - apply Forall_cons; [|apply Forall_replicate].
    + unfold idle, Millisecond; cbn; split_and!; [lia|lia|lia|by eexists| |reflexivity].
      apply Forall_cons; [constructor|apply Forall_cons; [apply bytes_ok_compute; reflexivity|constructor]].
    + unfold idle, Millisecond; cbn; split_and!; [lia|lia|lia|exact I].
  - vm_compute. discriminate.
Defined.
