(* ===== verification/Downstream.v ===== *)
(** * The downstream engine (runDownstream and sendLoop of session.go)

    The server sends the load: [sendBurst] fills the shared packet buffers and
    hands them to the kernel in batches, [send_iter] is one iteration of the
    pacing loop with its two transmitters, and [dn_iter] one iteration of the
    receiver of the client's status messages, which moves the rate index the
    sender reads.  Clock readings, random draws, the values loaded from the
    shared variables and the outcome of each batched write are inputs.
    [dn_conn] is the receiver against the socket, with the read deadline it
    sets. *)

From stdpp Require Import gmap.
From S2P Require Import Prelude GoFloat Srates Protocol Status GoTime Algo Accounting Sha256 Auth GoNet GoConn Server Session Upstream.

(** The timestamp of the last status message and when it came. *)
Record echoState := mkEcho {
  es_sec : Z;
  es_nsec : Z;
  es_rxAt : Time
}.

(** The variables of sendLoop that its iterations change: the sequence number,
    the packet buffers and the next instant of each transmitter. *)
Record sender := mkSender {
  sn_seq : Z;
  sn_bufs : list (list Z);
  sn_next1 : Time;
  sn_next2 : Time
}.

Definition maxSize : Z := maxJPayloadSize.

(** The pattern of a random payload: one byte in seven. *)
Fixpoint fill_pattern (fuel : nat) (j : Z) (b : list Z) : list Z :=
  match fuel with
  | O => b
  | S fuel => if j <? maxSize then fill_pattern fuel (j + 7) (<[Z.to_nat j := u8 (j * 31)]> b) else b
  end.

Definition new_bufs (randPayload : bool) : list (list Z) :=
  let b := make_bytes (Z.to_nat maxSize) in
  replicate (Z.to_nat (maxBurstSize + 1))
    (if randPayload then fill_pattern (Z.to_nat maxSize) loadHdrSize b else b).

Definition minSize (ipv6 : bool) : Z := if ipv6 then minPayloadSize - ipv6AddSize else minPayloadSize.

(** The inputs of one burst. *)
Record burstEnv := mkBurst {
  be_echo : option echoState;
  be_now : Time;
  be_wall : nat -> Time;
  be_draw1 : Z -> Z;
  be_draw2 : Z -> Z;
  be_writes : list (option nat)
}.

(** echoSec, echoNsec and respDelay. *)
Definition echo_fields (es : option echoState) (now : Time) : Z * Z * Z :=
  match es with
  | None => (0, 0, 0)
  | Some es =>
      let d := Milliseconds (time_Sub now (es_rxAt es)) in
      (es_sec es, es_nsec es, if (0 <=? d) && (d <? 65535) then u16 d else 65535)
  end.

(** The payload size of a size field: the IPv6 header's extra bytes come off,
    and a randomised size is drawn down to the minimum.  uint32 arithmetic. *)
Definition burst_size (ipv6 : bool) (field : Z) (draw : Z -> Z) : Z :=
  let size := Z.ldiff field rateRandBit in
  let size := if ipv6 && (ipv6AddSize <? size) then u32 (size - ipv6AddSize) else size in
  if negb (Z.land field rateRandBit =? 0) && (u32 (minSize ipv6) <? size)
  then u32 (u32 (minSize ipv6) + draw (u32 (size - u32 (minSize ipv6) + 1)))
  else size.

(** add: the next datagram of the burst goes into buffer number [count]. *)
Definition add_packet (ipv6 : bool) (action : Z) (env : burstEnv) (size : Z)
    (st : Z * list (list Z) * list (list Z)) : go (Z * list (list Z) * list (list Z)) :=
  let '(seq, bufs, msgs) := st in
  let count := length msgs in
  let size := if size <? u32 (minSize ipv6) then u32 (minSize ipv6) else size in
  let size := if u32 maxSize <? size then u32 maxSize else size in
  let seq := u32 (seq + 1) in
  let '(echoSec, echoNsec, respDelay) := echo_fields (be_echo env) (be_now env) in
  let '(sec, nsec) := wallNow (be_wall env count) in
  let hdr := mkLoad action 0 seq (u16 size) 0 echoSec echoNsec sec nsec respDelay in
  buf ← match bufs !! count with Some buf => Ret buf | None => Panic end;
  buf ← LoadPDU_marshalInto hdr buf;
  pkt ← slice buf 0 (Z.to_nat size);
  Ret (seq, <[count := buf]> bufs, msgs ++ [pkt]).

Fixpoint add_packets (ipv6 : bool) (action : Z) (env : burstEnv) (size : Z) (n : nat)
    (st : Z * list (list Z) * list (list Z)) : go (Z * list (list Z) * list (list Z)) :=
  match n with
  | O => Ret st
  | S n => st ← add_packet ipv6 action env size st; add_packets ipv6 action env size n st
  end.

(** The write loop: the sequence numbers of what the kernel did not take are
    given back.  The result is the new sequence number and the datagrams
    sent. *)
Fixpoint write_batches (seq : Z) (msgs : list (list Z)) (writes : list (option nat)) : Z * list (list Z) :=
  match msgs with
  | [] => (seq, [])
  | _ :: _ =>
      match writes with
      | Some (S n) :: writes =>
          let '(seq, sent) := write_batches seq (drop (S n) msgs) writes in
          (seq, take (S n) msgs ++ sent)
      | _ => (u32 (seq - u32 (Z.of_nat (length msgs))), [])
      end
  end.

Definition sendBurst (ipv6 : bool) (action sizeField burst addon : Z) (env : burstEnv) (s : sender)
    : go (sender * list (list Z)) :=
  st ← add_packets ipv6 action env (burst_size ipv6 sizeField (be_draw1 env)) (Z.to_nat burst)
         (sn_seq s, sn_bufs s, []);
  st ← (if 0 <? addon then add_packet ipv6 action env (burst_size ipv6 addon (be_draw2 env)) st else Ret st);
  let '(seq, bufs, msgs) := (st : Z * list (list Z) * list (list Z)) in
  let '(seq, sent) := write_batches seq msgs (be_writes env) in
  Ret (mkSender seq bufs (sn_next1 s) (sn_next2 s), sent).

(** The catch-up loop of one transmitter: bursts until its next instant is in
    the future, at most [fuel] of them; [env i] are the inputs of burst i. *)
Fixpoint catch_up (ipv6 : bool) (sizeField burst addon iv : Z) (now : Time) (env : nat -> burstEnv) (fuel : nat)
    (next : Time) (s : sender) : go (sender * Time * list (list Z)) :=
  match fuel with
  | O => Ret (s, next, [])
  | S fuel' =>
      if time_After next now then Ret (s, next, [])
      else
        r ← sendBurst ipv6 testActionTest sizeField burst addon (env O) s;
        let '(s, sent) := (r : sender * list (list Z)) in
        r ← catch_up ipv6 sizeField burst addon iv now (fun i => env (S i)) fuel' (time_Add next iv) s;
        let '(s, next, sent') := (r : sender * Time * list (list Z)) in
        Ret (s, next, sent ++ sent')
  end.

Definition catchUpMax : nat := 20.

(** One transmitter of an iteration: [active], its interval in microseconds,
    and its next instant after it. *)
Definition transmitter (ipv6 active : bool) (interval sizeField burst addon : Z) (now : Time) (env : nat -> burstEnv)
    (next : Time) (s : sender) : go (sender * Time * list (list Z)) :=
  if active then
    let iv := interval * Microsecond in
    r ← catch_up ipv6 sizeField burst addon iv now env catchUpMax next s;
    let '(s, next, sent) := (r : sender * Time * list (list Z)) in
    Ret (s, if time_Before next now then time_Add now iv else next, sent)
  else Ret (s, time_Add now (10 * Millisecond), []).

Definition t1Active (row : Rate) : bool := (0 <? TxInterval1 row) && (0 <? BurstSize1 row).
Definition t2Active (row : Rate) : bool :=
  (0 <? TxInterval2 row) && ((0 <? BurstSize2 row) || (0 <? UDPAddon2 row)).

(** The instant an iteration sleeps to. *)
Definition wake_time (row : Rate) (s : sender) : Time :=
  let wake := zeroTime in
  let wake := if t1Active row && (IsZero wake || time_Before (sn_next1 s) wake) then sn_next1 s else wake in
  if t2Active row && (IsZero wake || time_Before (sn_next2 s) wake) then sn_next2 s else wake.

(** The inputs of one iteration of sendLoop: the stop flag and the index
    loaded, the reading of the clock after the sleep, and those of its
    bursts.  Any reading is allowed here, so what holds of the iterations
    holds whenever the sleep returns; that it does not return before
    [wake_time] unless the test is over is [sleepUntil_reaches] below. *)
Record sendEnv := mkSendEnv {
  sv_stop : bool;
  sv_index : Z;
  sv_now : Time;
  sv_burst1 : nat -> burstEnv;
  sv_burst2 : nat -> burstEnv
}.

Definition send_iter (t : RateTable) (ipv6 : bool) (env : sendEnv) (s : sender) : go (sender * list (list Z)) :=
  if sv_stop env then
    sendBurst ipv6 testActionStop2 (u32 (minSize ipv6)) 1 0 (sv_burst1 env O) s
  else
    row ← table_row t (sv_index env);
    if negb (t1Active row) && negb (t2Active row) then Ret (s, [])
    else
      let now := sv_now env in
      r ← transmitter ipv6 (t1Active row) (TxInterval1 row) (UDPPayload1 row) (BurstSize1 row) 0 now
            (sv_burst1 env) (sn_next1 s) s;
      let '(s, next1, sent1) := (r : sender * Time * list (list Z)) in
      r ← transmitter ipv6 (t2Active row) (TxInterval2 row) (UDPPayload2 row) (BurstSize2 row) (UDPAddon2 row) now
            (sv_burst2 env) (sn_next2 s) s;
      let '(s, next2, sent2) := (r : sender * Time * list (list Z)) in
      Ret (mkSender (sn_seq s) (sn_bufs s) next1 next2, sent1 ++ sent2).

(** The state sendLoop starts from, [startDelay] milliseconds from now. *)
Definition send_init (randPayload : bool) (now : Time) (draw : Z) : sender :=
  let next := time_Add now ((5 + draw) * Millisecond) in
  mkSender 0 (new_bufs randPayload) next next.

(** The iterations until [done] is closed. *)
Fixpoint sendLoop (t : RateTable) (ipv6 : bool) (s : sender) (envs : list sendEnv) : go (sender * list (list Z)) :=
  match envs with
  | [] => Ret (s, [])
  | env :: envs =>
      r ← send_iter t ipv6 env s;
      let '(s, sent) := (r : sender * list (list Z)) in
      r ← sendLoop t ipv6 s envs;
      let '(s, sent') := (r : sender * list (list Z)) in
      Ret (s, sent ++ sent')
  end.

(** sleepUntil over the readings of the clock it makes, each with whether
    [done] was closed when it would wait: the readings left on return, and
    whether it returned because of [done].  [None]: the readings ran out. *)
Fixpoint sleepUntil (t : Time) (clock : list (Time * bool)) : option (Time * bool) :=
  match clock with
  | [] => None
  | (now, done) :: clock' =>
      let d := time_Sub t now in
      if d <=? 0 then Some (now, false)
      else if 500 * Microsecond <? d then
        if done then Some (now, true) else sleepUntil t clock'
      else
        (fix spin (clock : list (Time * bool)) : option (Time * bool) :=
           match clock with
           | [] => None
           | (now, _) :: clock => if time_Before now t then spin clock else Some (now, false)
           end) clock'
  end.

(** ** The receiver of status messages *)
Inductive statusRead : Type :=
| SrTimeout
| SrError
| SrRead (b : list Z) (peer : AddrPort) (rxNow : Time).

Record dnTick := mkDnTick {
  dt_now : Time;
  dt_read : statusRead
}.

(** The variables of the loop and what it shares with the sender ([dn_index],
    [dn_echo]). *)
Record dnState := mkDn {
  dn_rc : rateController;
  dn_index : Z;
  dn_echo : option echoState;
  dn_watchdog : Time;
  dn_lastSubSeq : Z;
  dn_maxMbps : float64;
  dn_totalLoss : Z;
  dn_totalDG : Z
}.

Definition dn_init (srv : Server) (sess : session) (now : Time) : dnState :=
  let rc := newRateController srv (se_p sess) in
  mkDn rc (rc_index rc) None (time_Add now watchdogTimeout) 0 f64_zero 0 0.

(** The trial input of a status message. *)
Definition status_trial (st : StatusPDU) : trialInput :=
  mkTrial (St_SeqErrLoss st) (St_SeqErrOoo st) (St_SeqErrDup st) (St_DelayVarSum st) (St_DelayVarCnt st)
    (St_RTTVarSample st) (St_TIRxDatagrams st) (St_TIRxCECount st) (St_SubIntSeqNo st).

(** One status message. *)
Definition dn_status (sess : session) (s : dnState) (st : StatusPDU) (rxNow : Time) : dnState * bool :=
  let echo := Some (mkEcho (St_TimeSec st) (St_TimeNsec st) rxNow) in
  let watchdog := time_Add rxNow watchdogTimeout in
  let totalLoss := u64 (dn_totalLoss s + St_SeqErrLoss st) in
  let totalDG := u64 (dn_totalDG s + St_TIRxDatagrams st) in
  let '(lastSubSeq, maxMbps) :=
    if negb (St_SubIntSeqNo st =? dn_lastSubSeq s)
    then (St_SubIntSeqNo st, f64_max (dn_maxMbps s) (subIntervalMbps (se_ipv6 sess) (St_SubIntSaved st)))
    else (dn_lastSubSeq s, dn_maxMbps s) in
  if negb (St_TestAction st =? testActionTest)
  then (mkDn (dn_rc s) (dn_index s) echo watchdog lastSubSeq maxMbps totalLoss totalDG, false)
  else
    let rc := adjust (dn_rc s) (status_trial st) in
    (mkDn rc (rc_index rc) echo watchdog lastSubSeq maxMbps totalLoss totalDG, true).

Definition statusBuf : nat := 512.

(** What follows the read; the flag says whether the loop goes on. *)
Definition dn_read (sess : session) (s : dnState) (r : statusRead) : go (dnState * bool) :=
  match r with
  | SrTimeout => Ret (s, true)
  | SrError => Ret (s, false)
  | SrRead b peer rxNow =>
      if negb (bool_decide (Unmap (ap_Addr peer) = Unmap (ap_Addr (se_peer sess)))) then Ret (s, true)
      else
        r ← parseStatus (take statusBuf b);
        match r with
        | Err _ => Ret (s, true)
        | Ok st => Ret (dn_status sess s st rxNow)
        end
  end.

(** One iteration, with the outcome of its read given. *)
Definition dn_iter (sess : session) (s : dnState) (t : dnTick) : go (dnState * bool) :=
  if time_After (dt_now t) (dn_watchdog s) then Ret (s, false) else dn_read sess s (dt_read t).

Fixpoint dn_loop (sess : session) (s : dnState) (ticks : list dnTick) : go (dnState * bool) :=
  match ticks with
  | [] => Ret (s, false)
  | t :: ticks =>
      r ← dn_iter sess s t;
      let '(s, cont) := (r : dnState * bool) in
      if cont then dn_loop sess s ticks else Ret (s, true)
  end.

(** The same loop against the socket, entered at [now]: the deadline of every
    read is the watchdog.  [da_late] is the time from the return of the read
    to the next reading of the clock, [da_lag] the time the message takes. *)
Record dnArrival := mkDnArrival {
  da_wire : wire (list Z * AddrPort);
  da_late : Z;
  da_lag : Z
}.

Definition status_read_of (rxNow : Time) (r : readResult (list Z * AddrPort)) : statusRead :=
  match r with TimedOut => SrTimeout | Failed => SrError | Got (b, peer) => SrRead b peer rxNow end.

Definition dn_deadline (s : dnState) : Time := dn_watchdog s.

Fixpoint dn_conn (sess : session) (s : dnState) (now : Time) (net : list dnArrival) : go (dnState * loopEnd) :=
  if time_After now (dn_watchdog s) then Ret (s, Ended now)
  else
    match net with
    | [] => Ret (s, Unfinished)
    | a :: net =>
        match conn_read (Some (dn_deadline s)) now (da_wire a) with
        | None => Ret (s, Blocked)
        | Some (t, r) =>
            let rxNow := time_Add t (da_late a) in
            r ← dn_read sess s (status_read_of rxNow r);
            let '(s, cont) := (r : dnState * bool) in
            if cont then dn_conn sess s (time_Add rxNow (da_lag a)) net else Ret (s, Ended rxNow)
        end
    end.

Definition runDownstream (srv : Server) (sess : session) (start now : Time) (ticks : list dnTick) (end_ : Time)
    : go (option (Server * summary)) :=
  r ← dn_loop sess (dn_init srv sess now) ticks;
  let '(s, ended) := (r : dnState * bool) in
  Ret (if ended then Some (logSummary srv false start (dn_maxMbps s) (dn_totalDG s) (dn_totalLoss s) end_) else None).

(** ** Packets *)

(** The receiver's reading of a datagram. *)
Definition load_hdr (pkt : list Z) : go (result LoadPDU) := parseLoadHdr (take (Z.to_nat loadHdrSize) pkt).

(** A load datagram numbered [seq]: its header says its own length, which is
    between the bounds of the transmitter. *)
Definition is_load (ipv6 : bool) (acts : Z -> Prop) (seq : Z) (pkt : list Z) : Prop :=
  exists hdr, load_hdr pkt = Ret (Ok hdr) /\ Lo_SeqNo hdr = seq /\ acts (Lo_TestAction hdr) /\
    Lo_UDPPayload hdr = Z.of_nat (length pkt) /\ minSize ipv6 <= Z.of_nat (length pkt) <= maxSize.

(** Consecutive numbers after [seq]. *)
Definition numbered (ipv6 : bool) (acts : Z -> Prop) (seq : Z) (pkts : list (list Z)) : Prop :=
  forall i pkt, pkts !! i = Some pkt -> is_load ipv6 acts (u32 (seq + 1 + Z.of_nat i)) pkt.

Definition bufs_ok (bufs : list (list Z)) : Prop :=
  Z.of_nat (length bufs) = maxBurstSize + 1 /\ Forall (fun b => Z.of_nat (length b) = maxSize) bufs.

Definition burst_ok (env : burstEnv) : Prop :=
  match be_echo env with Some es => is_u32 (es_sec es) /\ is_u32 (es_nsec es) | None => True end.

Lemma parseLoadHdr_take n b : (loadHdrLen <= n <= length b)%nat -> parseLoadHdr (take n b) = parseLoadHdr b.
Proof.
  unfold parseLoadHdr, loadHdrLen. intros Hn. rewrite length_take, (Nat.min_l n) by lia.
  rewrite !(proj2 (Nat.ltb_ge _ 32)) by lia. by rewrite !Uint16_take, !Uint32_take, !idx_take by lia.
Qed.

Lemma numbered_nil ipv6 acts seq : numbered ipv6 acts seq [].
Proof. intros i pkt H. done. Qed.

Lemma numbered_app ipv6 acts seq l1 l2 :
  numbered ipv6 acts seq l1 -> numbered ipv6 acts (u32 (seq + Z.of_nat (length l1))) l2 -> numbered ipv6 acts seq (l1 ++ l2).
Proof.
  intros H1 H2 i pkt Hi. apply lookup_app_Some in Hi as [Hi|[Hge Hi]]; [by apply H1|].
  apply H2 in Hi. rewrite <- Z.add_assoc, u32_add_l in Hi.
  by replace (seq + 1 + Z.of_nat i) with (seq + Z.of_nat (length l1) + (1 + Z.of_nat (i - length l1))) by lia.
Qed.

Lemma numbered_take ipv6 acts seq k l : numbered ipv6 acts seq l -> numbered ipv6 acts seq (take k l).
Proof. intros H i pkt Hi. apply lookup_take_Some in Hi as [Hi _]. by apply H. Qed.

Lemma numbered_mono ipv6 (acts acts' : Z -> Prop) seq l :
  (forall a, acts a -> acts' a) -> numbered ipv6 acts seq l -> numbered ipv6 acts' seq l.
Proof. intros Ha H i pkt Hi. destruct (H i pkt Hi) as (hdr & ? & ? & ? & ?). exists hdr. auto. Qed.

Lemma echo_fields_ok env sec nsec delay : burst_ok env -> echo_fields (be_echo env) (be_now env) = (sec, nsec, delay) ->
  is_u32 sec /\ is_u32 nsec /\ is_u16 delay.
Proof.
  unfold burst_ok, echo_fields. destruct (be_echo env) as [es|]; intros H E; injection E as <- <- <-.
  - split_and!; [apply H|apply H|]. destruct (_ && _); [apply u16_range|split; [discriminate|reflexivity]].
  - split_and!; auto with diagd. split; [discriminate|reflexivity].
Qed.

Lemma minSize_bounds ipv6 : 32 <= minSize ipv6 <= 52 /\ u32 (minSize ipv6) = minSize ipv6.
Proof. destruct ipv6; vm_compute; split; [split; discriminate|reflexivity|split; discriminate|reflexivity]. Qed.

(** The size after the clamps of add. *)
Lemma clamp_bounds ipv6 size :
  let size := if size <? u32 (minSize ipv6) then u32 (minSize ipv6) else size in
  let size := if u32 maxSize <? size then u32 maxSize else size in
  minSize ipv6 <= size <= maxSize.
Proof.
  destruct (minSize_bounds ipv6) as [H ->]. change (u32 maxSize) with 8972. change maxSize with 8972. cbv zeta. split_ifs; lia.
Qed.

(** One datagram: it is numbered next, and its buffer keeps its length. *)
Lemma add_packet_ok ipv6 action env size seq bufs msgs :
  bufs_ok bufs -> burst_ok env -> 0 <= action <= testActionStop2 -> Z.of_nat (length msgs) <= maxBurstSize ->
  exists bufs' pkt, add_packet ipv6 action env size (seq, bufs, msgs) = Ret (u32 (seq + 1), bufs', msgs ++ [pkt]) /\
    bufs_ok bufs' /\ is_load ipv6 (eq action) (u32 (seq + 1)) pkt.
Proof.
  intros [Hlen Hall] He Ha Hc. unfold add_packet.
  pose proof (clamp_bounds ipv6 size) as Hsz. cbv zeta in *.
  set (sz := if u32 maxSize <? _ then _ else _) in *. clearbody sz.
  destruct (echo_fields (be_echo env) (be_now env)) as [[sec nsec] delay] eqn:Ee.
  destruct (echo_fields_ok env sec nsec delay He Ee) as (? & ? & ?).
  destruct (wallNow (be_wall env (length msgs))) as [ws wn] eqn:Ew.
  pose proof (wallNow_range (be_wall env (length msgs))) as [Hws Hwn]. rewrite Ew in Hws, Hwn.
  destruct (lookup_lt_is_Some_2 bufs (length msgs)) as [buf Hbuf]; [lia|].
  rewrite Hbuf, go_bind_Ret. pose proof (Forall_lookup_1 _ _ _ _ Hall Hbuf) as Hbl. cbn beta in Hbl.
  destruct (minSize_bounds ipv6) as [Hmin _]. assert (Hmax : maxSize = 8972) by reflexivity.
  destruct (LoadPDU_encode_decode (mkLoad action 0 (u32 (seq + 1)) (u16 sz) 0 sec nsec ws wn delay) buf)
    as (buf' & Hm & Hbl' & _ & Hp).
  { unfold load_wf. cbn. unfold testActionStop2 in Ha. split_and!; auto with diagd; try (split; [discriminate|reflexivity]); try width_lia. }
  { cbn. lia. } { cbn. lia. } { unfold loadHdrLen. lia. }
  rewrite Hm, go_bind_Ret, slice_Ret, go_bind_Ret by lia.
  rewrite Nat.sub_0_r, drop_0. eexists _, _. split; [reflexivity|]. split.
  - split; [by rewrite length_insert|]. apply Forall_insert; [done|]. lia.
  - assert (Hlp : Z.of_nat (length (take (Z.to_nat sz) buf')) = sz) by (rewrite length_take; lia).
    eexists. unfold load_hdr. rewrite take_take, parseLoadHdr_take.
    2:{ unfold loadHdrLen, loadHdrSize. lia. }
    split; [exact Hp|]. cbn. rewrite Hlp. split_and!; [done|done|apply u16_id; width_lia|lia|lia].
Qed.

Lemma add_packets_ok ipv6 action env size n seq bufs msgs :
  bufs_ok bufs -> burst_ok env -> 0 <= action <= testActionStop2 ->
  Z.of_nat (length msgs) + Z.of_nat n <= maxBurstSize -> is_u32 seq ->
  exists bufs' pkts, add_packets ipv6 action env size n (seq, bufs, msgs)
      = Ret (u32 (seq + Z.of_nat n), bufs', msgs ++ pkts) /\
    bufs_ok bufs' /\ length pkts = n /\ numbered ipv6 (eq action) seq pkts.
Proof.
  revert seq bufs msgs. induction n as [|n IH]; intros seq bufs msgs Hb He Ha Hc Hs; cbn [add_packets].
  - exists bufs, []. rewrite Z.add_0_r, u32_id, app_nil_r by done. split_and!; [done|done|done|apply numbered_nil].
  - destruct (add_packet_ok ipv6 action env size seq bufs msgs Hb He Ha ltac:(lia)) as (bufs1 & pkt & H1 & Hb1 & Hp).
    rewrite H1, go_bind_Ret.
    destruct (IH (u32 (seq + 1)) bufs1 (msgs ++ [pkt]) Hb1 He Ha) as (bufs2 & pkts & H2 & Hb2 & Hl & Hn).
    { rewrite length_app. cbn. lia. } { apply u32_range. }
    rewrite H2, u32_add_l. exists bufs2, (pkt :: pkts).
    replace (seq + Z.of_nat (S n)) with (seq + 1 + Z.of_nat n) by lia. rewrite <- app_assoc.
    split_and!; [done|done|cbn; lia|].
    apply (numbered_app ipv6 (eq action) seq [pkt] pkts); [|exact Hn].
    intros [|i] q Hq; [|done]. injection Hq as <-. by rewrite Z.add_0_r.
Qed.

(** The write loop sends a prefix and gives the other numbers back. *)
Lemma write_batches_spec seq msgs writes : is_u32 seq ->
  exists k, (k <= length msgs)%nat /\
    write_batches seq msgs writes = (u32 (seq - Z.of_nat (length msgs - k)), take k msgs).
Proof.
  intros Hs. revert msgs. induction writes as [|w writes IH]; intros msgs; destruct msgs as [|m msgs]; cbn [write_batches].
  1, 3: exists 0%nat; cbn; rewrite Z.sub_0_r, u32_id by done; auto.
  - exists 0%nat. split; [lia|]. rewrite Nat.sub_0_r. unfold u32. by rewrite Zminus_mod_idemp_r.
  - destruct w as [[|n]|].
    1, 3: exists 0%nat; (split; [lia|]); rewrite Nat.sub_0_r; unfold u32; by rewrite Zminus_mod_idemp_r.
    destruct (IH (drop (S n) (m :: msgs))) as (k & Hk & Hw). rewrite Hw.
    rewrite length_drop in *.
    exists (Nat.min (S n + k) (length (m :: msgs))). split; [lia|].
    f_equal; [f_equal; f_equal; lia|].
    destruct (Nat.le_gt_cases (S n + k) (length (m :: msgs))) as [Hle|Hgt].
    + rewrite Nat.min_l by done. by rewrite take_take_drop.
    + rewrite Nat.min_r, (take_ge (m :: msgs) (length (m :: msgs))) by lia.
      assert (k = 0%nat) as -> by lia. rewrite take_ge by lia. by rewrite app_nil_r.
Qed.

(** A write that takes the whole burst. *)
Lemma write_batches_all seq msgs n : (length msgs <= S n)%nat -> write_batches seq msgs [Some (S n)] = (seq, msgs).
Proof.
  intros H. destruct msgs as [|m msgs]; [done|]. cbn [write_batches]. rewrite drop_ge, take_ge by done. cbn. by rewrite app_nil_r.
Qed.

(** ** Sending

    [advance]: the sequence number moves by the number of datagrams sent, and
    they are numbered from it. *)
Record advance (ipv6 : bool) (acts : Z -> Prop) (s s' : sender) (sent : list (list Z)) : Prop := {
  ad_bufs : bufs_ok (sn_bufs s');
  ad_seq : sn_seq s' = u32 (sn_seq s + Z.of_nat (length sent));
  ad_num : numbered ipv6 acts (sn_seq s) sent
}.

Definition sender_ok (s : sender) : Prop := bufs_ok (sn_bufs s) /\ is_u32 (sn_seq s).

Lemma advance_ok ipv6 acts s s' sent : advance ipv6 acts s s' sent -> sender_ok s'.
Proof. intros [Hb Hs _]. split; [done|]. rewrite Hs. apply u32_range. Qed.

Lemma advance_refl ipv6 acts s : sender_ok s -> advance ipv6 acts s s [].
Proof. intros [Hb Hs]. split; [done|cbn; by rewrite Z.add_0_r, u32_id|apply numbered_nil]. Qed.

Lemma advance_trans ipv6 acts s1 s2 s3 l1 l2 :
  advance ipv6 acts s1 s2 l1 -> advance ipv6 acts s2 s3 l2 -> advance ipv6 acts s1 s3 (l1 ++ l2).
Proof.
  intros [_ Hs1 Hn1] [Hb2 Hs2 Hn2]. split; [done| |apply numbered_app; [done|by rewrite <- Hs1]].
  rewrite Hs2, Hs1, u32_add_l, length_app. f_equal. lia.
Qed.

Lemma sendBurst_advance ipv6 action sizeField burst addon env s :
  sender_ok s -> burst_ok env -> 0 <= action <= testActionStop2 ->
  0 <= burst -> burst + (if 0 <? addon then 1 else 0) <= maxBurstSize + 1 -> burst <= maxBurstSize ->
  exists s' sent, sendBurst ipv6 action sizeField burst addon env s = Ret (s', sent) /\
    advance ipv6 (eq action) s s' sent /\ sn_next1 s' = sn_next1 s /\ sn_next2 s' = sn_next2 s /\
    (be_writes env = [Some (Z.to_nat (maxBurstSize + 1))] ->
     Z.of_nat (length sent) = burst + (if 0 <? addon then 1 else 0)).
Proof.
  intros [Hb Hs] He Ha H0 H1 H2. unfold sendBurst.
  destruct (add_packets_ok ipv6 action env (burst_size ipv6 sizeField (be_draw1 env)) (Z.to_nat burst) (sn_seq s) (sn_bufs s) [])
    as (bufs1 & pkts & Hp & Hb1 & Hl1 & Hn1); [done|done|done|cbn; lia|done|].
  rewrite Hp, go_bind_Ret. cbn [app].
  assert (Hadd : exists bufs2 pkts2, (if 0 <? addon then
      add_packet ipv6 action env (burst_size ipv6 addon (be_draw2 env)) (u32 (sn_seq s + Z.of_nat (Z.to_nat burst)), bufs1, pkts)
      else Ret (u32 (sn_seq s + Z.of_nat (Z.to_nat burst)), bufs1, pkts))
      = Ret (u32 (sn_seq s + Z.of_nat (length pkts2)), bufs2, pkts2) /\ bufs_ok bufs2 /\
      Z.of_nat (length pkts2) = burst + (if 0 <? addon then 1 else 0) /\ numbered ipv6 (eq action) (sn_seq s) pkts2).
  { destruct (0 <? addon) eqn:Ead.
    - destruct (add_packet_ok ipv6 action env (burst_size ipv6 addon (be_draw2 env)) (u32 (sn_seq s + Z.of_nat (Z.to_nat burst))) bufs1 pkts Hb1 He Ha)
        as (bufs2 & pkt & Hq & Hb2 & Hpk); [rewrite Hl1; lia|].
      rewrite Hq, u32_add_l. rewrite u32_add_l in Hpk. exists bufs2, (pkts ++ [pkt]). rewrite length_app, Hl1. cbn [length].
      split_and!; [by replace (sn_seq s + Z.of_nat (Z.to_nat burst) + 1) with (sn_seq s + Z.of_nat (Z.to_nat burst + 1)) by lia|done|lia|].
      apply numbered_app; [done|]. intros [|i] q Hi; [|done]. injection Hi as <-. rewrite Z.add_0_r, Hl1, u32_add_l. exact Hpk.
    - exists bufs1, pkts. rewrite Hl1. split_and!; [done|done|lia|done]. }
  destruct Hadd as (bufs2 & pkts2 & Hq & Hb2 & Hl2 & Hn2). rewrite Hq, go_bind_Ret.
  destruct (write_batches_spec (u32 (sn_seq s + Z.of_nat (length pkts2))) pkts2 (be_writes env)) as (k & Hk & Hw); [apply u32_range|].
  rewrite Hw. eexists _, _. split; [reflexivity|]. split_and!; [|done|done|].
  - split; cbn; [done| |by apply numbered_take].
    rewrite length_take, Nat.min_l by done. unfold u32. rewrite Zminus_mod_idemp_l. f_equal. lia.
  - intros Hall. rewrite Hall in Hw. change (Z.to_nat (maxBurstSize + 1)) with (S 100) in Hw.
    rewrite write_batches_all in Hw by (unfold maxBurstSize in *; lia). injection Hw as _ Hw. by rewrite <- Hw.
Qed.

Lemma catch_up_ok ipv6 sizeField burst addon iv now env fuel next s :
  sender_ok s -> (forall i, burst_ok (env i)) -> 0 <= burst <= maxBurstSize ->
  burst + (if 0 <? addon then 1 else 0) <= maxBurstSize + 1 ->
  has_mono next -> has_mono now -> 0 < iv ->
  exists s' sent k, catch_up ipv6 sizeField burst addon iv now env fuel next s
      = Ret (s', time_Add next (Z.of_nat k * iv), sent) /\
    advance ipv6 (eq testActionTest) s s' sent /\ sn_next1 s' = sn_next1 s /\ sn_next2 s' = sn_next2 s /\
    (k <= fuel)%nat /\
    (forall j, (j < k)%nat -> mono_ns next + Z.of_nat j * iv <= mono_ns now) /\
    ((k < fuel)%nat -> mono_ns now < mono_ns next + Z.of_nat k * iv) /\
    ((forall i, be_writes (env i) = [Some (Z.to_nat (maxBurstSize + 1))]) ->
     Z.of_nat (length sent) = Z.of_nat k * (burst + (if 0 <? addon then 1 else 0))).
Proof.
  intros Hs He Hb Hb1 Hn Hw Hiv. revert env He next Hn s Hs.
  induction fuel as [|fuel IH]; intros env He next Hn s Hs; cbn [catch_up].
  - exists s, [], 0%nat. rewrite Z.mul_0_l, time_Add_0.
    split_and!; first [done|by apply advance_refl|intros; lia|intros; cbn; lia].
  - rewrite time_After_mono by done. destruct (mono_ns now <? mono_ns next) eqn:Ea; b2p.
    { exists s, [], 0%nat. rewrite Z.mul_0_l, time_Add_0. split_and!; first [done|by apply advance_refl|intros; lia|intros; cbn; lia]. }
    destruct (sendBurst_advance ipv6 testActionTest sizeField burst addon (env O) s Hs (He O)) as (s1 & sent1 & H1 & Had1 & Hx1 & Hx2 & Hc1);
      [split; discriminate|lia|lia|lia|].
    rewrite H1, go_bind_Ret.
    destruct (IH (fun i => env (S i)) (fun i => He (S i)) (time_Add next iv) (has_mono_Add _ _ Hn) s1 (advance_ok _ _ _ _ _ Had1))
      as (s2 & sent2 & k & H2 & Had2 & Hy1 & Hy2 & Hk & Hdue & Hnot & Hc2).
    rewrite H2, go_bind_Ret. rewrite mono_ns_Add in * by done.
    exists s2, (sent1 ++ sent2), (S k). split_and!.
    + rewrite time_Add_Add. by replace (iv + Z.of_nat k * iv) with (Z.of_nat (S k) * iv) by lia.
    + by eapply advance_trans.
    + congruence.
    + congruence.
    + lia.
    + intros [|j] Hj; [lia|]. specialize (Hdue j ltac:(lia)). lia.
    + intros Hlt. specialize (Hnot ltac:(lia)). lia.
    + intros Hall. rewrite length_app, Nat2Z.inj_add, Hc1, Hc2 by auto. lia.
Qed.

(** The reset of an instant that is still in the past. *)
Lemma next_not_past next now iv : has_mono next -> has_mono now -> 0 <= iv ->
  let next' := if time_Before next now then time_Add now iv else next in
  has_mono next' /\ mono_ns now <= mono_ns next'.
Proof.
  intros Hn Hw Hiv. cbv zeta. unfold time_Before. rewrite time_After_mono by done.
  destruct (mono_ns next <? mono_ns now) eqn:E; b2p; [|by split].
  rewrite mono_ns_Add by done. split; [by apply has_mono_Add|lia].
Qed.

(** What a transmitter promises: its datagrams continue the numbering, and
    its next instant is no longer in the past. *)
Lemma transmitter_ok ipv6 active interval sizeField burst addon now env next s :
  sender_ok s -> (forall i, burst_ok (env i)) -> 0 <= burst <= maxBurstSize ->
  burst + (if 0 <? addon then 1 else 0) <= maxBurstSize + 1 ->
  has_mono next -> has_mono now -> (active = true -> 0 < interval) ->
  exists s' next' sent, transmitter ipv6 active interval sizeField burst addon now env next s = Ret (s', next', sent) /\
    advance ipv6 (eq testActionTest) s s' sent /\ sn_next1 s' = sn_next1 s /\ sn_next2 s' = sn_next2 s /\
    has_mono next' /\ mono_ns now <= mono_ns next'.
Proof.
  intros Hs He Hb Hb1 Hn Hw Hiv. unfold transmitter. destruct active.
  - specialize (Hiv eq_refl).
    destruct (catch_up_ok ipv6 sizeField burst addon (interval * Microsecond) now env catchUpMax next s Hs He Hb Hb1 Hn Hw)
      as (s' & sent & k & H & Had & Hx1 & Hx2 & _); [unfold Microsecond; lia|].
    rewrite H, go_bind_Ret. eexists _, _, _. split; [reflexivity|]. split_and!; [done|done|done|..];
    apply next_not_past; auto using has_mono_Add; unfold Microsecond; lia.
  - eexists _, _, _. split; [reflexivity|]. split_and!; [by apply advance_refl|done|done|by apply has_mono_Add|].
    rewrite mono_ns_Add by done. unfold Millisecond. lia.
Qed.

(** ** The send loop *)
Definition env_ok (t : RateTable) (env : sendEnv) : Prop :=
  (forall i, burst_ok (sv_burst1 env i)) /\ (forall i, burst_ok (sv_burst2 env i)) /\ has_mono (sv_now env) /\
  0 <= sv_index env < Z.of_nat (length (Rows t)).

(** The actions of the stream. *)
Definition load_action (a : Z) : Prop := a = testActionTest \/ a = testActionStop2.

Definition clocks_ok (s : sender) : Prop := has_mono (sn_next1 s) /\ has_mono (sn_next2 s).

Lemma table_row_ok t i : SendTable t -> 0 <= i < Z.of_nat (length (Rows t)) ->
  exists row, table_row t i = Ret row /\ row_ok maxJL3Packet row.
Proof.
  intros T Hi. destruct (lookup_lt_is_Some_2 (Rows t) (Z.to_nat i)) as [row Hrow]; [lia|].
  exists row. unfold table_row. rewrite (proj2 (Z.leb_le _ _)), Hrow by lia. split; [done|].
  by apply (Forall_lookup_1 _ _ _ _ (@snd_rows _ T) Hrow).
Qed.

Lemma row_ok_bounds row : row_ok maxJL3Packet row ->
  0 <= BurstSize1 row <= maxBurstSize /\ 0 <= BurstSize2 row <= 9 /\
  (t1Active row = true \/ t2Active row = true).
Proof.
  unfold row_ok, row_okb, t1Active, t2Active. intros H. b2p. split_and!; try lia.
Qed.

Lemma send_iter_ok t ipv6 env s :
  SendTable t -> env_ok t env -> sender_ok s -> clocks_ok s ->
  exists s' sent, send_iter t ipv6 env s = Ret (s', sent) /\ advance ipv6 load_action s s' sent /\ clocks_ok s' /\
    (sv_stop env = false -> mono_ns (sv_now env) <= mono_ns (sn_next1 s') /\ mono_ns (sv_now env) <= mono_ns (sn_next2 s')).
Proof.
  intros T (He1 & He2 & Hm & Hidx) Hs [Hc1 Hc2]. unfold send_iter. destruct (sv_stop env).
  - destruct (sendBurst_advance ipv6 testActionStop2 (u32 (minSize ipv6)) 1 0 (sv_burst1 env O) s Hs (He1 O))
      as (s' & sent & H & [Hb Hq Hn] & Hx1 & Hx2 & _); [split; discriminate|discriminate..|].
    exists s', sent. split_and!; [done| |split; congruence|done].
    split; [done|done|]. eapply numbered_mono; [|exact Hn]. intros a <-. by right.
  - destruct (table_row_ok t (sv_index env) T Hidx) as (row & Hrow & Hok).
    destruct (row_ok_bounds row Hok) as (Hb1 & Hb2 & Hact). rewrite Hrow, go_bind_Ret.
    destruct (negb (t1Active row) && negb (t2Active row)) eqn:Eact.
    { exfalso. b2p. destruct Hact; congruence. }
    destruct (transmitter_ok ipv6 (t1Active row) (TxInterval1 row) (UDPPayload1 row) (BurstSize1 row) 0 (sv_now env) (sv_burst1 env) (sn_next1 s) s)
      as (s1 & n1 & sent1 & H1 & Had1 & _ & Hx2 & Hn1 & Hle1); try done; [cbn; lia| |].
    { unfold t1Active. intros ?. b2p. done. }
    rewrite H1, go_bind_Ret.
    destruct (transmitter_ok ipv6 (t2Active row) (TxInterval2 row) (UDPPayload2 row) (BurstSize2 row) (UDPAddon2 row) (sv_now env) (sv_burst2 env) (sn_next2 s1) s1)
      as (s2 & n2 & sent2 & H2 & Had2 & _ & _ & Hn2 & Hle2); try done; [by eapply advance_ok|unfold maxBurstSize; lia| |by rewrite Hx2| |].
    { unfold maxBurstSize. destruct (0 <? UDPAddon2 row); lia. }
    { unfold t2Active. intros ?. b2p. done. }
    rewrite H2, go_bind_Ret.
    pose proof (advance_trans _ _ _ _ _ _ _ Had1 Had2) as [Hb Hq Hn].
    eexists _, _. split; [reflexivity|]. split_and!; [|by split|done].
    split; [done|done|]. eapply numbered_mono; [|exact Hn]. intros a <-. by left.
Qed.

(** ** Waking up *)
Lemma time_Before_mono a b : has_mono a -> has_mono b -> time_Before a b = (mono_ns a <? mono_ns b).
Proof. intros Ha Hb. unfold time_Before. by apply time_After_mono. Qed.

(** A sleep that [done] does not interrupt ends at or after its target. *)
Lemma sleepUntil_reaches t clock now :
  has_mono t -> Forall (fun r => has_mono r.1) clock ->
  sleepUntil t clock = Some (now, false) -> mono_ns t <= mono_ns now.
Proof.
  intros Ht. induction 1 as [|[r stopped] clock Hr Hc IH]; cbn [sleepUntil fst] in *; [done|].
  destruct (time_Sub t r <=? 0) eqn:E; b2p.
  { intros [= <-]. rewrite time_Sub_mono in E by done. unfold saturate in E. lia. }
  destruct (500 * Microsecond <? _); [destruct stopped; [done|exact IH]|].
  clear IH E. induction Hc as [|[r' d'] clock Hr' Hc IH]; [done|]. cbn [fst] in Hr'.
  destruct (time_Before r' t) eqn:E; [exact IH|]. intros [= <-].
  rewrite time_Before_mono in E by done. b2p. lia.
Qed.

(** At the instant an iteration sleeps to, a transmitter is due. *)
Lemma wake_time_due row s now :
  t1Active row = true \/ t2Active row = true -> mono_ns (wake_time row s) <= mono_ns now ->
  (t1Active row = true /\ mono_ns (sn_next1 s) <= mono_ns now) \/ (t2Active row = true /\ mono_ns (sn_next2 s) <= mono_ns now).
Proof.
  intros Hact. unfold wake_time. change (IsZero zeroTime) with true. cbn [orb].
  destruct (t1Active row); cbn [andb].
  - destruct (t2Active row && _) eqn:E; intros H; [right|left]; b2p; split; done.
  - destruct Hact as [?|Hact]; [done|]. rewrite Hact. change (IsZero zeroTime) with true. cbn [andb orb]. auto.
Qed.

Lemma sendLoop_ok t ipv6 s envs :
  SendTable t -> Forall (env_ok t) envs -> sender_ok s -> clocks_ok s ->
  exists s' sent, sendLoop t ipv6 s envs = Ret (s', sent) /\ advance ipv6 load_action s s' sent.
Proof.
  intros T He. revert s. induction He as [|env envs He1 He IH]; intros s Hs Hc; cbn [sendLoop].
  { exists s, []. split; [done|by apply advance_refl]. }
  destruct (send_iter_ok t ipv6 env s T He1 Hs Hc) as (s1 & sent1 & H1 & Had1 & Hc1 & _). rewrite H1, go_bind_Ret.
  destruct (IH s1 (advance_ok _ _ _ _ _ Had1) Hc1) as (s2 & sent2 & H2 & Had2). rewrite H2, go_bind_Ret.
  eexists _, _. split; [reflexivity|]. by eapply advance_trans.
Qed.

Lemma fill_pattern_length fuel j b : length (fill_pattern fuel j b) = length b.
Proof.
  revert j b. induction fuel as [|fuel IH]; intros j b; cbn [fill_pattern]; [done|].
  destruct (_ <? _); [|done]. by rewrite IH, length_insert.
Qed.

Lemma new_bufs_ok r : bufs_ok (new_bufs r).
Proof.
  unfold new_bufs, bufs_ok. rewrite length_replicate. split; [reflexivity|]. apply Forall_replicate.
  destruct r; rewrite ?fill_pattern_length, make_bytes_length, Z2Nat.id; done.
Qed.

(** ** No loss that the sender made itself *)

(** The sequence numbers a receiver reads. *)
Definition load_seq (pkt : list Z) : Z :=
  match load_hdr pkt with Ret (Ok hdr) => Lo_SeqNo hdr | _ => 0 end.

Lemma numbered_seqs ipv6 acts pkts : numbered ipv6 acts 0 pkts -> Z.of_nat (length pkts) < 2 ^ 32 ->
  map load_seq pkts = seqZ 1 (Z.of_nat (length pkts)).
Proof.
  intros Hn Hl. apply list_eq. intros i. rewrite list_lookup_fmap.
  destruct (pkts !! i) as [pkt|] eqn:Ei; cbn [fmap option_fmap option_map].
  - destruct (Hn i pkt Ei) as (hdr & Hh & Hs & _). unfold load_seq. rewrite Hh, Hs.
    apply lookup_lt_Some in Ei. rewrite u32_id by width_lia. symmetry. apply lookup_seqZ. lia.
  - apply lookup_ge_None in Ei. symmetry. apply lookup_seqZ_ge. lia.
Qed.

(** The abstract receiver on consecutive numbers. *)
Lemma spec_in_order n lo s : sp_high s = lo - 1 ->
  let s' := fold_left spec_step (seqZ lo (Z.of_nat n)) s in
  sp_loss s' = sp_loss s /\ sp_ooo s' = sp_ooo s /\ sp_dup s' = sp_dup s.
Proof.
  revert lo s. induction n as [|n IH]; intros lo s Hh; [done|].
  rewrite Nat2Z.inj_succ, seqZ_cons by lia. cbn [fold_left].
  replace (Z.pred (Z.succ (Z.of_nat n))) with (Z.of_nat n) by lia.
  assert (Hstep : spec_step s lo = mkSpec lo (lo :: sp_got s) (sp_loss s + (lo - sp_high s - 1)) (sp_ooo s) (sp_dup s)).
  { unfold spec_step. by rewrite (proj2 (Z.ltb_lt _ _)) by lia. }
  destruct (IH (Z.succ lo) (spec_step s lo)) as (H1 & H2 & H3); [rewrite Hstep; cbn; lia|].
  cbv zeta in *. rewrite H1, H2, H3, Hstep. cbn. split_and!; lia.
Qed.

(** ** The status receiver *)
Record dn_inv (srv : Server) (s : dnState) : Prop := {
  di_rc : rc_inv (dn_rc s);
  di_table : rc_table (dn_rc s) = table srv;
  di_index : dn_index s = rc_index (dn_rc s);
  di_echo : match dn_echo s with Some es => is_u32 (es_sec es) /\ is_u32 (es_nsec es) | None => True end
}.

Definition dn_tick_ok (t : dnTick) : Prop :=
  match dt_read t with SrRead b _ _ => bytes_ok b | _ => True end.

Lemma dn_status_inv srv sess s st rxNow : SendTable (table srv) -> dn_inv srv s -> status_wf st ->
  dn_inv srv (dn_status sess s st rxNow).1.
Proof.
  intros T [Hrc Ht Hi _] Hst. unfold dn_status. destruct (if negb _ then _ else _) as [sub mx].
  assert (Hecho : is_u32 (St_TimeSec st) /\ is_u32 (St_TimeNsec st)) by (split; apply Hst).
  destruct (negb (St_TestAction st =? testActionTest)); cbn [fst]; [by split|].
  assert (HS : SearchTable (rc_table (dn_rc s))) by (rewrite Ht; apply _).
  split; cbn [dn_rc dn_index dn_echo]; [by apply adjust_inv|by rewrite adjust_table|done|done].
Qed.

Lemma dn_iter_ok srv sess s t : SendTable (table srv) -> dn_inv srv s -> dn_tick_ok t ->
  exists s' cont, dn_iter sess s t = Ret (s', cont) /\ dn_inv srv s'.
Proof.
  intros T Hi Hok. unfold dn_iter, dn_read, dn_tick_ok in *. destruct (time_After _ _); [by eexists _, _|].
  destruct (dt_read t) as [| |b peer rxNow]; [by eexists _, _..|].
  destruct (bool_decide _); cbn [negb]; [|by eexists _, _].
  destruct (parseStatus_returns (take statusBuf b)) as [[st|e] Hp]; rewrite Hp, go_bind_Ret; [|by eexists _, _].
  destruct (dn_status sess s st rxNow) as [s' cont] eqn:Es. exists s', cont. split; [done|].
  replace s' with (dn_status sess s st rxNow).1 by (by rewrite Es). apply dn_status_inv; [done|done|].
  by apply (parseStatus_wf (take statusBuf b)); [apply Forall_take|].
Qed.

Lemma dn_loop_ok srv sess s ticks : SendTable (table srv) -> dn_inv srv s -> Forall dn_tick_ok ticks ->
  exists s' ended, dn_loop sess s ticks = Ret (s', ended) /\ dn_inv srv s'.
Proof.
  intros T Hi Hok. revert s Hi. induction Hok as [|t ticks Ht Hok IH]; intros s Hi; cbn [dn_loop]; [by eexists _, _|].
  destruct (dn_iter_ok srv sess s t T Hi Ht) as (s1 & cont & H & Hi1). rewrite H, go_bind_Ret.
  destruct cont; [by apply IH|by eexists _, _].
Qed.

Lemma dn_init_inv srv sess now : SendTable (table srv) -> session_ok srv sess -> dn_inv srv (dn_init srv sess now).
Proof. intros T [Hp _]. split; cbn; [by apply newRateController_inv|done|done|done]. Qed.

(** A run in which no iteration is past the watchdog and every datagram read
    is a status message of the client with action Test. *)
Fixpoint dn_alive (sess : session) (watchdog : Time) (ticks : list dnTick) : Prop :=
  match ticks with
  | [] => True
  | t :: ticks =>
      time_After (dt_now t) watchdog = false /\
      match dt_read t with
      | SrTimeout => dn_alive sess watchdog ticks
      | SrError => False
      | SrRead b peer rxNow =>
          Unmap (ap_Addr peer) = Unmap (ap_Addr (se_peer sess)) /\
          (exists st, parseStatus (take statusBuf b) = Ret (Ok st) /\ St_TestAction st = testActionTest) /\
          dn_alive sess (time_Add rxNow watchdogTimeout) ticks
      end
  end.

Lemma dn_status_alive sess s st rxNow : St_TestAction st = testActionTest ->
  (dn_status sess s st rxNow).2 = true /\ dn_watchdog (dn_status sess s st rxNow).1 = time_Add rxNow watchdogTimeout.
Proof. intros Ha. unfold dn_status. rewrite Ha. by destruct (if negb _ then _ else _). Qed.

Lemma dn_loop_alive sess s ticks : dn_alive sess (dn_watchdog s) ticks -> exists s', dn_loop sess s ticks = Ret (s', false).
Proof.
  revert s. induction ticks as [|t ticks IH]; intros s; cbn [dn_loop dn_alive]; [by eexists|]. intros [Hw Hal].
  unfold dn_iter at 1, dn_read. rewrite Hw. destruct (dt_read t) as [| |b peer rxNow]; [by apply IH|done|].
  destruct Hal as (Hp & (st & Hst & Ha) & Hal). rewrite bool_decide_true by done. cbn [negb]. rewrite Hst, !go_bind_Ret.
  destruct (dn_status_alive sess s st rxNow Ha) as [H1 H2]. destruct (dn_status sess s st rxNow) as [s1 cont].
  cbn in H1, H2. subst cont. apply IH. by rewrite H2.
Qed.

(** ** The socket wakes the receiver *)

(** A run against the socket is a run of ticks. *)
Lemma dn_conn_ticks sess s now net s' e : dn_conn sess s now net = Ret (s', e) -> e <> Blocked ->
  exists ticks, dn_loop sess s ticks = Ret (s', has_ended e).
Proof.
  revert s now. induction net as [|a net IH]; intros s now; cbn [dn_conn]; destruct (time_After now _) eqn:Ew.
  1, 3: intros [= <- <-] _; exists [mkDnTick now SrTimeout]; cbn [dn_loop]; unfold dn_iter; cbn [dt_now]; by rewrite Ew, go_bind_Ret.
  - intros [= <- <-] _. by exists [].
  - destruct (conn_read _ _ _) as [[t r]|]; [|by intros [= <- <-]].
    intros H He. apply bind_Ret_inv in H as ([s1 cont] & Hr & H).
    assert (Hit : dn_iter sess s (mkDnTick now (status_read_of (time_Add t (da_late a)) r)) = Ret (s1, cont)).
    { unfold dn_iter. cbn [dt_now dt_read]. by rewrite Ew. }
    destruct cont.
    + destruct (IH _ _ H He) as [ticks Hl]. eexists (_ :: ticks). cbn [dn_loop]. by rewrite Hit, go_bind_Ret.
    + injection H as <- <-. eexists [_]. cbn [dn_loop]. by rewrite Hit, go_bind_Ret.
Qed.

(** An iteration the watchdog ignores: nothing from the client that decodes,
    and a socket that does not break. *)
Definition dn_idle (sess : session) (slack : Z) (a : dnArrival) : Prop :=
  0 < da_late a /\ 0 <= da_lag a /\ da_late a + da_lag a <= slack /\
  match da_wire a with
  | Quiet => True
  | Breaks _ => False
  | Arrives t (b, peer) =>
      has_mono t /\ (Unmap (ap_Addr peer) <> Unmap (ap_Addr (se_peer sess)) \/ exists e, parseStatus (take statusBuf b) = Ret (Err e))
  end.

Lemma dn_read_idle sess s b peer rxNow :
  Unmap (ap_Addr peer) <> Unmap (ap_Addr (se_peer sess)) \/ (exists e, parseStatus (take statusBuf b) = Ret (Err e)) ->
  dn_read sess s (SrRead b peer rxNow) = Ret (s, true).
Proof.
  intros [Hne|[e He]]; cbn [dn_read]; [by rewrite bool_decide_false|].
  destruct (bool_decide _); cbn [negb]; [|done]. by rewrite He, go_bind_Ret.
Qed.

(** One idle iteration short of the watchdog. *)
Lemma dn_conn_idle sess slack s now a net :
  has_mono now -> has_mono (dn_watchdog s) -> dn_idle sess slack a -> mono_ns now <= mono_ns (dn_watchdog s) ->
  exists now1, dn_conn sess s now (a :: net) = dn_conn sess s now1 net /\ has_mono now1 /\
    mono_ns now1 <= mono_ns (dn_watchdog s) + slack /\ (da_wire a = Quiet -> mono_ns (dn_watchdog s) < mono_ns now1).
Proof.
  intros Hn Hw (Hlate & Hlag & Hslack & Hwire) Hle.
  destruct (conn_read_returns (dn_watchdog s) now (da_wire a) Hw Hn) as (t & r & Hr & Htm & Htr & Hcase).
  { destruct (da_wire a) as [| |u [b peer]]; [done|done|apply Hwire]. }
  assert (Hread : dn_read sess s (status_read_of (time_Add t (da_late a)) r) = Ret (s, true)).
  { destruct r as [| |[b peer]]; [done|..]; destruct Hcase as [u Hu]; rewrite Hu in Hwire; [done|]. apply dn_read_idle, Hwire. }
  exists (time_Add (time_Add t (da_late a)) (da_lag a)).
  rewrite !mono_ns_Add by auto using has_mono_Add. split_and!; [|auto using has_mono_Add|lia|].
  - cbn [dn_conn]. rewrite time_After_mono by done. rewrite (proj2 (Z.ltb_ge _ _) Hle). unfold dn_deadline. rewrite Hr.
    cbv zeta. by rewrite Hread, go_bind_Ret.
  - intros Hq. rewrite Hq in Hcase. destruct r; [lia|by destruct Hcase..].
Qed.

(** ** Theorems *)
Section DownstreamTheorems.
Context (srv : Server) `{T : SendTable (table srv)}.

(** C17: the load stream: for any draws, clocks, rate indexes of the table and
    outcomes of the writes, the sender runs without a panic, and the datagrams
    the kernel accepted are numbered 1, 2, 3, ... without a gap (modulo 2^32):
    each decodes, says its own length, and is no smaller than a header and no
    larger than the largest payload. *)
Theorem sendLoop_stream ipv6 randPayload now draw envs :
  has_mono now -> Forall (env_ok (table srv)) envs ->
  exists s sent, sendLoop (table srv) ipv6 (send_init randPayload now draw) envs = Ret (s, sent) /\
    sn_seq s = u32 (Z.of_nat (length sent)) /\ numbered ipv6 load_action 0 sent.
Proof.
  intros Hm He. destruct (sendLoop_ok (table srv) ipv6 (send_init randPayload now draw) envs T He) as (s & sent & H & [_ Hs Hn]).
  - split; [apply new_bufs_ok|cbn; auto with diagd].
  - split; by apply has_mono_Add.
  - exists s, sent. done.
Qed.

(** C18: the sender causes no false loss: whatever the kernel refused, a
    receiver that gets in order the datagrams that were sent counts no loss, no
    reordering and no duplicate. *)
Theorem sendLoop_no_false_loss ipv6 randPayload now draw envs start :
  has_mono now -> Forall (env_ok (table srv)) envs ->
  exists s sent, sendLoop (table srv) ipv6 (send_init randPayload now draw) envs = Ret (s, sent) /\
    (Z.of_nat (length sent) < 2 ^ 32 - 1 ->
     exists a, record_seqs (newRxAccounting start) (map load_seq sent) = Ret a /\
       rx_tLoss (rx_t a) = 0 /\ rx_tOoo (rx_t a) = 0 /\ rx_tDup (rx_t a) = 0).
Proof.
  intros Hm He. destruct (sendLoop_ok (table srv) ipv6 (send_init randPayload now draw) envs T He) as (s & sent & H & [_ _ Hn]).
  { split; [apply new_bufs_ok|cbn; auto with diagd]. } { split; by apply has_mono_Add. }
  exists s, sent. split; [done|]. intros Hl. rewrite (numbered_seqs ipv6 load_action) by (done || lia).
  destruct (record_seqs_sim 0 _ _ (seqZ 1 (Z.of_nat (length sent))) (seq_sim_init start)) as (a & Ha & Hsim).
  - apply Forall_seqZ. unfold seq_ok. lia.
  - lia.
  - rewrite length_seqZ. lia.
  - exists a. split; [done|]. destruct Hsim as [_ _ _ [-> _] [-> _] [-> _] _].
    by apply (spec_in_order (length sent) 1 spec_init).
Qed.

(** C19: the pacing keeps the nominal rate: a transmitter that wakes late by
    less than twenty intervals sends exactly one burst for each interval that
    has elapsed, and its next instant stays on the original schedule; when the
    kernel takes the bursts, the datagrams sent are that many bursts. *)
Theorem transmitter_rate ipv6 interval sizeField burst addon now env next s :
  sender_ok s -> (forall i, burst_ok (env i)) -> 0 <= burst <= maxBurstSize ->
  burst + (if 0 <? addon then 1 else 0) <= maxBurstSize + 1 ->
  has_mono next -> has_mono now -> 0 < interval ->
  let iv := interval * Microsecond in
  mono_ns next <= mono_ns now < mono_ns next + 20 * iv ->
  let k := (mono_ns now - mono_ns next) / iv + 1 in
  exists s' sent, transmitter ipv6 true interval sizeField burst addon now env next s
      = Ret (s', time_Add next (k * iv), sent) /\
    advance ipv6 (eq testActionTest) s s' sent /\
    ((forall i, be_writes (env i) = [Some (Z.to_nat (maxBurstSize + 1))]) ->
     Z.of_nat (length sent) = k * (burst + (if 0 <? addon then 1 else 0))).
Proof.
  intros Hs He Hb Hb1 Hn Hw Hi iv Hlate k0. assert (Hiv : 0 < iv) by (unfold iv, Microsecond; lia).
  destruct (catch_up_ok ipv6 sizeField burst addon iv now env catchUpMax next s Hs He Hb Hb1 Hn Hw Hiv)
    as (s' & sent & k & H & Had & _ & _ & Hk & Hdue & Hnot & Hcnt).
  unfold catchUpMax in *.
  assert (Hk0 : k0 = Z.of_nat k).
  { assert (H1 : (1 <= k)%nat) by (destruct k; [specialize (Hnot ltac:(lia)); lia|lia]).
    specialize (Hdue (k - 1)%nat ltac:(lia)). unfold k0.
    assert (Hd : mono_ns now - mono_ns next < Z.of_nat k * iv).
    { destruct (Nat.eq_dec k 20) as [->|]; [lia|]. specialize (Hnot ltac:(lia)). lia. }
    rewrite <- (Z.div_unique_pos (mono_ns now - mono_ns next) iv (Z.of_nat (k - 1)) (mono_ns now - mono_ns next - Z.of_nat (k - 1) * iv)); nia. }
  exists s', sent. split_and!; [|done|intros Ha; rewrite Hcnt by done; by rewrite Hk0].
  unfold transmitter. cbv zeta. fold iv. unfold catchUpMax. rewrite H, go_bind_Ret, <- Hk0.
  unfold time_Before. rewrite time_After_mono, mono_ns_Add by auto using has_mono_Add.
  assert (Hlt : mono_ns now < mono_ns next + k0 * iv).
  { unfold k0. pose proof (Z.mul_succ_div_gt (mono_ns now - mono_ns next) iv Hiv). lia. }
  by rewrite (proj2 (Z.ltb_ge _ _)) by lia.
Qed.

(** Whatever the client reports, the receiver of its status messages runs
    without a panic and keeps the index the sender reads inside the table and
    the timestamps it echoes at their width: what the sender relies on. *)
Theorem downstream_index_safe sess now ticks :
  session_ok srv sess -> Forall dn_tick_ok ticks ->
  exists s ended, dn_loop sess (dn_init srv sess now) ticks = Ret (s, ended) /\
    0 <= dn_index s < Z.of_nat (length (Rows (table srv))) /\
    match dn_echo s with Some es => is_u32 (es_sec es) /\ is_u32 (es_nsec es) | None => True end.
Proof.
  intros Hs Hok. destruct (dn_loop_ok srv sess (dn_init srv sess now) ticks T (dn_init_inv srv sess now T Hs) Hok)
    as (s & ended & H & [Hrc Ht Hi He]).
  exists s, ended. split_and!; [done| | |done]; rewrite Hi; destruct Hrc as [Hr _ _]; rewrite Ht in Hr; unfold max_index in Hr; lia.
Qed.

(** The downstream test of a silent client ends, because the deadline of the
    read wakes the receiver: whatever arrives that is not a status message of
    the client, the first read that meets silence is the last, and the loop
    leaves after the watchdog, three seconds after the last status message, and
    within one iteration's delay of it. *)
Theorem downstream_watchdog sess s now slack net :
  has_mono now -> has_mono (dn_watchdog s) -> Forall (dn_idle sess slack) net -> Exists (fun a => da_wire a = Quiet) net ->
  exists t, dn_conn sess s now net = Ret (s, Ended t) /\
    mono_ns (dn_watchdog s) < mono_ns t <= Z.max (mono_ns now) (mono_ns (dn_watchdog s) + slack).
Proof.
  intros Hn Hw Hid Hq. revert now Hn. induction Hid as [|a net Ha Hid IH]; intros now Hn; [by apply Exists_nil in Hq|].
  assert (Hpast : forall now net, has_mono now -> mono_ns (dn_watchdog s) < mono_ns now -> dn_conn sess s now net = Ret (s, Ended now)).
  { intros u l Hu Hlt. destruct l; cbn [dn_conn]; by rewrite time_After_mono, (proj2 (Z.ltb_lt _ _) Hlt). }
  destruct (Z.le_gt_cases (mono_ns now) (mono_ns (dn_watchdog s))) as [Hle|Hgt].
  2: { exists now. rewrite Hpast by (done || lia). split; [done|lia]. }
  destruct (dn_conn_idle sess slack s now a net Hn Hw Ha Hle) as (now1 & -> & Hn1 & Hup & Hsil).
  apply Exists_cons in Hq as [Hq|Hq].
  - specialize (Hsil Hq). exists now1. rewrite Hpast by done. split; [done|lia].
  - destruct (IH Hq now1 Hn1) as (t & Ht & Hb). exists t. split; [done|lia].
Qed.
End DownstreamTheorems.

(** ** A concrete sender *)
Definition burst_example (writes : list (option nat)) : burstEnv :=
  mkBurst (Some (mkEcho 1712345680 0 time_example)) time_example (fun _ => time_example) (fun _ => 0) (fun _ => 0) writes.
Definition env_send_example : sendEnv :=
  mkSendEnv false 40 (at_ms 60) (fun _ => burst_example [Some 1%nat; None]) (fun _ => burst_example [Some 200%nat]).

Lemma burst_example_ok writes : burst_ok (burst_example writes).
Proof. split; split; done. Qed.

Lemma env_send_example_ok : Forall (env_ok (table (NewServer cfg_example))) [env_send_example].
Proof.
  apply Forall_cons; [|constructor]. split_and!;
    [intros i; exact (burst_example_ok [Some 1%nat; None])|intros i; exact (burst_example_ok [Some 200%nat])|by eexists|discriminate|].
  cbn [sv_index env_send_example]. destruct (@snd_search _ (NewServer_send cfg_example)) as [_ H].
  change (HighSpeedThresh (table (NewServer cfg_example))) with (HighSpeedThresh (BuildRateTable true false)) in H.
  rewrite build_thresh in H. lia.
Qed.

Lemma sendLoop_stream_witness :
  exists s sent, sendLoop (table (NewServer cfg_example)) false (send_init false time_example 0) [env_send_example] = Ret (s, sent) /\
    sn_seq s = u32 (Z.of_nat (length sent)) /\ numbered false load_action 0 sent.
Proof.
  apply (sendLoop_stream (NewServer cfg_example)); [exact time_example_mono|exact env_send_example_ok].
Defined.

Lemma sendLoop_no_false_loss_witness :
  exists s sent, sendLoop (table (NewServer cfg_example)) false (send_init false time_example 0) [env_send_example] = Ret (s, sent) /\
    (Z.of_nat (length sent) < 2 ^ 32 - 1 ->
     exists a, record_seqs (newRxAccounting time_example) (map load_seq sent) = Ret a /\
       rx_tLoss (rx_t a) = 0 /\ rx_tOoo (rx_t a) = 0 /\ rx_tDup (rx_t a) = 0).
Proof.
  apply (sendLoop_no_false_loss (NewServer cfg_example)); [exact time_example_mono|exact env_send_example_ok].
Defined.

Lemma transmitter_rate_witness :
  exists s' sent, transmitter false true 10000 1222 3 0 (at_ms 25) (fun _ => burst_example [Some 101%nat]) time_example
      (send_init false time_example 0) = Ret (s', at_ms 30, sent) /\ Z.of_nat (length sent) = 9.
Proof.
  destruct (transmitter_rate false 10000 1222 3 0 (at_ms 25) (fun _ => burst_example [Some 101%nat])
    time_example (send_init false time_example 0)) as (s' & sent & H & _ & Hc).
  - split; [apply new_bufs_ok|split; [discriminate|reflexivity]].
  - intros i. exact (burst_example_ok [Some 101%nat]).
  - split; discriminate.
  - discriminate.
  - by eexists.
  - by eexists.
  - reflexivity.
  - split; [discriminate|reflexivity].
  - exists s', sent. split; [exact H|]. rewrite Hc by done. reflexivity.
Defined.

Lemma downstream_index_safe_witness :
  exists s ended, dn_loop sess_example (dn_init (NewServer cfg_example) sess_example time_example)
      [mkDnTick (at_ms 10) (SrRead [1; 2; 3] peer_example (at_ms 11)); mkDnTick (at_ms 20) SrTimeout] = Ret (s, ended) /\
    0 <= dn_index s < Z.of_nat (length (Rows (table (NewServer cfg_example)))) /\
    match dn_echo s with Some es => is_u32 (es_sec es) /\ is_u32 (es_nsec es) | None => True end.
Proof.
  apply (downstream_index_safe (NewServer cfg_example)); [exact sess_example_ok|].
  apply Forall_cons; [apply bytes_ok_compute; reflexivity|apply Forall_cons; [exact I|constructor]].
Defined.

Lemma downstream_watchdog_witness :
  exists t, dn_conn sess_example (dn_init (NewServer cfg_example) sess_example time_example) time_example
      [mkDnArrival (Arrives (at_ms 10) ([1; 2; 3], peer_example)) 1000 0; mkDnArrival Quiet 1000 0]
    = Ret (dn_init (NewServer cfg_example) sess_example time_example, Ended t) /\
    mono_ns (dn_watchdog (dn_init (NewServer cfg_example) sess_example time_example)) < mono_ns t
      <= Z.max (mono_ns time_example) (mono_ns (dn_watchdog (dn_init (NewServer cfg_example) sess_example time_example)) + 1000).
Proof.
  apply (downstream_watchdog sess_example); [by eexists..| |].
  - apply Forall_cons; [|apply Forall_cons; [|by constructor]].
    + unfold dn_idle. cbn [da_late da_lag da_wire]. split_and!; [lia|lia|lia|by eexists|right].
      exists (EStatusSize 3). vm_compute. reflexivity.
    + unfold dn_idle. cbn [da_late da_lag da_wire]. split_and!; [lia|lia|lia|exact I].
  - apply Exists_cons_tl, Exists_cons_hd. reflexivity.
Defined.
