(* ===== verification/Run.v ===== *)
(** * A session from its activation to its end (session.run of
      internal/udpst/session.go)

    The composition of the waiting for the activation, the engine of the
    requested direction and the deferred clean-up.  In a downstream test the
    load generator runs beside the receiver of the status messages and reads
    two variables the receiver stores, the rate index and the timestamps to
    echo: what it loads is any value stored in a state the receiver has been
    in, which covers every interleaving of the two. *)

From stdpp Require Import gmap.
From S2P Require Import Prelude GoFloat Srates Protocol Status GoTime Algo Accounting Sha256 Auth GoNet Server.
From S2P Require Import Session Upstream Downstream.

(** ** The inputs of an engine *)
Record upRun := mkUpRun {
  ur_start : Time;
  ur_ticks : list tick;
  ur_now1 : Time;
  ur_now2 : Time
}.

Record dnRun := mkDnRun {
  dr_start : Time;
  dr_now : Time;
  dr_ticks : list dnTick;
  dr_sendStart : Time;
  dr_draw : Z;
  dr_envs : list sendEnv;
  dr_end : Time
}.

(** The states the receiver goes through. *)
Definition dn_visits (srv : Server) (sess : session) (r : dnRun) (s : dnState) : Prop :=
  exists k ended, dn_loop sess (dn_init srv sess (dr_now r)) (take k (dr_ticks r)) = Ret (s, ended).

(** What an iteration of the sender loads: the index once, the timestamps
    once per burst. *)
Definition loads_from (srv : Server) (sess : session) (r : dnRun) (env : sendEnv) : Prop :=
  (exists s, dn_visits srv sess r s /\ sv_index env = dn_index s) /\
  (forall i, exists s, dn_visits srv sess r s /\ be_echo (sv_burst1 env i) = dn_echo s) /\
  (forall i, exists s, dn_visits srv sess r s /\ be_echo (sv_burst2 env i) = dn_echo s).

Section Run.
Context `{M : MAC}.

(** run: the datagrams sent, and the server after the clean-up; [None] when
    the engine is still running at the end of its inputs. *)
Definition session_run (srv : Server) (ss : setupSession) (env : ActEnv) (evs : list readEvent) (ur : upRun) (dr : dnRun)
    : go (list Out * option Server) :=
  r ← awaitActivation srv ss env evs;
  match r with
  | None => Ret ([], Some (session_cleanup srv ss))
  | Some (sess, outs) =>
      if se_downstream sess then
        r ← runDownstream srv sess (dr_start dr) (dr_now dr) (dr_ticks dr) (dr_end dr);
        l ← sendLoop (table srv) (se_ipv6 sess) (send_init (tp_randPayload (se_p sess)) (dr_sendStart dr) (dr_draw dr)) (dr_envs dr);
        Ret (outs ++ map (fun pkt => SendTest (ss_port ss) pkt (se_peer sess)) (l : sender * list (list Z)).2,
             match r with Some (srv', _) => Some (session_cleanup srv' ss) | None => None end)
      else
        r ← runUpstream srv sess (ur_start ur) (ur_ticks ur) (ur_now1 ur) (ur_now2 ur);
        let '(sent, res) := (r : list Out * option (Server * summary)) in
        Ret (outs ++ sent, match res with Some (srv', _) => Some (session_cleanup srv' ss) | None => None end)
  end.

(** ** Lemmas *)
Section Lemmas.
Context (srv : Server) `{T : SendTable (table srv)} (ss : setupSession) (Hmode : is_u8 (ss_authMode ss)).

Lemma activate_session env buf peer sess outs :
  bytes_ok buf -> activate srv ss env buf peer = Ret (Some (sess, outs)) ->
  session_ok srv sess /\ se_setup sess = ss /\ Unmap (ap_Addr (se_peer sess)) = Unmap (ap_Addr (ss_setupPeer ss)) /\
  exists pdu, outs = [SendTest (ss_port ss) pdu (se_peer sess)].
Proof.
  intros Hb H. destruct (activate_inv srv ss env buf peer sess outs H) as (req & [[Hp _] Hpeer -> (sr & pdu & _ & Ho & _) _]).
  destruct (parseTestAct_wf buf req Hb Hp) as (Hwf & _). split_and!; [|done|done|by eexists].
  split; [by apply police_params_ok|done].
Qed.

Definition ev_ok (ev : readEvent) : Prop := match ev with ReadFrom b _ => bytes_ok b | ReadError => True end.

Lemma awaitActivation_session env evs sess outs :
  Forall ev_ok evs -> awaitActivation srv ss env evs = Ret (Some (sess, outs)) ->
  session_ok srv sess /\ se_setup sess = ss /\ Unmap (ap_Addr (se_peer sess)) = Unmap (ap_Addr (ss_setupPeer ss)) /\
  exists pdu, outs = [SendTest (ss_port ss) pdu (se_peer sess)].
Proof.
  induction 1 as [|[b peer|] evs Hb Hbs IH]; cbn [awaitActivation]; [done| |done].
  intros H. apply bind_Ret_inv in H as ([[sess' outs']|] & Ha & H); [|by apply IH].
  injection H as -> ->. apply (activate_session env (take activationBuf b) peer); [by apply Forall_take|done].
Qed.

Lemma visits_inv sess dr s :
  session_ok srv sess -> Forall dn_tick_ok (dr_ticks dr) -> dn_visits srv sess dr s -> dn_inv srv s.
Proof.
  intros Hs Hok (k & ended & H).
  destruct (dn_loop_ok srv sess (dn_init srv sess (dr_now dr)) (take k (dr_ticks dr)) T) as (s' & e' & H' & Hi).
  - by apply dn_init_inv.
  - by apply Forall_take.
  - rewrite H in H'. by injection H' as <- <-.
Qed.

Lemma loads_env_ok sess dr env :
  session_ok srv sess -> Forall dn_tick_ok (dr_ticks dr) -> loads_from srv sess dr env -> has_mono (sv_now env) ->
  env_ok (table srv) env.
Proof.
  intros Hs Hok ((s & Hv & Hi) & H1 & H2) Hm.
  assert (Hecho : forall b, (exists s, dn_visits srv sess dr s /\ be_echo b = dn_echo s) -> burst_ok b).
  { intros b (s' & Hv' & He). unfold burst_ok. rewrite He. apply (visits_inv sess dr s' Hs Hok Hv'). }
  destruct (visits_inv sess dr s Hs Hok Hv) as [[Hr _ _] Ht Hidx _]. rewrite Ht in Hr. unfold max_index in Hr.
  split_and!; [auto|auto|done|..]; rewrite Hi, Hidx; lia.
Qed.

Lemma sender_ok sess dr :
  session_ok srv sess -> Forall dn_tick_ok (dr_ticks dr) -> has_mono (dr_sendStart dr) ->
  Forall (fun e => loads_from srv sess dr e /\ has_mono (sv_now e)) (dr_envs dr) ->
  exists s sent, sendLoop (table srv) (se_ipv6 sess)
    (send_init (tp_randPayload (se_p sess)) (dr_sendStart dr) (dr_draw dr)) (dr_envs dr) = Ret (s, sent).
Proof.
  intros Hs Hdt Hm Hloads.
  destruct (sendLoop_ok (table srv) (se_ipv6 sess)
    (send_init (tp_randPayload (se_p sess)) (dr_sendStart dr) (dr_draw dr)) (dr_envs dr) T) as (s' & sent & Hsend & _).
  - eapply Forall_impl; [|exact Hloads]. intros e [? ?]. by apply (loads_env_ok sess dr).
  - split; [apply new_bufs_ok|cbn; auto with diagd].
  - split; by apply has_mono_Add.
  - by exists s', sent.
Qed.
End Lemmas.

(** ** Theorems *)

(** A datagram of the session: from its port, to the address of the setup. *)
Definition to_peer (ss : setupSession) (o : Out) : Prop :=
  exists pdu peer, o = SendTest (ss_port ss) pdu peer /\ Unmap (ap_Addr peer) = Unmap (ap_Addr (ss_setupPeer ss)).

(** A run gives back the bandwidth and the slot of the setup. *)
Definition given_back (srv : Server) (ss : setupSession) (srv' : Server) : Prop :=
  let bw := Z.max 0 (ss_bwMbps ss) in
  usedUS srv' = usedUS srv - (if ss_bwUpstream ss then bw else 0) /\
  usedDS srv' = usedDS srv - (if ss_bwUpstream ss then 0 else bw) /\
  sessions srv' = sessions srv - 1 /\ cfg srv' = cfg srv.

Lemma cleanup_given_back srv ss : given_back srv ss (session_cleanup srv ss).
Proof.
  unfold given_back, session_cleanup, releaseBandwidth. cbv zeta.
  destruct (0 <? ss_bwMbps ss) eqn:E, (ss_bwUpstream ss); b2p; cbn; split_and!; lia || done.
Qed.

Lemma tests_given_back srv ss us ds : given_back srv ss (session_cleanup (set_tests srv us ds) ss).
Proof. exact (cleanup_given_back (set_tests srv us ds) ss). Qed.

(** A session set up with a mode byte of the wire sends from its port to the
    address of the setup only, and gives back the bandwidth and the slot; it
    panics on no datagram but a fatal one. *)
Lemma session_run_ok srv `{T : SendTable (table srv)} ss env evs ur dr :
  is_u8 (ss_authMode ss) -> Forall ev_ok evs ->
  Forall tick_ok (ur_ticks ur) -> Forall dn_tick_ok (dr_ticks dr) -> has_mono (dr_sendStart dr) ->
  (forall sess outs, awaitActivation srv ss env evs = Ret (Some (sess, outs)) ->
     Forall (fun e => loads_from srv sess dr e /\ has_mono (sv_now e)) (dr_envs dr)) ->
  match session_run srv ss env evs ur dr with
  | Ret (outs, res) => Forall (to_peer ss) outs /\ (forall srv', res = Some srv' -> given_back srv ss srv')
  | Panic => exists b peer, ReadFrom b peer ∈ evs /\ fatal ss b peer
  end.
Proof.
  intros Hmode Hev Hut Hdt Hm Hloads. destruct (awaitActivation srv ss env evs) as [act|] eqn:Hact.
  2:{ unfold session_run. rewrite Hact. by apply (awaitActivation_panics srv ss env). }
  assert (H : exists outs res, session_run srv ss env evs ur dr = Ret (outs, res) /\
    Forall (to_peer ss) outs /\ (forall srv', res = Some srv' -> given_back srv ss srv')); [|destruct H as (? & ? & -> & ?); done].
  unfold session_run. pose proof Hact as Hr. destruct act as [[sess outs]|].
  2:{ rewrite Hr, go_bind_Ret. eexists _, _. split_and!; [reflexivity|constructor|].
      intros ? [= <-]. apply cleanup_given_back. }
  specialize (Hloads sess outs eq_refl).
  destruct (awaitActivation_session srv ss Hmode env evs sess outs Hev Hr) as (Hs & Hss & Hp & pdu & ->).
  rewrite Hr, go_bind_Ret. destruct (se_downstream sess).
  - unfold runDownstream.
    destruct (dn_loop_ok srv sess (dn_init srv sess (dr_now dr)) (dr_ticks dr) T (dn_init_inv srv sess _ T Hs) Hdt)
      as (s & ended & Hl & _). rewrite Hl, !go_bind_Ret.
    destruct (sender_ok srv sess dr Hs Hdt Hm Hloads) as (s' & sent & Hsend). rewrite Hsend, go_bind_Ret.
    eexists _, _. split_and!; [reflexivity| |].
    + apply Forall_cons; [by eexists _, _|]. apply Forall_map, Forall_true. intros pkt. by eexists _, _.
    + destruct ended; intros ? [= <-]. apply tests_given_back.
  - destruct (up_loop_total srv sess (up_init srv sess (ur_start ur)) (ur_ticks ur) T Hs (up_init_inv srv sess _ T Hs) Hut)
      as (s & sent & ended & Hl & Hall).
    unfold runUpstream. rewrite Hl, !go_bind_Ret. eexists _, _. split_and!; [reflexivity| |].
    + apply Forall_cons; [by eexists _, _|]. apply Forall_lookup. intros i o Ho.
      destruct (Hall i o Ho) as (pdu' & st & -> & _). rewrite Hss. by eexists _, _.
    + destruct ended; intros ? [= <-]. apply tests_given_back.
Qed.

(** C4: a session of the server, from its setup datagram to its end, whatever
    the client sends, however its goroutines interleave and whatever other
    sessions did to the server in between: it panics on nothing but a Test
    Activation of a legacy size (60 to 103 bytes) from the address of the
    setup, and only on a server with keys; otherwise every datagram it sends
    leaves from its own port to the address that sent the setup, which the
    allow list admits, so no third party can be made the target of the load,
    and its end gives back exactly the bandwidth and the slot that the setup
    took. *)
Theorem served_session_safe s `{T : SendTable (table s)} b peer senv s1 setup ss srv env evs ur dr :
  bytes_ok b -> serve_datagram s b peer senv = Ret (s1, setup, Some ss) ->
  table srv = table s -> Forall ev_ok evs ->
  Forall tick_ok (ur_ticks ur) -> Forall dn_tick_ok (dr_ticks dr) -> has_mono (dr_sendStart dr) ->
  (forall sess outs, awaitActivation srv ss env evs = Ret (Some (sess, outs)) ->
     Forall (fun e => loads_from srv sess dr e /\ has_mono (sv_now e)) (dr_envs dr)) ->
  match session_run srv ss env evs ur dr with
  | Panic =>
      Keys (cfg s) <> ∅ /\ exists buf from, ReadFrom buf from ∈ evs /\
        Unmap (ap_Addr from) = Unmap (ap_Addr peer) /\ (testActMinSize <= length buf < testActSize)%nat
  | Ret (outs, res) =>
      Forall (fun o => exists pdu dst, o = SendTest (ss_port ss) pdu dst /\
         Unmap (ap_Addr dst) = Unmap (ap_Addr peer) /\
         forall allow, Allow (cfg s) = Some allow -> allow (Unmap (ap_Addr dst)) = true) outs /\
      (forall srv', res = Some srv' ->
         usedUS srv' = usedUS srv - (usedUS s1 - usedUS s) /\ usedDS srv' = usedDS srv - (usedDS s1 - usedDS s) /\
         sessions srv' = sessions srv - (sessions s1 - sessions s))
  end.
Proof.
  intros Hb Hset Htab Hev Hut Hdt Hm Hloads.
  destruct (serve_datagram_session s b peer senv s1 setup ss Hb Hset) as [Hpeer Hal Hmode Hopen _ Hbw [Hus Hds] Hslot].
  rewrite <- Htab in T. pose proof (session_run_ok srv ss env evs ur dr Hmode Hev Hut Hdt Hm Hloads) as H.
  destruct (session_run srv ss env evs ur dr) as [[outs res]|].
  - destruct H as [Hto Hback]. split.
    + eapply Forall_impl; [|exact Hto]. intros o (pdu & dst & -> & Heq). rewrite Hpeer in Heq.
      exists pdu, dst. split_and!; [done|done|]. rewrite Heq. exact Hal.
    + intros srv' Hr. destruct (Hback srv' Hr) as (Hu & Hd & Hs & _). rewrite Z.max_r in * by done.
      rewrite Hus, Hds, Hslot. lia.
  - destruct H as (buf & from & Hin & Ha & [k Hk] & _ & Hl). rewrite Hpeer in Ha. split; [|by exists buf, from].
    intros He. rewrite Hopen in Hk by done. discriminate.
Qed.

(** C16: the engines have no hard stop: the duration of the test and the
    configured maximum only make the server ask the client to stop.  As long
    as the client keeps sending, load datagrams upstream or status messages
    downstream, within three seconds of each other and with action Test, the
    test goes on, for any number of iterations, and the session keeps its slot
    and its bandwidth. *)
Theorem session_no_hard_stop srv `{T : SendTable (table srv)} ss env evs ur dr sess act :
  is_u8 (ss_authMode ss) -> Forall ev_ok evs -> awaitActivation srv ss env evs = Ret (Some (sess, act)) ->
  (if se_downstream sess
   then dn_alive sess (time_Add (dr_now dr) watchdogTimeout) (dr_ticks dr) /\ has_mono (dr_sendStart dr) /\
        Forall dn_tick_ok (dr_ticks dr) /\ Forall (fun e => loads_from srv sess dr e /\ has_mono (sv_now e)) (dr_envs dr)
   else up_alive sess (time_Add (ur_start ur) watchdogTimeout) (ur_ticks ur) /\ Forall tick_ok (ur_ticks ur)) ->
  exists outs, session_run srv ss env evs ur dr = Ret (outs, None).
Proof.
  intros Hmode Hev Hr Hal. destruct (awaitActivation_session srv ss Hmode env evs sess act Hev Hr) as (Hs & _).
  unfold session_run. rewrite Hr, go_bind_Ret. destruct (se_downstream sess).
  - destruct Hal as (Hal & Hm & Hdt & Hloads). unfold runDownstream.
    destruct (dn_loop_alive sess (dn_init srv sess (dr_now dr)) (dr_ticks dr) Hal) as (s & Hl). rewrite Hl, !go_bind_Ret.
    destruct (sender_ok srv sess dr Hs Hdt Hm Hloads) as (s' & sent & Hsend). rewrite Hsend, go_bind_Ret. by eexists.
  - destruct Hal as [Hal Hut]. unfold runUpstream.
    destruct (up_loop_alive srv sess (up_init srv sess (ur_start ur)) (ur_ticks ur) T Hs (up_init_inv srv sess _ T Hs) Hut
                eq_refl Hal) as (s & outs & Hl). rewrite Hl, !go_bind_Ret. by eexists.
Qed.
End Run.

(** ** A concrete downstream session *)
Definition act_down_example : list Z :=
  match TestActPDU_marshal
    (mkTestAct 20 cmdTestActDownstream 0 30 90 50 10 1 0 40 1 10 3 0 0 0 0 0 zeroRate 1000 0 zeroAuth false)
  with Ret b => b | Panic => [] end.

Definition burst_run_example : burstEnv :=
  mkBurst None time_example (fun _ => time_example) (fun _ => 0) (fun _ => 0) [Some 1%nat; None].
Definition env_run_example : sendEnv :=
  mkSendEnv false 40 (at_ms 60) (fun _ => burst_run_example) (fun _ => burst_run_example).
Definition dr_example : dnRun :=
  mkDnRun time_example time_example [mkDnTick (at_ms 3001) SrTimeout] time_example 0 [env_run_example] (at_ms 3001).
Definition ur_example : upRun := mkUpRun time_example [] time_example time_example.

(** A request without authentication, and the session it sets up. *)
Definition req_open_bytes : list Z :=
  match SetupPDU_marshal (mkSetup 20 0 1 7 cmdSetupRequest 0 60 0 modJumbo zeroAuth) with Ret b => b | Panic => [] end.

Definition cfg_open : Config :=
  mkConfig ∅ 100 true false 0 2 50000 50001 (Some (fun a => bool_decide (a = Unmap (ap_Addr peer_example)))).

Definition setup_open : go (Server * list Out * option setupSession) :=
  serve_datagram (NewServer cfg_open) req_open_bytes peer_example env_example.

Definition srv_open : Server := match setup_open with Ret (s, _, _) => s | Panic => NewServer cfg_open end.
Definition outs_open : list Out := match setup_open with Ret (_, o, _) => o | Panic => [] end.

Lemma open_bytes_ok : bytes_ok req_open_bytes.
Proof. apply bytes_ok_compute. vm_compute. reflexivity. Qed.
Lemma open_setup : serve_datagram (NewServer cfg_open) req_open_bytes peer_example env_example = Ret (srv_open, outs_open, Some (ss_example None)).
Proof. vm_compute. reflexivity. Qed.
Lemma open_table : table srv_open = table (NewServer cfg_open).
Proof. vm_compute. reflexivity. Qed.
Lemma open_evs : Forall ev_ok [ReadFrom act_down_example peer_example].
Proof. apply Forall_cons; [apply bytes_ok_compute; vm_compute; reflexivity|constructor]. Qed.
Lemma dr_ticks_ok : Forall dn_tick_ok (dr_ticks dr_example).
Proof. apply Forall_cons; [exact I|constructor]. Qed.

Lemma loads_example sess outs :
  awaitActivation srv_open (ss_example None) act_env_example [ReadFrom act_down_example peer_example] = Ret (Some (sess, outs)) ->
  Forall (fun e => loads_from srv_open sess dr_example e /\ has_mono (sv_now e)) (dr_envs dr_example).
Proof.
  intros H. apply Forall_cons; [|constructor]. split; [|by eexists].
  assert (Hi : initialIndex (se_p sess) = 40) by (vm_compute in H; injection H as <- _; reflexivity).
  assert (Hv : dn_visits srv_open sess dr_example (dn_init srv_open sess time_example)) by (by exists 0%nat, false).
  split_and!; [eexists; split; [exact Hv|symmetry; exact Hi]|intros i; eexists; split; [exact Hv|reflexivity]..].
Qed.

Lemma served_session_safe_witness :
  sessions srv_open = 1 /\ usedDS srv_open = 60 /\
  match session_run srv_open (ss_example None) act_env_example [ReadFrom act_down_example peer_example] ur_example dr_example with
  | Ret (outs, res) => forall srv', res = Some srv' -> usedDS srv' = 0 /\ sessions srv' = 0
  | Panic => False
  end.
Proof.
  assert (Hn : sessions srv_open = 1 /\ usedDS srv_open = 60) by (split; vm_compute; reflexivity).
  destruct Hn as [Hn Hu]. split_and!; [exact Hn|exact Hu|].
  assert (H := served_session_safe (NewServer cfg_open) req_open_bytes peer_example env_example srv_open outs_open (ss_example None)
              srv_open act_env_example [ReadFrom act_down_example peer_example] ur_example dr_example
              open_bytes_ok open_setup open_table open_evs (Forall_nil_2 _) dr_ticks_ok time_example_mono loads_example).
  destruct (session_run _ _ _ _ _ _) as [[outs res]|]; [|by apply (proj1 H)].
  intros srv' Hs. destruct (proj2 H srv' Hs) as (_ & H1 & H2). rewrite H1, H2, Hn, Hu. split; reflexivity.
Defined.

(** A test limited to one second, still on after ten: a load datagram every
    two seconds. *)
Definition cfg_second : Config := mkConfig ∅ 0 true false 1 2 50000 50001 None.
Definition act_up_example : list Z :=
  match TestActPDU_marshal
    (mkTestAct 20 cmdTestActUpstream 0 30 90 50 10 1 0 40 1 10 3 0 0 0 0 0 zeroRate 1000 0 zeroAuth false)
  with Ret b => b | Panic => [] end.
Definition ur_alive : upRun :=
  mkUpRun time_example
    (map (fun ms => mkTick (at_ms ms) (at_ms ms)
                      (BatchOk (at_ms ms) [mkMessage (Some (ap_Addr peer_example)) load_bytes_example]))
       [2000; 4000; 6000; 8000; 10000; 12000])
    time_example time_example.

Lemma session_no_hard_stop_witness :
  exists outs, session_run (NewServer cfg_second) (ss_example None) act_env_example [ReadFrom act_up_example peer_example]
    ur_alive dr_example = Ret (outs, None).
Proof.
  destruct (awaitActivation (NewServer cfg_second) (ss_example None) act_env_example [ReadFrom act_up_example peer_example])
    as [[[sess act]|]|] eqn:E; [|vm_compute in E; discriminate E..].
  apply (session_no_hard_stop (NewServer cfg_second) (ss_example None) act_env_example
           [ReadFrom act_up_example peer_example] ur_alive dr_example sess act).
  - split; [discriminate|reflexivity].
  - apply Forall_cons; [apply bytes_ok_compute; vm_compute; reflexivity|constructor].
  - exact E.
  - vm_compute in E. injection E as <- _. cbn [se_downstream]. split.
    + vm_compute. repeat split; first [reflexivity|repeat constructor].
    + repeat (apply Forall_cons; [apply Forall_cons; [apply bytes_ok_compute; vm_compute; reflexivity|constructor]|]).
      constructor.
Defined.
