(* ===== verification/Concurrency.v ===== *)
(** * The server's goroutines (server.go and session.run of session.go)

    The Serve goroutine, the goroutines of the sessions and a caller of Close
    interleave at the critical sections of the server's mutex and at its wait
    group.  [conc_step] has one rule per critical section, with the program
    point of the Serve goroutine and the phase of each session, so that a run
    is any interleaving.  The sequential [serve_datagram] is one of them. *)

From stdpp Require Import gmap relations.
From S2P Require Import Prelude GoFloat Srates Protocol GoTime Sha256 Auth GoNet Server.

(** Where handleSetup is: before or after it, holding a reservation, holding
    a counted session whose socket is not bound yet, or about to start the
    session's goroutine. *)
Inductive servePc : Type :=
| SIdle
| SReserved (up : bool) (mbw : Z)
| SCounted (up : bool) (mbw : Z)
| SBound (sess : setupSession).

(** A session's goroutine: running; in its deferred function, the bandwidth
    given back; then no longer counted; it leaves when wg.Done has run. *)
Inductive phase : Type := Running | Freed | Uncounted.

Record conc := mkConc {
  c_srv : Server;
  c_pc : servePc;
  c_live : list (setupSession * phase);
  c_wg : Z;
  c_returned : bool
}.

(** if mbw > 0 { releaseBandwidth } of releaseOnErr and of session.run. *)
Definition release_if (s : Server) (up : bool) (mbw : Z) : Server :=
  if 0 <? mbw then releaseBandwidth s up mbw else s.

Inductive conc_step : conc -> conc -> Prop :=
| step_reserve s s' live wg ret up mbw ok :
    0 < MaxBandwidthMbps (cfg s) -> 0 < mbw -> reserveBandwidth s up mbw = (s', ok) ->
    conc_step (mkConc s SIdle live wg ret) (mkConc s' (if ok then SReserved up mbw else SIdle) live wg ret)
| step_unlimited s live wg ret up :
    MaxBandwidthMbps (cfg s) <= 0 ->
    conc_step (mkConc s SIdle live wg ret) (mkConc s (SReserved up 0) live wg ret)
| step_release s live wg ret up mbw :
    conc_step (mkConc s (SReserved up mbw) live wg ret) (mkConc (release_if s up mbw) SIdle live wg ret)
| step_count s live wg ret up mbw :
    closed s = false -> sessions s < MaxSessions (cfg s) ->
    conc_step (mkConc s (SReserved up mbw) live wg ret)
              (mkConc (set_sessions s (sessions s + 1)) (SCounted up mbw) live wg ret)
| step_bind_fails s live wg ret up mbw :
    conc_step (mkConc s (SCounted up mbw) live wg ret) (mkConc (sessionDone s) (SReserved up mbw) live wg ret)
| step_bind s live wg ret up mbw next sess :
    ss_bwMbps sess = mbw -> ss_bwUpstream sess = up ->
    conc_step (mkConc s (SCounted up mbw) live wg ret) (mkConc (set_nextPort s next) (SBound sess) live wg ret)
| step_respond s pc live wg ret accepts rejects :
    conc_step (mkConc s pc live wg ret) (mkConc (set_counts s accepts rejects) pc live wg ret)
| step_start s live wg ret sess :
    conc_step (mkConc s (SBound sess) live wg ret) (mkConc s SIdle (live ++ [(sess, Running)]) (wg + 1) ret)
| step_test s pc live wg ret us ds :
    conc_step (mkConc s pc live wg ret) (mkConc (set_tests s us ds) pc live wg ret)
| step_free s pc l1 l2 wg ret sess :
    conc_step (mkConc s pc (l1 ++ (sess, Running) :: l2) wg ret)
              (mkConc (release_if s (ss_bwUpstream sess) (ss_bwMbps sess)) pc (l1 ++ (sess, Freed) :: l2) wg ret)
| step_uncount s pc l1 l2 wg ret sess :
    conc_step (mkConc s pc (l1 ++ (sess, Freed) :: l2) wg ret)
              (mkConc (sessionDone s) pc (l1 ++ (sess, Uncounted) :: l2) wg ret)
| step_exit s pc l1 l2 wg ret sess :
    conc_step (mkConc s pc (l1 ++ (sess, Uncounted) :: l2) wg ret) (mkConc s pc (l1 ++ l2) (wg - 1) ret)
| step_close s pc live wg ret :
    conc_step (mkConc s pc live wg ret) (mkConc (set_closed s) pc live wg ret)
| step_close_returns s pc live ret :
    closed s = true -> conc_step (mkConc s pc live 0 ret) (mkConc s pc live 0 true).

Definition conc_init (c : Config) : conc := mkConc (NewServer c) SIdle [] 0 false.
Definition reachable (c : Config) (st : conc) : Prop := rtc conc_step (conc_init c) st.

(** ** The account of the resources *)
Definition session_bw (up : bool) (e : setupSession * phase) : Z :=
  match e.2 with
  | Running => if Bool.eqb (ss_bwUpstream e.1) up then ss_bwMbps e.1 else 0
  | _ => 0
  end.
Definition live_bw (up : bool) (live : list (setupSession * phase)) : Z := zsum (session_bw up) live.

Definition pc_bw (up : bool) (pc : servePc) : Z :=
  match pc with
  | SIdle => 0
  | SReserved u m | SCounted u m => if Bool.eqb u up then m else 0
  | SBound sess => session_bw up (sess, Running)
  end.

Definition session_n (e : setupSession * phase) : Z := match e.2 with Uncounted => 0 | _ => 1 end.
Definition live_n (live : list (setupSession * phase)) : Z := zsum session_n live.
Definition pc_n (pc : servePc) : Z := match pc with SCounted _ _ | SBound _ => 1 | _ => 0 end.

Definition pc_mbw (pc : servePc) : Z :=
  match pc with SIdle => 0 | SReserved _ m | SCounted _ m => m | SBound sess => ss_bwMbps sess end.

Record conc_inv (c : Config) (st : conc) : Prop := {
  ci_cfg : cfg (c_srv st) = cfg (NewServer c);
  ci_us : usedUS (c_srv st) = live_bw true (c_live st) + pc_bw true (c_pc st);
  ci_ds : usedDS (c_srv st) = live_bw false (c_live st) + pc_bw false (c_pc st);
  ci_sessions : sessions (c_srv st) = live_n (c_live st) + pc_n (c_pc st);
  ci_nonneg : Forall (fun e => 0 <= ss_bwMbps e.1) (c_live st) /\ 0 <= pc_mbw (c_pc st);
  ci_limit : 0 < MaxBandwidthMbps c ->
             usedUS (c_srv st) <= MaxBandwidthMbps c /\ usedDS (c_srv st) <= MaxBandwidthMbps c;
  ci_max : 0 <= MaxSessions c -> sessions (c_srv st) <= MaxSessions (cfg (NewServer c));
  ci_wg : c_wg st = Z.of_nat (length (c_live st));
  ci_closed : c_returned st = true ->
              closed (c_srv st) = true /\ Z.of_nat (length (c_live st)) + pc_n (c_pc st) <= 1
}.

Lemma NewServer_bw c : MaxBandwidthMbps (cfg (NewServer c)) = MaxBandwidthMbps c.
Proof. unfold NewServer. by destruct (MaxSessions c =? 0). Qed.

Lemma conc_inv_init c : conc_inv c (conc_init c).
Proof.
  unfold NewServer. split; cbn [conc_init c_srv c_pc c_live c_wg c_returned usedUS usedDS sessions NewServer]; try done.
  - lia.
  - intros H. cbn. destruct (MaxSessions c =? 0) eqn:E; b2p; cbn; lia.
Qed.

Lemma live_bw_app up l1 l2 : live_bw up (l1 ++ l2) = live_bw up l1 + live_bw up l2.
Proof. apply zsum_app. Qed.

Lemma live_n_app l1 l2 : live_n (l1 ++ l2) = live_n l1 + live_n l2.
Proof. apply zsum_app. Qed.

Lemma live_bw_cons up e l : live_bw up (e :: l) = session_bw up e + live_bw up l.
Proof. done. Qed.
Lemma live_n_cons e l : live_n (e :: l) = session_n e + live_n l.
Proof. done. Qed.

Lemma session_bw_nonneg up e : 0 <= ss_bwMbps e.1 -> 0 <= session_bw up e.
Proof. unfold session_bw. destruct e.2; [destruct (Bool.eqb _ _)|..]; lia. Qed.

Lemma live_bw_nonneg up l : Forall (fun e => 0 <= ss_bwMbps e.1) l -> 0 <= live_bw up l.
Proof.
  induction 1 as [|e l He Hl IH]; [done|]. rewrite live_bw_cons. pose proof (session_bw_nonneg up e He). lia.
Qed.

Lemma live_n_nonneg l : 0 <= live_n l.
Proof. induction l as [|e l IH]; [done|]. rewrite live_n_cons. unfold session_n. destruct e.2; lia. Qed.

Lemma pc_bw_nonneg up pc : 0 <= pc_mbw pc -> 0 <= pc_bw up pc.
Proof. destruct pc; cbn; unfold session_bw; cbn; try destruct (Bool.eqb _ _); lia. Qed.

(** Split the sums over the list of sessions. *)
Ltac conc_sums :=
  rewrite ?live_bw_app, ?live_n_app, ?live_bw_cons, ?live_n_cons, ?length_app, ?length_cons, ?Forall_app, ?Forall_cons_iff in *;
  cbn [session_bw session_n live_bw live_n zsum foldr length fst snd pc_bw pc_n pc_mbw] in *.

(** The effect of giving bandwidth back on the two accounts. *)
Lemma release_if_used s up m : 0 <= m ->
  usedUS (release_if s up m) = usedUS s - (if up then m else 0) /\
  usedDS (release_if s up m) = usedDS s - (if up then 0 else m) /\
  sessions (release_if s up m) = sessions s /\ cfg (release_if s up m) = cfg s /\ closed (release_if s up m) = closed s.
Proof.
  intros H. unfold release_if, releaseBandwidth. destruct (0 <? m) eqn:E; b2p; destruct up; cbn; split_and!; lia || done.
Qed.

Lemma reserve_used s up m s' : reserveBandwidth s up m = (s', true) ->
  usedUS s' = usedUS s + (if up then m else 0) /\ usedDS s' = usedDS s + (if up then 0 else m) /\
  (if up then usedUS s' else usedDS s') <= MaxBandwidthMbps (cfg s) /\
  sessions s' = sessions s /\ cfg s' = cfg s /\ closed s' = closed s.
Proof.
  unfold reserveBandwidth. destruct (_ <? _) eqn:E; [discriminate|]. b2p.
  destruct up; intros [= <-]; cbn; split_and!; lia || done.
Qed.

(** Rebuild the invariant after a step: the fields of the new server are
    those of the old one up to arithmetic. *)
Ltac conc_close :=
  split; cbn [c_srv c_pc c_live c_wg c_returned cfg usedUS usedDS sessions closed set_sessions set_nextPort
              set_counts set_tests set_closed sessionDone] in *;
  conc_sums; try done; try lia; try (intros; intuition (done || lia)).

Lemma conc_inv_step c st st' : conc_inv c st -> conc_step st st' -> conc_inv c st'.
Proof.
  intros [Hcfg Hus Hds Hn [Hall Hpc] Hlim Hmax Hwg Hcl] Hstep.
  destruct Hstep as [s s' live wg ret up mbw ok Hbw Hm Hr|s live wg ret up Hbw|s live wg ret up mbw|s live wg ret up mbw Hc Hs
    |s live wg ret up mbw|s live wg ret up mbw next sess Hb1 Hb2|s pc live wg ret ac re|s live wg ret sess|s pc live wg ret us ds
    |s pc l1 l2 wg ret sess|s pc l1 l2 wg ret sess|s pc l1 l2 wg ret sess|s pc live wg ret|s pc live ret Hc];
  cbn [c_srv c_pc c_live c_wg c_returned] in *.
  - destruct ok; [|apply reserve_false in Hr; subst s'; by split].
    destruct (reserve_used _ _ _ _ Hr) as (H1 & H2 & H3 & H4 & H5 & H6).
    rewrite Hcfg, NewServer_bw in H3.
    conc_close; rewrite ?H4, ?H5, ?H6; try done; destruct up; cbn; try lia; intros Hp; specialize (Hlim Hp); lia.
  - conc_close; by destruct up.
  - conc_sums. destruct (release_if_used s up mbw Hpc) as (H1 & H2 & H3 & H4 & H5).
    pose proof (live_bw_nonneg true live Hall). pose proof (live_bw_nonneg false live Hall).
    conc_close; rewrite ?H3, ?H4, ?H5; try done; destruct up; cbn in *; try lia.
  - rewrite Hcfg in Hs. conc_close. intros Hret. destruct (Hcl Hret). congruence.
  - conc_close.
  - subst. conc_close.
  - conc_close.
  - conc_close.
  - conc_close.
  - conc_sums. destruct Hall as (Hl1 & He & Hl2).
    destruct (release_if_used s (ss_bwUpstream sess) (ss_bwMbps sess) He) as (H1 & H2 & H3 & H4 & H5).
    unfold session_bw in Hus, Hds. cbn [fst snd] in Hus, Hds.
    conc_close; rewrite ?H3, ?H4, ?H5; try done; destruct (ss_bwUpstream sess); cbn in *; try lia; try (intros; intuition lia).
  - conc_close.
  - conc_close.
  - conc_close.
  - conc_close. intros _. split; [done|]. destruct pc; cbn; lia.
Qed.

Lemma reachable_inv c st : reachable c st -> conc_inv c st.
Proof.
  intros H. unfold reachable in H. remember (conc_init c) as st0 eqn:E.
  assert (H0 : conc_inv c st0) by (subst; apply conc_inv_init). clear E.
  induction H as [|st0 st1 st2 Hs _ IH]; [done|]. apply IH. by eapply conc_inv_step.
Qed.

(** ** The sequential handler as a run *)
Definition started (sess : option setupSession) : list (setupSession * phase) :=
  match sess with Some s => [(s, Running)] | None => [] end.

(** The reservation of an admitted request. *)
Lemma admitted_step s req live wg ret :
  setup_wf req -> admission_ok s req ->
  let mbw := if 0 <? MaxBandwidthMbps (cfg s) then req_mbps req else 0 in
  conc_step (mkConc s SIdle live wg ret) (mkConc (admitted s req) (SReserved (req_upstream req) mbw) live wg ret).
Proof.
  intros Hwf Hok. unfold admitted, admission_ok in *. cbv zeta.
  destruct (0 <? MaxBandwidthMbps (cfg s)) eqn:E; b2p; [|by apply step_unlimited].
  destruct (Hok E) as [Hne Hle]. pose proof (req_mbps_nonneg req Hwf).
  apply (step_reserve s _ live wg ret (req_upstream req) (req_mbps req) true); [done|lia|].
  unfold reserveBandwidth. rewrite (proj2 (Z.ltb_ge _ _)) by lia. by destruct (req_upstream req).
Qed.

Lemma socket_steps s listen s' port sess up mbw live wg ret :
  newSessionSocket s listen = (s', Some port) -> ss_bwMbps sess = mbw -> ss_bwUpstream sess = up ->
  rtc conc_step (mkConc s (SReserved up mbw) live wg ret) (mkConc s' (SBound sess) live wg ret).
Proof.
  intros H Hb Hu. destruct (newSessionSocket_Some s listen s' port H) as (Hc & Hn & Hs').
  eapply rtc_l; [by apply step_count|]. rewrite Hs'. by apply rtc_once, step_bind.
Qed.

Section ConcTheorems.
Context `{M : MAC}.

Lemma accepted_steps s req raw peer env keys lk s' outs sess live wg ret :
  setup_wf req -> accepted s req raw peer env keys lk (s', outs, Some sess) ->
  rtc conc_step (mkConc s SIdle live wg ret) (mkConc s' SIdle (live ++ [(sess, Running)]) (wg + 1) ret).
Proof.
  intros Hwf [_ _ _ Hadm (port & s1 & nulls & pdu & resp & Hsock & _ & _ & _ & _ & _ & Heq)].
  injection Heq as -> _ Hsess.
  eapply rtc_l; [by apply admitted_step|].
  etransitivity; [by eapply (socket_steps _ _ _ _ sess); [exact Hsock|by rewrite Hsess..]|].
  eapply rtc_l; [apply step_respond|]. apply rtc_once, step_start.
Qed.

(** C3: no interleaving of the setup handler, the ends of sessions and Close
    leaks or oversells a resource: the bandwidth in use is exactly that of the
    running sessions and of the request being handled, in each direction, and
    never exceeds the configured limit; the session count is exact and never
    exceeds its limit; and with nothing in flight all are zero. *)
Theorem conc_account c st :
  reachable c st -> 0 <= MaxSessions c ->
  let s := c_srv st in
  usedUS s = live_bw true (c_live st) + pc_bw true (c_pc st) /\
  usedDS s = live_bw false (c_live st) + pc_bw false (c_pc st) /\
  sessions s = live_n (c_live st) + pc_n (c_pc st) /\
  0 <= usedUS s /\ 0 <= usedDS s /\ 0 <= sessions s <= MaxSessions (cfg s) /\
  (0 < MaxBandwidthMbps c -> usedUS s <= MaxBandwidthMbps c /\ usedDS s <= MaxBandwidthMbps c) /\
  (c_live st = [] -> c_pc st = SIdle -> usedUS s = 0 /\ usedDS s = 0 /\ sessions s = 0).
Proof.
  intros Hr H0. destruct (reachable_inv c st Hr) as [Hcfg Hus Hds Hn [Hall Hpc] Hlim Hmax _ _]. cbv zeta.
  pose proof (live_bw_nonneg true _ Hall). pose proof (live_bw_nonneg false _ Hall). pose proof (live_n_nonneg (c_live st)).
  pose proof (pc_bw_nonneg true _ Hpc). pose proof (pc_bw_nonneg false _ Hpc).
  assert (0 <= pc_n (c_pc st)) by (destruct (c_pc st); cbn; lia).
  split_and!; try lia; try done.
  - rewrite Hcfg. by apply Hmax.
  - intros Hl Hi. rewrite Hus, Hds, Hn, Hl, Hi. done.
Qed.

(** C5: the sequential handler refines the interleaving model: what
    serve_datagram does to the server, for any datagram, is a run of the rules
    that ends with the Serve goroutine idle and the session it created, if
    any, running. *)
Theorem serve_datagram_steps s b peer env s' outs sess live wg ret :
  bytes_ok b -> serve_datagram s b peer env = Ret (s', outs, sess) ->
  rtc conc_step (mkConc s SIdle live wg ret)
    (mkConc s' SIdle (live ++ started sess) (wg + Z.of_nat (length (started sess))) ret).
Proof.
  intros Hb H. destruct (serve_datagram_inv _ _ _ _ _ H) as [Heq|(req & Hp & _ & _ & Hh)].
  { injection Heq as -> -> ->. cbn. rewrite app_nil_r, Z.add_0_r. reflexivity. }
  destruct (parseSetup_wf b req Hb Hp) as (Hwf & Hlen & _).
  destruct (handleSetup_outcome s req b peer env Hwf Hlen) as (r & Hr & Hout).
  rewrite Hh in Hr. injection Hr as <-.
  destruct Hout as [(pdu & resp & Heq & _)|(keys & lk & Hacc)].
  - injection Heq as -> -> ->. cbn. rewrite app_nil_r, Z.add_0_r. apply rtc_once, step_respond.
  - destruct sess as [sess|].
    + by eapply accepted_steps.
    + destruct Hacc as [_ _ _ _ (? & ? & ? & ? & ? & _ & _ & _ & _ & _ & _ & Heq)]. discriminate Heq.
Qed.

(** C28: Close does not always wait for every session: a setup that holds its
    slot when Close is called starts its session after Close has returned.  It
    is the only one: after the return at most one session is running or about
    to start. *)
Theorem close_may_miss_one c sess :
  ss_bwMbps sess = 0 -> MaxBandwidthMbps c <= 0 -> 0 < MaxSessions c ->
  (exists st, reachable c st /\ c_returned st = true /\ c_live st = [(sess, Running)]) /\
  (forall st, reachable c st -> c_returned st = true -> Z.of_nat (length (c_live st)) + pc_n (c_pc st) <= 1).
Proof.
  intros Hbw Hmax Hses. split.
  - eexists. split.
    + unfold reachable, conc_init.
      eapply rtc_l. { apply (step_unlimited _ _ _ _ (ss_bwUpstream sess)). by rewrite NewServer_bw. }
      eapply rtc_l. { apply step_count; [done|]. unfold NewServer. destruct (MaxSessions c =? 0); cbn; lia. }
      eapply rtc_l. { by apply (step_bind _ _ _ _ _ _ 0 sess). }
      eapply rtc_l; [apply step_close|]. eapply rtc_l; [by apply step_close_returns|].
      apply rtc_once, step_start.
    + done.
  - intros st Hr Hret. by apply (ci_closed _ _ (reachable_inv c st Hr)).
Qed.
End ConcTheorems.

(** ** Concrete runs *)
Lemma conc_account_witness :
  exists st, reachable cfg_example st /\ usedDS (c_srv st) = 60 /\ 0 <= sessions (c_srv st) <= MaxSessions (cfg (c_srv st)).
Proof.
  set (s := set_used (NewServer cfg_example) 0 60).
  assert (Hr : reachable cfg_example (mkConc s (SReserved false 60) [] 0 false)).
  { apply rtc_once. by apply (step_reserve (NewServer cfg_example) s [] 0 false false 60 true). }
  exists (mkConc s (SReserved false 60) [] 0 false). split; [exact Hr|].
  destruct (conc_account cfg_example _ Hr) as (_ & Hds & _ & _ & _ & Hn & _); [discriminate|].
  split; [exact Hds|exact Hn].
Defined.

Lemma serve_datagram_steps_witness :
  exists s' outs sess, serve_datagram (NewServer cfg_example) req_signed_bytes peer_example env_example = Ret (s', outs, Some sess) /\
    rtc conc_step (conc_init cfg_example) (mkConc s' SIdle [(sess, Running)] 1 false).
Proof.
  pose proof run_accepted_example as Hrun.
  destruct (serve_datagram (NewServer cfg_example) req_signed_bytes peer_example env_example)
    as [[[s' outs] [sess|]]|] eqn:E; [|discriminate Hrun..].
  exists s', outs, sess. split; [reflexivity|].
  exact (serve_datagram_steps (NewServer cfg_example) req_signed_bytes peer_example env_example s' outs (Some sess) [] 0 false
           req_signed_bytes_ok E).
Defined.

Definition cfg_unlimited : Config := mkConfig ∅ 0 true false 0 2 0 0 None.

Lemma close_may_miss_one_witness :
  exists st, reachable cfg_unlimited st /\ c_returned st = true /\
    c_live st = [(mkSetupSession 50000 peer_example 20 0 None None 0 false, Running)].
Proof.
  apply (close_may_miss_one cfg_unlimited (mkSetupSession 50000 peer_example 20 0 None None 0 false)); [reflexivity|discriminate|reflexivity].
Defined.
