(* ===== verification/Live.v ===== *)
(** * The live transfer registry (internal/tr143/live.go)

    Transfers register when they start, store their byte count as they go and
    mark themselves done; a snapshot lists them and drops those done for
    longer than the grace window.  The map of pointers is a finite map of
    entries; the iteration order of a snapshot is unspecified, and nothing
    below depends on it.  Each reading of the clock is an input. *)

From stdpp Require Import gmap strings.
From S2P Require Import Prelude GoText GoTime.

Record LiveTransfer := mkLiveTransfer {
  lt_Test : list Z;
  lt_Ref : list Z;
  lt_Peer : list Z;
  lt_Bytes : Z;
  lt_ElapsedMS : Z;
  lt_Done : bool
}.

Definition liveGrace : Z := 15 * Second.

Record liveEntry := mkLiveEntry {
  le_test : list Z;
  le_ref : list Z;
  le_peer : list Z;
  le_start : Time;
  le_bytes : Z;
  le_done : bool;
  le_ended : Time
}.

Record liveRegistry := mkRegistry {
  lr_seq : Z;
  lr_live : gmap Z liveEntry
}.

Definition emptyRegistry : liveRegistry := mkRegistry 0 ∅.

Definition live_begin (r : liveRegistry) (test ref peer : list Z) (now : Time) : liveRegistry * Z :=
  let e := mkLiveEntry test ref peer now 0 false zeroTime in
  let id := u64 (lr_seq r + 1) in
  (mkRegistry id (<[id := e]> (lr_live r)), id).

(** lt.bytes.Store(n) *)
Definition live_store (r : liveRegistry) (id n : Z) : liveRegistry :=
  mkRegistry (lr_seq r)
    (alter (fun e => mkLiveEntry (le_test e) (le_ref e) (le_peer e) (le_start e) n (le_done e) (le_ended e)) id (lr_live r)).

(** The hook begin returns. *)
Definition live_done (r : liveRegistry) (id : Z) (now : Time) : liveRegistry :=
  mkRegistry (lr_seq r)
    (alter (fun e => mkLiveEntry (le_test e) (le_ref e) (le_peer e) (le_start e) (le_bytes e) true now) id (lr_live r)).

Definition expired (e : liveEntry) (now : Time) : bool :=
  le_done e && (liveGrace <? time_Sub now (le_ended e)).

Definition transfer_of (e : liveEntry) (now : Time) : LiveTransfer :=
  let elapsed := if le_done e then time_Sub (le_ended e) (le_start e) else time_Sub now (le_start e) in
  mkLiveTransfer (le_test e) (le_ref e) (le_peer e) (le_bytes e) (Milliseconds elapsed) (le_done e).

(** [clk id]: the readings of the clock in the iteration for entry [id], for
    the expiry test and for the elapsed time. *)
Definition snapshot (r : liveRegistry) (clk : Z -> Time * Time) : liveRegistry * list LiveTransfer :=
  let kept := filter (fun ie : Z * liveEntry => expired ie.2 (clk ie.1).1 = false) (lr_live r) in
  (mkRegistry (lr_seq r) kept, (fun ie : Z * liveEntry => transfer_of ie.2 (clk ie.1).2) <$> map_to_list kept).

(** ** Runs *)
Inductive liveOp : Type :=
| LBegin (test ref peer : list Z) (now : Time)
| LStore (id n : Z)
| LDone (id : Z) (now : Time)
| LSnapshot (clk : Z -> Time * Time).

Definition live_apply (r : liveRegistry) (op : liveOp) : liveRegistry :=
  match op with
  | LBegin test ref peer now => (live_begin r test ref peer now).1
  | LStore id n => live_store r id n
  | LDone id now => live_done r id now
  | LSnapshot clk => (snapshot r clk).1
  end.

Definition live_run (r : liveRegistry) (ops : list liveOp) : liveRegistry := fold_left live_apply ops r.

(** Operations of other transfers, and snapshots that read the clock within
    the grace window of an entry that ended at [ended]. *)
Definition spares (id : Z) (ended : Time) (op : liveOp) : Prop :=
  match op with
  | LBegin _ _ _ _ => True
  | LStore id' _ | LDone id' _ => id' <> id
  | LSnapshot clk => time_Sub (clk id).1 ended <= liveGrace
  end.

(** Identifiers come from the counter. *)
Definition registry_ok (r : liveRegistry) : Prop :=
  0 <= lr_seq r < 2 ^ 64 - 1 /\ forall id e, lr_live r !! id = Some e -> 1 <= id <= lr_seq r.

Definition is_begin (op : liveOp) : bool := match op with LBegin _ _ _ _ => true | _ => false end.
Definition begins (ops : list liveOp) : Z := Z.of_nat (length (filter (fun op => is_begin op = true) ops)).

Lemma snapshot_lookup r clk id e :
  lr_live (snapshot r clk).1 !! id = Some e <-> lr_live r !! id = Some e /\ expired e (clk id).1 = false.
Proof. unfold snapshot. cbn. rewrite map_lookup_filter_Some. done. Qed.

Lemma alter_dom {A} (f : A -> A) (i : Z) (m : gmap Z A) j x : alter f i m !! j = Some x -> exists y, m !! j = Some y.
Proof. destruct (decide (i = j)) as [->|Hne]; [rewrite lookup_alter_eq|rewrite lookup_alter_ne by done]; [|by eauto]. intros (y & -> & _)%fmap_Some. by eauto. Qed.

Lemma live_apply_ok r op : registry_ok r -> lr_seq r + 1 < 2 ^ 64 - 1 ->
  registry_ok (live_apply r op) /\ lr_seq (live_apply r op) = lr_seq r + (if is_begin op then 1 else 0).
Proof.
  intros [Hs Hid] Hb. destruct op as [test ref peer now|id n|id now|clk]; cbn [live_apply live_begin live_store live_done lr_seq fst is_begin].
  - rewrite u64_id by width_lia. split; [|done]. split; cbn; [lia|].
    intros id e. destruct (decide (lr_seq r + 1 = id)) as [<-|Hne]; [lia|].
    rewrite lookup_insert_ne by done. intros H. apply Hid in H. lia.
  - split; [|lia]. split; cbn; [lia|]. intros j e H. apply alter_dom in H as [y H]. by apply Hid in H.
  - split; [|lia]. split; cbn; [lia|]. intros j e H. apply alter_dom in H as [y H]. by apply Hid in H.
  - split; [|cbn; lia]. split; [cbn; lia|]. intros j e H. apply snapshot_lookup in H as [H _]. cbn. by apply Hid in H.
Qed.

(** An operation that spares an ended entry leaves it as it is. *)
Lemma live_apply_spares r op id e : registry_ok r -> lr_seq r + 1 < 2 ^ 64 - 1 ->
  lr_live r !! id = Some e -> le_done e = true -> spares id (le_ended e) op -> lr_live (live_apply r op) !! id = Some e.
Proof.
  intros [Hs Hid] Hb He Hd Hsp. destruct op as [test ref peer now|id' n|id' now|clk]; cbn in *.
  - rewrite u64_id by width_lia. rewrite lookup_insert_ne; [done|]. apply Hid in He. lia.
  - by rewrite lookup_alter_ne.
  - by rewrite lookup_alter_ne.
  - apply map_lookup_filter_Some. split; [done|]. cbn. unfold expired. rewrite Hd, (proj2 (Z.ltb_ge _ _)) by done. done.
Qed.

Lemma live_run_spares r ops id e : registry_ok r -> lr_seq r + begins ops < 2 ^ 64 - 2 ->
  lr_live r !! id = Some e -> le_done e = true -> Forall (spares id (le_ended e)) ops ->
  lr_live (live_run r ops) !! id = Some e.
Proof.
  intros Hok Hn He Hd Hsp. revert r Hok Hn He. unfold begins, live_run. induction Hsp as [|op ops Hop Hsp IH]; intros r Hok Hn He; [done|].
  rewrite filter_cons in Hn. cbn [fold_left].
  assert (Hlt : lr_seq r + 1 < 2 ^ 64 - 1) by (destruct (decide _); cbn in Hn; lia).
  destruct (live_apply_ok r op Hok Hlt) as [Hok' Hseq].
  apply IH; [done| |by apply live_apply_spares]. rewrite Hseq.
  destruct (decide (is_begin op = true)) as [Hb|Hb]; [rewrite Hb; cbn in Hn; lia|].
  apply not_true_is_false in Hb. rewrite Hb. lia.
Qed.

Lemma live_store_store r id a b : live_store (live_store r id a) id b = live_store r id b.
Proof. unfold live_store. cbn. f_equal. by rewrite alter_alter_eq. Qed.

Lemma live_begin_store r test ref peer now reg id : live_begin r test ref peer now = (reg, id) -> live_store reg id 0 = reg.
Proof. unfold live_begin. intros [= <- <-]. unfold live_store. cbn. by rewrite alter_insert_eq. Qed.

(** ** Theorems *)

(** A finished transfer stays visible for the grace window, with its own
    final figures: whatever other transfers begin, progress and end, and
    however often the registry is read, every snapshot that reads the clock
    within 15 seconds of its end lists it, with its final byte count and the
    time it took; the first that reads it later drops it. *)
Theorem live_grace_window r ops id e clk :
  registry_ok r -> lr_seq r + begins ops < 2 ^ 64 - 2 ->
  lr_live r !! id = Some e -> le_done e = true -> Forall (spares id (le_ended e)) ops ->
  let r' := live_run r ops in
  (time_Sub (clk id).1 (le_ended e) <= liveGrace ->
   In (mkLiveTransfer (le_test e) (le_ref e) (le_peer e) (le_bytes e)
         (Milliseconds (time_Sub (le_ended e) (le_start e))) true) (snapshot r' clk).2) /\
  (liveGrace < time_Sub (clk id).1 (le_ended e) -> lr_live (snapshot r' clk).1 !! id = None).
Proof.
  intros Hok Hn He Hd Hsp r'. pose proof (live_run_spares r ops id e Hok Hn He Hd Hsp) as Hr. fold r' in Hr. split.
  - intros Ht. apply list_elem_of_In. unfold snapshot. cbn [snd]. apply list_elem_of_fmap. exists (id, e).
    split; [cbn; unfold transfer_of; by rewrite Hd|]. apply elem_of_map_to_list, map_lookup_filter_Some.
    split; [done|]. cbn. unfold expired. by rewrite Hd, (proj2 (Z.ltb_ge _ _)).
  - intros Ht. destruct (lr_live (snapshot r' clk).1 !! id) as [x|] eqn:Ex; [|done].
    apply snapshot_lookup in Ex as [Hx Hex]. rewrite Hr in Hx. injection Hx as <-.
    unfold expired in Hex. by rewrite Hd, (proj2 (Z.ltb_lt _ _)) in Hex.
Qed.

(** A transfer that begins, moves [n] bytes and ends. *)
Definition one_transfer (id n : Z) (t0 t1 : Time) : list liveOp :=
  [LBegin (str "http_download") [] [] t0; LStore id n; LDone id t1].

Lemma live_run_app r ops ops' : live_run r (ops ++ ops') = live_run (live_run r ops) ops'.
Proof. apply fold_left_app. Qed.

Lemma live_growth m r lo t0 t1 : lr_seq r = lo - 1 -> 1 <= lo -> lo + Z.of_nat m < 2 ^ 33 ->
  (forall id, lo <= id -> lr_live r !! id = None) ->
  size (lr_live (live_run r (concat (map (fun id => one_transfer id 1 t0 t1) (seqZ lo (Z.of_nat m)))))) = (size (lr_live r) + m)%nat.
Proof.
  revert r lo. induction m as [|m IH]; intros r lo Hs H1 Hb Hfree; [by rewrite Nat.add_0_r|].
  rewrite Nat2Z.inj_succ, seqZ_cons by lia. replace (Z.pred (Z.succ (Z.of_nat m))) with (Z.of_nat m) by lia.
  cbn [map concat]. rewrite live_run_app. set (r1 := live_run r (one_transfer lo 1 t0 t1)).
  assert (Hr1 : exists e, lr_live r1 = <[lo := e]> (lr_live r) /\ lr_seq r1 = lo).
  { unfold r1. cbn. rewrite Hs, u64_id by (change (2 ^ 33) with 8589934592 in *; width_lia).
    replace (lo - 1 + 1) with lo by lia. rewrite !alter_insert_eq. by eexists. }
  destruct Hr1 as (e & Hlive & Hseq). rewrite IH; [|lia|lia|lia|].
  - rewrite Hlive, map_size_insert_None by (apply Hfree; lia). lia.
  - intros id Hid. rewrite Hlive, lookup_insert_ne by lia. apply Hfree. lia.
Qed.

(** Nothing but a snapshot drops an entry: after any number of finished
    transfers the registry holds all of them, however long ago they ended, so
    it grows without bound when /live is not polled. *)
Theorem live_unpolled_growth n t0 t1 :
  Z.of_nat n < 2 ^ 32 ->
  size (lr_live (live_run emptyRegistry (concat (map (fun id => one_transfer id 1 t0 t1) (seqZ 1 (Z.of_nat n)))))) = n.
Proof.
  intros Hn. rewrite (live_growth n emptyRegistry 1); [done|done|lia|change (2 ^ 33) with 8589934592; width_lia|done].
Qed.

(** ** Witnesses *)
Definition entry_example : liveEntry :=
  mkLiveEntry (str "http_download") (str "r1") (str "192.0.2.1:5000") (mkTime 0 (Some 0)) 1000 true (mkTime (2 * Second) (Some (2 * Second))).
Definition registry_example : liveRegistry := mkRegistry 1 {[ 1 := entry_example ]}.
Definition clk_example : Z -> Time * Time := fun _ => (mkTime (10 * Second) (Some (10 * Second)), mkTime (10 * Second) (Some (10 * Second))).

Lemma live_grace_window_witness :
  In (mkLiveTransfer (str "http_download") (str "r1") (str "192.0.2.1:5000") 1000 2000 true)
     (snapshot (live_run registry_example [LBegin (str "http_upload") [] [] zeroTime; LSnapshot clk_example]) clk_example).2.
Proof.
  apply (live_grace_window registry_example [LBegin (str "http_upload") [] [] zeroTime; LSnapshot clk_example] 1 entry_example clk_example).
  - split; [split; [discriminate|reflexivity]|]. intros id e H. unfold registry_example in H. cbn [lr_live] in H. apply lookup_singleton_Some in H as [<- _]. split; discriminate.
  - reflexivity.
  - reflexivity.
  - reflexivity.
  - repeat constructor; discriminate.
  - discriminate.
Defined.

Lemma live_unpolled_growth_witness :
  size (lr_live (live_run emptyRegistry (concat (map (fun id => one_transfer id 1 zeroTime zeroTime) (seqZ 1 3))))) = 3%nat.
Proof. apply (live_unpolled_growth 3). reflexivity. Defined.
