(* ===== verification/Http.v ===== *)
(** * TR-143 HTTP transfers (internal/tr143/http.go)

    The names of generated downloads, admission, the sized and the time-based
    download loops, uploads and the dispatch of a request.  Go strings are
    byte strings.  The outcomes of the writes and reads, the clock readings
    and what net/http has parsed of the request are inputs. *)

From stdpp Require Import gmap strings.
From S2P Require Import Prelude GoText GoTime GoNet GoUrl Live.

Definition maxTimeBasedSeconds : Z := 999.

(** ** Names and paths *)
Definition is_alnum (c : Z) : bool :=
  is_digit c || ((65 <=? c) && (c <=? 90)) || ((97 <=? c) && (c <=? 122)).

(** path.Base *)
Fixpoint strip_slashes (rs : list Z) : list Z :=
  match rs with 47 :: rs' => strip_slashes rs' | _ => rs end.
Fixpoint take_until (c : Z) (rs : list Z) : list Z :=
  match rs with [] => [] | x :: rs' => if x =? c then [] else x :: take_until c rs' end.

Definition path_Base (p : list Z) : list Z :=
  match p with
  | [] => str "."
  | _ =>
      match rev (take_until 47 (strip_slashes (rev p))) with
      | [] => str "/"
      | b => b
      end
  end.

(** path.Ext: the suffix from the last dot of the last element. *)
Fixpoint ext_rev (rs acc : list Z) : list Z :=
  match rs with
  | [] => []
  | x :: rs => if x =? 47 then [] else if x =? 46 then x :: acc else ext_rev rs (x :: acc)
  end.
Definition path_Ext (p : list Z) : list Z := ext_rev (rev p) [].

Fixpoint CutPrefix (s prefix : list Z) : option (list Z) :=
  match prefix, s with
  | [], _ => Some s
  | _ :: _, [] => None
  | c :: prefix, x :: s => if x =? c then CutPrefix s prefix else None
  end.

Definition TrimSuffix (s suffix : list Z) : list Z :=
  if (length suffix <=? length s)%nat && bool_decide (drop (length s - length suffix) s = suffix)
  then take (length s - length suffix) s else s.

(** ** Names of sized downloads *)
Fixpoint span_digits (s : list Z) : list Z * list Z :=
  match s with
  | c :: s' => if is_digit c then let '(ds, rest) := span_digits s' in (c :: ds, rest) else ([], s)
  | [] => ([], [])
  end.

Definition is_unit (c : Z) : bool := existsb (Z.eqb c) (str "kKmMgG").
Definition is_b (c : Z) : bool := existsb (Z.eqb c) (str "bB").

(** The optional extension, to the end of the name. *)
Definition match_ext (s : list Z) : bool :=
  match s with
  | [] => true
  | 46 :: ((_ :: _) as e) => forallb is_alnum e
  | _ => false
  end.

(** sizeNameRE: the digits and the unit letter, lower-cased ([None]: no unit).
    After the digits each part of the expression starts with a different
    character, so one reading of the name decides the match. *)
Definition match_size_name (name : list Z) : option (list Z * option Z) :=
  let '(ds, rest) := span_digits name in
  match ds with
  | [] => None
  | _ =>
      match rest with
      | u :: b :: rest' =>
          if is_unit u && is_b b then if match_ext rest' then Some (ds, Some (Z.lor u 32)) else None
          else if match_ext rest then Some (ds, None) else None
      | _ => if match_ext rest then Some (ds, None) else None
      end
  end.

(** The factor of a unit letter. *)
Definition unit_factor (u : option Z) : Z :=
  match u with
  | Some 107 => 1000
  | Some 109 => 1000000
  | Some 103 => 1000000000
  | _ => 1
  end.

(** int64 arithmetic: the product wraps. *)
Definition parseSizeName (name : list Z) : option Z :=
  match match_size_name name with
  | None => None
  | Some (ds, u) =>
      match ParseInt ds with
      | None => None
      | Some n => Some (i64 (n * unit_factor u))
      end
  end.

(** ** Requests *)
Inductive method : Type := MethodGet | MethodHead | MethodPut | MethodPost | MethodOther.

(** What the handlers read of a request: the method, the path, the query
    and the remote address. *)
Record Request := mkRequest {
  rq_Method : method;
  rq_Path : list Z;
  rq_RawQuery : list Z;
  rq_RemoteAddr : list Z
}.

(** r.URL.Query().Get("time") and r.URL.Query().Get("ref") *)
Definition rq_time (r : Request) : list Z := Values_Get (Query (rq_RawQuery r)) (str "time").
Definition rq_ref (r : Request) : list Z := Values_Get (Query (rq_RawQuery r)) (str "ref").

Record downloadRequest := mkDownload {
  dr_bytes : Z;
  dr_seconds : Z
}.

Inductive parsedDownload : Type :=
| PdError
| PdNone
| PdSome (d : downloadRequest).

Definition timed (v : option Z) : parsedDownload :=
  match v with
  | Some secs => if (secs <? 1) || (maxTimeBasedSeconds <? secs) then PdError else PdSome (mkDownload 0 secs)
  | None => PdError
  end.

Definition timedPrefix : list Z := str "dntimebasedmode_".

Definition parseDownloadRequest (r : Request) : parsedDownload :=
  match rq_time r with
  | _ :: _ => timed (ParseInt (rq_time r))
  | [] =>
      let name := path_Base (rq_Path r) in
      match CutPrefix name timedPrefix with
      | Some rest => timed (ParseInt (TrimSuffix rest (path_Ext rest)))
      | None =>
          match parseSizeName name with
          | Some size => PdSome (mkDownload size 0)
          | None => PdNone
          end
      end
  end.

Example size_1GB : parseSizeName (str "1GB") = Some 1000000000.
Proof. reflexivity. Qed.
Example size_500KB : parseSizeName (str "500kB.bin") = Some 500000.
Proof. reflexivity. Qed.
Example size_bad : parseSizeName (str "1G") = None /\ parseSizeName (str "12.") = None /\ parseSizeName (str "12.-a") = None /\ parseSizeName (str "x1") = None.
Proof. split_and!; reflexivity. Qed.
Example timed_name : parseDownloadRequest (mkRequest MethodGet (str "/a/dntimebasedmode_10.txt") [] []) = PdSome (mkDownload 0 10).
Proof. reflexivity. Qed.

(** ** The handler *)
Record HTTPConfig := mkHTTPConfig {
  hc_MaxConcurrent : Z;
  hc_MaxDownloadBytes : Z;
  hc_MaxDuration : Z;
  hc_Allow : option (Addr -> bool)
}.

(** [hh_sem]: the number of tokens in the semaphore channel, when there is
    one. *)
Record HTTPHandler := mkHandler {
  hh_cfg : HTTPConfig;
  hh_sem : option Z;
  hh_downloads : Z;
  hh_uploads : Z;
  hh_rejects : Z;
  hh_bytesSent : Z;
  hh_bytesReceived : Z;
  hh_active : Z;
  hh_live : liveRegistry
}.

Definition NewHTTPHandler (c : HTTPConfig) : HTTPHandler :=
  mkHandler c (if 0 <? hc_MaxConcurrent c then Some 0 else None) 0 0 0 0 0 0 emptyRegistry.

Record HTTPStats := mkHTTPStats {
  st_Downloads : Z;
  st_Uploads : Z;
  st_Rejects : Z;
  st_BytesSent : Z;
  st_BytesReceived : Z;
  st_ActiveTransfers : Z
}.

Definition HTTPHandler_Stats (h : HTTPHandler) : HTTPStats :=
  mkHTTPStats (hh_downloads h) (hh_uploads h) (hh_rejects h) (hh_bytesSent h) (hh_bytesReceived h) (hh_active h).

Definition set_slots (h : HTTPHandler) (sem : option Z) (active : Z) : HTTPHandler :=
  mkHandler (hh_cfg h) sem (hh_downloads h) (hh_uploads h) (hh_rejects h) (hh_bytesSent h) (hh_bytesReceived h) active (hh_live h).
Definition set_rejects (h : HTTPHandler) (n : Z) : HTTPHandler :=
  mkHandler (hh_cfg h) (hh_sem h) (hh_downloads h) (hh_uploads h) n (hh_bytesSent h) (hh_bytesReceived h) (hh_active h) (hh_live h).
Definition set_download (h : HTTPHandler) (sent : Z) : HTTPHandler :=
  mkHandler (hh_cfg h) (hh_sem h) (u64 (hh_downloads h + 1)) (hh_uploads h) (hh_rejects h)
    (u64 (hh_bytesSent h + u64 sent)) (hh_bytesReceived h) (hh_active h) (hh_live h).
Definition set_upload (h : HTTPHandler) (n : Z) : HTTPHandler :=
  mkHandler (hh_cfg h) (hh_sem h) (hh_downloads h) (u64 (hh_uploads h + 1)) (hh_rejects h)
    (hh_bytesSent h) (u64 (hh_bytesReceived h + u64 n)) (hh_active h) (hh_live h).
Definition set_live (h : HTTPHandler) (r : liveRegistry) : HTTPHandler :=
  mkHandler (hh_cfg h) (hh_sem h) (hh_downloads h) (hh_uploads h) (hh_rejects h) (hh_bytesSent h) (hh_bytesReceived h) (hh_active h) r.

(** Live: [clk] gives the readings of the clock for each entry. *)
Definition HTTPHandler_Live (h : HTTPHandler) (clk : Z -> Time * Time) : HTTPHandler * list LiveTransfer :=
  let '(reg, out) := snapshot (hh_live h) clk in (set_live h reg, out).

(** acquire: a token goes into the channel unless it is full. *)
Definition acquire (h : HTTPHandler) : HTTPHandler * bool :=
  match hh_sem h with
  | Some n =>
      if n <? hc_MaxConcurrent (hh_cfg h) then (set_slots h (Some (n + 1)) (i64 (hh_active h + 1)), true)
      else (set_rejects h (u64 (hh_rejects h + 1)), false)
  | None => (set_slots h None (i64 (hh_active h + 1)), true)
  end.

(** release: the token comes out (a channel with no token would block). *)
Definition release (h : HTTPHandler) : HTTPHandler :=
  set_slots h ((fun n => n - 1) <$> hh_sem h) (i64 (hh_active h - 1)).

(** ** Downloads *)
Definition payloadBlockLen : Z := 2 ^ 20.

(** The loop of downloadSized: each element of [writes] is the outcome of one
    Write, the bytes written and whether it failed.  The result is the bytes
    sent, the sizes asked of Write and whether the loop has returned. *)
Fixpoint sized_loop (size sent : Z) (writes : list (Z * bool)) : Z * list Z * bool :=
  if sent <? size then
    match writes with
    | [] => (sent, [], false)
    | (wrote, err) :: writes =>
        let n := if size - sent <? payloadBlockLen then size - sent else payloadBlockLen in
        let sent := sent + wrote in
        if err then (sent, [n], true)
        else let '(sent, asked, returned) := sized_loop size sent writes in (sent, n :: asked, returned)
    end
  else (sent, [], true).

(** The loop of downloadTimed: each element has the reading of the clock at
    the head of the iteration besides; a list that ends stands for a reading
    not before the deadline.  The last flag is [complete]. *)
Fixpoint timed_loop (deadline : Time) (sent : Z) (writes : list (Time * Z * bool)) : Z * bool :=
  match writes with
  | [] => (sent, true)
  | (now, wrote, err) :: writes =>
      if time_Before now deadline then
        if err then (sent + wrote, false) else timed_loop deadline (sent + wrote) writes
      else (sent, true)
  end.

(** ** Responses *)

(** The completion record of a test; the message of the log is "test
    complete" or "test ended by client" by [tv_complete]. *)
Record testRecord := mkTestRecord {
  tv_complete : bool;
  tv_test : list Z;
  tv_peer : list Z;
  tv_ref : list Z;
  tv_bytes : Z;
  tv_duration_ms : Z
}.

(** event: [now] is the reading of the clock in time.Since. *)
Definition event (r : Request) (test : list Z) (complete : bool) (bytes : Z) (start now : Time) : testRecord :=
  mkTestRecord complete test (rq_RemoteAddr r) (rq_ref r) bytes (Milliseconds (time_Sub now start)).

(** An answer, with the completion record of the test when there is one; an
    upload is answered with 200 when it is complete and not at all
    otherwise. *)
Inductive httpResp : Type :=
| RError (code : Z)
| RIndex (body : list Z)
| RHead (length : option Z)
| RStream (length : option Z) (ev : testRecord)
| RUpload (ev : testRecord).

Definition index : httpResp := RIndex (str
"diagd TR-143 test server

Download (GET):
  /<bytes>            exact size, for example /1000000
  /<n>KB.bin          decimal units KB, MB, GB
  /dntimebasedmode_<seconds>.txt
  /any/path?time=<seconds>

Upload (PUT or POST): any path, body is discarded.
").

(** The inputs of a transfer: clock readings at its start, at its end and for
    its record, and its writes or reads. *)
Record Transfer := mkTransfer {
  tx_start : Time;
  tx_begin : Time;
  tx_event : Time;
  tx_end : Time;
  tx_writes : list (Z * bool);
  tx_timed : list (Time * Z * bool);
  tx_reads : list Z;
  tx_readErr : bool
}.

Definition isHead (m : method) : bool := match m with MethodHead => true | _ => false end.

Definition downloadSized (h : HTTPHandler) (r : Request) (size : Z) (tx : Transfer) : HTTPHandler * httpResp :=
  if (0 <? hc_MaxDownloadBytes (hh_cfg h)) && (hc_MaxDownloadBytes (hh_cfg h) <? size) then (h, RError 403)
  else
    let '(h, ok) := acquire h in
    if negb ok then (h, RError 503)
    else if isHead (rq_Method r) then (release h, RHead (Some size))
    else
      let '(reg, id) := live_begin (hh_live h) (str "http_download") (rq_ref r) (rq_RemoteAddr r) (tx_begin tx) in
      let '(sent, _, _) := sized_loop size 0 (tx_writes tx) in
      let h := set_live h (live_done (live_store reg id sent) id (tx_end tx)) in
      (release (set_download h sent),
       RStream (Some size) (event r (str "http_download") (sent =? size) sent (tx_start tx) (tx_event tx))).

Definition downloadTimed (h : HTTPHandler) (r : Request) (seconds : Z) (tx : Transfer) : HTTPHandler * httpResp :=
  let d := seconds * Second in
  if (0 <? hc_MaxDuration (hh_cfg h)) && (hc_MaxDuration (hh_cfg h) <? d) then (h, RError 403)
  else
    let '(h, ok) := acquire h in
    if negb ok then (h, RError 503)
    else if isHead (rq_Method r) then (release h, RHead None)
    else
      let deadline := time_Add (tx_start tx) d in
      let '(reg, id) := live_begin (hh_live h) (str "http_download_timed") (rq_ref r) (rq_RemoteAddr r) (tx_begin tx) in
      let '(sent, complete) := timed_loop deadline 0 (tx_timed tx) in
      let h := set_live h (live_done (live_store reg id sent) id (tx_end tx)) in
      (release (set_download h sent),
       RStream None (event r (str "http_download_timed") complete sent (tx_start tx) (tx_event tx))).

Definition download (h : HTTPHandler) (r : Request) (tx : Transfer) : HTTPHandler * httpResp :=
  match parseDownloadRequest r with
  | PdError => (h, RError 400)
  | PdNone => (h, if bool_decide (rq_Path r = str "/") then index else RError 404)
  | PdSome req =>
      if 0 <? dr_seconds req then downloadTimed h r (dr_seconds req) tx
      else downloadSized h r (dr_bytes req) tx
  end.

(** liveCountingReader.Read: [n] bytes read so far, a chunk of [chunk]. *)
Definition liveCountingReader_Read (reg : liveRegistry) (id n chunk : Z) : liveRegistry * Z :=
  (live_store reg id (n + chunk), n + chunk).

(** io.Copy(io.Discard, reader) over the chunks the body yields. *)
Fixpoint io_Copy (reg : liveRegistry) (id n : Z) (reads : list Z) : liveRegistry * Z :=
  match reads with
  | [] => (reg, n)
  | chunk :: reads => let '(reg, n) := liveCountingReader_Read reg id n chunk in io_Copy reg id n reads
  end.

(** upload: io.Copy over the chunks the body yields; [tx_readErr]: it ended
    with an error and not with the end of the body. *)
Definition upload (h : HTTPHandler) (r : Request) (tx : Transfer) : HTTPHandler * httpResp :=
  let '(h, ok) := acquire h in
  if negb ok then (h, RError 503)
  else
    let '(reg, id) := live_begin (hh_live h) (str "http_upload") (rq_ref r) (rq_RemoteAddr r) (tx_begin tx) in
    let '(reg, n) := io_Copy reg id 0 (tx_reads tx) in
    let h := set_live h (live_done reg id (tx_end tx)) in
    (release (set_upload h n), RUpload (event r (str "http_upload") (negb (tx_readErr tx)) n (tx_start tx) (tx_event tx))).

Definition peerAllowed (h : HTTPHandler) (r : Request) : bool :=
  match hc_Allow (hh_cfg h) with
  | None => true
  | Some allow => match ParseAddrPort (rq_RemoteAddr r) with Some ap => allow (Unmap (ap_Addr ap)) | None => false end
  end.

Definition ServeHTTP (h : HTTPHandler) (r : Request) (tx : Transfer) : HTTPHandler * httpResp :=
  if negb (peerAllowed h r) then (h, RError 403)
  else
    match rq_Method r with
    | MethodGet | MethodHead => download h r tx
    | MethodPut | MethodPost => upload h r tx
    | MethodOther => (h, RError 405)
    end.

(** ** Lemmas on names *)
Lemma span_digits_app ds rest : all_digits ds ->
  match rest with c :: _ => is_digit c = false | [] => True end -> span_digits (ds ++ rest) = (ds, rest).
Proof.
  intros Hd Hr. induction Hd as [|d ds Hd _ IH]; cbn.
  - destruct rest as [|c rest]; [done|]. cbn. by rewrite Hr.
  - by rewrite Hd, IH.
Qed.

(** The written forms of a size: a unit of two letters, or none, and an
    extension of letters and digits, or none. *)
Inductive size_unit : list Z -> Z -> Prop :=
| unit_none : size_unit [] 1
| unit_some u b f : is_unit u = true -> is_b b = true -> unit_factor (Some (Z.lor u 32)) = f -> size_unit [u; b] f.

Inductive size_ext : list Z -> Prop :=
| ext_none : size_ext []
| ext_some e : e <> [] -> forallb is_alnum e = true -> size_ext (46 :: e).

Lemma size_ext_match e : size_ext e -> match_ext e = true.
Proof. intros [|e' Hne He]; [done|]. destruct e' as [|x e']; [done|]. exact He. Qed.

Lemma unit_not_digit u : is_unit u = true -> is_digit u = false.
Proof.
  intros H. apply existsb_exists in H as (x & Hx & He). apply Z.eqb_eq in He as ->.
  cbn in Hx. repeat (destruct Hx as [<-|Hx]; [done|]). done.
Qed.

Lemma match_size_name_written ds w e f : all_digits ds -> ds <> [] -> size_unit w f -> size_ext e ->
  exists u, match_size_name (ds ++ w ++ e) = Some (ds, u) /\ unit_factor u = f.
Proof.
  intros Hd Hne Hw He. unfold match_size_name.
  assert (Hspan : span_digits (ds ++ w ++ e) = (ds, w ++ e)).
  { apply span_digits_app; [done|]. destruct Hw as [|u b f Hu _ _]; cbn; [|by apply unit_not_digit]. by destruct He. }
  rewrite Hspan. destruct ds as [|d ds]; [done|].
  destruct Hw as [|u b f Hu Hb Hf].
  - exists None. split; [|done]. destruct He as [|x Hx Hal]; [done|]. destruct x as [|y x]; [done|].
    cbn [app]. destruct (is_unit 46 && is_b y) eqn:Eu; [by vm_compute in Eu|].
    by rewrite (size_ext_match (46 :: y :: x) ltac:(by apply ext_some)).
  - exists (Some (Z.lor u 32)). split; [|done]. cbn [app]. rewrite Hu, Hb. cbn [andb]. by rewrite (size_ext_match e He).
Qed.

(** ** Lemmas on the loops *)

(** io.Writer: a write takes at most what it is given, and all of it unless it
    fails. *)
Fixpoint writes_ok (size sent : Z) (writes : list (Z * bool)) : Prop :=
  match writes with
  | [] => True
  | (wrote, err) :: writes =>
      let n := if size - sent <? payloadBlockLen then size - sent else payloadBlockLen in
      0 <= wrote <= n /\ (err = false -> wrote = n) /\ (err = false -> sent + wrote < size -> writes_ok size (sent + wrote) writes)
  end.

Lemma sized_loop_spec size sent writes : 0 <= sent <= size -> writes_ok size sent writes ->
  forall total asked returned, sized_loop size sent writes = (total, asked, returned) ->
  sent <= total <= size /\ Forall (fun n => 0 < n <= payloadBlockLen) asked /\
  (Forall (fun w => w.2 = false) writes -> returned = true -> total = size) /\
  (size - sent <= payloadBlockLen * Z.of_nat (length writes) -> returned = true).
Proof.
  revert sent. induction writes as [|[wrote err] writes IH]; intros sent Hs Hok total asked returned; cbn [sized_loop].
  - destruct (sent <? size) eqn:E; b2p; intros [= <- <- <-]; split_and!; try done; try lia; try (intros; cbn in *; lia); constructor.
  - destruct Hok as (Hw & Hfull & Hrest). cbv zeta in *.
    set (n := if size - sent <? payloadBlockLen then size - sent else payloadBlockLen) in *.
    destruct (sent <? size) eqn:E; b2p.
    2:{ intros [= <- <- <-]. split_and!; try done; try lia. }
    assert (Hn : 0 < n <= payloadBlockLen /\ n <= size - sent) by (unfold n, payloadBlockLen; split_ifs; lia).
    destruct err.
    { intros [= <- <- <-]. split_and!; [lia|lia|apply Forall_singleton; lia| |done].
      intros Hall _. by apply Forall_cons_1 in Hall as [? _]. }
    rewrite (Hfull eq_refl) in *.
    destruct (sized_loop size (sent + n) writes) as [[total' asked'] returned'] eqn:El. intros [= <- <- <-].
    destruct (Z.eq_dec (sent + n) size) as [He|Hne].
    + assert (Hend : sized_loop size (sent + n) writes = (sent + n, [], true)).
      { destruct writes as [|[? ?] ?]; cbn [sized_loop]; by rewrite (proj2 (Z.ltb_ge _ _)) by lia. }
      rewrite Hend in El. injection El as <- <- <-. split_and!; [lia|lia|apply Forall_singleton; lia|done|done].
    + destruct (IH (sent + n) ltac:(lia) (Hrest eq_refl ltac:(lia)) _ _ _ El) as ([H1 H2] & H3 & H4 & H5).
      split_and!; [lia|lia|apply Forall_cons_2; [lia|done]|intros Hall; apply H4; by apply Forall_cons_1 in Hall as [_ ?]|].
      intros Hlen. apply H5. cbn [length] in Hlen.
      assert (n = payloadBlockLen) by (unfold n in *; destruct (size - sent <? payloadBlockLen) eqn:?; b2p; lia). lia.
Qed.

Lemma io_Copy_spec reg id reads n :
  live_store reg id n = reg -> io_Copy reg id n reads = (live_store reg id (fold_left Z.add reads n), fold_left Z.add reads n).
Proof.
  revert reg n. induction reads as [|c reads IH]; intros reg n H; cbn; [by rewrite H|].
  rewrite IH by apply live_store_store. by rewrite live_store_store.
Qed.

Lemma io_Copy_begin r test ref peer now reg id reads : live_begin r test ref peer now = (reg, id) ->
  io_Copy reg id 0 reads = (live_store reg id (fold_left Z.add reads 0), fold_left Z.add reads 0).
Proof. intros H. by apply io_Copy_spec, (live_begin_store _ _ _ _ _ _ _ H). Qed.

(** ** Admission *)

(** The handlers in flight and the slots: any interleaving of the starts and
    the ends of transfers. *)
Inductive slot_step : HTTPHandler * Z -> HTTPHandler * Z -> Prop :=
| slot_acquire h h' n ok : acquire h = (h', ok) -> slot_step (h, n) (h', if ok then n + 1 else n)
| slot_release h n : 0 < n -> slot_step (h, n) (release h, n - 1).

Inductive slot_run (c : HTTPConfig) : HTTPHandler * Z -> Prop :=
| slot_init : slot_run c (NewHTTPHandler c, 0)
| slot_more st st' : slot_run c st -> slot_step st st' -> slot_run c st'.

Record slots_ok (c : HTTPConfig) (h : HTTPHandler) (n : Z) : Prop := {
  so_cfg : hh_cfg h = c;
  so_n : 0 <= n;
  so_sem : hh_sem h = if 0 <? hc_MaxConcurrent c then Some n else None;
  so_limit : 0 < hc_MaxConcurrent c -> n <= hc_MaxConcurrent c;
  so_active : hh_active h = i64 n
}.

Lemma i64_add_l x y : i64 (i64 x + y) = i64 (x + y).
Proof.
  unfold i64. f_equal. rewrite <- (Zplus_mod_idemp_l (x + y) (2 ^ 63)), <- (Zplus_mod_idemp_l (_ + y) (2 ^ 63)).
  f_equal. f_equal. replace ((x + 2 ^ 63) mod 2 ^ 64 - 2 ^ 63 + y) with ((x + 2 ^ 63) mod 2 ^ 64 + (y - 2 ^ 63)) by lia.
  rewrite Zplus_mod_idemp_l. f_equal. lia.
Qed.

Lemma slots_ok_step c h n h' n' : slots_ok c h n -> slot_step (h, n) (h', n') -> slots_ok c h' n'.
Proof.
  intros [Hc Hn Hsem Hlim Ha] Hs. inversion Hs as [? ? ? ok Hacq|? ? Hpos]; subst.
  - unfold acquire in Hacq. rewrite Hsem in Hacq.
    destruct (0 <? hc_MaxConcurrent (hh_cfg h)) eqn:E; b2p.
    + destruct (n <? hc_MaxConcurrent (hh_cfg h)) eqn:E2; b2p; injection Hacq as <- <-; split; cbn; try done; try lia.
      * by rewrite (proj2 (Z.ltb_lt _ _)).
      * by rewrite Ha, i64_add_l.
      * by rewrite Hsem, (proj2 (Z.ltb_lt _ _)).
    + injection Hacq as <- <-. split; cbn; try done; try lia.
      * by rewrite (proj2 (Z.ltb_ge _ _)).
      * by rewrite Ha, i64_add_l.
  - split; cbn; try done; try lia.
    + rewrite Hsem. by destruct (0 <? _).
    + rewrite Ha. unfold Z.sub. by rewrite i64_add_l.
Qed.

Lemma acquire_refuses c h n : slots_ok c h n ->
  ((acquire h).2 = false <-> 0 < hc_MaxConcurrent c /\ n = hc_MaxConcurrent c).
Proof.
  intros [Hc Hn Hsem Hlim Ha]. unfold acquire. rewrite Hsem, Hc.
  destruct (0 <? hc_MaxConcurrent c) eqn:E; b2p; cbn [snd]; [|split; [done|lia]].
  specialize (Hlim E). destruct (n <? hc_MaxConcurrent c) eqn:E2; b2p; cbn [snd]; (split; [intros ?; split; [done|lia]|]); [lia|done].
Qed.

(** A transfer takes one slot and gives it back. *)
Lemma acquire_release h h' : is_i64 (hh_active h) -> acquire h = (h', true) ->
  forall h2, hh_sem h2 = hh_sem h' -> hh_active h2 = hh_active h' ->
  hh_sem (release h2) = hh_sem h /\ hh_active (release h2) = hh_active h.
Proof.
  intros Ha H h2 Hs2 Ha2. unfold release. cbn. rewrite Hs2, Ha2. unfold acquire in H.
  assert (Hi : i64 (i64 (hh_active h + 1) - 1) = hh_active h).
  { unfold Z.sub. rewrite i64_add_l. replace (hh_active h + 1 + - (1)) with (hh_active h) by lia. by apply i64_id. }
  destruct (hh_sem h) as [n|]; [destruct (n <? _); [|discriminate]|]; injection H as <-; cbn; (split; [|exact Hi]); [f_equal; lia|done].
Qed.

Lemma transfer_slots h r tx h' resp : is_i64 (hh_active h) -> ServeHTTP h r tx = (h', resp) ->
  hh_sem h' = hh_sem h /\ hh_active h' = hh_active h /\ hh_cfg h' = hh_cfg h.
Proof.
  intros Ha. unfold ServeHTTP. destruct (negb _); [by intros [= <- <-]|].
  assert (Hacq : forall h1 ok, acquire h = (h1, ok) -> hh_cfg h1 = hh_cfg h /\
      (ok = false -> hh_sem h1 = hh_sem h /\ hh_active h1 = hh_active h)).
  { unfold acquire. intros h1 ok. destruct (hh_sem h) as [n|] eqn:Es; [destruct (n <? _)|]; intros [= <- <-]; cbn; by rewrite ?Es. }
  assert (Hend : forall h1 h2, acquire h = (h1, true) -> hh_sem h2 = hh_sem h1 -> hh_active h2 = hh_active h1 -> hh_cfg h2 = hh_cfg h1 ->
      hh_sem (release h2) = hh_sem h /\ hh_active (release h2) = hh_active h /\ hh_cfg (release h2) = hh_cfg h).
  { intros h1 h2 H1 Hs Hac Hc. destruct (acquire_release h h1 Ha H1 h2 Hs Hac). destruct (Hacq h1 true H1). split_and!; [done|done|].
    cbn. congruence. }
  destruct (acquire h) as [h1 ok] eqn:E1. destruct (Hacq h1 ok eq_refl) as [Hcfg Hrej].
  assert (Hdown : download h r tx = (h', resp) -> hh_sem h' = hh_sem h /\ hh_active h' = hh_active h /\ hh_cfg h' = hh_cfg h).
  { unfold download, downloadTimed, downloadSized. rewrite E1.
    destruct (parseDownloadRequest r) as [| |req]; [by intros [= <- <-]..|].
    destruct (0 <? dr_seconds req); (destruct (_ && _); [by intros [= <- <-]|]); (destruct ok; cbn [negb]; [|intros [= <- <-]; by destruct (Hrej eq_refl)]);
    (destruct (isHead _); [intros [= <- <-]; by apply (Hend h1)|]);
    destruct (live_begin _ _ _ _ _) as [reg id];
    [destruct (timed_loop _ _ _) as [sent complete]|destruct (sized_loop _ _ _) as [[sent asked] ret]];
    intros [= <- <-]; by apply (Hend h1). }
  assert (Hup : upload h r tx = (h', resp) -> hh_sem h' = hh_sem h /\ hh_active h' = hh_active h /\ hh_cfg h' = hh_cfg h).
  { unfold upload. rewrite E1. destruct ok; cbn [negb]; [|intros [= <- <-]; by destruct (Hrej eq_refl)].
    destruct (live_begin _ _ _ _ _) as [reg id]. destruct (io_Copy _ _ _ _) as [reg1 n]. intros [= <- <-]. by apply (Hend h1). }
  destruct (rq_Method r); auto. by intros [= <- <-].
Qed.

(** ** Theorems *)

(** At no point of any interleaving are more transfers in flight than the
    configured limit; the active count and the semaphore agree with them, and a
    request is turned away only when the limit is reached. *)
Theorem http_capacity c h n :
  slot_run c (h, n) ->
  hh_active h = i64 n /\ 0 <= n /\
  (0 < hc_MaxConcurrent c -> n <= hc_MaxConcurrent c /\ hh_sem h = Some n) /\
  ((acquire h).2 = false <-> 0 < hc_MaxConcurrent c /\ n = hc_MaxConcurrent c).
Proof.
  intros Hr. assert (Hok : slots_ok c h n).
  { remember (h, n) as st eqn:E. revert h n E. induction Hr as [|[h0 n0] st' Hr IH Hs]; intros h n E; subst.
    - injection E as <- <-. unfold NewHTTPHandler. split; cbn; try done; lia.
    - by eapply slots_ok_step; [apply IH|]. }
  pose proof (acquire_refuses c h n Hok) as Href. destruct Hok as [Hc Hn Hsem Hlim Ha]. split_and!; [done|done| |done].
  intros Hp. split; [by apply Hlim|]. by rewrite Hsem, (proj2 (Z.ltb_lt _ _)).
Qed.

(** A request gives back what it takes: whatever its method, its path and its
    outcome, the semaphore and the active count are those before it. *)
Theorem ServeHTTP_balanced h r tx h' resp :
  is_i64 (hh_active h) -> ServeHTTP h r tx = (h', resp) -> hh_sem h' = hh_sem h /\ hh_active h' = hh_active h.
Proof. intros Ha H. by destruct (transfer_slots h r tx h' resp Ha H) as (? & ? & _). Qed.

(** C31: a sized download sends exactly its size: with a writer that follows
    io.Writer's contract it never sends more, asks for blocks of at most 1 MiB,
    ends within one write per block, and without a write error has sent every
    byte when it returns. *)
Theorem sized_download_exact size writes total asked returned :
  0 <= size -> writes_ok size 0 writes -> sized_loop size 0 writes = (total, asked, returned) ->
  0 <= total <= size /\ Forall (fun n => 0 < n <= payloadBlockLen) asked /\
  (size <= payloadBlockLen * Z.of_nat (length writes) -> returned = true) /\
  (Forall (fun w => w.2 = false) writes -> returned = true -> total = size).
Proof.
  intros Hs Hok H. destruct (sized_loop_spec size 0 writes ltac:(lia) Hok total asked returned H) as (H1 & H2 & H3 & H4).
  split_and!; [lia|lia|done|intros Hl; apply H4; lia|done].
Qed.

(** The name of a sized download is its size: a decimal count with an
    optional KB, MB or GB (in either case) and an optional extension parses to
    count times unit, whenever that fits 63 bits. *)
Theorem parseSizeName_value n w e f :
  0 <= n -> size_unit w f -> size_ext e -> n * f < 2 ^ 63 -> parseSizeName (FormatUint10 n ++ w ++ e) = Some (n * f).
Proof.
  intros Hn Hw He Hlt.
  assert (Hf : 1 <= f).
  { destruct Hw as [|u b f _ _ <-]; [lia|]. unfold unit_factor. repeat case_match; lia. }
  assert (Hnb : n < 2 ^ 63) by nia.
  destruct (FormatUint10_spec n ltac:(width_lia)) as (H1 & H2 & H3).
  destruct (match_size_name_written (FormatUint10 n) w e f H1 H2 Hw He) as (u & Hm & Hu).
  unfold parseSizeName. rewrite Hm, ParseInt_digits, H3, Hu by (done || lia). f_equal. apply i64_id. width_lia.
Qed.

(** Beyond 63 bits the product wraps and the name is taken for another size:
    /10000000000GB is answered, whatever the cap, with a negative
    Content-Length and no body. *)
Theorem parseSizeName_wraps cap h tx :
  hh_cfg h = mkHTTPConfig 0 cap 0 None -> hh_sem h = None ->
  let r := mkRequest MethodGet (str "/10000000000GB") [] [] in
  (ServeHTTP h r tx).2
  = RStream (Some (-8446744073709551616)) (event r (str "http_download") false 0 (tx_start tx) (tx_event tx)).
Proof.
  intros Hc Hs. cbv zeta. unfold ServeHTTP, peerAllowed. rewrite Hc. cbn [hc_Allow negb rq_Method].
  unfold download. change (parseDownloadRequest _) with (PdSome (mkDownload (-8446744073709551616) 0)). cbn [dr_seconds dr_bytes Z.ltb Z.compare].
  unfold downloadSized. rewrite Hc. cbn [hc_MaxDownloadBytes].
  destruct (0 <? cap) eqn:E; b2p; cbn [andb]; [rewrite (proj2 (Z.ltb_ge _ _)) by lia|];
  unfold acquire; rewrite Hs; cbn [negb isHead rq_Method]; destruct (live_begin _ _ _ _ _); by destruct (tx_writes tx) as [|[? ?] ?].
Qed.

(** ** Witnesses *)
Definition http_cfg_example : HTTPConfig := mkHTTPConfig 1 0 0 None.

Lemma http_capacity_witness :
  exists h, slot_run http_cfg_example (h, 1) /\ hh_active h = 1 /\ (acquire h).2 = false.
Proof.
  assert (Hr : slot_run http_cfg_example ((acquire (NewHTTPHandler http_cfg_example)).1, 1)).
  { apply (slot_more _ (NewHTTPHandler http_cfg_example, 0)); [apply slot_init|].
    by apply (slot_acquire _ _ 0 true). }
  eexists. split; [exact Hr|]. destruct (http_capacity _ _ _ Hr) as (Ha & _ & _ & Hf).
  split; [exact Ha|]. by apply Hf.
Defined.

Lemma sized_download_exact_witness :
  sized_loop 1500000 0 [(1048576, false); (451424, false)] = (1500000, [1048576; 451424], true) /\
  (Forall (fun w : Z * bool => w.2 = false) [(1048576, false); (451424, false)] -> true = true -> 1500000 = 1500000).
Proof.
  split; [reflexivity|].
  apply (sized_download_exact 1500000 [(1048576, false); (451424, false)] 1500000 [1048576; 451424] true); [discriminate| |reflexivity].
  cbn. split_and!; try discriminate; try done.
Defined.

Lemma parseSizeName_value_witness : parseSizeName (str "100MB.bin") = Some 100000000.
Proof.
  apply (parseSizeName_value 100 (str "MB") (str ".bin") 1000000); [discriminate|by apply unit_some|by apply ext_some|reflexivity].
Defined.
