(* ===== verification/HttpConc.v ===== *)
(** * The HTTP handler's goroutines (internal/tr143/http.go, live.go)

    net/http runs ServeHTTP in a goroutine per request; they share the
    semaphore, the counters and the live registry.  A goroutine is at one of
    the program points of [point]; [http_step] has one rule per operation on
    the shared state, so that a run is any interleaving of any requests with
    any writes, reads and readings of the clock, and with snapshots of the
    registry.  The sequential [ServeHTTP] is one of the runs. *)

From stdpp Require Import gmap strings relations.
From S2P Require Import Prelude GoText GoTime GoNet GoUrl Live Http.

(** ** Routing *)

(** What a request asks for once it has passed the checks that touch no
    shared state. *)
Inductive transferKind : Type :=
| KHead (length : option Z)
| KSized (size : Z)
| KTimed (d : Z)
| KUpload.

Definition sized_kind (c : HTTPConfig) (m : method) (size : Z) : httpResp + transferKind :=
  if (0 <? hc_MaxDownloadBytes c) && (hc_MaxDownloadBytes c <? size) then inl (RError 403)
  else inr (if isHead m then KHead (Some size) else KSized size).

Definition timed_kind (c : HTTPConfig) (m : method) (seconds : Z) : httpResp + transferKind :=
  let d := seconds * Second in
  if (0 <? hc_MaxDuration c) && (hc_MaxDuration c <? d) then inl (RError 403)
  else inr (if isHead m then KHead None else KTimed d).

(** Everything before acquire: a response, or the transfer to make. *)
Definition route (h : HTTPHandler) (r : Request) : httpResp + transferKind :=
  if negb (peerAllowed h r) then inl (RError 403)
  else
    match rq_Method r with
    | MethodGet | MethodHead =>
        match parseDownloadRequest r with
        | PdError => inl (RError 400)
        | PdNone => inl (if bool_decide (rq_Path r = str "/") then index else RError 404)
        | PdSome req =>
            if 0 <? dr_seconds req then timed_kind (hh_cfg h) (rq_Method r) (dr_seconds req)
            else sized_kind (hh_cfg h) (rq_Method r) (dr_bytes req)
        end
    | MethodPut | MethodPost => inr KUpload
    | MethodOther => inl (RError 405)
    end.

Definition test_name (k : transferKind) : list Z :=
  match k with
  | KHead _ => []
  | KSized _ => str "http_download"
  | KTimed _ => str "http_download_timed"
  | KUpload => str "http_upload"
  end.

(** ** Program points

    [AtMove]: registered as entry [id], [sent] bytes moved so far; [deadline]
    is that of a timed download.  [AtEnd]: the loop has been left.
    [AtDone]: the counters are updated, the registry is to be told.
    [AtRelease]: the deferred release is left. *)
Inductive point : Type :=
| AtStart (r : Request)
| AtHeld (r : Request) (k : transferKind)
| AtMove (k : transferKind) (id : Z) (deadline : Time) (sent : Z)
| AtEnd (k : transferKind) (id sent : Z)
| AtDone (id sent : Z)
| AtRelease.

(** [hs_begun]: the transfers registered so far; [hs_out], [hs_in]: the bytes
    written to and read from clients.  None of the three is a variable of the
    program. *)
Record hstate := mkHs {
  hs_h : HTTPHandler;
  hs_points : list point;
  hs_begun : Z;
  hs_out : Z;
  hs_in : Z
}.

Definition count_kind (h : HTTPHandler) (k : transferKind) (n : Z) : HTTPHandler :=
  match k with KUpload => set_upload h n | _ => set_download h n end.

(** One block of a sized download. *)
Definition block_len (size sent : Z) : Z :=
  if size - sent <? payloadBlockLen then size - sent else payloadBlockLen.

(** An operation of one goroutine: its next point, or [None] when it
    returns, with the new handler and what happened to the bytes. *)
Inductive go_step : HTTPHandler -> point -> HTTPHandler -> option point -> Z -> Z -> Z -> Prop :=
| go_respond h r resp : route h r = inl resp -> go_step h (AtStart r) h None 0 0 0
| go_refused h h' r k : route h r = inr k -> acquire h = (h', false) -> go_step h (AtStart r) h' None 0 0 0
| go_acquire h h' r k : route h r = inr k -> acquire h = (h', true) -> go_step h (AtStart r) h' (Some (AtHeld r k)) 0 0 0
| go_head h r len : go_step h (AtHeld r (KHead len)) (release h) None 0 0 0
| go_begin h r k reg id start now :
    (forall len, k <> KHead len) ->
    live_begin (hh_live h) (test_name k) (rq_ref r) (rq_RemoteAddr r) now = (reg, id) ->
    go_step h (AtHeld r k) (set_live h reg)
      (Some (AtMove k id (match k with KTimed d => time_Add start d | _ => zeroTime end) 0)) 1 0 0
| go_write h size id dl sent wrote (err : bool) :
    sent < size -> 0 <= wrote <= block_len size sent ->
    go_step h (AtMove (KSized size) id dl sent) (set_live h (live_store (hh_live h) id (sent + wrote)))
      (Some (if err then AtEnd (KSized size) id (sent + wrote) else AtMove (KSized size) id dl (sent + wrote))) 0 wrote 0
| go_sized_end h size id dl sent :
    size <= sent -> go_step h (AtMove (KSized size) id dl sent) h (Some (AtEnd (KSized size) id sent)) 0 0 0
| go_timed_write h d id dl sent now wrote (err : bool) :
    time_Before now dl = true -> 0 <= wrote <= payloadBlockLen ->
    go_step h (AtMove (KTimed d) id dl sent) (set_live h (live_store (hh_live h) id (sent + wrote)))
      (Some (if err then AtEnd (KTimed d) id (sent + wrote) else AtMove (KTimed d) id dl (sent + wrote))) 0 wrote 0
| go_timed_end h d id dl sent now :
    time_Before now dl = false -> go_step h (AtMove (KTimed d) id dl sent) h (Some (AtEnd (KTimed d) id sent)) 0 0 0
| go_read h id dl sent n :
    0 <= n -> go_step h (AtMove KUpload id dl sent) (set_live h (live_store (hh_live h) id (sent + n)))
      (Some (AtMove KUpload id dl (sent + n))) 0 0 n
| go_read_end h id dl sent : go_step h (AtMove KUpload id dl sent) h (Some (AtEnd KUpload id sent)) 0 0 0
| go_count h k id sent : go_step h (AtEnd k id sent) (count_kind h k sent) (Some (AtDone id sent)) 0 0 0
| go_done h id sent now : go_step h (AtDone id sent) (set_live h (live_done (hh_live h) id now)) (Some AtRelease) 0 0 0
| go_release h : go_step h AtRelease (release h) None 0 0 0.

Inductive http_step : hstate -> hstate -> Prop :=
| http_arrive h ps b o i r : http_step (mkHs h ps b o i) (mkHs h (ps ++ [AtStart r]) b o i)
| http_go h h' l1 l2 p p' b o i db dout din :
    go_step h p h' p' db dout din ->
    http_step (mkHs h (l1 ++ p :: l2) b o i) (mkHs h' (l1 ++ option_list p' ++ l2) (b + db) (o + dout) (i + din))
| http_snapshot h ps b o i clk :
    http_step (mkHs h ps b o i) (mkHs (set_live h (snapshot (hh_live h) clk).1) ps b o i).

Definition http_init (c : HTTPConfig) : hstate := mkHs (NewHTTPHandler c) [] 0 0 0.
Definition http_reachable (c : HTTPConfig) (st : hstate) : Prop := rtc http_step (http_init c) st.

(** ** What the goroutines hold *)
Definition holds_slot (p : point) : Z := match p with AtStart _ => 0 | _ => 1 end.

(** The registry entry of a goroutine, with the bytes it has moved. *)
Definition entry_of (p : point) : option (Z * Z) :=
  match p with
  | AtMove _ id _ sent => Some (id, sent)
  | AtEnd _ id sent => Some (id, sent)
  | AtDone id sent => Some (id, sent)
  | _ => None
  end.

(** The bytes moved and not yet in the counters. *)
Definition pending (up : bool) (p : point) : Z :=
  match p with
  | AtMove k _ _ sent | AtEnd k _ sent => match k with KUpload => if up then sent else 0 | _ => if up then 0 else sent end
  | _ => 0
  end.

Definition entries (ps : list point) : list (Z * Z) := omap entry_of ps.

Definition opt_sum {A} (f : A -> Z) (o : option A) : Z := match o with Some x => f x | None => 0 end.

(** ** The open entries of a registry *)
Definition open_entry (r : liveRegistry) (id : Z) : option Z :=
  match lr_live r !! id with
  | Some e => if le_done e then None else Some (le_bytes e)
  | None => None
  end.

Lemma open_begin r test ref peer now reg id id' :
  live_begin r test ref peer now = (reg, id) ->
  open_entry reg id' = if decide (id' = id) then Some 0 else open_entry r id'.
Proof.
  unfold live_begin. intros [= <- <-]. unfold open_entry. cbn. case_decide as E.
  - subst. by rewrite lookup_insert_eq.
  - by rewrite lookup_insert_ne by congruence.
Qed.

Lemma open_store r id n id' :
  open_entry (live_store r id n) id' = if decide (id' = id) then (fun _ => n) <$> open_entry r id else open_entry r id'.
Proof.
  unfold open_entry, live_store. cbn. case_decide as E.
  - subst. rewrite lookup_alter_eq. by destruct (lr_live r !! id) as [[? ? ? ? ? [] ?]|].
  - by rewrite lookup_alter_ne by congruence.
Qed.

Lemma open_done r id now id' :
  open_entry (live_done r id now) id' = if decide (id' = id) then None else open_entry r id'.
Proof.
  unfold open_entry, live_done. cbn. case_decide as E.
  - subst. rewrite lookup_alter_eq. by destruct (lr_live r !! id).
  - by rewrite lookup_alter_ne by congruence.
Qed.

Lemma open_snapshot r clk id : open_entry (snapshot r clk).1 id = open_entry r id.
Proof.
  unfold open_entry. destruct (lr_live (snapshot r clk).1 !! id) as [e|] eqn:E.
  - apply snapshot_lookup in E as [-> _]. done.
  - destruct (lr_live r !! id) as [e|] eqn:E'; [|done]. destruct (le_done e) eqn:Ed; [done|].
    assert (lr_live (snapshot r clk).1 !! id = Some e); [|congruence].
    apply snapshot_lookup. split; [done|]. unfold expired. by rewrite Ed.
Qed.

(** ** The registry and the goroutines agree *)
Record reg_inv (r : liveRegistry) (b : Z) (es : list (Z * Z)) : Prop := {
  ri_seq : lr_seq r = b;
  ri_nonneg : 0 <= b;
  ri_ids : forall id e, lr_live r !! id = Some e -> 1 <= id <= b;
  ri_nodup : NoDup es.*1;
  ri_open : forall id n, (id, n) ∈ es <-> open_entry r id = Some n
}.

#[export] Instance reg_inv_perm r b : Proper ((≡ₚ) ==> iff) (reg_inv r b).
Proof.
  assert (H : forall es es', es ≡ₚ es' -> reg_inv r b es -> reg_inv r b es').
  { intros es es' Hp [H1 H2 H3 H4 H5]. split; [done|done|done|by rewrite <- Hp|].
    intros id n. by rewrite <- Hp. }
  intros es es' Hp. split; by apply H.
Qed.

Lemma reg_begin r b es test ref peer now reg id :
  reg_inv r b es -> b + 1 < 2 ^ 64 -> live_begin r test ref peer now = (reg, id) ->
  reg_inv reg (b + 1) ((id, 0) :: es).
Proof.
  intros [Hs H0 Hi Hn Ho] Hb Hl.
  assert (Hid : id = b + 1 /\ reg = mkRegistry id (<[id := mkLiveEntry test ref peer now 0 false zeroTime]> (lr_live r))).
  { unfold live_begin in Hl. injection Hl as <- <-. rewrite Hs, u64_id by width_lia. done. }
  destruct Hid as [-> ->].
  assert (Hfresh : open_entry r (b + 1) = None).
  { unfold open_entry. destruct (lr_live r !! (b + 1)) as [e|] eqn:E; [|done]. specialize (Hi _ _ E). lia. }
  split; cbn [lr_seq lr_live]; [done|lia| | |].
  - intros i e [[<- _]|[_ He]]%lookup_insert_Some; [lia|]. specialize (Hi _ _ He). lia.
  - cbn. apply NoDup_cons_2; [|done]. intros ([i n] & Heq & Hin)%list_elem_of_fmap. cbn in Heq. subst i.
    apply Ho in Hin. congruence.
  - intros i n. rewrite (open_begin _ _ _ _ _ _ _ i Hl), elem_of_cons, Ho. case_decide as E.
    + subst i. rewrite Hfresh. split; [intros [[= <-]|?]; done|]. intros [= <-]. by left.
    + split; [intros [[= ? ?]|?]; done|]. by right.
Qed.

Lemma reg_store r b es id m n :
  reg_inv r b ((id, m) :: es) -> reg_inv (live_store r id n) b ((id, n) :: es).
Proof.
  intros [Hs H0 Hi Hn Ho]. cbn in Hn. pose proof (NoDup_cons_1_1 _ _ Hn) as Hni. pose proof (NoDup_cons_1_2 _ _ Hn) as Hnd.
  assert (Hopen : open_entry r id = Some m) by (apply Ho; left).
  split; [done|done| | |].
  - intros i e (e' & He')%alter_dom. by eapply Hi.
  - cbn. by apply NoDup_cons_2.
  - intros i k. rewrite open_store, elem_of_cons. case_decide as E.
    + subst i. rewrite Hopen. cbn. split; [|intros [= <-]; by left]. intros [[= <-]|Hin]; [done|].
      exfalso. apply Hni, list_elem_of_fmap. by exists (id, k).
    + rewrite <- Ho, elem_of_cons. split; (intros [[= ? ?]|?]; [done|by right]).
Qed.

Lemma reg_done r b es id m now :
  reg_inv r b ((id, m) :: es) -> reg_inv (live_done r id now) b es.
Proof.
  intros [Hs H0 Hi Hn Ho]. cbn in Hn. pose proof (NoDup_cons_1_1 _ _ Hn) as Hni. pose proof (NoDup_cons_1_2 _ _ Hn) as Hnd.
  split; [done|done| |done|].
  - intros i e (e' & He')%alter_dom. by eapply Hi.
  - intros i k. rewrite open_done. case_decide as E.
    + subst i. split; [|done]. intros Hin. exfalso. apply Hni, list_elem_of_fmap. by exists (id, k).
    + rewrite <- Ho, elem_of_cons. split; [by right|]. by intros [[= ? ?]|?].
Qed.

Lemma reg_snapshot r b es clk : reg_inv r b es -> reg_inv (snapshot r clk).1 b es.
Proof.
  intros [Hs H0 Hi Hn Ho]. split; [done|done| |done|].
  - intros i e [He _]%snapshot_lookup. by eapply Hi.
  - intros i n. by rewrite open_snapshot.
Qed.

Lemma u64_add_r x y : u64 (x + u64 y) = u64 (x + y).
Proof. unfold u64. by rewrite Zplus_mod_idemp_r. Qed.

(** ** The invariant *)
Definition sized_ok (p : point) : Prop :=
  match p with
  | AtMove (KSized size) _ _ sent | AtEnd (KSized size) _ sent => 0 <= sent <= Z.max 0 size
  | _ => True
  end.

Record http_inv (c : HTTPConfig) (st : hstate) : Prop := {
  hi_slots : slots_ok c (hs_h st) (zsum holds_slot (hs_points st));
  hi_sized : Forall sized_ok (hs_points st);
  hi_begun : 0 <= hs_begun st;
  hi_reg : hs_begun st < 2 ^ 64 - 1 -> reg_inv (hh_live (hs_h st)) (hs_begun st) (entries (hs_points st));
  hi_out : hh_bytesSent (hs_h st) = u64 (hs_out st - zsum (pending false) (hs_points st));
  hi_in : hh_bytesReceived (hs_h st) = u64 (hs_in st - zsum (pending true) (hs_points st))
}.

Lemma zsum_split {A} (f : A -> Z) l1 p l2 : zsum f (l1 ++ option_list p ++ l2) = zsum f (l1 ++ l2) + opt_sum f p.
Proof. rewrite !zsum_app. destruct p; cbn; lia. Qed.

Lemma entries_split l1 p l2 : entries (l1 ++ option_list p ++ l2) ≡ₚ option_list (p ≫= entry_of) ++ entries (l1 ++ l2).
Proof.
  unfold entries. rewrite !omap_app. destruct p as [p|]; cbn; [|done].
  destruct (entry_of p); cbn; [|done]. by rewrite Permutation_middle.
Qed.

Lemma slots_frame c h h' n : slots_ok c h n -> hh_cfg h' = hh_cfg h -> hh_sem h' = hh_sem h -> hh_active h' = hh_active h ->
  slots_ok c h' n.
Proof. intros [H1 H2 H3 H4 H5] E1 E2 E3. split; done || congruence. Qed.

Lemma go_slots c h p h' p' db dout din n :
  go_step h p h' p' db dout din -> slots_ok c h n -> holds_slot p <= n ->
  slots_ok c h' (n - holds_slot p + opt_sum holds_slot p').
Proof.
  intros Hg Hs Hn. destruct Hg; cbn [holds_slot opt_sum] in *; rewrite ?Z.add_0_r, ?Z.sub_0_r;
    try (replace (n - 1 + 1) with n by lia); try done;
    try (by apply (slots_frame c h)); try (by destruct k; apply (slots_frame c h));
    try (by destruct err; cbn [holds_slot]; replace (n - 1 + 1) with n by lia; apply (slots_frame c h)).
  - by apply (slots_ok_step c h n h' n Hs), (slot_acquire h h' n false).
  - by apply (slots_ok_step c h n h' (n + 1) Hs), (slot_acquire h h' n true).
  - apply (slots_ok_step c h n); [done|]. by apply slot_release; lia.
  - apply (slots_ok_step c h n); [done|]. by apply slot_release; lia.
Qed.

Lemma go_reg h p h' p' db dout din b es :
  go_step h p h' p' db dout din -> b + db < 2 ^ 64 - 1 ->
  reg_inv (hh_live h) b (option_list (entry_of p) ++ es) ->
  reg_inv (hh_live h') (b + db) (option_list (p' ≫= entry_of) ++ es).
Proof.
  intros Hg Hb. destruct Hg; cbn in *; rewrite ?Z.add_0_r in *; intros Hr;
    try done; try (by destruct k); try (by destruct err; cbn; eapply reg_store).
  all: try (match goal with H : acquire _ = (_, _) |- _ => 
    unfold acquire in H; repeat case_match; injection H as <-; try done end).
  - by eapply reg_begin; [|lia|].
  - by eapply reg_store.
  - by eapply reg_done.
Qed.

Lemma go_sized h p h' p' db dout din : go_step h p h' p' db dout din -> sized_ok p -> match p' with Some p' => sized_ok p' | None => True end.
Proof.
  intros Hg Hp. destruct Hg; cbn in *; try done.
  - destruct k; cbn; try done; lia.
  - unfold block_len, payloadBlockLen in *. destruct err; cbn; case_match; b2p; lia.
  - by destruct err.
Qed.

(** The counters and the bytes in flight, in both directions. *)
Lemma go_bytes h p h' p' db dout din o i :
  go_step h p h' p' db dout din ->
  (hh_bytesSent h = u64 (o - pending false p) -> hh_bytesSent h' = u64 (o + dout - opt_sum (pending false) p')) /\
  (hh_bytesReceived h = u64 (i - pending true p) -> hh_bytesReceived h' = u64 (i + din - opt_sum (pending true) p')).
Proof.
  intros Hg. destruct Hg; cbn [opt_sum] in *;
    try (match goal with H : acquire _ = (_, _) |- _ => unfold acquire in H; repeat case_match; injection H as <- end);
    try (destruct k); try (destruct err); cbn; (split; intros ->); rewrite ?u64_add_l, ?u64_add_r; f_equal; lia.
Qed.

Lemma http_inv_step c st st' : http_inv c st -> http_step st st' -> http_inv c st'.
Proof.
  intros [Hs Hz Hb Hr Ho Hi] Hstep. destruct Hstep as [h ps b o i r|h h' l1 l2 p p' b o i db dout din Hg|h ps b o i clk];
    cbn [hs_h hs_points hs_begun hs_out hs_in] in *.
  - split; cbn [hs_h hs_points hs_begun hs_out hs_in]; rewrite ?zsum_app; cbn [zsum foldr holds_slot pending]; rewrite ?Z.add_0_r; try done.
    + apply Forall_app. split; [done|]. by apply Forall_cons.
    + intros Hlt. unfold entries. rewrite omap_app. cbn. rewrite app_nil_r. by apply Hr.
  - change (p :: l2) with (option_list (Some p) ++ l2) in *. rewrite zsum_split in Hs, Ho, Hi. cbn [opt_sum] in *.
    pose proof (zsum_nonneg holds_slot (l1 ++ l2) ltac:(by intros [])) as Hnn.
    assert (Hdb : 0 <= db) by (destruct Hg; lia).
    split; cbn [hs_h hs_points hs_begun hs_out hs_in]; rewrite ?zsum_split.
    + replace (zsum holds_slot (l1 ++ l2) + opt_sum holds_slot p')
        with (zsum holds_slot (l1 ++ l2) + holds_slot p - holds_slot p + opt_sum holds_slot p') by lia.
      eapply go_slots; [done|done|lia].
    + apply Forall_app in Hz as [Hz1 [Hz2 Hz3]%Forall_app]. apply Forall_app. split; [done|].
      apply Forall_app. split; [|done]. inversion Hz2 as [|? ? Hp _]; subst.
      pose proof (go_sized _ _ _ _ _ _ _ Hg Hp) as Hp'. destruct p'; [by apply Forall_cons|done].
    + lia.
    + intros Hlt. rewrite entries_split. eapply go_reg; [done|lia|].
      specialize (Hr ltac:(lia)). by rewrite entries_split in Hr.
    + destruct (go_bytes _ _ _ _ _ _ _ (o - zsum (pending false) (l1 ++ l2)) 0 Hg) as [H _]. rewrite H; [f_equal; lia|].
      rewrite Ho. f_equal. lia.
    + destruct (go_bytes _ _ _ _ _ _ _ 0 (i - zsum (pending true) (l1 ++ l2)) Hg) as [_ H]. rewrite H; [f_equal; lia|].
      rewrite Hi. f_equal. lia.
  - split; cbn [hs_h hs_points hs_begun hs_out hs_in]; try done.
    + by apply (slots_frame c h).
    + intros Hlt. by apply reg_snapshot, Hr.
Qed.

Lemma http_reachable_inv c st : http_reachable c st -> http_inv c st.
Proof.
  unfold http_reachable. intros Hr. remember (http_init c) as st0 eqn:E. assert (H0 : http_inv c st0).
  { subst. split; cbn; try done; try lia.
    - unfold NewHTTPHandler. split; cbn; try done; lia.
    - intros _. split; [done|done|by intros ? ?|constructor|]. intros id n. split; [by intros ?%elem_of_nil|done]. }
  clear E. induction Hr as [|st1 st2 st3 Hs _ IH]; [exact H0|]. by apply IH, (http_inv_step c st1).
Qed.

(** ** The sequential handler as a run *)
Section Steps.
Context (l1 l2 : list point).

(** A goroutine at [p] (or gone) among the others. *)
Definition hs_at (h : HTTPHandler) (p : option point) (b o i : Z) : hstate := mkHs h (l1 ++ option_list p ++ l2) b o i.

(** A loop that has moved [sent] bytes, its entry up to date; the same when
    it has been left. *)
Definition hs_moving (h : HTTPHandler) (reg : liveRegistry) (k : transferKind) (id : Z) (dl : Time) (sent : Z) : Z -> Z -> Z -> hstate :=
  hs_at (set_live h (live_store reg id sent)) (Some (AtMove k id dl sent)).
Definition hs_ended (h : HTTPHandler) (reg : liveRegistry) (k : transferKind) (id sent : Z) : Z -> Z -> Z -> hstate :=
  hs_at (set_live h (live_store reg id sent)) (Some (AtEnd k id sent)).

Lemma go_once h p h' p' b o i db dout din :
  go_step h p h' p' db dout din -> rtc http_step (hs_at h (Some p) b o i) (hs_at h' p' (b + db) (o + dout) (i + din)).
Proof. intros Hg. apply rtc_once. by apply (http_go h h' l1 l2 p p'). Qed.

Lemma go_quiet h p h' p' b o i : go_step h p h' p' 0 0 0 -> rtc http_step (hs_at h (Some p) b o i) (hs_at h' p' b o i).
Proof. intros Hg. pose proof (go_once h p h' p' b o i 0 0 0 Hg) as H. by rewrite !Z.add_0_r in H. Qed.

Lemma sized_steps h reg size id dl writes : forall sent b o i total asked,
  sized_loop size sent writes = (total, asked, true) -> (sent < size -> writes_ok size sent writes) ->
  rtc http_step (hs_moving h reg (KSized size) id dl sent b o i) (hs_ended h reg (KSized size) id total b (o + total - sent) i).
Proof.
  induction writes as [|[wrote err] writes IH]; intros sent b o i total asked; cbn [sized_loop];
    (destruct (sent <? size) eqn:E; b2p;
     [|intros [= <- <-] _; replace (o + sent - sent) with o by lia; by apply go_quiet, go_sized_end]); [done|].
  intros Hl Hok. destruct (Hok E) as (Hw & Hfull & Hrest).
  etransitivity; [apply (go_once _ _ _ _ b o i _ _ _ (go_write _ size id dl sent wrote err E Hw))|].
  cbn [hh_live set_live]. rewrite live_store_store, !Z.add_0_r. destruct err.
  - injection Hl as <- <-. replace (o + (sent + wrote) - sent) with (o + wrote) by lia. reflexivity.
  - destruct (sized_loop size (sent + wrote) writes) as [[t a] r] eqn:El. injection Hl as <- <- ->.
    replace (o + t - sent) with (o + wrote + t - (sent + wrote)) by lia. eapply IH; [done|]. by apply Hrest.
Qed.

(** The writes of a timed download take at most a block each. *)
Definition timed_writes_ok (writes : list (Time * Z * bool)) : Prop :=
  Forall (fun w => 0 <= w.1.2 <= payloadBlockLen) writes.

Lemma timed_steps h reg d id dl writes : forall sent b o i total complete,
  timed_loop dl sent writes = (total, complete) -> timed_writes_ok writes ->
  rtc http_step (hs_moving h reg (KTimed d) id dl sent b o i) (hs_ended h reg (KTimed d) id total b (o + total - sent) i).
Proof.
  induction writes as [|[[now wrote] err] writes IH]; intros sent b o i total complete; cbn [timed_loop].
  - intros [= <- <-] _. replace (o + sent - sent) with o by lia. apply go_quiet, (go_timed_end _ d id dl sent dl).
    apply time_Before_irrefl.
  - destruct (time_Before now dl) eqn:E.
    2:{ intros [= <- <-] _. replace (o + sent - sent) with o by lia. by apply go_quiet, (go_timed_end _ d id dl sent now). }
    intros Hl Hok. inversion Hok as [|? ? Hw Hok']; subst. cbn in Hw.
    etransitivity; [apply (go_once _ _ _ _ b o i _ _ _ (go_timed_write _ d id dl sent now wrote err E Hw))|].
    cbn [hh_live set_live]. rewrite live_store_store, !Z.add_0_r. destruct err.
    + injection Hl as <- <-. replace (o + (sent + wrote) - sent) with (o + wrote) by lia. reflexivity.
    + replace (o + total - sent) with (o + wrote + total - (sent + wrote)) by lia. by eapply IH.
Qed.

Lemma upload_steps h reg id dl reads : forall sent b o i,
  Forall (Z.le 0) reads ->
  rtc http_step (hs_moving h reg KUpload id dl sent b o i)
    (hs_ended h reg KUpload id (fold_left Z.add reads sent) b o (i + fold_left Z.add reads sent - sent)).
Proof.
  induction reads as [|n reads IH]; intros sent b o i Hok; cbn [fold_left].
  - replace (i + sent - sent) with i by lia. apply go_quiet, go_read_end.
  - inversion Hok as [|? ? Hn Hok']; subst.
    etransitivity; [apply (go_once _ _ _ _ b o i _ _ _ (go_read _ id dl sent n Hn))|].
    cbn [hh_live set_live]. rewrite live_store_store, !Z.add_0_r.
    replace (i + fold_left Z.add reads (sent + n) - sent) with (i + n + fold_left Z.add reads (sent + n) - (sent + n)) by lia.
    by apply IH.
Qed.

(** From the end of the loop to the return. *)
Lemma finish_steps h reg k id sent now b o i :
  rtc http_step (hs_ended h reg k id sent b o i)
    (hs_at (release (count_kind (set_live h (live_done (live_store reg id sent) id now)) k sent)) None b o i).
Proof.
  etransitivity; [apply go_quiet, go_count|]. etransitivity; [apply go_quiet, (go_done _ _ _ now)|].
  replace (set_live (count_kind (set_live h (live_store reg id sent)) k sent) _)
    with (count_kind (set_live h (live_done (live_store reg id sent) id now)) k sent) by (by destruct k).
  apply go_quiet, go_release.
Qed.
End Steps.

(** The inputs of a request's transfer: writes that follow io.Writer's
    contract and, of a sized download, enough of them to end. *)
Definition transfer_ok (h : HTTPHandler) (r : Request) (tx : Transfer) : Prop :=
  match route h r with
  | inr (KSized size) => writes_ok size 0 (tx_writes tx) /\ (sized_loop size 0 (tx_writes tx)).2 = true
  | inr (KTimed d) => timed_writes_ok (tx_timed tx)
  | inr KUpload => Forall (Z.le 0) (tx_reads tx)
  | _ => True
  end.

(** The bytes a response has moved, out of and into the server. *)
Definition resp_out (resp : httpResp) : Z := match resp with RStream _ ev => tv_bytes ev | _ => 0 end.
Definition resp_in (resp : httpResp) : Z := match resp with RUpload ev => tv_bytes ev | _ => 0 end.
Definition resp_begun (resp : httpResp) : Z := match resp with RStream _ _ | RUpload _ => 1 | _ => 0 end.

(** ServeHTTP by its route. *)
Definition serve_route (h : HTTPHandler) (r : Request) (tx : Transfer) : HTTPHandler * httpResp :=
  match route h r with
  | inl resp => (h, resp)
  | inr k =>
      let '(h, ok) := acquire h in
      if negb ok then (h, RError 503)
      else
        let '(reg, id) := live_begin (hh_live h) (test_name k) (rq_ref r) (rq_RemoteAddr r) (tx_begin tx) in
        let ev complete n := event r (test_name k) complete n (tx_start tx) (tx_event tx) in
        let finish n := release (count_kind (set_live h (live_done (live_store reg id n) id (tx_end tx))) k n) in
        match k with
        | KHead len => (release h, RHead len)
        | KSized size => let '(sent, _, _) := sized_loop size 0 (tx_writes tx) in (finish sent, RStream (Some size) (ev (sent =? size) sent))
        | KTimed d => let '(sent, complete) := timed_loop (time_Add (tx_start tx) d) 0 (tx_timed tx) in (finish sent, RStream None (ev complete sent))
        | KUpload => let n := fold_left Z.add (tx_reads tx) 0 in (finish n, RUpload (ev (negb (tx_readErr tx)) n))
        end
  end.

Lemma download_route h r tx : peerAllowed h r = true -> rq_Method r = MethodGet \/ rq_Method r = MethodHead ->
  download h r tx = serve_route h r tx.
Proof.
  intros Hp Hm. unfold download, serve_route, route. rewrite Hp. cbn [negb].
  replace (match rq_Method r with MethodGet | MethodHead => _ | _ => _ end) with
    (match parseDownloadRequest r with
     | PdError => inl (RError 400)
     | PdNone => inl (if bool_decide (rq_Path r = str "/") then index else RError 404)
     | PdSome req =>
         if 0 <? dr_seconds req then timed_kind (hh_cfg h) (rq_Method r) (dr_seconds req)
         else sized_kind (hh_cfg h) (rq_Method r) (dr_bytes req)
     end) by (by destruct Hm as [-> | ->]).
  destruct (parseDownloadRequest r) as [| |req]; [done|by destruct (bool_decide _)|].
  destruct (0 <? dr_seconds req); [unfold downloadTimed, timed_kind|unfold downloadSized, sized_kind];
    (destruct (_ && _); [done|]); destruct (acquire h) as [h1 []]; cbn [negb]; destruct (isHead (rq_Method r)); try done;
    (destruct (live_begin _ _ _ _ _); done).
Qed.

Lemma ServeHTTP_route h r tx : ServeHTTP h r tx = serve_route h r tx.
Proof.
  unfold ServeHTTP. destruct (peerAllowed h r) eqn:Hp; cbn [negb]; [|by unfold serve_route, route; rewrite Hp].
  destruct (rq_Method r) eqn:Em; try (apply download_route; by auto);
    unfold serve_route, route; rewrite Hp, Em; cbn [negb]; try done;
    unfold upload; destruct (acquire h) as [h1 []]; try done; cbn [negb];
    (destruct (live_begin _ _ _ _ _) as [reg id] eqn:El; rewrite (io_Copy_begin _ _ _ _ _ _ _ _ El); done).
Qed.

Lemma ServeHTTP_rtc h r tx h' resp l1 l2 b o i :
  transfer_ok h r tx -> ServeHTTP h r tx = (h', resp) ->
  rtc http_step (mkHs h (l1 ++ AtStart r :: l2) b o i)
    (mkHs h' (l1 ++ l2) (b + resp_begun resp) (o + resp_out resp) (i + resp_in resp)).
Proof.
  rewrite ServeHTTP_route. unfold transfer_ok, serve_route. intros Hok H.
  change (mkHs h (l1 ++ AtStart r :: l2) b o i) with (hs_at l1 l2 h (Some (AtStart r)) b o i).
  change (mkHs h' (l1 ++ l2)) with (hs_at l1 l2 h' None).
  destruct (route h r) as [resp0|k] eqn:Er.
  { injection H as <- <-. assert (Hz : resp_begun resp0 = 0 /\ resp_out resp0 = 0 /\ resp_in resp0 = 0).
    { unfold route, sized_kind, timed_kind in Er. repeat case_match; simplify_eq; done. }
    destruct Hz as (-> & -> & ->). by eapply go_once, go_respond. }
  destruct (acquire h) as [h1 ok] eqn:Ea. destruct ok; cbn [negb] in H.
  2:{ injection H as <- <-. by eapply go_once, go_refused. }
  etransitivity; [by apply go_quiet; eapply go_acquire|].
  destruct (live_begin _ _ _ _ _) as [reg id] eqn:El.
  pose proof (live_begin_store _ _ _ _ _ _ _ El) as Hs0.
  assert (Hb : (forall len, k <> KHead len) ->
    rtc http_step (hs_at l1 l2 h1 (Some (AtHeld r k)) b o i)
      (hs_moving l1 l2 h1 reg k id (match k with KTimed d => time_Add (tx_start tx) d | _ => zeroTime end) 0 (b + 1) o i)).
  { intros Hk. pose proof (go_once l1 l2 _ _ _ _ b o i _ _ _ (go_begin h1 r k reg id (tx_start tx) (tx_begin tx) Hk El)) as Hg.
    unfold hs_moving. rewrite Hs0. by rewrite !Z.add_0_r in Hg. }
  destruct k as [len|size|d|]; cbn [test_name] in *.
  - injection H as <- <-. by eapply go_once, go_head.
  - destruct (sized_loop size 0 (tx_writes tx)) as [[sent asked] ret] eqn:Esz. injection H as <- <-. destruct Hok as [Hw Hret].
    cbn in Hret. subst ret. cbn [resp_begun resp_out resp_in]. rewrite Z.add_0_r.
    etransitivity; [by apply Hb|]. etransitivity; [by eapply sized_steps|].
    rewrite Z.sub_0_r. apply (finish_steps l1 l2 h1 reg (KSized size)).
  - destruct (timed_loop _ 0 (tx_timed tx)) as [sent complete] eqn:Esz. injection H as <- <-.
    cbn [resp_begun resp_out resp_in]. rewrite Z.add_0_r.
    etransitivity; [by apply Hb|]. etransitivity; [by eapply timed_steps|].
    rewrite Z.sub_0_r. apply (finish_steps l1 l2 h1 reg (KTimed d)).
  - injection H as <- <-. cbn [resp_begun resp_out resp_in]. rewrite Z.add_0_r.
    etransitivity; [by apply Hb|]. etransitivity; [by eapply upload_steps|].
    rewrite Z.sub_0_r. apply (finish_steps l1 l2 h1 reg KUpload).
Qed.

(** ** Theorems *)

(** C29: in every interleaving of requests, transfers and snapshots: the
    active count is the number of goroutines that hold a slot, never above the
    limit, and a transfer is refused exactly at the limit; every byte written
    to or read from a client is either in the totals or with a transfer in
    progress (modulo 2^64); the unfinished entries of the registry are exactly
    the transfers in progress, each with the bytes it has moved; no sized
    download has sent more than its size; and when all requests have returned
    no slot is held and no entry is unfinished. *)
Theorem http_conserves c st :
  http_reachable c st ->
  let h := hs_h st in
  let ps := hs_points st in
  let n := zsum holds_slot ps in
  hh_active h = i64 n /\ (0 < hc_MaxConcurrent c -> n <= hc_MaxConcurrent c) /\
  ((acquire h).2 = false <-> 0 < hc_MaxConcurrent c /\ n = hc_MaxConcurrent c) /\
  u64 (hh_bytesSent h + zsum (pending false) ps) = u64 (hs_out st) /\
  u64 (hh_bytesReceived h + zsum (pending true) ps) = u64 (hs_in st) /\
  (hs_begun st < 2 ^ 64 - 1 -> forall id k, open_entry (hh_live h) id = Some k <-> (id, k) ∈ entries ps) /\
  Forall sized_ok ps /\
  (ps = [] -> hh_active h = 0 /\ (hs_begun st < 2 ^ 64 - 1 -> forall id, open_entry (hh_live h) id = None)).
Proof.
  intros Hr. destruct (http_reachable_inv c st Hr) as [Hs Hz Hb Hreg Ho Hi]. cbv zeta.
  pose proof (acquire_refuses _ _ _ Hs) as Href. destruct Hs as [_ _ _ Hlim Ha].
  split_and!; [done|done|done| | | |done|].
  - rewrite Ho, u64_add_l. f_equal. lia.
  - rewrite Hi, u64_add_l. f_equal. lia.
  - intros Hlt id k. symmetry. apply Hreg, Hlt.
  - intros He. split; [by rewrite Ha, He|]. intros Hlt id. destruct (open_entry _ id) as [k|] eqn:E; [|done].
    apply (ri_open _ _ _ (Hreg Hlt)) in E. rewrite He in E. by apply elem_of_nil in E.
Qed.

(** C30: the sequential handler refines the interleaved one: what ServeHTTP
    does for a request, with any outcomes of its writes and reads, is a run of
    its goroutine from arrival to return among any others, which moves the
    bytes the response reports. *)
Theorem ServeHTTP_steps h r tx h' resp l1 l2 b o i :
  transfer_ok h r tx -> ServeHTTP h r tx = (h', resp) ->
  rtc http_step (mkHs h (l1 ++ AtStart r :: l2) b o i)
    (mkHs h' (l1 ++ l2) (b + resp_begun resp) (o + resp_out resp) (i + resp_in resp)).
Proof. apply ServeHTTP_rtc. Qed.

(** ** A download of 1500 bytes among nothing else *)
Definition get_1500 : Request := mkRequest MethodGet (str "/1500") (str "ref=r1") (str "192.0.2.7:5000").
Definition tx_1500 : Transfer := mkTransfer zeroTime zeroTime zeroTime zeroTime [(1500, false)] [] [] false.

Lemma tx_1500_ok : transfer_ok (NewHTTPHandler http_cfg_example) get_1500 tx_1500.
Proof. vm_compute. repeat split; discriminate. Qed.

Lemma http_conserves_witness :
  exists st, http_reachable http_cfg_example st /\ hs_out st = 1500 /\
    u64 (hh_bytesSent (hs_h st) + zsum (pending false) (hs_points st)) = u64 (hs_out st).
Proof.
  destruct (ServeHTTP (NewHTTPHandler http_cfg_example) get_1500 tx_1500) as [h' resp] eqn:E.
  assert (Ho : resp_out resp = 1500) by (vm_compute in E; injection E as <- <-; reflexivity).
  assert (Hr : http_reachable http_cfg_example (mkHs h' ([] ++ []) (0 + resp_begun resp) (0 + resp_out resp) (0 + resp_in resp))).
  { eapply rtc_l; [apply (http_arrive _ _ _ _ _ get_1500)|]. exact (ServeHTTP_rtc _ _ _ _ _ [] [] 0 0 0 tx_1500_ok E). }
  eexists. split; [exact Hr|]. split; [exact Ho|]. apply (http_conserves http_cfg_example _ Hr).
Defined.

Lemma ServeHTTP_steps_witness :
  exists h' resp, ServeHTTP (NewHTTPHandler http_cfg_example) get_1500 tx_1500 = (h', resp) /\
    rtc http_step (mkHs (NewHTTPHandler http_cfg_example) [AtStart get_1500] 0 0 0)
      (mkHs h' [] (0 + resp_begun resp) (0 + resp_out resp) (0 + resp_in resp)).
Proof.
  eexists _, _. split; [reflexivity|].
  exact (ServeHTTP_steps (NewHTTPHandler http_cfg_example) get_1500 tx_1500 _ _ [] [] 0 0 0 tx_1500_ok eq_refl).
Defined.
