(* ===== verification/Echo.v ===== *)
(** * The UDP Echo Plus responder (internal/tr143/echo.go, echo_linux.go, echo_other.go)

    The counters of the responder, the control messages of the kernel, the
    response to one datagram and the loop's treatment of it.  The two
    functions that the build takes from echo_linux.go or from echo_other.go
    are the class [RxPlatform], with a value per file; the responder and its
    theorems are over the class.  The clock readings, the parsed control
    messages and the outcomes of the system calls are inputs. *)

From Stdlib Require Import Sorted.
From stdpp Require Import gmap.
From S2P Require Import Prelude GoTime GoNet.

Definition echoOffRespSN : nat := 4.
Definition echoOffRecvTime : nat := 8.
Definition echoOffReplyTime : nat := 12.
Definition echoOffFailureCount : nat := 16.
Definition echoPlusMinLen : nat := 20.

Record EchoServer := mkEchoServer {
  ec_Allow : option (Addr -> bool);
  ec_epoch : Time;
  ec_received : Z;
  ec_responses : Z;
  ec_failures : Z;
  ec_lastDrops : Z;
  ec_haveKernTS : bool
}.

Record EchoStats := mkEchoStats {
  PacketsReceived : Z;
  Responses : Z;
  Failures : Z
}.

Definition EchoServer_Stats (s : EchoServer) : EchoStats :=
  mkEchoStats (ec_received s) (ec_responses s) (ec_failures s).

(** ** Control messages *)
Definition SOL_SOCKET : Z := 1.
Definition SO_TIMESTAMPNS : Z := 35.
Definition SCM_TIMESTAMPNS : Z := 35.
Definition SO_RXQ_OVFL : Z := 40.
Definition timespecSize : nat := 16.

Record controlMessage := mkControl {
  cm_Level : Z;
  cm_Type : Z;
  cm_Data : list Z
}.

(** The native (little-endian) reading of the bytes of an integer. *)
Definition le_decode (bs : list Z) : Z := be_decode (rev bs).

(** The effect of one message on the timestamp and the drop counter. *)
Definition rx_control (acc : Time * Z) (m : controlMessage) : Time * Z :=
  let '(rxTime, drops) := acc in
  if negb (cm_Level m =? SOL_SOCKET) then (rxTime, drops)
  else if cm_Type m =? SCM_TIMESTAMPNS then
    if (timespecSize <=? length (cm_Data m))%nat
    then (time_Unix (i64 (le_decode (take 8 (cm_Data m)))) (i64 (le_decode (take 8 (drop 8 (cm_Data m))))), drops)
    else (rxTime, drops)
  else if cm_Type m =? SO_RXQ_OVFL then
    if (4 <=? length (cm_Data m))%nat then (rxTime, le_decode (take 4 (cm_Data m))) else (rxTime, drops)
  else (rxTime, drops).

(** [parsed] is the result of unix.ParseSocketControlMessage. *)
Definition parseRxControl_linux (parsed : option (list controlMessage)) : Time * Z * bool :=
  match parsed with
  | None => (zeroTime, 0, false)
  | Some msgs => (fold_left rx_control msgs (zeroTime, 0), true)
  end.

(** Which of the calls on the socket succeed: SyscallConn, the Control around
    the function (which runs only then), and SetsockoptInt per option. *)
Record rawSocket := mkRawSocket {
  rs_syscall : bool;
  rs_control : bool;
  rs_setsockopt : Z -> bool
}.

(** The options that were set, and whether the result is nil. *)
Definition enableRxTimestamps_linux (sock : rawSocket) : list Z * bool :=
  if negb (rs_syscall sock) then ([], false)
  else if negb (rs_control sock) then ([], false)
  else if negb (rs_setsockopt sock SO_TIMESTAMPNS) then ([], false)
  else if negb (rs_setsockopt sock SO_RXQ_OVFL) then ([SO_TIMESTAMPNS], false)
  else ([SO_TIMESTAMPNS; SO_RXQ_OVFL], true).

Definition enableRxTimestamps_other (sock : rawSocket) : list Z * bool := ([], false).

Definition parseRxControl_other (parsed : option (list controlMessage)) : Time * Z * bool := (zeroTime, 0, false).

(** What the responder asks of the platform. *)
Class RxPlatform := {
  enableRxTimestamps : rawSocket -> list Z * bool;
  parseRxControl : option (list controlMessage) -> Time * Z * bool
}.

Definition linux : RxPlatform := {|
  enableRxTimestamps := enableRxTimestamps_linux;
  parseRxControl := parseRxControl_linux
|}.

Definition other : RxPlatform := {|
  enableRxTimestamps := enableRxTimestamps_other;
  parseRxControl := parseRxControl_other
|}.

(** ** Responses *)
Section Responder.
Context {P : RxPlatform}.

Definition NewEchoServer (allow : option (Addr -> bool)) (now : Time) (sock : rawSocket) : EchoServer :=
  mkEchoServer allow (strip_mono now) 0 0 0 0 (enableRxTimestamps sock).2.

Definition stamp (s : EchoServer) (t : Time) : Z := u32 (Microseconds (time_Sub t (ec_epoch s))).

Definition respond (s : EchoServer) (pkt : list Z) (rxTime replyTime : Time) (sendOk : bool)
    : go (EchoServer * list Z) :=
  let plus := (echoPlusMinLen <=? length pkt)%nat in
  pkt ← (if plus then
           let sn := u32 (ec_responses s + 1) in
           pkt ← PutUint32 pkt echoOffRespSN sn;
           pkt ← PutUint32 pkt echoOffRecvTime (stamp s rxTime);
           pkt ← PutUint32 pkt echoOffFailureCount (ec_failures s);
           PutUint32 pkt echoOffReplyTime (stamp s replyTime)
         else Ret pkt);
  if negb sendOk then
    Ret (mkEchoServer (ec_Allow s) (ec_epoch s) (ec_received s) (ec_responses s) (u32 (ec_failures s + 1)) (ec_lastDrops s)
           (ec_haveKernTS s), [])
  else
    Ret (mkEchoServer (ec_Allow s) (ec_epoch s) (ec_received s)
           (if plus then u32 (ec_responses s + 1) else ec_responses s) (ec_failures s) (ec_lastDrops s) (ec_haveKernTS s), pkt).

(** One datagram of the loop.  [oob]: the parsed control messages when there
    were any bytes of them. *)
Record echoIn := mkEchoIn {
  ei_pkt : list Z;
  ei_peer : AddrPort;
  ei_now : Time;
  ei_oob : option (option (list controlMessage));
  ei_reply : Time;
  ei_sendOk : bool
}.

(** The drop accounting. *)
Definition count_drops (s : EchoServer) (drops : Z) : EchoServer :=
  let failures := if ec_lastDrops s <? drops then u32 (ec_failures s + u32 (drops - ec_lastDrops s)) else ec_failures s in
  let last := if negb (drops =? 0) || negb (ec_lastDrops s =? 0) then drops else ec_lastDrops s in
  mkEchoServer (ec_Allow s) (ec_epoch s) (ec_received s) (ec_responses s) failures last (ec_haveKernTS s).

(** The result: the new counters and the datagram sent, if any ([]: none). *)
Definition echo_datagram (s : EchoServer) (i : echoIn) : go (EchoServer * list (list Z)) :=
  let '(s, rxTime) :=
    match ei_oob i with
    | None => (s, ei_now i)
    | Some parsed =>
        let '(t, drops, ok) := parseRxControl parsed in
        if ok then (count_drops s drops, if negb (IsZero t) then t else ei_now i) else (s, ei_now i)
    end in
  let denied := match ec_Allow s with Some allow => negb (allow (Unmap (ap_Addr (ei_peer i)))) | None => false end in
  if denied then Ret (s, [])
  else
    let s := mkEchoServer (ec_Allow s) (ec_epoch s) (u64 (ec_received s + 1)) (ec_responses s) (ec_failures s) (ec_lastDrops s)
               (ec_haveKernTS s) in
    r ← respond s (ei_pkt i) rxTime (ei_reply i) (ei_sendOk i);
    let '(s, pkt) := (r : EchoServer * list Z) in
    Ret (s, if ei_sendOk i then [pkt] else []).

(** The outcome of a read of the loop: a datagram, or an error, the closing of
    the socket or another. *)
Inductive echoRead : Type :=
| EchoMsg (i : echoIn)
| EchoErr (closed : bool).

(** The loop is still reading, or Serve has returned nil or an error. *)
Inductive echoEnd : Type :=
| Serving
| ServeReturned (ok : bool).

Fixpoint echo_serve (s : EchoServer) (reads : list echoRead) : go (EchoServer * list (list Z) * echoEnd) :=
  match reads with
  | [] => Ret (s, [], Serving)
  | EchoErr closed :: _ => Ret (s, [], ServeReturned closed)
  | EchoMsg i :: reads =>
      r ← echo_datagram s i;
      let '(s, outs) := (r : EchoServer * list (list Z)) in
      r ← echo_serve s reads;
      let '(s, outs', e) := (r : EchoServer * list (list Z) * echoEnd) in
      Ret (s, outs ++ outs', e)
  end.

(** ** Lemmas *)
Definition echo_wf (s : EchoServer) : Prop := is_u32 (ec_responses s) /\ is_u32 (ec_failures s).

Lemma Put_Get_fields pkt a b c d :
  (echoPlusMinLen <= length pkt)%nat -> is_u32 a -> is_u32 b -> is_u32 c -> is_u32 d ->
  exists pkt', (pkt ← PutUint32 pkt echoOffRespSN a; pkt ← PutUint32 pkt echoOffRecvTime b;
                pkt ← PutUint32 pkt echoOffFailureCount c; PutUint32 pkt echoOffReplyTime d) = Ret pkt' /\
    length pkt' = length pkt /\ take 4 pkt' = take 4 pkt /\ drop 20 pkt' = drop 20 pkt /\
    Uint32 pkt' echoOffRespSN = Ret a /\ Uint32 pkt' echoOffRecvTime = Ret b /\
    Uint32 pkt' echoOffReplyTime = Ret d /\ Uint32 pkt' echoOffFailureCount = Ret c.
Proof.
  unfold echoPlusMinLen. intros Hl Ha Hb Hc Hd. do 20 (destruct pkt as [|? pkt]; [cbn in Hl; lia|]).
  eexists. split; [lazy -[be_decode Z.land Z.shiftr]; reflexivity|].
  split_and!; try reflexivity; lazy -[be_decode Z.land Z.shiftr]; by rewrite be4_id.
Qed.

(** What a reply carries. *)
Record echo_reply (s : EchoServer) (req rep : list Z) (rxTime replyTime : Time) : Prop := {
  er_length : length rep = length req;
  er_plain : (length req < echoPlusMinLen)%nat -> rep = req;
  er_kept : take 4 rep = take 4 req /\ drop 20 rep = drop 20 req;
  er_fields : (echoPlusMinLen <= length req)%nat ->
    Uint32 rep echoOffRespSN = Ret (u32 (ec_responses s + 1)) /\
    Uint32 rep echoOffRecvTime = Ret (stamp s rxTime) /\
    Uint32 rep echoOffReplyTime = Ret (stamp s replyTime) /\
    Uint32 rep echoOffFailureCount = Ret (ec_failures s)
}.

Lemma respond_spec s pkt rx rep ok : echo_wf s ->
  exists s' pkt', respond s pkt rx rep ok = Ret (s', if ok then pkt' else []) /\ echo_wf s' /\
    echo_reply s pkt pkt' rx rep /\ ec_epoch s' = ec_epoch s /\ ec_Allow s' = ec_Allow s /\
    ec_responses s' = (if ok && (echoPlusMinLen <=? length pkt)%nat then u32 (ec_responses s + 1) else ec_responses s) /\
    ec_failures s' = (if ok then ec_failures s else u32 (ec_failures s + 1)).
Proof.
  intros [Hr Hf]. unfold respond. cbv zeta.
  assert (Hp : exists pkt', (if (echoPlusMinLen <=? length pkt)%nat then
      pkt ← PutUint32 pkt echoOffRespSN (u32 (ec_responses s + 1)); pkt ← PutUint32 pkt echoOffRecvTime (stamp s rx);
      pkt ← PutUint32 pkt echoOffFailureCount (ec_failures s); PutUint32 pkt echoOffReplyTime (stamp s rep)
      else Ret pkt) = Ret pkt' /\ echo_reply s pkt pkt' rx rep).
  { destruct (echoPlusMinLen <=? length pkt)%nat eqn:E; b2p.
    - destruct (Put_Get_fields pkt (u32 (ec_responses s + 1)) (stamp s rx) (ec_failures s) (stamp s rep) E)
        as (pkt' & H & H1 & H2 & H3 & H4 & H5 & H6 & H7); [apply u32_range|apply u32_range|done|apply u32_range|].
      exists pkt'. split; [exact H|]. split; [done|lia|done|done].
    - exists pkt. split; [done|]. split; [done|done|done|lia]. }
  destruct Hp as (pkt' & Hp & Hrep). rewrite Hp, go_bind_Ret.
  destruct ok; cbn [negb andb]; (eexists _, pkt'; split; [reflexivity|]); (split; [split|done]);
    cbn [ec_responses ec_failures]; auto with diagd.
  by destruct (echoPlusMinLen <=? length pkt)%nat; auto with diagd.
Qed.

(** The Echo Plus datagrams of a list. *)
Definition plus_replies (outs : list (list Z)) : list (list Z) :=
  filter (fun p => (echoPlusMinLen <= length p)%nat) outs.

Lemma count_drops_wf s d : echo_wf s -> echo_wf (count_drops s d).
Proof. intros [Hr Hf]. split; cbn; [done|]. destruct (_ <? _); [apply u32_range|done]. Qed.

Lemma echo_datagram_spec s i : echo_wf s ->
  exists s' outs, echo_datagram s i = Ret (s', outs) /\ echo_wf s' /\
    (plus_replies outs = [] /\ ec_responses s' = ec_responses s \/
     exists p, plus_replies outs = [p] /\ Uint32 p echoOffRespSN = Ret (u32 (ec_responses s + 1)) /\
       ec_responses s' = u32 (ec_responses s + 1)).
Proof.
  intros Hwf. unfold echo_datagram.
  destruct (match ei_oob i with Some _ => _ | None => _ end) as [s1 rx] eqn:E1.
  assert (H1 : echo_wf s1 /\ ec_responses s1 = ec_responses s).
  { destruct (ei_oob i) as [parsed|]; [|injection E1 as <- <-; done].
    destruct (parseRxControl parsed) as [[t drops] ok]. destruct ok; injection E1 as <- <-; [|done].
    split; [by apply count_drops_wf|done]. }
  destruct H1 as [Hwf1 Hresp].
  destruct (match ec_Allow s1 with Some _ => _ | None => false end).
  { exists s1, []. split_and!; [done|done|]. by left. }
  set (s2 := mkEchoServer _ _ _ _ _ _ _).
  destruct (respond_spec s2 (ei_pkt i) rx (ei_reply i) (ei_sendOk i)) as (s3 & pkt' & H & Hwf3 & Hrep & _ & _ & Hr3 & _); [done|].
  rewrite H, go_bind_Ret. eexists _, _. split; [reflexivity|]. split; [done|].
  destruct Hrep as [Hlen Hplain _ Hfields]. rewrite Hr3. cbn [s2 ec_responses].
  destruct (ei_sendOk i); cbn [andb]; [|left; split; done].
  unfold plus_replies. rewrite filter_cons. cbn [filter list_filter].
  destruct (decide (echoPlusMinLen <= length pkt')%nat) as [Hl|Hl].
  - right. exists pkt'. rewrite Hlen in Hl. rewrite (proj2 (Nat.leb_le _ _) Hl), Hresp.
    split_and!; [done| |done]. rewrite <- Hresp. apply (Hfields Hl).
  - left. rewrite Hlen in Hl. rewrite (proj2 (Nat.leb_gt _ _)) by lia. done.
Qed.

Lemma echo_serve_spec s reads : echo_wf s ->
  exists s' outs e, echo_serve s reads = Ret (s', outs, e) /\
    (forall k p, plus_replies outs !! k = Some p -> Uint32 p echoOffRespSN = Ret (u32 (ec_responses s + 1 + Z.of_nat k))) /\
    ec_responses s' = u32 (ec_responses s + Z.of_nat (length (plus_replies outs))).
Proof.
  revert s. induction reads as [|[i|closed] reads IH]; intros s Hwf; cbn [echo_serve].
  - exists s, [], Serving. split_and!; [done|done|]. cbn. rewrite Z.add_0_r, u32_id; [done|apply Hwf].
  - destruct (echo_datagram_spec s i Hwf) as (s1 & outs & H1 & Hwf1 & Hcase). rewrite H1, go_bind_Ret.
    destruct (IH s1 Hwf1) as (s2 & outs2 & e & H2 & Hall & Hcnt). rewrite H2, go_bind_Ret.
    eexists _, _, _. split; [reflexivity|]. unfold plus_replies in *. rewrite (list.filter_app _ outs outs2).
    destruct Hcase as [[-> Hr]|(q & -> & Hq & Hr)]; cbn [app]; rewrite Hr in Hall, Hcnt; [by split|].
    split; [|rewrite Hcnt, u32_add_l; f_equal; cbn [length]; lia].
    intros [|k] p; cbn [lookup list_lookup]; [intros [= <-]; by rewrite Z.add_0_r|].
    intros Hp. apply Hall in Hp. rewrite Hp, <- Z.add_assoc, u32_add_l. do 2 f_equal. lia.
  - eexists _, _, _. split; [reflexivity|]. split; [done|]. cbn. rewrite Z.add_0_r, u32_id; [done|apply Hwf].
Qed.

(** The kernel's cumulative counter is folded in as its increments. *)
Lemma count_drops_run s ds : Sorted Z.le (ec_lastDrops s :: ds) -> Forall is_u32 ds -> 0 <= ec_lastDrops s ->
  let s' := fold_left count_drops ds s in
  ec_lastDrops s' = last ds (ec_lastDrops s) /\
  u32 (ec_failures s') = u32 (ec_failures s + (ec_lastDrops s' - ec_lastDrops s)).
Proof.
  revert s. induction ds as [|d ds IH]; intros s Hs Hu H0; cbv zeta; cbn [fold_left].
  { split; [done|]. f_equal. lia. }
  inversion Hs as [|? ? Hs' Hhd]; subst. inversion Hhd as [|? ? Hle]; subst. inversion Hu as [|? ? Hd Hu']; subst.
  assert (Hlast : ec_lastDrops (count_drops s d) = d).
  { cbn. destruct (d =? 0) eqn:E1, (ec_lastDrops s =? 0) eqn:E2; b2p; cbn; lia. }
  assert (Hf : u32 (ec_failures (count_drops s d)) = u32 (ec_failures s + (d - ec_lastDrops s))).
  { cbn. destruct (_ <? _) eqn:E; b2p; [|f_equal; lia].
    unfold u32. rewrite Z.mod_mod, Zplus_mod_idemp_r by lia. done. }
  destruct (IH (count_drops s d)) as [H1 H2]; [by rewrite Hlast|done|rewrite Hlast; width_lia|].
  split.
  - rewrite H1, Hlast. clear. revert d. induction ds as [|e ds IH]; intros d; [done|]. cbn [last] in *. destruct ds; [done|apply IH].
  - rewrite H2, Hlast. unfold u32 in *. rewrite <- (Zplus_mod_idemp_l (ec_failures (count_drops s d))), Hf, Zplus_mod_idemp_l.
    f_equal. lia.
Qed.

(** ** Theorems *)

(** A reply is its request, of the same length and with the same test
    number and iteration number, except that an Echo Plus request (20 bytes or
    more) has its four response fields filled; a shorter one comes back as it
    is.  Writing them never panics, whatever the datagram. *)
Theorem echo_reply_correct s pkt rx rep :
  echo_wf s -> exists s' pkt', respond s pkt rx rep true = Ret (s', pkt') /\ echo_reply s pkt pkt' rx rep.
Proof.
  intros Hwf. destruct (respond_spec s pkt rx rep true Hwf) as (s' & pkt' & H & _ & Hr & _). by exists s', pkt'.
Qed.

(** C32: on every platform and over any run of the responder, with any
    datagrams, peers, kernel messages, failed sends and read errors, nothing
    panics and the Echo Plus replies that were sent are numbered 1, 2, 3, ...
    (modulo 2^32): a failed or a plain reply takes no number, so a gap on the
    wire is a lost reply; and the exported response counter is their
    number. *)
Theorem echo_numbering allow now sock reads :
  exists s outs e, echo_serve (NewEchoServer allow now sock) reads = Ret (s, outs, e) /\
    (forall k p, plus_replies outs !! k = Some p -> Uint32 p echoOffRespSN = Ret (u32 (1 + Z.of_nat k))) /\
    Responses (EchoServer_Stats s) = u32 (Z.of_nat (length (plus_replies outs))).
Proof. apply (echo_serve_spec (NewEchoServer allow now sock) reads). split; split; done. Qed.

(** Every datagram the kernel dropped is counted once: as its cumulative
    counter grows, the failure count grows by the difference (modulo 2^32). *)
Theorem echo_drops_counted_once s ds :
  ec_lastDrops s = 0 -> is_u32 (ec_failures s) -> Sorted Z.le (0 :: ds) -> Forall is_u32 ds ->
  u32 (ec_failures (fold_left count_drops ds s)) = u32 (ec_failures s + last ds 0).
Proof.
  intros H0 Hf Hs Hu. destruct (count_drops_run s ds) as [H1 H2]; [by rewrite H0|done|lia|].
  rewrite H2, H1, H0. f_equal. lia.
Qed.

End Responder.

(** Where the kernel has no receive timestamps the responder degrades as
    documented: a datagram is answered as one without control messages, with
    the reading of the clock as its receive time, and no socket drop is
    counted. *)
Theorem echo_other_degrades s i :
  echo_datagram (P := other) s i =
  echo_datagram (P := other) s (mkEchoIn (ei_pkt i) (ei_peer i) (ei_now i) None (ei_reply i) (ei_sendOk i)).
Proof. unfold echo_datagram. cbn [ei_oob ei_pkt ei_peer ei_now ei_reply ei_sendOk]. by destruct (ei_oob i). Qed.

(** On Linux the responder holds kernel timestamps to be available exactly
    when both socket options were set. *)
Theorem enableRxTimestamps_ok sock :
  (enableRxTimestamps (RxPlatform := linux) sock).2 = true <->
  (enableRxTimestamps (RxPlatform := linux) sock).1 = [SO_TIMESTAMPNS; SO_RXQ_OVFL].
Proof.
  cbn. unfold enableRxTimestamps_linux. by destruct (rs_syscall sock), (rs_control sock), (rs_setsockopt sock SO_TIMESTAMPNS),
    (rs_setsockopt sock SO_RXQ_OVFL).
Qed.

(** A socket on which every call succeeds. *)
Definition sock_example : rawSocket := mkRawSocket true true (fun _ => true).

Lemma echo_reply_correct_witness :
  exists s' pkt', respond (NewEchoServer (P := linux) None (mkTime 1000000000 (Some 0)) sock_example) (make_bytes 24) (mkTime 1000002000 None) (mkTime 1000003000 (Some 3000)) true = Ret (s', pkt') /\
    echo_reply (NewEchoServer (P := linux) None (mkTime 1000000000 (Some 0)) sock_example) (make_bytes 24) pkt' (mkTime 1000002000 None) (mkTime 1000003000 (Some 3000)).
Proof. apply echo_reply_correct. split; split; done. Defined.

Lemma echo_drops_counted_once_witness :
  u32 (ec_failures (fold_left count_drops [0; 3; 3; 10] (NewEchoServer (P := linux) None zeroTime sock_example))) = 10.
Proof.
  rewrite (echo_drops_counted_once (NewEchoServer (P := linux) None zeroTime sock_example) [0; 3; 3; 10]); [reflexivity|reflexivity|split; done| |].
  - repeat constructor; discriminate.
  - repeat constructor; discriminate.
Defined.
