(* ===== verification/Metrics.v ===== *)
(** * The metrics endpoint (cmd/diagd/ops.go, metrics)

    /metrics to the byte, and the reader of the Prometheus text format: what a
    scraper gets from the response. *)

From stdpp Require Import gmap strings.
From S2P Require Import Prelude GoText GoFloat GoUtf8 GoJson GoQuote Srates Protocol GoTime Sha256 Auth GoNet Server Live Http Echo.

Record opsState := mkOps {
  op_instance : list Z;
  op_version : list Z;
  op_started : Time;
  op_httpH : option HTTPHandler;
  op_echo : option EchoServer;
  op_tr471 : option Server
}.

(** int64(d.Seconds()): whole seconds and the fraction, added as floats. *)
Definition seconds_of (d : Z) : Z :=
  i64 (f64_trunc (f64_add (f64_of_Z (Z.quot d Second)) (f64_div (f64_of_Z (Z.rem d Second)) (f64_of_Z 1000000000)))).

Definition uptime (o : opsState) (now : Time) : Z := seconds_of (time_Sub now (op_started o)).

(** The lines of one Fprintf of metrics: a comment, or a name (with its
    labels) and a value. *)
Definition help_line (name help : string) : list Z := str "# HELP " ++ str name ++ [32] ++ str help.
Definition type_line (name kind : string) : list Z := str "# TYPE " ++ str name ++ [32] ++ str kind.
Definition value_line (name : list Z) (v : Z) : list Z := name ++ [32] ++ FormatInt10 v.

Definition metric (kind name help : string) (v : Z) : list (list Z) :=
  [help_line name help; type_line name kind; value_line (str name) v].
Definition counter (name help : string) (v : Z) : list (list Z) := metric "counter" name help v.
Definition gauge (name help : string) (v : Z) : list (list Z) := metric "gauge" name help v.

(** name{direction="dir"} *)
Definition directed (name dir : string) : list Z := str name ++ str "{direction=" ++ [34] ++ str dir ++ [34] ++ str "}".

Section Metrics.
Context (isPrint : Z -> bool).

Definition build_info (o : opsState) : list Z :=
  str "diagd_build_info{version=" ++ Quote isPrint (op_version o) ++ str ",instance=" ++ Quote isPrint (op_instance o) ++ str "}".

Definition http_metrics (st : HTTPStats) : list (list Z) :=
  counter "diagd_http_downloads_total" "TR-143 download tests served." (st_Downloads st) ++
  counter "diagd_http_uploads_total" "TR-143 upload tests served." (st_Uploads st) ++
  counter "diagd_http_rejects_total" "TR-143 HTTP tests rejected by admission control." (st_Rejects st) ++
  counter "diagd_http_bytes_sent_total" "Test payload bytes sent to clients." (st_BytesSent st) ++
  counter "diagd_http_bytes_received_total" "Test payload bytes received from clients." (st_BytesReceived st) ++
  gauge "diagd_http_active_transfers" "TR-143 HTTP transfers in progress." (st_ActiveTransfers st).

Definition echo_metrics (st : EchoStats) : list (list Z) :=
  counter "diagd_echo_packets_received_total" "UDP echo requests received." (PacketsReceived st) ++
  counter "diagd_echo_responses_total" "UDP Echo Plus responses sent." (Responses st) ++
  counter "diagd_echo_failures_total" "Echo requests dropped by overload (TestRespReplyFailureCount)." (Failures st).

Definition tr471_metrics (st : Stats) : list (list Z) :=
  gauge "diagd_tr471_active_sessions" "TR-471 test sessions in progress." (ActiveSessions st) ++
  [help_line "diagd_tr471_allocated_mbps" "Bandwidth allocated to admitted tests.";
   type_line "diagd_tr471_allocated_mbps" "gauge";
   value_line (directed "diagd_tr471_allocated_mbps" "upstream") (UpstreamMbpsAllocated st);
   value_line (directed "diagd_tr471_allocated_mbps" "downstream") (DownstreamMbpsAllocated st);
   help_line "diagd_tr471_tests_total" "Completed TR-471 tests.";
   type_line "diagd_tr471_tests_total" "counter";
   value_line (directed "diagd_tr471_tests_total" "upstream") (TestsUpstream st);
   value_line (directed "diagd_tr471_tests_total" "downstream") (TestsDownstream st)] ++
  counter "diagd_tr471_setup_accepts_total" "TR-471 setup requests accepted." (SetupAccepts st) ++
  counter "diagd_tr471_setup_rejects_total" "TR-471 setup requests rejected." (SetupRejects st).

Definition metric_lines (o : opsState) (now : Time) : list (list Z) :=
  [help_line "diagd_build_info" "Build information."; type_line "diagd_build_info" "gauge"; value_line (build_info o) 1] ++
  gauge "diagd_uptime_seconds" "Seconds since the instance started." (uptime o now) ++
  match op_httpH o with Some h => http_metrics (HTTPHandler_Stats h) | None => [] end ++
  match op_echo o with Some e => echo_metrics (EchoServer_Stats e) | None => [] end ++
  match op_tr471 o with Some s => tr471_metrics (Server_Stats s) | None => [] end.

(** The body of the response. *)
Definition metrics (o : opsState) (now : Time) : list Z := unlines (metric_lines o now).

End Metrics.

(** ** The values the endpoint means to export

    A series is a name with its labels. *)
Definition series : Type := list Z * list (list Z * list Z).

Definition plain (name : string) : series := (str name, []).
Definition toward (name dir : string) : series := (str name, [(str "direction", str dir)]).

Definition metric_values (o : opsState) (now : Time) : list (series * Z) :=
  [((str "diagd_build_info", [(str "version", op_version o); (str "instance", op_instance o)]), 1);
   (plain "diagd_uptime_seconds", uptime o now)] ++
  match op_httpH o with
  | Some h =>
      [(plain "diagd_http_downloads_total", hh_downloads h); (plain "diagd_http_uploads_total", hh_uploads h);
       (plain "diagd_http_rejects_total", hh_rejects h); (plain "diagd_http_bytes_sent_total", hh_bytesSent h);
       (plain "diagd_http_bytes_received_total", hh_bytesReceived h); (plain "diagd_http_active_transfers", hh_active h)]
  | None => []
  end ++
  match op_echo o with
  | Some e =>
      [(plain "diagd_echo_packets_received_total", ec_received e); (plain "diagd_echo_responses_total", ec_responses e);
       (plain "diagd_echo_failures_total", ec_failures e)]
  | None => []
  end ++
  match op_tr471 o with
  | Some s =>
      [(plain "diagd_tr471_active_sessions", sessions s);
       (toward "diagd_tr471_allocated_mbps" "upstream", usedUS s);
       (toward "diagd_tr471_allocated_mbps" "downstream", usedDS s);
       (toward "diagd_tr471_tests_total" "upstream", testsUpstream s);
       (toward "diagd_tr471_tests_total" "downstream", testsDownstream s);
       (plain "diagd_tr471_setup_accepts_total", setupAccepts s); (plain "diagd_tr471_setup_rejects_total", setupRejects s)]
  | None => []
  end.

(** ** The reader of the Prometheus text format

    A line that starts with # is a comment; any other is a name, labels in
    braces or none, one space and a decimal value.  One malformed line and
    the whole response is refused. *)
Definition name_char (c : Z) : bool :=
  is_digit c || between 65 c 90 || between 97 c 122 || (c =? 95) || (c =? 58).

Fixpoint span_name (s : list Z) : list Z * list Z :=
  match s with
  | c :: s' => if name_char c then let '(n, r) := span_name s' in (c :: n, r) else ([], s)
  | [] => ([], [])
  end.

(** name="value", then a comma or the closing brace. *)
Fixpoint read_labels (fuel : nat) (s : list Z) : option (list (list Z * list Z) * list Z) :=
  match fuel with
  | O => None
  | S fuel =>
      match span_name s with
      | (c :: n, 61 :: 34 :: s) =>
          match read_label s with
          | Some (v, 125 :: s) => Some ([(c :: n, v)], s)
          | Some (v, 44 :: s) =>
              match read_labels fuel s with Some (ls, s) => Some ((c :: n, v) :: ls, s) | None => None end
          | _ => None
          end
      | _ => None
      end
  end.

Definition read_value (se : series) (s : list Z) : option (option (series * Z)) :=
  match s with
  | 32 :: s => match parse_number s with Some n => Some (Some (se, n)) | None => None end
  | _ => None
  end.

Definition parse_line (l : list Z) : option (option (series * Z)) :=
  if bool_decide (head l = Some 35) then Some None
  else
    match span_name l with
    | (c :: n, 123 :: s) =>
        match read_labels (length l) s with Some (ls, s) => read_value (c :: n, ls) s | None => None end
    | (c :: n, s) => read_value (c :: n, []) s
    | ([], _) => None
    end.

Fixpoint parse_lines (ls : list (list Z)) : option (list (series * Z)) :=
  match ls with
  | [] => Some []
  | l :: ls =>
      match parse_line l, parse_lines ls with
      | Some (Some v), Some vs => Some (v :: vs)
      | Some None, Some vs => Some vs
      | _, _ => None
      end
  end.

Definition scrape (body : list Z) : option (list (series * Z)) := parse_lines (lines body).

(** ** Lemmas *)
Definition i65 (v : Z) : Prop := - 2 ^ 64 < v < 2 ^ 64.

Lemma FormatInt10_line v : i65 v -> 10 ∉ FormatInt10 v.
Proof. intros Hv [H|H]%FormatInt10_chars; done. Qed.

Lemma read_value_ok se v : i65 v -> read_value se ([32] ++ FormatInt10 v) = Some (Some (se, v)).
Proof. intros Hv. cbn. by rewrite parse_FormatInt10. Qed.

Definition all_name (s : list Z) : bool := negb (bool_decide (s = [])) && forallb name_char s.

Lemma span_name_app n c rest : forallb name_char n = true -> name_char c = false -> span_name (n ++ c :: rest) = (n, c :: rest).
Proof.
  intros Hn Hc. induction n as [|x n IH]; cbn [app span_name]; [by rewrite Hc|].
  cbn in Hn. apply andb_prop in Hn as [Hx Hn]. by rewrite Hx, IH.
Qed.

Lemma all_name_inv n : all_name n = true -> exists c n', n = c :: n' /\ forallb name_char n = true.
Proof. unfold all_name. destruct n as [|c n]; [done|]. intros H. by exists c, n. Qed.

Lemma name_head n : all_name n = true -> forall t, bool_decide (head (n ++ t) = Some 35) = false.
Proof.
  intros (c & n' & -> & H)%all_name_inv t. apply bool_decide_eq_false. cbn. intros [= ->]. done.
Qed.

Lemma parse_plain n v : all_name n = true -> i65 v -> parse_line (value_line n v) = Some (Some ((n, []), v)).
Proof.
  intros Hn Hv. unfold parse_line, value_line. rewrite name_head by done. cbn [app].
  destruct (all_name_inv n Hn) as (c & n' & E & Hall). rewrite span_name_app by done. rewrite E at 1. rewrite <- E.
  by apply (read_value_ok (n, [])).
Qed.

(** A label list whose values read back. *)
Lemma read_labels_one fuel k b v rest : all_name k = true ->
  read_label b = Some (v, 125 :: rest) -> read_labels (S fuel) (k ++ 61 :: 34 :: b) = Some ([(k, v)], rest).
Proof.
  intros Hk Hb. destruct (all_name_inv k Hk) as (c & k' & -> & Hall). cbn [read_labels]. rewrite span_name_app by done. by rewrite Hb.
Qed.

Lemma read_labels_cons fuel k b v rest : all_name k = true ->
  read_label b = Some (v, 44 :: rest) ->
  read_labels (S fuel) (k ++ 61 :: 34 :: b) =
  match read_labels fuel rest with Some (ls, s) => Some ((k, v) :: ls, s) | None => None end.
Proof.
  intros Hk Hb. destruct (all_name_inv k Hk) as (c & k' & -> & Hall). cbn [read_labels]. rewrite span_name_app by done. by rewrite Hb.
Qed.

Lemma read_labels_bad fuel k b : all_name k = true -> read_label b = None -> read_labels (S fuel) (k ++ 61 :: 34 :: b) = None.
Proof.
  intros Hk Hb. destruct (all_name_inv k Hk) as (c & k' & -> & Hall). cbn [read_labels]. rewrite span_name_app by done. by rewrite Hb.
Qed.

Lemma parse_labelled n t : all_name n = true ->
  parse_line (n ++ 123 :: t) =
  match read_labels (length (n ++ 123 :: t)) t with Some (ls, s) => read_value (n, ls) s | None => None end.
Proof.
  intros Hn. unfold parse_line. rewrite name_head by done.
  destruct (all_name_inv n Hn) as (c & n' & E & Hall). rewrite span_name_app by done. rewrite E at 1. by rewrite <- E.
Qed.

(** [ls] are lines from which a reader gets the samples [vs]; [None]: they
    are refused. *)
Definition exposes (ls : list (list Z)) (r : option (list (series * Z))) : Prop :=
  Forall (fun l => 10 ∉ l) ls /\ parse_lines ls = r.

Definition both {A} (a b : option (list A)) : option (list A) :=
  match a, b with Some x, Some y => Some (x ++ y) | _, _ => None end.

Lemma parse_lines_app ls ls' : parse_lines (ls ++ ls') = both (parse_lines ls) (parse_lines ls').
Proof.
  induction ls as [|l ls IH]; cbn [app parse_lines both]; [by destruct (parse_lines ls')|]. rewrite IH.
  destruct (parse_line l) as [[v|]|]; [| |done]; by destruct (parse_lines ls), (parse_lines ls').
Qed.

Lemma exposes_app ls ls' r r' : exposes ls r -> exposes ls' r' -> exposes (ls ++ ls') (both r r').
Proof. intros [H1 <-] [H2 <-]. split; [by apply Forall_app|apply parse_lines_app]. Qed.

Lemma exposes_nil : exposes [] (Some []).
Proof. split; [constructor|done]. Qed.

Lemma exposes_skip l ls r : exposes [l] (Some []) -> exposes ls r -> exposes (l :: ls) r.
Proof. intros H1 H2. pose proof (exposes_app _ _ _ _ H1 H2) as H. by destruct r. Qed.

Lemma exposes_comment l : 10 ∉ l -> exposes [35 :: l] (Some []).
Proof. intros H. split; [|done]. apply Forall_singleton. by apply not_elem_of_cons. Qed.

Lemma exposes_line l o : 10 ∉ l -> parse_line l = o ->
  exposes [l] (match o with Some (Some v) => Some [v] | Some None => Some [] | None => None end).
Proof. intros H <-. split; [by apply Forall_singleton|]. cbn. by destruct (parse_line l) as [[v|]|]. Qed.

Definition clean (s : string) : bool := forallb (fun c => negb (c =? 10)) (str s).

Lemma clean_spec s : clean s = true -> 10 ∉ str s.
Proof.
  unfold clean. rewrite forallb_forall. intros H Hin. apply list_elem_of_In, H in Hin. done.
Qed.

Lemma exposes_help name help : clean name = true -> clean help = true -> exposes [help_line name help] (Some []).
Proof.
  intros H1%clean_spec H2%clean_spec. apply (exposes_comment (str " HELP " ++ str name ++ [32] ++ str help)).
  rewrite !elem_of_app, elem_of_cons. intros [H|[?|[[?|[]%elem_of_nil]|?]]]; try done. by apply (clean_spec " HELP ") in H.
Qed.

Lemma exposes_type name kind : clean name = true -> clean kind = true -> exposes [type_line name kind] (Some []).
Proof.
  intros H1%clean_spec H2%clean_spec. apply (exposes_comment (str " TYPE " ++ str name ++ [32] ++ str kind)).
  rewrite !elem_of_app, elem_of_cons. intros [H|[?|[[?|[]%elem_of_nil]|?]]]; try done. by apply (clean_spec " TYPE ") in H.
Qed.


Lemma value_line_line n v : 10 ∉ n -> i65 v -> 10 ∉ value_line n v.
Proof.
  intros Hn Hv%FormatInt10_line. unfold value_line. rewrite !elem_of_app, elem_of_cons.
  intros [?|[[?|[]%elem_of_nil]|?]]; done.
Qed.

Lemma name_line n : all_name n = true -> 10 ∉ n.
Proof.
  intros (c & n' & _ & H)%all_name_inv Hin. rewrite forallb_forall in H. apply list_elem_of_In, H in Hin. done.
Qed.

Lemma name_clean name : all_name (str name) = true -> clean name = true.
Proof.
  intros H%name_line. apply forallb_forall. intros c Hc%list_elem_of_In. apply negb_true_iff, Z.eqb_neq. by intros ->.
Qed.

Lemma exposes_metric kind name help v :
  clean kind && all_name (str name) && clean help = true -> i65 v -> exposes (metric kind name help v) (Some [(plain name, v)]).
Proof.
  intros H Hv. apply andb_prop in H as [[H1 H2]%andb_prop H3].
  apply exposes_skip; [by apply exposes_help; [apply name_clean|]|].
  apply exposes_skip; [by apply exposes_type; [apply name_clean|]|].
  apply (exposes_line _ (Some (Some (plain name, v)))); [apply value_line_line; [by apply name_line|done]|by apply parse_plain].
Qed.

(** A label value of letters. *)
Lemma read_label_letters d rest : forallb name_char d = true -> read_label (d ++ 34 :: rest) = Some (d, rest).
Proof.
  intros H. rewrite read_label_plain.
  - cbn. by rewrite app_nil_r.
  - apply Forall_forall. intros c Hc. rewrite forallb_forall in H. apply H in Hc. split_and!; intros ->; done.
Qed.

Lemma parse_directed name dir v : all_name (str name) = true -> all_name (str dir) = true -> i65 v ->
  parse_line (value_line (directed name dir) v) = Some (Some (toward name dir, v)).
Proof.
  intros Hn Hd Hv. unfold value_line, directed. rewrite <- !app_assoc.
  change (str "{direction=") with (123 :: str "direction" ++ [61]). cbn [app]. rewrite parse_labelled by done.
  rewrite length_app. cbn [length]. rewrite Nat.add_succ_r. rewrite <- !app_assoc. cbn [app].
  destruct (all_name_inv _ Hd) as (_ & _ & _ & Hdir).
  rewrite (read_labels_one _ (str "direction") _ (str dir) (32 :: FormatInt10 v)); [by apply (read_value_ok (toward name dir))|done|].
  by rewrite read_label_letters.
Qed.

Lemma exposes_directed name dir v : all_name (str name) && all_name (str dir) = true -> i65 v ->
  exposes [value_line (directed name dir) v] (Some [(toward name dir, v)]).
Proof.
  intros [H1 H2]%andb_prop Hv. apply (exposes_line _ (Some (Some _))); [|by apply parse_directed].
  apply value_line_line; [|done]. unfold directed. apply name_line in H1, H2. rewrite !elem_of_app, !elem_of_cons.
  intros [?|[H|[[?|[]%elem_of_nil]|[?|[[?|[]%elem_of_nil]|H]]]]]; try done.
  - by apply (clean_spec "{direction=") in H.
  - by apply (clean_spec "}") in H.
Qed.

(** The widths of the values exported. *)
Definition http_stats_ok (h : HTTPHandler) : Prop :=
  is_u64 (hh_downloads h) /\ is_u64 (hh_uploads h) /\ is_u64 (hh_rejects h) /\ is_u64 (hh_bytesSent h) /\
  is_u64 (hh_bytesReceived h) /\ is_i64 (hh_active h).
Definition echo_stats_ok (e : EchoServer) : Prop :=
  is_u64 (ec_received e) /\ is_u32 (ec_responses e) /\ is_u32 (ec_failures e).
Definition tr471_stats_ok (s : Server) : Prop :=
  is_i64 (sessions s) /\ is_i64 (usedUS s) /\ is_i64 (usedDS s) /\ is_u64 (testsUpstream s) /\ is_u64 (testsDownstream s) /\
  is_u64 (setupAccepts s) /\ is_u64 (setupRejects s).

Definition opt_ok {A} (P : A -> Prop) (o : option A) : Prop := match o with Some x => P x | None => True end.

Lemma exposes_http h : http_stats_ok h -> exposes (http_metrics (HTTPHandler_Stats h))
  (Some [(plain "diagd_http_downloads_total", hh_downloads h); (plain "diagd_http_uploads_total", hh_uploads h);
   (plain "diagd_http_rejects_total", hh_rejects h); (plain "diagd_http_bytes_sent_total", hh_bytesSent h);
   (plain "diagd_http_bytes_received_total", hh_bytesReceived h); (plain "diagd_http_active_transfers", hh_active h)]).
Proof.
  intros (H1 & H2 & H3 & H4 & H5 & H6). unfold http_metrics, counter, gauge. cbn [HTTPHandler_Stats st_Downloads st_Uploads st_Rejects st_BytesSent st_BytesReceived st_ActiveTransfers].
  repeat (eapply (exposes_app _ _ (Some [_]) (Some _)); [apply exposes_metric; [reflexivity|unfold i65, is_u64, is_i64 in *; lia]|]).
  apply exposes_metric; [reflexivity|]. unfold i65, is_i64 in *. lia.
Qed.

Lemma exposes_echo e : echo_stats_ok e -> exposes (echo_metrics (EchoServer_Stats e))
  (Some [(plain "diagd_echo_packets_received_total", ec_received e); (plain "diagd_echo_responses_total", ec_responses e);
   (plain "diagd_echo_failures_total", ec_failures e)]).
Proof.
  intros (H1 & H2 & H3). unfold echo_metrics, counter. cbn [EchoServer_Stats PacketsReceived Responses Failures].
  repeat (eapply (exposes_app _ _ (Some [_]) (Some _)); [apply exposes_metric; [reflexivity|unfold i65, is_u64, is_u32 in *; lia]|]).
  apply exposes_metric; [reflexivity|]. unfold i65, is_u32 in *. lia.
Qed.

Lemma exposes_tr471 s : tr471_stats_ok s -> exposes (tr471_metrics (Server_Stats s))
  (Some [(plain "diagd_tr471_active_sessions", sessions s);
   (toward "diagd_tr471_allocated_mbps" "upstream", usedUS s);
   (toward "diagd_tr471_allocated_mbps" "downstream", usedDS s);
   (toward "diagd_tr471_tests_total" "upstream", testsUpstream s);
   (toward "diagd_tr471_tests_total" "downstream", testsDownstream s);
   (plain "diagd_tr471_setup_accepts_total", setupAccepts s); (plain "diagd_tr471_setup_rejects_total", setupRejects s)]).
Proof.
  intros (H1 & H2 & H3 & H4 & H5 & H6 & H7). unfold is_u64, is_i64 in *. unfold tr471_metrics, counter, gauge.
  cbn [Server_Stats ActiveSessions UpstreamMbpsAllocated DownstreamMbpsAllocated TestsUpstream TestsDownstream SetupAccepts SetupRejects].
  apply (exposes_app _ _ (Some [_]) (Some _)); [apply exposes_metric; [reflexivity|unfold i65; lia]|].
  apply (exposes_app _ _ (Some [_; _; _; _]) (Some _)).
  - apply exposes_skip; [by apply exposes_help|]. apply exposes_skip; [by apply exposes_type|].
    apply (exposes_app [_] _ (Some [_]) (Some _)); [apply exposes_directed; [reflexivity|unfold i65; lia]|].
    apply (exposes_app [_] _ (Some [_]) (Some _)); [apply exposes_directed; [reflexivity|unfold i65; lia]|].
    apply exposes_skip; [by apply exposes_help|]. apply exposes_skip; [by apply exposes_type|].
    apply (exposes_app [_] _ (Some [_]) (Some _)); (apply exposes_directed; [reflexivity|unfold i65; lia]).
  - apply (exposes_app _ _ (Some [_]) (Some _)); (apply exposes_metric; [reflexivity|unfold i65; lia]).
Qed.

Lemma uptime_range o now : is_i64 (uptime o now).
Proof. apply i64_range. Qed.

Section MetricsTheorem.
Context (isPrint : Z -> bool).

(** The texts a label can carry as %q writes it. *)
Definition labels_ok (o : opsState) : bool := label_ok isPrint (op_version o) && label_ok isPrint (op_instance o).

(** The labels of build_info as the reader sees them. *)
Definition build_labels (version instance rest : list Z) : list Z :=
  let q s := concat (map (quote_chunk isPrint) (chunks s)) in
  str "version" ++ 61 :: 34 :: q version ++ 34 :: 44 :: str "instance" ++ 61 :: 34 :: q instance ++ 34 :: 125 :: rest.

Lemma build_line o v : value_line (build_info isPrint o) v =
  str "diagd_build_info" ++ 123 :: build_labels (op_version o) (op_instance o) (32 :: FormatInt10 v).
Proof. unfold value_line, build_info, Quote, build_labels. rewrite <- !app_assoc. cbn [app]. rewrite <- !app_assoc. reflexivity. Qed.

Lemma read_build fuel version instance rest : bytes_ok version -> bytes_ok instance ->
  read_labels (S (S fuel)) (build_labels version instance rest) =
  if label_ok isPrint version && label_ok isPrint instance
  then Some ([(str "version", version); (str "instance", instance)], rest) else None.
Proof.
  intros Hv Hi. unfold build_labels. cbv zeta.
  match goal with |- context [34 :: 44 :: ?t] => pose proof (read_label_quote isPrint version (44 :: t) Hv) as H1 end.
  pose proof (read_label_quote isPrint instance (125 :: rest) Hi) as H2.
  destruct (label_ok isPrint version); cbn [andb]; [|by apply (read_labels_bad _ (str "version"))].
  rewrite (read_labels_cons _ (str "version") _ _ _ eq_refl H1).
  destruct (label_ok isPrint instance); [by rewrite (read_labels_one _ (str "instance") _ _ _ eq_refl H2)|].
  by rewrite (read_labels_bad _ (str "instance") _ eq_refl H2).
Qed.

Lemma parse_build o : bytes_ok (op_version o) -> bytes_ok (op_instance o) ->
  parse_line (value_line (build_info isPrint o) 1) =
  if labels_ok o then Some (Some ((str "diagd_build_info", [(str "version", op_version o); (str "instance", op_instance o)]), 1)) else None.
Proof.
  intros Hv Hi. rewrite build_line, parse_labelled by done. rewrite length_app. cbn [Nat.add length str map String.list_ascii_of_string].
  rewrite read_build by done. unfold labels_ok. destruct (_ && _); [|done].
  by apply (read_value_ok (str "diagd_build_info", _)).
Qed.

Lemma exposes_build o : bytes_ok (op_version o) -> bytes_ok (op_instance o) ->
  exposes [value_line (build_info isPrint o) 1]
    (if labels_ok o then Some [((str "diagd_build_info", [(str "version", op_version o); (str "instance", op_instance o)]), 1)] else None).
Proof.
  intros Hv Hi.
  assert (Hl : 10 ∉ value_line (build_info isPrint o) 1).
  { apply value_line_line; [|by unfold i65]. unfold build_info. rewrite !elem_of_app.
    intros [E|[E|[E|[E|E]]]]; [by apply (clean_spec "diagd_build_info{version=") in E|by apply (Quote_line isPrint) in E|
      by apply (clean_spec ",instance=") in E|by apply (Quote_line isPrint) in E|by apply (clean_spec "}") in E]. }
  pose proof (exposes_line _ _ Hl (parse_build o Hv Hi)) as E. by destruct (labels_ok o).
Qed.

(** C34: a scraper reads from /metrics exactly the state: the samples of the
    response are, in order, the build information with its two labels, the
    uptime and the counters and gauges of each server that runs, each once,
    under its name and with its value, provided the version and the instance
    name are made of printable characters and newlines; with any other
    character in them %q writes an escape that is not one of the three of the
    format, and the reader, which knows no other, refuses the whole
    response. *)
Theorem metrics_scrape o now :
  bytes_ok (op_version o) -> bytes_ok (op_instance o) ->
  opt_ok http_stats_ok (op_httpH o) -> opt_ok echo_stats_ok (op_echo o) -> opt_ok tr471_stats_ok (op_tr471 o) ->
  scrape (metrics isPrint o now) = if labels_ok o then Some (metric_values o now) else None.
Proof.
  intros Hver Hin Hh He Ht.
  assert (H : exposes (metric_lines isPrint o now) (if labels_ok o then Some (metric_values o now) else None)).
  { unfold metric_lines, metric_values.
    assert (Hif : forall (b : bool) (x : series * Z) xs, (if b then Some (x :: xs) else None) = both (if b then Some [x] else None) (Some xs)) by (by intros []).
    cbn [app]. rewrite Hif. apply (exposes_app [_; _; _]).
    { apply exposes_skip; [by apply exposes_help|]. apply exposes_skip; [by apply exposes_type|]. by apply exposes_build. }
    apply (exposes_app _ _ (Some [_]) (Some _)).
    { apply exposes_metric; [reflexivity|]. pose proof (uptime_range o now). unfold i65. unfold is_i64 in *. lia. }
    apply (exposes_app _ _ (Some _) (Some _)); [destruct (op_httpH o); [by apply exposes_http|apply exposes_nil]|].
    apply (exposes_app _ _ (Some _) (Some _)); [destruct (op_echo o); [by apply exposes_echo|apply exposes_nil]|].
    destruct (op_tr471 o); [by apply exposes_tr471|apply exposes_nil]. }
  destruct H as [Hl Hv]. unfold scrape, metrics. by rewrite lines_unlines.
Qed.
End MetricsTheorem.

(** ** A concrete instance *)
Definition ops_example : opsState :=
  mkOps (str "cpe lab") (str "dev") zeroTime (Some (NewHTTPHandler http_cfg_example)) (Some (NewEchoServer (P := linux) None zeroTime sock_example))
    (Some (NewServer cfg_example)).

Lemma metrics_scrape_witness :
  scrape (metrics (fun _ => true) ops_example zeroTime) = Some (metric_values ops_example zeroTime).
Proof.
  apply (metrics_scrape (fun _ => true) ops_example zeroTime); repeat constructor; discriminate.
Defined.
