(* ===== verification/Ops.v ===== *)
(** * The operational endpoints (cmd/diagd/ops.go)

    /live and /healthz to the byte, and the handler of the three endpoints
    (/metrics is in Metrics).  The clients are the readers of GoJson. *)

From stdpp Require Import gmap strings.
From S2P Require Import Prelude GoText GoFloat GoUtf8 GoJson GoQuote Srates Protocol GoTime Sha256 Auth GoNet GoUrl Server Live Http Echo Metrics.

(** ** Filtering in place

    kept := transfers[:0]; for _, t := range transfers { if ... { kept =
    append(kept, t) } }: [kept] shares the array of [transfers], so the loop
    writes into what it reads.  [arr] is that array, [k] the length of
    [kept]. *)
Fixpoint filter_loop {A} (p : A -> bool) (arr : list A) (i k n : nat) : go (list A * nat) :=
  match n with
  | O => Ret (arr, k)
  | S n =>
      t ← match arr !! i with Some t => Ret t | None => Panic end;
      if p t then filter_loop p (<[k := t]> arr) (S i) (S k) n
      else filter_loop p arr (S i) k n
  end.

Definition filter_in_place {A} (p : A -> bool) (arr : list A) : go (list A) :=
  r ← filter_loop p arr 0 0 (length arr);
  let '(arr, k) := (r : list A * nat) in Ret (take k arr).

(** ** /live *)

(** strings.LastIndex(s, c) for one byte. *)
Fixpoint last_index (c : Z) (s : list Z) (i : nat) (found : option nat) : option nat :=
  match s with
  | [] => found
  | x :: s => last_index c s (S i) (if x =? c then Some i else found)
  end.

(** The text before the last colon, when there is one after the start. *)
Definition host_of (peer : list Z) : list Z :=
  match last_index 58 peer 0 None with
  | Some i => if (0 <? i)%nat then take i peer else peer
  | None => peer
  end.

Definition rq_peer_filter (r : Request) : list Z := Values_Get (Query (rq_RawQuery r)) (str "peer").

(** The transfers reported. *)
Definition live_select (httpH : option HTTPHandler) (clk : Z -> Time * Time) (ref peer : list Z)
    : go (option HTTPHandler * list LiveTransfer) :=
  let '(h, transfers) :=
    match httpH with
    | None => (None, [])
    | Some h => let '(h, out) := HTTPHandler_Live h clk in (Some h, out)
    end in
  transfers ← (if bool_decide (ref = []) then Ret transfers
               else filter_in_place (fun t => bool_decide (lt_Ref t = ref)) transfers);
  transfers ← (if bool_decide (peer = []) then Ret transfers
               else filter_in_place (fun t => bool_decide (host_of (lt_Peer t) = peer)) transfers);
  Ret (h, transfers).

(** The fields of a LiveTransfer under their tags. *)
Definition transfer_json (t : LiveTransfer) : json :=
  JObject [(str "test", JString (lt_Test t)); (str "ref", JString (lt_Ref t)); (str "peer", JString (lt_Peer t));
           (str "bytes", JInt (lt_Bytes t)); (str "elapsed_ms", JInt (lt_ElapsedMS t)); (str "done", JBool (lt_Done t))].

Definition live_body (ts : list LiveTransfer) : list Z := Encode (JMap [(str "transfers", JArray (map transfer_json ts))]).

Definition set_httpH (o : opsState) (h : option HTTPHandler) : opsState :=
  mkOps (op_instance o) (op_version o) (op_started o) h (op_echo o) (op_tr471 o).

Definition liveTransfers (o : opsState) (r : Request) (clk : Z -> Time * Time) : go (opsState * list Z) :=
  x ← live_select (op_httpH o) clk (rq_ref r) (rq_peer_filter r);
  let '(h, ts) := (x : option HTTPHandler * list LiveTransfer) in Ret (set_httpH o h, live_body ts).

(** ** /healthz *)
Definition healthz_map (o : opsState) (now : Time) : list (list Z * json) :=
  [(str "status", JString (str "ok")); (str "instance", JString (op_instance o)); (str "version", JString (op_version o));
   (str "uptime_seconds", JInt (uptime o now))] ++
  match op_httpH o with
  | Some h => [(str "http_active_transfers", JInt (st_ActiveTransfers (HTTPHandler_Stats h)))]
  | None => []
  end ++
  match op_tr471 o with
  | Some s =>
      let st := Server_Stats s in
      [(str "tr471_active_sessions", JInt (ActiveSessions st));
       (str "tr471_allocated_mbps_upstream", JInt (UpstreamMbpsAllocated st));
       (str "tr471_allocated_mbps_downstream", JInt (DownstreamMbpsAllocated st))]
  | None => []
  end.

Definition healthz (o : opsState) (now : Time) : list Z := Encode (JMap (healthz_map o now)).

(** ** The handler

    For a path the mux leaves as it is (one that is not clean is redirected to
    its clean form); GET patterns serve HEAD too, whose body net/http does
    not send. *)
Inductive opsResp : Type :=
| OError (code : Z)
| OBody (contentType body : list Z).

Definition ops_ServeHTTP (isPrint : Z -> bool) (o : opsState) (r : Request) (clk : Z -> Time * Time) (now : Time)
    : go (opsState * opsResp) :=
  let endpoint (g : go (opsState * opsResp)) : go (opsState * opsResp) :=
    match rq_Method r with
    | MethodGet | MethodHead => g
    | _ => Ret (o, OError 405)
    end in
  if bool_decide (rq_Path r = str "/metrics") then
    endpoint (Ret (o, OBody (str "text/plain; version=0.0.4; charset=utf-8") (metrics isPrint o now)))
  else if bool_decide (rq_Path r = str "/healthz") then endpoint (Ret (o, OBody (str "application/json") (healthz o now)))
  else if bool_decide (rq_Path r = str "/live") then
    endpoint (x ← liveTransfers o r clk; let '(o, body) := (x : opsState * list Z) in Ret (o, OBody (str "application/json") body))
  else Ret (o, OError 404).

(** ** The clients *)
Fixpoint field (k : list Z) (fs : list (list Z * json)) : option json :=
  match fs with [] => None | (k', v) :: fs => if bool_decide (k' = k) then Some v else field k fs end.

Definition json_get (k : string) (j : json) : option json := match j with JObject fs => field (str k) fs | _ => None end.

Definition transfer_of_json (j : json) : option LiveTransfer :=
  match json_get "test" j, json_get "ref" j, json_get "peer" j, json_get "bytes" j, json_get "elapsed_ms" j, json_get "done" j with
  | Some (JString t), Some (JString r), Some (JString p), Some (JInt b), Some (JInt e), Some (JBool d) => Some (mkLiveTransfer t r p b e d)
  | _, _, _, _, _, _ => None
  end.

Definition read_live (body : list Z) : option (list LiveTransfer) :=
  match Unmarshal body with
  | Some j => match json_get "transfers" j with Some (JArray l) => mapM transfer_of_json l | _ => None end
  | None => None
  end.

(** ** Lemmas *)
Lemma filter_loop_spec {A} (p : A -> bool) n arr i k : (k <= i)%nat -> (i + n = length arr)%nat ->
  exists arr', filter_loop p arr i k n = Ret (arr', (k + length (filter (fun t => p t = true) (drop i arr)))%nat) /\
    length arr' = length arr /\
    take (k + length (filter (fun t => p t = true) (drop i arr))) arr' = take k arr ++ filter (fun t => p t = true) (drop i arr).
Proof.
  revert arr i k. induction n as [|n IH]; intros arr i k Hk Hn.
  - exists arr. rewrite drop_ge by lia. cbn. by rewrite Nat.add_0_r, app_nil_r.
  - destruct (lookup_lt_is_Some_2 arr i ltac:(lia)) as [t Ht]. cbn [filter_loop]. rewrite Ht. cbn [mbind go_bind].
    rewrite (drop_S arr t i Ht), filter_cons. destruct (p t) eqn:Hp; [rewrite decide_True by done|rewrite decide_False by done].
    + destruct (IH (<[k:=t]> arr) (S i) (S k)) as (arr' & E & Hl & Htk); [lia|rewrite length_insert; lia|].
      rewrite drop_insert_lt in E, Htk by lia. exists arr'. rewrite length_insert in Hl.
      rewrite E. cbn [length]. rewrite !Nat.add_succ_r. split_and!; [done|done|].
      cbn [Nat.add] in Htk. rewrite Htk.
      rewrite (take_S_r _ _ t) by (apply list_lookup_insert_eq; lia).
      rewrite take_insert_ge by lia. by rewrite <- app_assoc.
    + by apply IH; [lia|lia].
Qed.

Lemma filter_in_place_spec {A} (p : A -> bool) (arr : list A) :
  filter_in_place p arr = Ret (filter (fun t => p t = true) arr).
Proof.
  unfold filter_in_place. destruct (filter_loop_spec p (length arr) arr 0 0) as (arr' & E & _ & Ht); [lia|lia|].
  rewrite E. cbn [mbind go_bind]. rewrite drop_0 in *. by rewrite Ht.
Qed.


(** ** Lemmas on the clients *)
Lemma bytes_leb_refl a : bytes_leb a a = true.
Proof. induction a as [|x a IH]; [done|]. cbn. by rewrite Z.eqb_refl. Qed.

Lemma field_insert k kv fs : field k (insert_key kv fs) = field k (kv :: fs).
Proof.
  induction fs as [|f fs IH]; [done|]. cbn [insert_key]. destruct (bytes_leb kv.1 f.1) eqn:E; [done|].
  destruct kv as [k1 v1], f as [k2 v2]. cbn [field fst] in *. rewrite IH. cbn [field].
  destruct (bool_decide (k2 = k)) eqn:E2, (bool_decide (k1 = k)) eqn:E1; try done.
  apply bool_decide_eq_true in E1 as ->, E2 as ->. by rewrite bytes_leb_refl in E.
Qed.

(** Sorting the keys of a map keeps what they are bound to. *)
Lemma json_get_JMap k m : json_get k (JMap m) = field (str k) m.
Proof.
  unfold json_get, JMap. induction m as [|[k' v] m IH]; [done|]. cbn [foldr]. rewrite field_insert. cbn [field]. by rewrite IH.
Qed.

Lemma field_valid k fs : Forall (fun kv => ToValid kv.1 = kv.1) fs ->
  field k (map (fun kv => (ToValid kv.1, valid_json kv.2)) fs) = valid_json <$> field k fs.
Proof.
  induction 1 as [|[k' v] fs Hk _ IH]; [done|]. cbn [map field fst snd] in *. rewrite Hk, IH. by destruct (bool_decide (k' = k)).
Qed.

Lemma insert_key_Forall (Q : list Z * json -> Prop) kv fs : Q kv -> Forall Q fs -> Forall Q (insert_key kv fs).
Proof.
  intros Hkv. induction 1 as [|f fs Hf Hfs IH]; cbn; [by repeat constructor|].
  destruct (bytes_leb kv.1 f.1); by repeat constructor.
Qed.

Lemma sorted_Forall (Q : list Z * json -> Prop) m : Forall Q m -> Forall Q (foldr insert_key [] m).
Proof. induction 1; cbn; [constructor|]. by apply insert_key_Forall. Qed.

(** Keys are ASCII constants. *)
Definition ascii_key (k : list Z) : bool := forallb (fun c => between 0 c 127) k && bool_decide (ToValid k = k).

Definition entry_json_ok (kv : list Z * json) : Prop := ascii_key kv.1 = true /\ json_ok kv.2.

Lemma ascii_key_bytes k : ascii_key k = true -> bytes_ok k /\ ToValid k = k.
Proof.
  unfold ascii_key. intros [H1 H2%bool_decide_eq_true]%andb_prop. split; [|done].
  apply Forall_forall. intros c Hc. rewrite forallb_forall in H1. apply H1 in Hc. unfold between in Hc. b2p. unfold is_u8. lia.
Qed.

(** A client reads each key of a map with its value. *)
Lemma map_reads m : Forall entry_json_ok m ->
  exists j, Unmarshal (Encode (JMap m)) = Some j /\ forall k, json_get k j = valid_json <$> field (str k) m.
Proof.
  intros Hm. exists (valid_json (JMap m)). split.
  - apply Unmarshal_Encode. cbn. apply Forall_json_ok, sorted_Forall. refine (Forall_impl _ _ Hm).
    intros kv [Hk Hv]. split; [by apply ascii_key_bytes|done].
  - intros k. rewrite <- json_get_JMap. cbn. apply field_valid, sorted_Forall. refine (Forall_impl _ _ Hm).
    intros kv [Hk _]. by apply ascii_key_bytes.
Qed.

Definition transfer_text_ok (t : LiveTransfer) : Prop :=
  bytes_ok (lt_Test t) /\ bytes_ok (lt_Ref t) /\ bytes_ok (lt_Peer t) /\ is_i64 (lt_Bytes t) /\ is_i64 (lt_ElapsedMS t).

(** The transfer as a client gets it: bytes that are not UTF-8 replaced. *)
Definition valid_transfer (t : LiveTransfer) : LiveTransfer :=
  mkLiveTransfer (ToValid (lt_Test t)) (ToValid (lt_Ref t)) (ToValid (lt_Peer t)) (lt_Bytes t) (lt_ElapsedMS t) (lt_Done t).

Lemma transfer_reads t : transfer_of_json (valid_json (transfer_json t)) = Some (valid_transfer t).
Proof. reflexivity. Qed.

Lemma live_body_reads ts : Forall transfer_text_ok ts -> read_live (live_body ts) = Some (map valid_transfer ts).
Proof.
  intros Hts. unfold read_live, live_body.
  destruct (map_reads [(str "transfers", JArray (map transfer_json ts))]) as (j & -> & Hj).
  - constructor; [|constructor]. split; [reflexivity|]. cbn. apply Forall_json_ok, Forall_map.
    refine (Forall_impl _ _ Hts). intros t (H1 & H2 & H3 & H4 & H5). unfold is_i64 in *. cbn.
    split_and!; try done; try lia; repeat constructor; unfold is_u8; lia.
  - rewrite Hj. change (mapM transfer_of_json (map valid_json (map transfer_json ts)) = Some (map valid_transfer ts)).
    clear. induction ts as [|t ts IH]; [done|]. cbn [map mapM]. by rewrite transfer_reads, IH.
Qed.

(** The transfers of a snapshot that carry the reference and come from the
    host, in order; filtering in the array that is read loses none. *)
Definition selected (ref peer : list Z) (t : LiveTransfer) : Prop :=
  (ref = [] \/ lt_Ref t = ref) /\ (peer = [] \/ host_of (lt_Peer t) = peer).
#[global] Instance selected_dec ref peer t : Decision (selected ref peer t) := _.

Lemma live_select_spec h clk ref peer :
  live_select (Some h) clk ref peer =
  Ret (Some (set_live h (snapshot (hh_live h) clk).1), filter (selected ref peer) (snapshot (hh_live h) clk).2).
Proof.
  unfold live_select, HTTPHandler_Live. destruct (snapshot (hh_live h) clk) as [reg out]. cbn [fst snd].
  assert (Hstep : forall (b : bool) (P : LiveTransfer -> bool) l,
    (if b then Ret l else filter_in_place P l) = Ret (filter (fun t => b || P t = true) l)).
  { intros [] P l; [|apply filter_in_place_spec]. f_equal. induction l as [|x l IH]; [done|]. rewrite filter_cons_True by done. by rewrite <- IH. }
  rewrite !Hstep. cbn [mbind go_bind]. rewrite Hstep. cbn [mbind go_bind]. f_equal. f_equal.
  rewrite list_filter_filter. apply list_filter_iff. intros t. unfold selected.
  rewrite !orb_true_iff, !bool_decide_eq_true. tauto.
Qed.

Lemma live_select_None clk ref peer : live_select None clk ref peer = Ret (None, []).
Proof. unfold live_select. by destruct (bool_decide (ref = [])), (bool_decide (peer = [])). Qed.

Lemma set_httpH_None o : op_httpH o = None -> set_httpH o None = o.
Proof. destruct o. cbn. by intros ->. Qed.

(** The texts and the count of an entry of the registry. *)
Definition live_entry_ok (e : liveEntry) : Prop :=
  bytes_ok (le_test e) /\ bytes_ok (le_ref e) /\ bytes_ok (le_peer e) /\ is_i64 (le_bytes e).
Definition live_reg_ok (r : liveRegistry) : Prop := forall id e, lr_live r !! id = Some e -> live_entry_ok e.

Lemma time_Sub_range t u : is_i64 (time_Sub t u).
Proof. unfold time_Sub. destruct (mono t), (mono u); apply saturate_range. Qed.

Lemma Milliseconds_range d : is_i64 d -> is_i64 (Milliseconds d).
Proof. unfold is_i64, Milliseconds, Millisecond. intros. Z.to_euclidean_division_equations. lia. Qed.

Lemma snapshot_ok r clk : live_reg_ok r -> Forall transfer_text_ok (snapshot r clk).2.
Proof.
  intros Hr. apply Forall_forall. intros t Ht%list_elem_of_In. apply list_elem_of_fmap in Ht as ([id e] & -> & Hin).
  apply elem_of_map_to_list, map_lookup_filter_Some in Hin as [Hin _]. apply Hr in Hin as (H1 & H2 & H3 & H4).
  split_and!; try done. cbn. apply Milliseconds_range. destruct (le_done e); apply time_Sub_range.
Qed.

(** What a client gets from /live. *)
Lemma live_report o h r clk : op_httpH o = Some h -> live_reg_ok (hh_live h) ->
  exists body, liveTransfers o r clk = Ret (set_httpH o (Some (set_live h (snapshot (hh_live h) clk).1)), body) /\
    read_live body = Some (map valid_transfer (filter (selected (rq_ref r) (rq_peer_filter r)) (snapshot (hh_live h) clk).2)).
Proof.
  intros Ho Hr. unfold liveTransfers. rewrite Ho, live_select_spec. cbn [mbind go_bind]. eexists. split; [reflexivity|].
  apply live_body_reads, Forall_forall. intros t [_ Ht]%list_elem_of_In%list_elem_of_filter.
  pose proof (snapshot_ok _ clk Hr) as Hok. rewrite Forall_forall in Hok. by apply Hok, list_elem_of_In.
Qed.

(** The record of a test that ran. *)
Definition record_of (resp : httpResp) : option testRecord :=
  match resp with RStream _ ev | RUpload ev => Some ev | _ => None end.

(** A finished test in the registry. *)
Definition finished_entry (ev : testRecord) (tx : Transfer) : liveEntry :=
  mkLiveEntry (tv_test ev) (tv_ref ev) (tv_peer ev) (tx_begin tx) (tv_bytes ev) true (tx_end tx).

Lemma begin_done r test ref peer t0 reg id n t1 : live_begin r test ref peer t0 = (reg, id) ->
  live_done (live_store reg id n) id t1 = mkRegistry id (<[id := mkLiveEntry test ref peer t0 n true t1]> (lr_live r)) /\ id = u64 (lr_seq r + 1).
Proof.
  unfold live_begin, live_done, live_store. intros [= <- <-]. cbn. by rewrite !alter_insert_eq.
Qed.

Lemma acquire_live h h' b : acquire h = (h', b) -> hh_live h' = hh_live h.
Proof. unfold acquire. repeat case_match; by intros [= <- _]. Qed.

(** A test that ran is in the registry, finished, under the reference, the
    peer and the byte count of its completion record. *)
Lemma test_registered h r tx h' resp ev : ServeHTTP h r tx = (h', resp) -> record_of resp = Some ev ->
  hh_live h' = mkRegistry (u64 (lr_seq (hh_live h) + 1)) (<[u64 (lr_seq (hh_live h) + 1) := finished_entry ev tx]> (lr_live (hh_live h))) /\
  tv_ref ev = rq_ref r /\ tv_peer ev = rq_RemoteAddr r.
Proof.
  unfold ServeHTTP, download, downloadTimed, downloadSized, upload. intros Hs Hev.
  destruct (negb (peerAllowed h r)); [by injection Hs as <- <-|].
  destruct (acquire h) as [h1 ok] eqn:Ha. apply acquire_live in Ha. rewrite Ha in Hs.
  repeat case_match; simplify_eq; try discriminate Hev; try (by destruct (bool_decide _); discriminate Hev).
  all: cbn in Hev; injection Hev as <-; cbn [hh_live release set_slots set_download set_upload set_live].
  all: match goal with
    | H : live_begin _ _ _ _ _ = (_, _) |- _ =>
        try (match goal with Hc : io_Copy _ _ _ _ = _ |- _ => rewrite (io_Copy_begin _ _ _ _ _ _ _ _ H) in Hc; injection Hc as <- <- end);
        destruct (begin_done _ _ _ _ _ _ _ 0 (tx_end tx) H) as [_ Hid]; rewrite <- Hid;
        split; [by apply (begin_done _ _ _ _ _ _ _ _ _ H)|done]
    end.
Qed.

Lemma ref_written (x : list Z) : bytes_ok x -> Values_Get (Query (written_part (str "ref") x)) (str "ref") = x.
Proof. intros Hx. rewrite Query_written; [reflexivity|by repeat constructor; unfold is_u8|done]. Qed.

Lemma peer_written (x : list Z) : bytes_ok x -> Values_Get (Query (written_part (str "ref") x)) (str "peer") = [].
Proof. intros Hx. rewrite Query_written; [reflexivity|by repeat constructor; unfold is_u8|done]. Qed.

(** ** Theorems *)

(** C33: attribution by reference, from the URL of the test to the JSON of
    /live: a test requested with ref=x ends in the registry with the byte
    count of its completion record, and whatever other tests begin, progress
    and end, and however often the registry is read, a client that asks
    /live?ref=x within 15 seconds of its end reads it with that count and its
    own elapsed time, and reads nothing of any other reference.  x is any
    non-empty text, escaped as a query is. *)
Theorem live_attribution h r tx h' resp ev x ops o h2 q clk :
  registry_ok (hh_live h) -> lr_seq (hh_live h) + begins ops < 2 ^ 64 - 3 ->
  bytes_ok x -> x <> [] ->
  rq_RawQuery r = written_part (str "ref") x -> ServeHTTP h r tx = (h', resp) -> record_of resp = Some ev ->
  Forall (spares (lr_seq (hh_live h) + 1) (tx_end tx)) ops ->
  op_httpH o = Some h2 -> hh_live h2 = live_run (hh_live h') ops -> live_reg_ok (hh_live h2) ->
  rq_RawQuery q = written_part (str "ref") x ->
  time_Sub (clk (lr_seq (hh_live h) + 1)).1 (tx_end tx) <= liveGrace ->
  exists o' body ts, liveTransfers o q clk = Ret (o', body) /\ read_live body = Some ts /\
    In (mkLiveTransfer (ToValid (tv_test ev)) (ToValid x) (ToValid (rq_RemoteAddr r)) (tv_bytes ev)
          (Milliseconds (time_Sub (tx_end tx) (tx_begin tx))) true) ts /\
    Forall (fun t => lt_Ref t = ToValid x) ts.
Proof.
  intros Hok Hn Hx Hne Hr Hs Hev Hsp Ho Hh2 Hreg Hq Hw.
  destruct (test_registered _ _ _ _ _ _ Hs Hev) as (Hlive & Href & Hpeer). destruct Hok as [Hseq Hids].
  assert (Hb : 0 <= begins ops) by (unfold begins; lia).
  rewrite u64_id in Hlive by width_lia. set (id := lr_seq (hh_live h) + 1) in *.
  assert (Hok' : registry_ok (hh_live h')).
  { rewrite Hlive. split; cbn; [lia|]. intros i e. destruct (decide (id = i)) as [<-|Hi]; [lia|].
    rewrite lookup_insert_ne by done. intros Hl. apply Hids in Hl. lia. }
  assert (Hfin : lr_live (hh_live h2) !! id = Some (finished_entry ev tx)).
  { rewrite Hh2. apply live_run_spares; [done| | |done|done]; rewrite Hlive; cbn; [lia|]. apply lookup_insert_eq. }
  destruct (live_report o h2 q clk Ho Hreg) as (body & Hb1 & Hb2).
  assert (Eq : rq_ref q = x /\ rq_peer_filter q = [] /\ rq_ref r = x).
  { unfold rq_ref, rq_peer_filter. rewrite Hq, Hr, peer_written, ref_written by done. done. }
  destruct Eq as (Eq1 & Eq2 & Eq3). rewrite Eq1, Eq2 in Hb2. eexists _, body, _. split; [exact Hb1|]. split; [exact Hb2|]. split.
  - apply in_map_iff. exists (transfer_of (finished_entry ev tx) (clk id).2). split.
    { unfold valid_transfer, transfer_of, finished_entry. cbn. by rewrite Href, Hpeer, Eq3. }
    apply list_elem_of_In, list_elem_of_filter. split; [split; [right; cbn; congruence|by left]|].
    unfold snapshot. cbn [snd]. apply list_elem_of_fmap. exists (id, finished_entry ev tx). split; [done|].
    apply elem_of_map_to_list, map_lookup_filter_Some. split; [done|]. cbn. unfold expired. cbn. apply Z.ltb_ge. exact Hw.
  - apply Forall_map, Forall_forall. intros t Ht%list_elem_of_In. apply list_elem_of_filter in Ht as [[[?|Ht] _] _]; [done|].
    cbn. by rewrite Ht.
Qed.

Lemma healthz_map_ok o now : bytes_ok (op_instance o) -> bytes_ok (op_version o) ->
  opt_ok http_stats_ok (op_httpH o) -> opt_ok tr471_stats_ok (op_tr471 o) -> Forall entry_json_ok (healthz_map o now).
Proof.
  intros Hi Hv Hh Ht. unfold healthz_map.
  assert (Hkey : forall k j, ascii_key (str k) = true -> json_ok j -> entry_json_ok (str k, j)) by done.
  apply Forall_app. split; [|apply Forall_app; split].
  - repeat apply List.Forall_cons; try apply List.Forall_nil; apply Hkey; try reflexivity; try done.
    + repeat constructor; unfold is_u8; lia.
    + cbn. pose proof (uptime_range o now). unfold is_i64 in *. lia.
  - destruct (op_httpH o) as [h|]; [|constructor]. destruct Hh as (_ & _ & _ & _ & _ & Ha).
    repeat constructor; cbn in *; unfold is_i64 in *; lia.
  - destruct (op_tr471 o) as [s|]; [|constructor]. destruct Ht as (Ht1 & Ht2 & Ht3 & _).
    repeat constructor; cbn in *; unfold is_i64 in *; lia.
Qed.

(** C35: a health checker reads the state from /healthz: the JSON object has
    the status "ok", the instance name and the version (bytes that are not
    UTF-8 replaced), the uptime, and exactly for the servers that run the
    transfers in progress, the sessions and the bandwidth allocated in each
    direction. *)
Theorem healthz_reads o now :
  bytes_ok (op_instance o) -> bytes_ok (op_version o) ->
  opt_ok http_stats_ok (op_httpH o) -> opt_ok tr471_stats_ok (op_tr471 o) ->
  exists j, Unmarshal (healthz o now) = Some j /\
    json_get "status" j = Some (JString (str "ok")) /\
    json_get "instance" j = Some (JString (ToValid (op_instance o))) /\
    json_get "version" j = Some (JString (ToValid (op_version o))) /\
    json_get "uptime_seconds" j = Some (JInt (uptime o now)) /\
    json_get "http_active_transfers" j = (JInt ∘ hh_active) <$> op_httpH o /\
    json_get "tr471_active_sessions" j = (JInt ∘ sessions) <$> op_tr471 o /\
    json_get "tr471_allocated_mbps_upstream" j = (JInt ∘ usedUS) <$> op_tr471 o /\
    json_get "tr471_allocated_mbps_downstream" j = (JInt ∘ usedDS) <$> op_tr471 o.
Proof.
  intros Hi Hv Hh Ht. destruct (map_reads _ (healthz_map_ok o now Hi Hv Hh Ht)) as (j & Hj & Hg).
  exists j. split; [exact Hj|]. unfold healthz_map in Hg. destruct (op_httpH o), (op_tr471 o);
    split_and!; rewrite Hg; reflexivity.
Qed.

(** The endpoints only read: no request panics the handler, changes a counter
    or a gauge of a server, or removes from the registry what a snapshot at
    that time would keep. *)
Theorem ops_read_only isPrint o r clk now :
  exists o' resp, ops_ServeHTTP isPrint o r clk now = Ret (o', resp) /\
    (o' = o \/ exists h, op_httpH o = Some h /\ o' = set_httpH o (Some (set_live h (snapshot (hh_live h) clk).1))) /\
    metrics isPrint o' now = metrics isPrint o now /\ healthz o' now = healthz o now.
Proof.
  assert (Hsame : forall (g : go (opsState * opsResp)),
    (exists resp, g = Ret (o, resp)) ->
    exists o' resp, g = Ret (o', resp) /\ (o' = o \/ exists h, op_httpH o = Some h /\ o' = set_httpH o (Some (set_live h (snapshot (hh_live h) clk).1))) /\
      metrics isPrint o' now = metrics isPrint o now /\ healthz o' now = healthz o now).
  { intros g [resp ->]. exists o, resp. auto. }
  unfold ops_ServeHTTP.
  destruct (bool_decide (rq_Path r = str "/metrics")); [apply Hsame; destruct (rq_Method r); eauto|].
  destruct (bool_decide (rq_Path r = str "/healthz")); [apply Hsame; destruct (rq_Method r); eauto|].
  destruct (bool_decide (rq_Path r = str "/live")); [|apply Hsame; eauto].
  assert (Hlive : exists o' body, liveTransfers o r clk = Ret (o', body) /\
    (o' = o \/ exists h, op_httpH o = Some h /\ o' = set_httpH o (Some (set_live h (snapshot (hh_live h) clk).1))) /\
    metrics isPrint o' now = metrics isPrint o now /\ healthz o' now = healthz o now).
  { unfold liveTransfers. destruct (op_httpH o) as [h|] eqn:Eh.
    - rewrite live_select_spec. cbn [mbind go_bind]. eexists _, _. split; [reflexivity|]. split; [right; by eexists|].
      unfold metrics, metric_lines, healthz, healthz_map, uptime. cbn [set_httpH op_httpH op_echo op_tr471 op_started op_version op_instance].
      by rewrite Eh.
    - rewrite live_select_None. cbn [mbind go_bind]. rewrite set_httpH_None by done. eexists o, _. auto. }
  destruct (rq_Method r); try (apply Hsame; eauto; done);
    destruct Hlive as (o' & body & -> & Ho & H1 & H2); cbn [mbind go_bind]; eauto 10.
Qed.

(** An IPv6 peer keeps its brackets, so ?peer= must carry them to match. *)
Example host_of_ipv6 : host_of (str "[2001:db8::1]:443") = str "[2001:db8::1]".
Proof. reflexivity. Qed.

(** ** Witnesses *)
Definition get_ref : Request := mkRequest MethodGet (str "/1500") (written_part (str "ref") (str "run 7&b")) (str "192.0.2.1:5000").
Definition live_ref : Request := mkRequest MethodGet (str "/live") (written_part (str "ref") (str "run 7&b")) (str "127.0.0.1:40000").
Definition at_s (n : Z) : Time := mkTime (n * Second) (Some (n * Second)).
Definition tx_ref : Transfer := mkTransfer (at_s 1) (at_s 1) (at_s 3) (at_s 3) [(1500, false)] [] [] false.
Definition handler_ref : HTTPHandler := (ServeHTTP (NewHTTPHandler http_cfg_example) get_ref tx_ref).1.

Lemma live_attribution_witness :
  exists o' body ts, liveTransfers (mkOps [] [] zeroTime (Some handler_ref) None None) live_ref (fun _ => (at_s 18, at_s 18)) = Ret (o', body) /\
    read_live body = Some ts /\
    In (mkLiveTransfer (str "http_download") (str "run 7&b") (str "192.0.2.1:5000") 1500 2000 true) ts /\
    Forall (fun t => lt_Ref t = str "run 7&b") ts.
Proof.
  apply (live_attribution (NewHTTPHandler http_cfg_example) get_ref tx_ref handler_ref
    (ServeHTTP (NewHTTPHandler http_cfg_example) get_ref tx_ref).2
    (mkTestRecord true (str "http_download") (str "192.0.2.1:5000") (str "run 7&b") 1500 2000)
    (str "run 7&b") [] (mkOps [] [] zeroTime (Some handler_ref) None None) handler_ref live_ref (fun _ => (at_s 18, at_s 18))).
  - split; [split; [discriminate|reflexivity]|]. intros id e H. discriminate H.
  - reflexivity.
  - repeat constructor; discriminate.
  - discriminate.
  - reflexivity.
  - reflexivity.
  - reflexivity.
  - constructor.
  - reflexivity.
  - reflexivity.
  - intros id e H. vm_compute in H. destruct id as [|[]|]; try discriminate H. injection H as <-.
    repeat split; try discriminate; repeat constructor; discriminate.
  - reflexivity.
  - discriminate.
Defined.

Lemma healthz_reads_witness :
  exists j, Unmarshal (healthz ops_example zeroTime) = Some j /\ json_get "instance" j = Some (JString (str "cpe lab")).
Proof.
  destruct (healthz_reads ops_example zeroTime) as (j & Hj & _ & Hi & _); [repeat constructor; discriminate..|].
  exists j. split; [exact Hj|exact Hi].
Defined.
