(* ===== verification/Serve.v ===== *)
(** * Start-up and shutdown (cmd/diagd/main.go, serve.go)

    From the command line to the running servers: the flags and their
    defaults, the allow list, the test port range, the logger, the
    configuration of the servers, and cmdServe as the list of what it starts
    and stops.  Texts are Go strings, lists of bytes. *)

From stdpp Require Import gmap strings.
From S2P Require Import Prelude GoText GoFloat GoUtf8 GoJson GoQuote GoScan GoFlag Srates Protocol GoTime Sha256 Auth GoNet Server Live Http Echo Metrics Ops.

(** ** The flags of serve *)
Definition serve_flagset : FlagSet :=
  [(str "http", FString (str ":8080"));
   (str "echo", FString (str ":9000"));
   (str "tr471", FString (str ":24601"));
   (str "tr471-bandwidth", FInt 0);
   (str "tr471-jumbo", FBool true);
   (str "tr471-traditional-mtu", FBool false);
   (str "tr471-max-seconds", FInt 0);
   (str "tr471-test-ports", FString []);
   (str "tr471-key", FString []);
   (str "max-transfers", FInt 64);
   (str "max-download-bytes", FInt 0);
   (str "max-download-seconds", FInt 0);
   (str "allow", FString []);
   (str "ops", FString (str ":9143"));
   (str "instance", FString []);
   (str "log-level", FString (str "info"));
   (str "log-format", FString (str "text"))].

(** The values the pointers returned by fs.String, fs.Int and fs.Bool have
    after Parse. *)
Definition get_string (fs : FlagSet) (name : string) : list Z :=
  match formal fs (str name) with Some (FString s) => s | _ => [] end.
Definition get_int (fs : FlagSet) (name : string) : Z :=
  match formal fs (str name) with Some (FInt n) => n | _ => 0 end.
Definition get_bool (fs : FlagSet) (name : string) : bool :=
  match formal fs (str name) with Some (FBool b) => b | _ => false end.

Record tr471Flags := mkFlags {
  fl_bandwidth : Z;
  fl_jumbo : bool;
  fl_tradMTU : bool;
  fl_maxSeconds : Z;
  fl_key : list Z;
  fl_ports : list Z
}.

Record serveFlags := mkServeFlags {
  sf_http : list Z;
  sf_echo : list Z;
  sf_tr471 : list Z;
  sf_ops : list Z;
  sf_maxTransfers : Z;
  sf_maxBytes : Z;
  sf_maxSeconds : Z;
  sf_allow : list Z;
  sf_logLevel : list Z;
  sf_logFormat : list Z;
  sf_instance : list Z;
  sf_tr471Flags : tr471Flags
}.

Definition flags_of (fs : FlagSet) : serveFlags :=
  mkServeFlags (get_string fs "http") (get_string fs "echo") (get_string fs "tr471") (get_string fs "ops")
    (get_int fs "max-transfers") (get_int fs "max-download-bytes") (get_int fs "max-download-seconds")
    (get_string fs "allow") (get_string fs "log-level") (get_string fs "log-format") (get_string fs "instance")
    (mkFlags (get_int fs "tr471-bandwidth") (get_bool fs "tr471-jumbo") (get_bool fs "tr471-traditional-mtu")
       (get_int fs "tr471-max-seconds") (get_string fs "tr471-key") (get_string fs "tr471-test-ports")).

(** ** The allow list *)

(** strings.Split(s, ","). *)
Fixpoint split_comma (s cur : list Z) : list (list Z) :=
  match s with
  | [] => [rev cur]
  | c :: s => if c =? 44 then rev cur :: split_comma s [] else split_comma s (c :: cur)
  end.

Definition allow_func (prefixes : list Prefix) (a : Addr) : bool := existsb (fun p => Contains p a) prefixes.

Fixpoint parse_prefixes (cs : list (list Z)) : option (list Prefix) :=
  match cs with
  | [] => Some []
  | c :: cs =>
      match ParsePrefix (TrimSpace c) with
      | None => None
      | Some p => match parse_prefixes cs with Some ps => Some (Masked p :: ps) | None => None end
      end
  end.

(** [None]: an error; [Some None]: no restriction. *)
Definition parseAllowList (s : list Z) : option (option (Addr -> bool)) :=
  match s with
  | [] => Some None
  | _ => match parse_prefixes (split_comma s []) with Some ps => Some (Some (allow_func ps)) | None => None end
  end.

(** ** The configuration of the TR-471 server from the flags *)
Definition tr471_config (f : tr471Flags) (allow : option (Addr -> bool)) : option Config :=
  let keys := match fl_key f with [] => ∅ | key => {[ 0 := key ]} end in
  match fl_ports f with
  | [] => Some (mkConfig keys (fl_bandwidth f) (fl_jumbo f) (fl_tradMTU f) (fl_maxSeconds f) 0 0 0 allow)
  | text =>
      match scan_range text with
      | None => None
      | Some (lo, hi) =>
          if (lo <? 1) || (hi <? lo) || (65535 <? hi) then None
          else Some (mkConfig keys (fl_bandwidth f) (fl_jumbo f) (fl_tradMTU f) (fl_maxSeconds f) 0 lo hi allow)
      end
  end.

(** ** cmdServe

    [sv_resolve] and [sv_listen] are the outcomes of resolving and binding a
    UDP address, [sv_hostname] that of os.Hostname, [sv_sock] those of the
    calls on the echo socket, [sv_now] the clock, [sv_end] what ends the wait:
    a signal or the failure of a server. *)
Inductive serveEnd : Type := Signalled | ServerFailed.

Record serveEnv := mkServeEnv {
  sv_resolve : list Z -> bool;
  sv_listen : list Z -> bool;
  sv_hostname : option (list Z);
  sv_sock : rawSocket;
  sv_now : Time;
  sv_end : serveEnd
}.

Record services := mkServices {
  sr_http : option HTTPHandler;
  sr_echo : option EchoServer;
  sr_tr471 : option Server;
  sr_ops : option opsState
}.

(** newLogger: the level of the logger and whether it writes JSON; [None] is
    an error. *)
Definition newLogger (level format : list Z) : option (Z * bool) :=
  match Level_parse level with
  | None => None
  | Some l =>
      if bool_decide (format = str "text") then Some (l, false)
      else if bool_decide (format = str "json") then Some (l, true)
      else None
  end.

Section Serve.
Context {P : RxPlatform}.

Definition udp_ok (env : serveEnv) (addr : list Z) : bool := sv_resolve env addr && sv_listen env addr.

Definition serve_http (f : serveFlags) (allow : option (Addr -> bool)) : option HTTPHandler :=
  if bool_decide (sf_http f = []) then None
  else Some (NewHTTPHandler (mkHTTPConfig (sf_maxTransfers f) (sf_maxBytes f) (i64 (sf_maxSeconds f * Second)) allow)).

(** [None] is a return of 2. *)
Definition serve_echo (f : serveFlags) (env : serveEnv) (allow : option (Addr -> bool)) : option (option EchoServer) :=
  if bool_decide (sf_echo f = []) then Some None
  else if udp_ok env (sf_echo f) then Some (Some (NewEchoServer allow (sv_now env) (sv_sock env))) else None.

Definition serve_tr471 (f : serveFlags) (env : serveEnv) (allow : option (Addr -> bool)) : option (option Server) :=
  if bool_decide (sf_tr471 f = []) then Some None
  else if udp_ok env (sf_tr471 f) then
    match tr471_config (sf_tr471Flags f) allow with Some c => Some (Some (NewServer c)) | None => None end
  else None.

(** The instance name: the flag, the host name, or the program's. *)
Definition instance_of (f : serveFlags) (env : serveEnv) : list Z :=
  match sf_instance f with
  | [] => match sv_hostname env with Some hn => hn | None => str "diagd" end
  | name => name
  end.

Definition serve_ops (version : list Z) (f : serveFlags) (env : serveEnv) (h : option HTTPHandler) (e : option EchoServer)
    (s : option Server) : option opsState :=
  if bool_decide (sf_ops f = []) then None else Some (mkOps (instance_of f env) version (sv_now env) h e s).

(** What cmdServe does to the servers, in order: their goroutines start, each
    on its listen address, and they are stopped (Shutdown of the HTTP server,
    Close of the others). *)
Inductive serverId : Type := SrvHTTP | SrvEcho | SrvTR471 | SrvOps.
Inductive action : Type := Start (s : serverId) (addr : list Z) | Stop (s : serverId).

Definition if_some {A} (o : option A) (a : action) : list action := match o with Some _ => [a] | None => [] end.

(** From the logger to the operational server; [None] is a return of 2, with
    the servers started before it. *)
Definition serve_start (version : list Z) (f : serveFlags) (env : serveEnv) : list action * option services :=
  match newLogger (sf_logLevel f) (sf_logFormat f) with
  | None => ([], None)
  | Some _ =>
    match parseAllowList (sf_allow f) with
    | None => ([], None)
    | Some allow =>
        let h := serve_http f allow in
        let acts := if_some h (Start SrvHTTP (sf_http f)) in
        match serve_echo f env allow with
        | None => (acts, None)
        | Some e =>
            let acts := (acts ++ if_some e (Start SrvEcho (sf_echo f))) in
            match serve_tr471 f env allow with
            | None => (acts, None)
            | Some s =>
                let acts := (acts ++ if_some s (Start SrvTR471 (sf_tr471 f))) in
                match h, e, s with
                | None, None, None => (acts, None)
                | _, _, _ =>
                    let o := serve_ops version f env h e s in
                    ((acts ++ if_some o (Start SrvOps (sf_ops f))), Some (mkServices h e s o))
                end
            end
        end
    end
  end.

(** The end of cmdServe after a signal. *)
Definition serve_stop (sv : services) : list action :=
  (if_some (sr_http sv) (Stop SrvHTTP) ++ if_some (sr_echo sv) (Stop SrvEcho) ++
   if_some (sr_tr471 sv) (Stop SrvTR471) ++ if_some (sr_ops sv) (Stop SrvOps)).

(** cmdServe after Parse: the exit code and the actions. *)
Definition serve_main (version : list Z) (f : serveFlags) (env : serveEnv) : Z * list action :=
  match serve_start version f env with
  | (acts, None) => (2, acts)
  | (acts, Some sv) =>
      match sv_end env with
      | ServerFailed => (1, acts)
      | Signalled => (0, acts ++ serve_stop sv)
      end
  end.

(** With ExitOnError, Parse ends the process when help is asked or a flag is
    wrong.  The arguments it leaves are not looked at. *)
Definition cmdServe (version : list Z) (args : list (list Z)) (env : serveEnv) : Z * list action :=
  match Parse serve_flagset args with
  | Help => (0, [])
  | Bad_flag => (2, [])
  | Parsed fs _ => serve_main version (flags_of fs) env
  end.

(** usage. *)
Definition usage : list Z := str
"Usage: diagd <command> [flags]

Commands:
  serve    run the diagnostics test server
  version  print the version

Run " ++ [34] ++ str "diagd <command> -h" ++ [34] ++ str " for command flags.
".

(** What a command line does: it prints on the two outputs and exits with a
    code, or runs serve. *)
Inductive command : Type :=
| Printed (stdout stderr : list Z) (code : Z)
| Served (r : Z * list action).

Definition run (isPrint : Z -> bool) (version : list Z) (args : list (list Z)) (env : serveEnv) : command :=
  match args with
  | [] => Printed [] usage 2
  | c :: rest =>
      if bool_decide (c = str "serve") then Served (cmdServe version rest env)
      else if bool_decide (c = str "version") then Printed (str "diagd " ++ version ++ [10]) [] 0
      else if bool_decide (c = str "help") || bool_decide (c = str "-h") || bool_decide (c = str "--help") then Printed usage [] 0
      else Printed [] (str "diagd: unknown command " ++ Quote isPrint c ++ [10; 10] ++ usage) 2
  end.
End Serve.

(** ** Lemmas *)
Lemma Contains_Masked p a : prefix_ok p -> Contains (Masked p) a = Contains p a.
Proof.
  unfold prefix_ok. destruct p as [[n|n z] bits], a as [v|v z']; cbn; intros Hb; try done;
    rewrite (Z.shiftr_shiftl_l (Z.shiftr n _)), Z.sub_diag, Z.shiftl_0_r by lia; done.
Qed.

Section AllowLemmas.
Context {P : RxPlatform}.

Lemma parse_prefixes_spec cs ps a : parse_prefixes cs = Some ps ->
  allow_func ps a = true <-> exists c p, c ∈ cs /\ ParsePrefix (TrimSpace c) = Some p /\ Contains p a = true.
Proof.
  unfold allow_func. revert ps. induction cs as [|c cs IH]; intros ps; cbn.
  - intros [= <-]. cbn. split; [done|]. intros (? & ? & []%elem_of_nil & _).
  - destruct (ParsePrefix (TrimSpace c)) as [p|] eqn:E; [|done].
    destruct (parse_prefixes cs) as [ps'|]; [|done]. intros [= <-]. cbn.
    rewrite orb_true_iff, (IH ps' eq_refl), (Contains_Masked p a (proj1 (ParsePrefix_ok _ _ E))). split.
    + intros [H|(c' & p' & H1 & H2)]; [exists c, p; split; [left|]|exists c', p'; split; [right|]]; done.
    + intros (c' & p' & [->|H1]%elem_of_cons & H2 & H3); [left; congruence|right; by exists c', p'].
Qed.

(** The allow list admits an address exactly when one of the
    comma-separated CIDRs contains it: clearing the host bits of a CIDR and
    trimming it change nothing. *)
Theorem allow_list_correct s f a :
  parseAllowList s = Some (Some f) ->
  f a = true <-> exists c p, c ∈ split_comma s [] /\ ParsePrefix (TrimSpace c) = Some p /\ Contains p a = true.
Proof.
  unfold parseAllowList. destruct s as [|x s]; [done|].
  destruct (parse_prefixes (split_comma (x :: s) [])) as [ps|] eqn:E; [|done].
  intros [= <-]. by apply parse_prefixes_spec.
Qed.

Lemma serve_start_inv version f env acts sv : serve_start version f env = (acts, Some sv) ->
  exists allow, parseAllowList (sf_allow f) = Some allow /\
    sr_http sv = serve_http f allow /\ serve_echo f env allow = Some (sr_echo sv) /\
    serve_tr471 f env allow = Some (sr_tr471 sv) /\
    sr_ops sv = serve_ops version f env (sr_http sv) (sr_echo sv) (sr_tr471 sv) /\
    newLogger (sf_logLevel f) (sf_logFormat f) <> None /\
    acts = if_some (sr_http sv) (Start SrvHTTP (sf_http f)) ++ if_some (sr_echo sv) (Start SrvEcho (sf_echo f)) ++
           if_some (sr_tr471 sv) (Start SrvTR471 (sf_tr471 f)) ++ if_some (sr_ops sv) (Start SrvOps (sf_ops f)).
Proof.
  unfold serve_start. destruct (newLogger _ _); [|done].
  destruct (parseAllowList _) as [allow|] eqn:Ha; [|done]. destruct (serve_echo f env allow) as [e|] eqn:He; [|done].
  destruct (serve_tr471 f env allow) as [s|] eqn:Ht; [|done]. intros H. exists allow.
  assert (Hsv : sv = mkServices (serve_http f allow) e s (serve_ops version f env (serve_http f allow) e s) /\
    acts = ((if_some (serve_http f allow) (Start SrvHTTP (sf_http f)) ++ if_some e (Start SrvEcho (sf_echo f))) ++
            if_some s (Start SrvTR471 (sf_tr471 f))) ++
           if_some (serve_ops version f env (serve_http f allow) e s) (Start SrvOps (sf_ops f)))
    by (destruct (serve_http f allow), e, s; simplify_eq; done).
  destruct Hsv as [-> ->]. cbn. rewrite <- !app_assoc. done.
Qed.

(** The configuration of a TR-471 server that started is what the flags say:
    the key under identifier 0 and no other, the limits as given, and with a
    port range, its two numbers, inside 1-65535. *)
Lemma tr471_config_spec f allow c : tr471_config f allow = Some c ->
  Keys c = (if bool_decide (fl_key f = []) then ∅ else {[ 0 := fl_key f ]}) /\
  MaxBandwidthMbps c = fl_bandwidth f /\ Jumbo c = fl_jumbo f /\ TraditionalMTU c = fl_tradMTU f /\
  MaxTestSeconds c = fl_maxSeconds f /\ MaxSessions c = 0 /\ Allow c = allow /\
  (fl_ports f = [] -> TestPortMin c = 0 /\ TestPortMax c = 0) /\
  (fl_ports f <> [] -> scan_range (fl_ports f) = Some (TestPortMin c, TestPortMax c) /\
     1 <= TestPortMin c <= TestPortMax c /\ TestPortMax c <= 65535).
Proof.
  destruct f as [bw jumbo mtu secs key ports]. unfold tr471_config. cbn [fl_key fl_bandwidth fl_jumbo fl_tradMTU fl_maxSeconds fl_ports].
  intros Hc. destruct ports as [|p ports]; [|destruct (scan_range (p :: ports)) as [[lo hi]|]; [|done]; destruct (_ || _) eqn:E; [done|]];
    injection Hc as <-; cbn; split_and!; try done; try (by destruct key).
  intros _. b2p. split; [done|lia].
Qed.

Lemma serve_tr471_started version f env acts sv s :
  serve_start version f env = (acts, Some sv) -> sr_tr471 sv = Some s ->
  exists allow c, parseAllowList (sf_allow f) = Some allow /\ tr471_config (sf_tr471Flags f) allow = Some c /\ s = NewServer c.
Proof.
  intros Hs Ht. destruct (serve_start_inv _ _ _ _ _ Hs) as (allow & Ha & _ & _ & H471 & _). rewrite Ht in H471.
  exists allow. revert H471. unfold serve_tr471. repeat case_match; intros [= <-]; eauto.
Qed.

(** The servers the flags enable, with their listen addresses. *)
Definition on_addr (s : serverId) (addr : list Z) : list (serverId * list Z) :=
  if bool_decide (addr = []) then [] else [(s, addr)].
Definition test_servers (f : serveFlags) : list (serverId * list Z) :=
  on_addr SrvHTTP (sf_http f) ++ on_addr SrvEcho (sf_echo f) ++ on_addr SrvTR471 (sf_tr471 f).
Definition enabled (f : serveFlags) : list (serverId * list Z) := test_servers f ++ on_addr SrvOps (sf_ops f).

Definition starts (l : list (serverId * list Z)) : list action := map (fun e => Start e.1 e.2) l.
Definition stops (l : list (serverId * list Z)) : list action := map (fun e => Stop e.1) l.

Section EnabledLemmas.
Context (f : serveFlags) (env : serveEnv) (allow : option (Addr -> bool)) (g : serverId * list Z -> action).

Lemma http_enabled : if_some (serve_http f allow) (g (SrvHTTP, sf_http f)) = map g (on_addr SrvHTTP (sf_http f)).
Proof. unfold serve_http, on_addr. by destruct (bool_decide _). Qed.

Lemma echo_enabled e : serve_echo f env allow = Some e -> if_some e (g (SrvEcho, sf_echo f)) = map g (on_addr SrvEcho (sf_echo f)).
Proof. unfold serve_echo, on_addr. repeat case_match; intros [= <-]; done. Qed.

Lemma tr471_enabled s : serve_tr471 f env allow = Some s -> if_some s (g (SrvTR471, sf_tr471 f)) = map g (on_addr SrvTR471 (sf_tr471 f)).
Proof. unfold serve_tr471, on_addr. repeat case_match; intros [= <-]; done. Qed.

Lemma ops_enabled version h e s :
  if_some (serve_ops version f env h e s) (g (SrvOps, sf_ops f)) = map g (on_addr SrvOps (sf_ops f)).
Proof. unfold serve_ops, on_addr. by destruct (bool_decide _). Qed.
End EnabledLemmas.

Lemma started_enabled version f env acts sv : serve_start version f env = (acts, Some sv) ->
  acts = starts (enabled f) /\ serve_stop sv = stops (enabled f).
Proof.
  intros Hs. destruct (serve_start_inv _ _ _ _ _ Hs) as (allow & _ & Hh & He & Ht & Ho & _ & ->).
  unfold serve_stop, enabled, test_servers, starts, stops. rewrite !map_app, <- !app_assoc.
  rewrite Hh in *. rewrite Ho. split.
  - by rewrite <- (http_enabled f allow), <- (echo_enabled f env allow _ _ He), <- (tr471_enabled f env allow _ _ Ht),
      <- (ops_enabled f env _ version (serve_http f allow) (sr_echo sv) (sr_tr471 sv)).
  - by rewrite <- (http_enabled f allow), <- (echo_enabled f env allow _ _ He), <- (tr471_enabled f env allow _ _ Ht),
      <- (ops_enabled f env _ version (serve_http f allow) (sr_echo sv) (sr_tr471 sv)).
Qed.

(** A start-up that fails has started the first few of the test servers. *)
Lemma failed_prefix version f env acts : serve_start version f env = (acts, None) -> acts `prefix_of` starts (test_servers f).
Proof.
  unfold serve_start, test_servers, starts. rewrite !map_app. destruct (newLogger _ _); [|intros [= <-]; apply prefix_nil].
  destruct (parseAllowList _) as [allow|]; [|intros [= <-]; apply prefix_nil].
  rewrite <- (http_enabled f allow (fun e => Start e.1 e.2)). cbn [fst snd].
  destruct (serve_echo f env allow) as [e|] eqn:He; [|intros [= <-]; by apply prefix_app_r].
  rewrite <- (echo_enabled f env allow (fun e => Start e.1 e.2) e He). cbn [fst snd].
  destruct (serve_tr471 f env allow) as [t|]; [|intros [= <-]; rewrite app_assoc; by apply prefix_app_r].
  destruct (serve_http f allow), e, t; intros [= <-]; apply prefix_nil.
Qed.

(** What a start-up needs, from the flags and the outcomes of the calls: the
    level and the format of the log, the allow list, the UDP sockets of the
    servers that have one, the test port range, and something to serve. *)
Definition log_ok (f : serveFlags) : bool :=
  match Level_parse (sf_logLevel f) with Some _ => true | None => false end &&
  (bool_decide (sf_logFormat f = str "text") || bool_decide (sf_logFormat f = str "json")).

Definition allow_ok (text : list Z) : bool :=
  bool_decide (text = []) ||
  forallb (fun c => match ParsePrefix (TrimSpace c) with Some _ => true | None => false end) (split_comma text []).

Definition ports_ok (text : list Z) : bool :=
  bool_decide (text = []) ||
  match scan_range text with Some (lo, hi) => (1 <=? lo) && (lo <=? hi) && (hi <=? 65535) | None => false end.

Definition udp_ready (env : serveEnv) (addr : list Z) : bool :=
  bool_decide (addr = []) || (sv_resolve env addr && sv_listen env addr).

Definition startable (f : serveFlags) (env : serveEnv) : bool :=
  log_ok f && allow_ok (sf_allow f) && udp_ready env (sf_echo f) && udp_ready env (sf_tr471 f) &&
  (bool_decide (sf_tr471 f = []) || ports_ok (fl_ports (sf_tr471Flags f))) && negb (bool_decide (test_servers f = [])).

Definition some_b {A} (o : option A) : bool := match o with Some _ => true | None => false end.

Lemma newLogger_ok f : some_b (newLogger (sf_logLevel f) (sf_logFormat f)) = log_ok f.
Proof. unfold newLogger, log_ok. destruct (Level_parse _); [|done]. by do 2 destruct (bool_decide _). Qed.

Lemma parse_prefixes_ok cs : some_b (parse_prefixes cs) = forallb (fun c => match ParsePrefix (TrimSpace c) with Some _ => true | None => false end) cs.
Proof. induction cs as [|c cs IH]; [done|]. cbn. destruct (ParsePrefix _); [|done]. rewrite <- IH. by destruct (parse_prefixes cs). Qed.

Lemma parseAllowList_ok text : some_b (parseAllowList text) = allow_ok text.
Proof.
  unfold parseAllowList, allow_ok. destruct text as [|c t]; [done|]. rewrite bool_decide_false by done. cbn [orb].
  rewrite <- parse_prefixes_ok. by destruct (parse_prefixes _).
Qed.

Lemma tr471_config_ok f allow : some_b (tr471_config f allow) = ports_ok (fl_ports f).
Proof.
  unfold tr471_config, ports_ok. destruct (fl_ports f) as [|p ps]; [done|]. rewrite bool_decide_false by done. cbn [orb].
  destruct (scan_range _) as [[lo hi]|]; [|done]. destruct (_ || _) eqn:E; cbn [some_b]; symmetry;
    [apply not_true_is_false; intros H|]; b2p; lia.
Qed.

Lemma serve_echo_ok f env allow : some_b (serve_echo f env allow) = udp_ready env (sf_echo f).
Proof. unfold serve_echo, udp_ready, udp_ok. by destruct (bool_decide _), (sv_resolve _ _), (sv_listen _ _). Qed.

Lemma serve_tr471_ok f env allow :
  some_b (serve_tr471 f env allow) = udp_ready env (sf_tr471 f) && (bool_decide (sf_tr471 f = []) || ports_ok (fl_ports (sf_tr471Flags f))).
Proof.
  unfold serve_tr471, udp_ready, udp_ok. rewrite <- (tr471_config_ok _ allow).
  by destruct (bool_decide _), (sv_resolve _ _), (sv_listen _ _), (tr471_config _ _).
Qed.

Lemma serve_start_startable version f env : some_b (serve_start version f env).2 = startable f env.
Proof.
  unfold startable, serve_start. rewrite <- newLogger_ok, <- parseAllowList_ok. destruct (newLogger _ _); [|done].
  destruct (parseAllowList _) as [allow|]; [|done]. rewrite <- (serve_echo_ok f env allow).
  destruct (serve_echo f env allow) as [e|] eqn:He; [|done]. cbn [some_b andb]. rewrite <- (serve_tr471_ok f env allow).
  destruct (serve_tr471 f env allow) as [t|] eqn:Ht; [|done]. cbn [some_b andb].
  assert (Hts : starts (test_servers f) = if_some (serve_http f allow) (Start SrvHTTP (sf_http f)) ++
            if_some e (Start SrvEcho (sf_echo f)) ++ if_some t (Start SrvTR471 (sf_tr471 f))).
  { unfold starts, test_servers. rewrite !map_app.
    by rewrite <- (http_enabled f allow), <- (echo_enabled f env allow _ _ He), <- (tr471_enabled f env allow _ _ Ht). }
  assert (Hnil : bool_decide (test_servers f = []) = bool_decide (starts (test_servers f) = [])).
  { apply bool_decide_ext. unfold starts. by destruct (test_servers f). }
  rewrite Hnil, Hts. by destruct (serve_http f allow), e, t.
Qed.

(** *** The flags on the command line

    The text a flag has after settings: that of the last one, or else its
    documented default; and the number or the truth value it stands for. *)
Definition given (sts : list setting) (name dflt : string) : list Z :=
  match list.last (filter (fun st => sg_name st = str name) sts) with Some st => sg_text st | None => str dflt end.
Definition given_int (sts : list setting) (name dflt : string) : Z := default 0 (ParseInt0 (given sts name dflt)).
Definition given_bool (sts : list setting) (name dflt : string) : bool := default false (ParseBool (given sts name dflt)).

Section GivenLemmas.
Context (sts : list setting) (Hsts : forallb (setting_ok serve_flagset) sts = true).
Let fs := fold_left apply_setting sts serve_flagset.

Lemma get_string_given name dflt : formal serve_flagset (str name) = Some (FString (str dflt)) ->
  get_string fs name = given sts name dflt.
Proof.
  intros Hf. unfold get_string, fs, given. rewrite final_value_spec by done. unfold final_value. rewrite Hf.
  by destruct (list.last _).
Qed.

Lemma get_int_given name dflt n : formal serve_flagset (str name) = Some (FInt n) -> ParseInt0 (str dflt) = Some n ->
  get_int fs name = given_int sts name dflt.
Proof.
  intros Hf Hd. unfold get_int, fs, given_int, given. rewrite final_value_spec by done. unfold final_value. rewrite Hf.
  destruct (list.last _) as [st|]; [|by rewrite Hd]. cbn -[ParseInt0]. destruct (ParseInt0 (sg_text st)); reflexivity.
Qed.

Lemma get_bool_given name dflt b : formal serve_flagset (str name) = Some (FBool b) -> ParseBool (str dflt) = Some b ->
  get_bool fs name = given_bool sts name dflt.
Proof.
  intros Hf Hd. unfold get_bool, fs, given_bool, given. rewrite final_value_spec by done. unfold final_value. rewrite Hf.
  destruct (list.last _) as [st|]; [|by rewrite Hd]. cbn -[ParseBool]. destruct (ParseBool (sg_text st)); reflexivity.
Qed.

(** The flags as a record, every field from its own flag. *)
Lemma flags_given : flags_of fs =
  mkServeFlags (given sts "http" ":8080") (given sts "echo" ":9000") (given sts "tr471" ":24601") (given sts "ops" ":9143")
    (given_int sts "max-transfers" "64") (given_int sts "max-download-bytes" "0") (given_int sts "max-download-seconds" "0")
    (given sts "allow" "") (given sts "log-level" "info") (given sts "log-format" "text") (given sts "instance" "")
    (mkFlags (given_int sts "tr471-bandwidth" "0") (given_bool sts "tr471-jumbo" "true") (given_bool sts "tr471-traditional-mtu" "false")
       (given_int sts "tr471-max-seconds" "0") (given sts "tr471-key" "") (given sts "tr471-test-ports" "")).
Proof.
  unfold flags_of. repeat f_equal.
  all: first [by apply get_string_given|by eapply get_int_given|by eapply get_bool_given].
Qed.
End GivenLemmas.

(** *** CIDRs as texts

    An IPv4 CIDR with white space around it, and a list of them. *)
Record cidr := mkCidr {
  cd_left : list Z;
  cd_net : Z;
  cd_bits : Z;
  cd_right : list Z
}.

Definition cidr_text (c : cidr) : list Z := dotted (cd_net c) ++ 47 :: FormatUint10 (cd_bits c).
Definition cidr_padded (c : cidr) : list Z := cd_left c ++ cidr_text c ++ cd_right c.

Fixpoint allow_written (cs : list cidr) : list Z :=
  match cs with [] => [] | [c] => cidr_padded c | c :: cs => cidr_padded c ++ 44 :: allow_written cs end.

Definition pad_ok (s : list Z) : Prop := Forall (fun c => c = 32 \/ c = 9) s.
Definition cidr_ok (c : cidr) : Prop :=
  0 <= cd_net c < 2 ^ 32 /\ 0 <= cd_bits c <= 32 /\ pad_ok (cd_left c) /\ pad_ok (cd_right c).

(** The address shares the network bits. *)
Definition same_net (v : Z) (c : cidr) : bool := Z.shiftr (cd_net c) (32 - cd_bits c) =? Z.shiftr v (32 - cd_bits c).

Definition cidr_char (c : Z) : bool := is_digit c || (c =? 46) || (c =? 47).

Lemma digits_chars ds : all_digits ds -> Forall (fun c => cidr_char c = true) ds.
Proof. intros H. refine (Forall_impl _ _ H). intros c Hc. unfold cidr_char. by rewrite Hc. Qed.

Lemma dotted_chars a : Forall (fun c => cidr_char c = true) (dotted a).
Proof.
  unfold dotted. repeat apply Forall_app_2; try (by repeat constructor); apply digits_chars, octet_digits, octet_range.
Qed.

Lemma cidr_text_chars c : cidr_ok c -> Forall (fun x => cidr_char x = true) (cidr_text c).
Proof.
  intros (_ & Hb & _). apply Forall_app_2; [apply dotted_chars|]. constructor; [done|]. apply digits_chars.
  by destruct (FormatUint10_spec (cd_bits c)) as (H & _); [lia|].
Qed.

Lemma cidr_text_ends c : cidr_ok c -> trimmed (cidr_text c).
Proof.
  intros (_ & Hb & _). unfold trimmed, cidr_text. destruct (dotted_head (cd_net c)) as (d & s & -> & Hd). cbn [app head].
  destruct (FormatUint10_spec (cd_bits c)) as (H & Hne & _); [lia|].
  assert (Hsp : forall x, is_digit x = true -> unicode_space x = false).
  { intros x Hx. pose proof (SkipSpace_digit x [] [] Hx) as E. cbn in E. by destruct (x =? 10), (unicode_space x). }
  rewrite app_comm_cons, rev_app_distr. cbn [rev]. rewrite <- app_assoc.
  destruct (rev (FormatUint10 (cd_bits c))) as [|x l] eqn:Er.
  { apply (f_equal (@rev Z)) in Er. rewrite rev_involutive in Er. done. }
  cbn [app head]. split; apply Hsp; [done|]. apply (proj1 (Forall_forall _ _) H), in_rev. rewrite Er. by left.
Qed.

Lemma pad_space s : pad_ok s -> ascii s /\ Forall (fun c => unicode_space c = true) s /\ 44 ∉ s.
Proof.
  intros H. split_and!.
  - refine (Forall_impl _ _ H). intros c Hc. cbn. lia.
  - refine (Forall_impl _ _ H). intros c [-> | ->]; done.
  - intros Hin%list_elem_of_In. apply (proj1 (Forall_forall _ _) H) in Hin. lia.
Qed.

Lemma cidr_chars_ok s : Forall (fun x => cidr_char x = true) s -> ascii s /\ 44 ∉ s.
Proof.
  intros H. split.
  - refine (Forall_impl _ _ H). intros c Hc. unfold cidr_char, is_digit in Hc. b2p. lia.
  - intros Hin%list_elem_of_In. by apply (proj1 (Forall_forall _ _) H) in Hin.
Qed.

Lemma parse_cidr c : cidr_ok c -> ParsePrefix (TrimSpace (cidr_padded c)) = Some (mkPrefix (Addr4 (cd_net c)) (cd_bits c)).
Proof.
  intros Hc. pose proof Hc as (Hn & Hb & Hl & Hr). destruct (pad_space _ Hl) as (L1 & L2 & _). destruct (pad_space _ Hr) as (R1 & R2 & _).
  destruct (cidr_chars_ok _ (cidr_text_chars c Hc)) as [A _]. unfold cidr_padded.
  rewrite (TrimSpace_pad _ _ _ L1 A R1 L2 R2 (cidr_text_ends c Hc)). unfold cidr_text. exact (ParsePrefix_dotted _ _ Hn Hb).
Qed.

Lemma split_comma_item s rest : forall cur, 44 ∉ s -> split_comma (s ++ 44 :: rest) cur = (rev cur ++ s) :: split_comma rest [].
Proof.
  induction s as [|c s IH]; intros cur Hs; cbn [app split_comma]; [by rewrite Z.eqb_refl, app_nil_r|].
  apply not_elem_of_cons in Hs as [Hc Hs]. rewrite (proj2 (Z.eqb_neq c 44)) by congruence. rewrite IH by done.
  cbn [rev]. by rewrite <- app_assoc.
Qed.

Lemma split_comma_last s : forall cur, 44 ∉ s -> split_comma s cur = [rev cur ++ s].
Proof.
  induction s as [|c s IH]; intros cur Hs; cbn [split_comma]; [by rewrite app_nil_r|].
  apply not_elem_of_cons in Hs as [Hc Hs]. rewrite (proj2 (Z.eqb_neq c 44)) by congruence. rewrite IH by done.
  cbn [rev]. by rewrite <- app_assoc.
Qed.

Lemma cidr_no_comma c : cidr_ok c -> 44 ∉ cidr_padded c.
Proof.
  intros Hc. pose proof Hc as (_ & _ & Hl & Hr). unfold cidr_padded. rewrite !elem_of_app.
  intros [H|[H|H]]; [by apply (pad_space _ Hl)|by apply (cidr_chars_ok _ (cidr_text_chars c Hc))|by apply (pad_space _ Hr)].
Qed.

Lemma split_written cs : cs <> [] -> Forall cidr_ok cs -> split_comma (allow_written cs) [] = map cidr_padded cs.
Proof.
  intros Hne H. induction H as [|c cs Hc Hcs IH]; [done|]. destruct cs as [|c' cs].
  - cbn [allow_written map]. by rewrite split_comma_last by by apply cidr_no_comma.
  - change (allow_written (c :: c' :: cs)) with (cidr_padded c ++ 44 :: allow_written (c' :: cs)).
    rewrite split_comma_item by by apply cidr_no_comma. cbn [rev app map]. f_equal. by apply IH.
Qed.

Lemma parse_written cs : Forall cidr_ok cs ->
  parse_prefixes (map cidr_padded cs) = Some (map (fun c => Masked (mkPrefix (Addr4 (cd_net c)) (cd_bits c))) cs).
Proof.
  induction 1 as [|c cs Hc _ IH]; [done|]. cbn [map parse_prefixes]. by rewrite parse_cidr, IH.
Qed.

Lemma allow_written_nonempty cs : cs <> [] -> allow_written cs <> [].
Proof.
  assert (H : forall c, cidr_padded c <> []).
  { intros c. unfold cidr_padded, cidr_text. destruct (cd_left c); [|done]. destruct (dotted_head (cd_net c)) as (? & ? & -> & _). done. }
  destruct cs as [|c [|c' cs]]; [done|intros _; apply H|intros _ E]. change (cidr_padded c ++ 44 :: allow_written (c' :: cs) = []) in E.
  by apply app_nil in E as [_ ?].
Qed.

Lemma allow_written_func cs v : cs <> [] -> Forall cidr_ok cs ->
  exists f, parseAllowList (allow_written cs) = Some (Some f) /\ f (Addr4 v) = existsb (same_net v) cs /\ forall w z, f (Addr6 w z) = false.
Proof.
  intros Hne Hcs. unfold parseAllowList. pose proof (split_written cs Hne Hcs) as Hsp. pose proof (allow_written_nonempty cs Hne) as Hw.
  destruct (allow_written cs) as [|c t]; [done|]. rewrite Hsp, parse_written by done. eexists. split; [reflexivity|].
  unfold allow_func. split.
  - clear -Hcs. induction Hcs as [|c cs Hc _ IH]; [done|]. cbn [map existsb]. rewrite IH. f_equal.
    rewrite Contains_Masked; [done|]. destruct Hc as (_ & H & _). unfold prefix_ok. cbn. lia.
  - intros w z. clear. induction cs as [|c cs IH]; [done|]. cbn [map existsb]. by rewrite IH.
Qed.

(** ** Theorems *)

(** C36: the life cycle of the process, from the command line: a wrong flag
    exits with 2 and a request for help with 0, and nothing has started.
    Otherwise, when the start-up can succeed (the log flags, the allow list and
    the port range are right, the UDP sockets bind, and at least one test
    server is enabled), every enabled server is started on its address; on a
    signal exactly those are stopped, in the order they were started, and the
    process exits with 0, and when a server fails it exits with 1.  When it
    cannot, the process exits with 2, having started at most the first few of
    the test servers and stopped nothing. *)
Theorem serve_lifecycle version args env :
  match Parse serve_flagset args with
  | Bad_flag => cmdServe version args env = (2, [])
  | Help => cmdServe version args env = (0, [])
  | Parsed fs _ =>
      let f := flags_of fs in
      if startable f env then
        cmdServe version args env =
          match sv_end env with
          | Signalled => (0, starts (enabled f) ++ stops (enabled f))
          | ServerFailed => (1, starts (enabled f))
          end
      else exists acts, cmdServe version args env = (2, acts) /\ acts `prefix_of` starts (test_servers f)
  end.
Proof.
  unfold cmdServe. destruct (Parse serve_flagset args) as [fs rest| |]; [|done..]. cbv zeta.
  rewrite <- (serve_start_startable version). unfold serve_main.
  destruct (serve_start version (flags_of fs) env) as [acts [sv|]] eqn:Hs; cbn [some_b snd].
  - destruct (started_enabled _ _ _ _ _ Hs) as [-> ->]. by destruct (sv_end env).
  - exists acts. split; [done|]. by apply failed_prefix in Hs.
Qed.

(** C39: the allow list holds on every test server: with a list configured, a
    peer whose address no listed CIDR contains gets no answer to a TR-471 setup
    and leaves no trace in the server, gets 403 for any HTTP request, and no
    echo reply; at any later time too, since the list does not change.  The
    operational server runs no test and does not consult the list. *)
Theorem allow_enforced `{M : MAC} version f env acts sv a :
  serve_start version f env = (acts, Some sv) -> sf_allow f <> [] ->
  (forall c p, c ∈ split_comma (sf_allow f) [] -> ParsePrefix (TrimSpace c) = Some p -> Contains p a = false) ->
  (forall s s' b peer e, sr_tr471 sv = Some s -> cfg s' = cfg s -> Unmap (ap_Addr peer) = a ->
     serve_datagram s' b peer e = Ret (s', [], None)) /\
  (forall h h' r tx, sr_http sv = Some h -> hh_cfg h' = hh_cfg h ->
     match ParseAddrPort (rq_RemoteAddr r) with Some ap => Unmap (ap_Addr ap) = a | None => True end -> ServeHTTP h' r tx = (h', RError 403)) /\
  (forall e e' i, sr_echo sv = Some e -> ec_Allow e' = ec_Allow e -> Unmap (ap_Addr (ei_peer i)) = a ->
     exists e2, echo_datagram e' i = Ret (e2, []) /\ ec_received e2 = ec_received e' /\ ec_responses e2 = ec_responses e').
Proof.
  intros Hs Hne Hout. destruct (serve_start_inv _ _ _ _ _ Hs) as (allow & Hal & Hh & He & Ht & _).
  assert (Hfun : exists g, allow = Some g /\ g a = false).
  { destruct allow as [g|]; [exists g; split; [done|]|].
    - destruct (g a) eqn:E; [|done]. apply (allow_list_correct _ g a Hal) in E as (c & p & Hc & Hp & Hin). by rewrite (Hout c p Hc Hp) in Hin.
    - unfold parseAllowList in Hal. destruct (sf_allow f); [done|]. by destruct (parse_prefixes _). }
  destruct Hfun as (g & -> & Hg). split_and!.
  - intros s s' b peer e Hss Hc Hp. assert (Ha : Allow (cfg s') = Some g).
    { rewrite Hc. rewrite Hss in Ht. revert Ht. unfold serve_tr471, tr471_config.
      repeat case_match; intros [= <-]; simplify_eq; done. }
    unfold serve_datagram. by rewrite Ha, Hp, Hg.
  - intros h h' r tx Hsh Hc Hp. assert (Ha : hc_Allow (hh_cfg h') = Some g).
    { rewrite Hc. rewrite Hh in Hsh. revert Hsh. unfold serve_http. destruct (bool_decide _); [done|]. by intros [= <-]. }
    unfold ServeHTTP, peerAllowed. rewrite Ha. destruct (ParseAddrPort (rq_RemoteAddr r)) as [ap|]; [rewrite Hp, Hg|]; done.
  - intros e e' i Hse Hc Hp. assert (Ha : ec_Allow e' = Some g).
    { rewrite Hc. rewrite Hse in He. revert He. unfold serve_echo. repeat case_match; intros [= <-]; done. }
    unfold echo_datagram. destruct (ei_oob i) as [parsed|].
    + destruct (parseRxControl parsed) as [[t drops] ok]. destruct ok; cbn [ec_Allow count_drops]; rewrite Ha, Hp, Hg; by eexists.
    + rewrite Ha, Hp, Hg. by eexists.
Qed.

(** C40: the allow list from its text to the decision: a comma-separated list
    of IPv4 CIDRs, with spaces or tabs around each, is read as a list that
    admits an IPv4 address exactly when it shares the network bits of one of
    them and no IPv6 address; and the HTTP server then serves a client exactly
    when the address in its remote address is admitted. *)
Theorem allow_text cs v port :
  cs <> [] -> Forall cidr_ok cs -> 0 <= v < 2 ^ 32 -> is_u16 port ->
  exists f, parseAllowList (allow_written cs) = Some (Some f) /\
    f (Addr4 v) = existsb (same_net v) cs /\ (forall w z, f (Addr6 w z) = false) /\
    forall h r, hc_Allow (hh_cfg h) = Some f -> rq_RemoteAddr r = dotted v ++ 58 :: FormatUint10 port ->
      peerAllowed h r = existsb (same_net v) cs.
Proof.
  intros Hne Hcs Hv Hp. destruct (allow_written_func cs v Hne Hcs) as (f & H1 & H2 & H3). exists f. split_and!; [done..|].
  intros h r Hf Hr. unfold peerAllowed. rewrite Hf, Hr, (ParseAddrPort_dotted v port Hv Hp). exact H2.
Qed.

(** C37: the command line sets the servers up as it says.  Settings of the
    flags of serve may each be written with one or two dashes, with the value
    after an equals sign or as the next argument, or alone for a boolean; what
    follows the first argument that is not a flag is ignored.  Every server
    listens on the address of the last setting of its flag, or of the default,
    and an empty address disables it; and each server that runs has the
    configuration the other flags give in the same way: the HTTP server its
    limits, the TR-471 server its bandwidth, datagram sizes, duration, key and
    port range, all three test servers the allow list, and the operational
    server its instance name, by default the host's. *)
Theorem serve_args version sts rest env :
  forallb (setting_ok serve_flagset) sts = true ->
  match rest with [] => True | x :: _ => classify x = NotFlag end ->
  exists f, cmdServe version (concat (map setting_args sts) ++ rest) env = serve_main version f env /\
    enabled f = on_addr SrvHTTP (given sts "http" ":8080") ++ on_addr SrvEcho (given sts "echo" ":9000") ++
                on_addr SrvTR471 (given sts "tr471" ":24601") ++ on_addr SrvOps (given sts "ops" ":9143") /\
    forall acts sv, serve_start version f env = (acts, Some sv) ->
      newLogger (given sts "log-level" "info") (given sts "log-format" "text") <> None /\
      exists allow, parseAllowList (given sts "allow" "") = Some allow /\
      (forall h, sr_http sv = Some h ->
         hh_cfg h = mkHTTPConfig (given_int sts "max-transfers" "64") (given_int sts "max-download-bytes" "0")
                      (i64 (given_int sts "max-download-seconds" "0" * Second)) allow) /\
      (forall e, sr_echo sv = Some e -> ec_Allow e = allow) /\
      (forall s, sr_tr471 sv = Some s ->
         Keys (cfg s) = (if bool_decide (given sts "tr471-key" "" = []) then ∅ else {[ 0 := given sts "tr471-key" "" ]}) /\
         MaxBandwidthMbps (cfg s) = given_int sts "tr471-bandwidth" "0" /\
         Jumbo (cfg s) = given_bool sts "tr471-jumbo" "true" /\
         TraditionalMTU (cfg s) = given_bool sts "tr471-traditional-mtu" "false" /\
         MaxTestSeconds (cfg s) = given_int sts "tr471-max-seconds" "0" /\ Allow (cfg s) = allow /\
         (given sts "tr471-test-ports" "" = [] -> TestPortMin (cfg s) = 0 /\ TestPortMax (cfg s) = 0) /\
         (given sts "tr471-test-ports" "" <> [] ->
            scan_range (given sts "tr471-test-ports" "") = Some (TestPortMin (cfg s), TestPortMax (cfg s)) /\
            1 <= TestPortMin (cfg s) <= TestPortMax (cfg s) /\ TestPortMax (cfg s) <= 65535)) /\
      (forall o, sr_ops sv = Some o ->
         op_instance o = (if bool_decide (given sts "instance" "" = []) then default (str "diagd") (sv_hostname env)
                          else given sts "instance" "")).
Proof.
  intros Hs Hr. exists (flags_of (fold_left apply_setting sts serve_flagset)).
  assert (Hend : forall fs, Parse fs rest = Parsed fs rest) by (intros fs; destruct rest as [|x rest]; [done|]; cbn [Parse]; by rewrite Hr).
  split; [unfold cmdServe; by rewrite Parse_settings, Hend|]. rewrite (flags_given sts Hs).
  split; [unfold enabled, test_servers; by rewrite <- !app_assoc|]. intros acts sv Hst.
  destruct (serve_start_inv _ _ _ _ _ Hst) as (allow & Ha & Hh & He & Ht & Ho & Hlog & _). split; [exact Hlog|].
  exists allow. split_and!; [exact Ha|..].
  - intros h Hsh. rewrite Hh in Hsh. revert Hsh. unfold serve_http. destruct (bool_decide _); [done|]. by intros [= <-].
  - intros e Hse. rewrite Hse in He. revert He. unfold serve_echo. repeat case_match; intros [= <-]; done.
  - intros s Hss. destruct (serve_tr471_started _ _ _ _ _ _ Hst Hss) as (allow' & c & Ha' & Hc & ->).
    rewrite Ha in Ha'. injection Ha' as <-. destruct (tr471_config_spec _ _ _ Hc) as (H1 & H2 & H3 & H4 & H5 & H6 & H7).
    unfold NewServer. rewrite H6. done.
  - intros o Hso. rewrite Ho in Hso. revert Hso. unfold serve_ops. destruct (bool_decide (sf_ops _ = [])); [done|]. intros [= <-].
    unfold instance_of. cbn [op_instance sf_instance]. destruct (given sts "instance" ""); [by destruct (sv_hostname env)|done].
Qed.

(** C38: a key on the command line is enforced on the wire: when the last
    setting of -tr471-key is a non-empty text, any session the TR-471 server
    ever admits was requested with the MAC of the request under that text, or
    under the key derived from it, within five seconds of the server's
    clock. *)
Theorem key_flag_enforced `{M : MAC} version sts key env acts sv s s' b peer e s2 outs sess :
  forallb (setting_ok serve_flagset) sts = true ->
  final_value serve_flagset sts (str "tr471-key") = Some (FString key) -> key <> [] ->
  serve_start version (flags_of (fold_left apply_setting sts serve_flagset)) env = (acts, Some sv) ->
  sr_tr471 sv = Some s -> cfg s' = cfg s -> bytes_ok b ->
  serve_datagram s' b peer e = Ret (s2, outs, Some sess) ->
  exists req, parseSetup b = Ret (Ok req) /\ AuthMode (Su_Auth req) = authModeControl /\ KeyID (Su_Auth req) = 0 /\
    AuthDigest (Su_Auth req) =
      mac_sum (if ProtocolVer <=? Su_ProtocolVer req then key_client (deriveSessionKeys key (AuthUnixTime (Su_Auth req))) else key)
        (mask b setupAuthDigestOff) /\
    Z.abs (time_Sub (env_since e) (time_Unix (AuthUnixTime (Su_Auth req)) 0)) <= authTimeWindow * Second.
Proof.
  intros Hs Hkey Hne Hst Hss Hcfg Hb Hd.
  set (fs := fold_left apply_setting sts serve_flagset) in *.
  assert (Hk : fl_key (sf_tr471Flags (flags_of fs)) = key).
  { cbn. unfold get_string, fs. by rewrite final_value_spec, Hkey. }
  destruct (serve_tr471_started _ _ _ _ _ _ Hst Hss) as (allow & c & _ & Hc & Hsc).
  destruct (tr471_config_spec _ _ _ Hc) as (Hkeys & _ & _ & _ & _ & Hmax & _). rewrite Hk, bool_decide_false in Hkeys by done.
  assert (Hcs : Keys (cfg s) = Keys c) by (rewrite Hsc; unfold NewServer; by rewrite Hmax).
  rewrite <- Hcs, <- Hcfg in Hkeys.
  assert (Hne' : Keys (cfg s') <> ∅) by (rewrite Hkeys; apply insert_non_empty).
  destruct (accepted_authenticated _ _ _ _ _ _ _ Hb Hne' Hd) as (req & secret & Hp & Hm & Hl & Hdig & Ht).
  rewrite Hkeys in Hl. apply lookup_singleton_Some in Hl as [Hid <-]. exists req. auto.
Qed.
End AllowLemmas.

(** ** Examples and witnesses *)

(** The platform of the examples. *)
#[local] Existing Instance linux.

Definition serve_env_example : serveEnv :=
  mkServeEnv (fun _ => true) (fun _ => true) None sock_example zeroTime Signalled.

(** A boolean flag takes no separate value: "-tr471-jumbo false" leaves jumbo
    frames on, and the key after it is not read, so the server runs without
    authentication. *)
Example key_dropped :
  match Parse serve_flagset [str "-tr471-jumbo"; str "false"; str "-tr471-key"; str "secret"] with
  | Parsed fs _ => fl_jumbo (sf_tr471Flags (flags_of fs)) = true /\ fl_key (sf_tr471Flags (flags_of fs)) = []
  | _ => False
  end.
Proof. vm_compute. done. Qed.

Definition args_example : list (list Z) :=
  [str "-tr471="; str "--allow"; str " 10.0.0.0/8"; str "-log-level=Debug"].

(** A failed start-up leaves servers running: the HTTP server has started when
    the echo address does not bind, and the process exits with 2. *)
Example lifecycle_example :
  cmdServe (str "dev") args_example serve_env_example
  = (0, [Start SrvHTTP (str ":8080"); Start SrvEcho (str ":9000"); Start SrvOps (str ":9143"); Stop SrvHTTP; Stop SrvEcho; Stop SrvOps]) /\
  cmdServe (str "dev") args_example (mkServeEnv (fun _ => true) (fun _ => false) None sock_example zeroTime Signalled)
  = (2, [Start SrvHTTP (str ":8080")]).
Proof. split; vm_compute; reflexivity. Qed.

Definition settings_example : list setting :=
  [mkSetting (str "tr471-key") (str "first") false Equals; mkSetting (str "tr471-jumbo") (str "true") true Alone;
   mkSetting (str "tr471-key") (str "second") true Next; mkSetting (str "tr471-bandwidth") (str "0x3e8") false Equals].

Lemma serve_args_witness :
  exists f, cmdServe (str "dev") (concat (map setting_args settings_example) ++ [str "extra"; str "-http="]) serve_env_example
            = serve_main (str "dev") f serve_env_example /\
    enabled f = [(SrvHTTP, str ":8080"); (SrvEcho, str ":9000"); (SrvTR471, str ":24601"); (SrvOps, str ":9143")].
Proof.
  destruct (serve_args (str "dev") settings_example [str "extra"; str "-http="] serve_env_example) as (f & H1 & H2 & _);
    [reflexivity|reflexivity|]. exists f. split; [exact H1|]. rewrite H2. reflexivity.
Defined.

Definition cidrs_example : list cidr := [mkCidr [] 0x0a000000 8 []; mkCidr [32] 0xc0000201 24 [9]].

Lemma allow_text_witness :
  allow_written cidrs_example = str "10.0.0.0/8, 192.0.2.1/24" ++ [9] /\
  exists f, parseAllowList (allow_written cidrs_example) = Some (Some f) /\ f (Addr4 0xc00002fe) = true.
Proof.
  split; [reflexivity|]. destruct (allow_text cidrs_example 0xc00002fe 5000) as (f & H1 & H2 & _).
  - discriminate.
  - repeat constructor; discriminate.
  - split; [discriminate|reflexivity].
  - split; [discriminate|reflexivity].
  - exists f. split; [exact H1|exact H2].
Defined.

(** The settings of the example of the allow list, as flags. *)
Definition flags_example : serveFlags :=
  match Parse serve_flagset args_example with Parsed fs _ => flags_of fs | _ => flags_of serve_flagset end.

Lemma allow_enforced_witness :
  exists h, serve_http flags_example (Some (allow_func [mkPrefix (Addr4 0x0a000000) 8])) = Some h /\
    forall r tx, rq_RemoteAddr r = str "[::ffff:192.0.2.7]:80" -> ServeHTTP h r tx = (h, RError 403).
Proof.
  destruct (serve_start (str "dev") flags_example serve_env_example) as [acts [sv|]] eqn:E; [|vm_compute in E; discriminate E].
  assert (Hh : sr_http sv = serve_http flags_example (Some (allow_func [mkPrefix (Addr4 0x0a000000) 8])))
    by (vm_compute in E; injection E as _ <-; reflexivity).
  eexists. split; [reflexivity|]. intros r tx Hr.
  eapply (allow_enforced (str "dev") flags_example serve_env_example acts sv (Addr4 0xc0000207) E).
  - discriminate.
  - intros c p Hc Hp. vm_compute in Hc. apply list_elem_of_singleton in Hc as ->. vm_compute in Hp. injection Hp as <-. reflexivity.
  - exact Hh.
  - reflexivity.
  - rewrite Hr. reflexivity.
Defined.


Definition settings_secret : list setting :=
  [mkSetting (str "tr471-key") (str "secret") false Equals; mkSetting (str "tr471-bandwidth") (str "100") false Next;
   mkSetting (str "tr471-test-ports") (str "50000-50001") false Equals].

Definition tr471_of (r : list action * option services) : option Server :=
  match r.2 with Some sv => sr_tr471 sv | None => None end.

Definition server_secret : option Server :=
  tr471_of (serve_start (str "dev") (flags_of (fold_left apply_setting settings_secret serve_flagset)) serve_env_example).

Lemma run_accepted_inv r : run_accepted r = true -> exists s2 outs sess, r = Ret (s2, outs, Some sess).
Proof. destruct r as [[[s2 outs] [sess|]]|]; try done. by exists s2, outs, sess. Qed.

Lemma server_of_start (r : list action * option services) s :
  tr471_of r = Some s -> exists acts sv, r = (acts, Some sv) /\ sr_tr471 sv = Some s.
Proof. destruct r as [acts [sv|]]; [|done]. by exists acts, sv. Qed.

Definition run_on (o : option Server) : bool :=
  match o with Some s => run_accepted (serve_datagram s req_signed_bytes peer_example env_example) | None => false end.

Lemma run_secret : run_on server_secret = true.
Proof. vm_compute. reflexivity. Qed.

Lemma secret_run : exists acts sv s s2 outs sess,
  serve_start (str "dev") (flags_of (fold_left apply_setting settings_secret serve_flagset)) serve_env_example = (acts, Some sv) /\
  sr_tr471 sv = Some s /\ serve_datagram s req_signed_bytes peer_example env_example = Ret (s2, outs, Some sess).
Proof.
  pose proof run_secret as Hrun. destruct server_secret as [s|] eqn:Es; [|discriminate Hrun].
  unfold server_secret in Es. destruct (server_of_start _ _ Es) as (acts & sv & E & Esv). destruct (run_accepted_inv _ Hrun) as (s2 & outs & sess & Ed).
  exists acts, sv, s, s2, outs, sess. exact (conj E (conj Esv Ed)).
Qed.

Lemma key_flag_enforced_witness :
  exists req, parseSetup req_signed_bytes = Ret (Ok req) /\ KeyID (Su_Auth req) = 0.
Proof.
  destruct secret_run as (acts & sv & s & s2 & outs & sess & E & Es & Ed).
  destruct (key_flag_enforced (str "dev") settings_secret (str "secret") serve_env_example acts sv s s
    req_signed_bytes peer_example env_example s2 outs sess) as (req & H1 & _ & H2 & _).
  - reflexivity.
  - reflexivity.
  - discriminate.
  - exact E.
  - exact Es.
  - reflexivity.
  - exact req_signed_bytes_ok.
  - exact Ed.
  - exists req. split; [exact H1|exact H2].
Defined.
